(** * OSS-Guardian: analysis pipeline, embedded and verified

    A shallow embedding of the analysis engines of OSS-Guardian
    (engines/static, engines/dynamic, engines/analysis) together with the
    properties the specification states about them.

    Python integers are unbounded and are modelled by [Z]; Python strings by
    [string]; lists by [list]; [set()] by [gset]; dictionaries whose
    iteration order is observable by association lists in insertion order,
    the others by [gmap]. *)

From Stdlib Require Import ZArith String Ascii List Lia Bool.
From stdpp Require Import gmap strings list sorting pretty.

Local Open Scope string_scope.
Local Open Scope Z_scope.

(* ===================================================================== *)
(** * Python strings *)
(* ===================================================================== *)

(** The handful of [str] operations the engines use.  Characters are the
    256 values of [ascii]; the ASCII rows of Python's tables are used for
    white space, digits and word characters. *)
Module PyStr.

Definition backslash : ascii := "\"%char.
Definition dquote : ascii := "034"%char.
Definition newline : ascii := "010"%char.

(** [needle in hay]. *)
Fixpoint contains (needle hay : string) : bool :=
  String.prefix needle hay ||
  match hay with
  | EmptyString => false
  | String _ hay' => contains needle hay'
  end.

(** [s.startswith(p)]. *)
Definition startswith (s p : string) : bool := String.prefix p s.

Definition digit_val (c : ascii) : option Z :=
  let n := nat_of_ascii c in
  if ((48 <=? n) && (n <=? 57))%nat then Some (Z.of_nat (n - 48)) else None.

Fixpoint parse_digits (acc : Z) (s : string) : option Z :=
  match s with
  | EmptyString => Some acc
  | String c s' =>
      match digit_val c with
      | Some d => parse_digits (10 * acc + d) s'
      | None => None
      end
  end.

(** [int(s)] on the texts the engines pass to it (regex groups): a
    non-empty run of digits is its value, anything else raises
    [ValueError], rendered as [None]. *)
Definition py_int (s : string) : option Z :=
  match s with
  | EmptyString => None
  | _ => parse_digits 0 s
  end.

(** [s[a:b]] for [0 <= a], [0 <= b]. *)
Definition slice (s : string) (a b : nat) : string :=
  substring a (b - a) s.

Definition is_space (c : ascii) : bool :=
  let n := nat_of_ascii c in
  ((n =? 32) || ((9 <=? n) && (n <=? 13)) || ((28 <=? n) && (n <=? 31)))%nat.

Fixpoint lstrip (s : string) : string :=
  match s with
  | String c s' => if is_space c then lstrip s' else s
  | EmptyString => EmptyString
  end.

Fixpoint rstrip (s : string) : string :=
  match s with
  | EmptyString => EmptyString
  | String c s' =>
      match rstrip s' with
      | EmptyString => if is_space c then EmptyString else String c EmptyString
      | t => String c t
      end
  end.

(** [s.strip()]. *)
Definition strip (s : string) : string := rstrip (lstrip s).

(** [s.split(sep)] for a one-character separator. *)
Fixpoint split_char (sep : ascii) (s : string) : list string :=
  match s with
  | EmptyString => [EmptyString]
  | String c s' =>
      match split_char sep s' with
      | cur :: rest =>
          if Ascii.eqb c sep then EmptyString :: cur :: rest
          else String c cur :: rest
      | [] => [EmptyString]
      end
  end.

(** [s.find(sub, start)], with [None] for -1, and the slices [s[:n]], [s[n:]]. *)
Definition find_from (sub s : string) (start : nat) : option nat :=
  String.index start sub s.

Definition take_str (n : nat) (s : string) : string := substring 0 n s.

Definition drop_str (n : nat) (s : string) : string :=
  substring n (String.length s - n) s.

(** [s.split(sep, 1)[0]]: the text before the first [sep]. *)
Definition before_first (sep s : string) : string :=
  match find_from sep s 0 with
  | Some n => take_str n s
  | None => s
  end.

(** [s.split()]: the maximal runs of characters that are not white space. *)
Fixpoint split_ws_aux (cur : string) (s : string) : list string :=
  let flush (rest : list string) :=
    match cur with EmptyString => rest | _ => cur :: rest end in
  match s with
  | EmptyString => flush []
  | String c s' =>
      if is_space c then flush (split_ws_aux EmptyString s')
      else split_ws_aux (cur ++ String c EmptyString) s'
  end.

Definition split_ws (s : string) : list string := split_ws_aux EmptyString s.

(** [s.split(sep)] for a non-empty separator [sep]. *)
Fixpoint split_aux (sep : string) (skip : nat) (cur : string) (s : string) : list string :=
  match s with
  | EmptyString => [cur]
  | String c s' =>
      match skip with
      | S k => split_aux sep k cur s'
      | O =>
          if String.prefix sep s
          then cur :: split_aux sep (String.length sep - 1) EmptyString s'
          else split_aux sep 0 (cur ++ String c EmptyString) s'
      end
  end.

Definition split_str (sep s : string) : list string := split_aux sep 0 EmptyString s.

(** [s.split(sep, 1)]. *)
Definition split_once (sep s : string) : list string :=
  match find_from sep s 0 with
  | Some n => [take_str n s; drop_str (n + String.length sep) s]
  | None => [s]
  end.

(** [s.strip(chars)]. *)
Definition in_chars (chars : string) (c : ascii) : bool :=
  existsb (Ascii.eqb c) (list_ascii_of_string chars).

Fixpoint lstrip_chars (chars : string) (s : string) : string :=
  match s with
  | String c s' => if in_chars chars c then lstrip_chars chars s' else s
  | EmptyString => EmptyString
  end.

Fixpoint rstrip_chars (chars : string) (s : string) : string :=
  match s with
  | EmptyString => EmptyString
  | String c s' =>
      match rstrip_chars chars s' with
      | EmptyString => if in_chars chars c then EmptyString else String c EmptyString
      | t => String c t
      end
  end.

Definition strip_chars (chars s : string) : string :=
  rstrip_chars chars (lstrip_chars chars s).

(** Truthiness of a string and of a list. *)
Definition nonempty_str (s : string) : bool :=
  match s with EmptyString => false | _ => true end.

Definition nonempty {A} (l : list A) : bool :=
  match l with [] => false | _ => true end.

(** [sorted(set(l))] on integers. *)
Definition sorted_set (l : list Z) : list Z :=
  merge_sort Z.le (elements (list_to_set l : gset Z)).

Lemma contains_app needle pre post :
  contains needle (pre ++ needle ++ post) = true.
Proof.
  assert (H : String.prefix needle (needle ++ post) = true).
  { induction needle as [|c n IH]; simpl; [now destruct post|].
    destruct (ascii_dec c c); [exact IH | congruence]. }
  induction pre as [|c pre IH].
  - change (EmptyString ++ needle ++ post)%string with (needle ++ post)%string.
    destruct (needle ++ post)%string; unfold contains; fold contains;
      rewrite H; reflexivity.
  - change (String c pre ++ needle ++ post)%string
      with (String c (pre ++ needle ++ post)).
    unfold contains; fold contains. rewrite IH. apply orb_true_r.
Qed.

Lemma sorted_set_spec (l : list Z) :
  StronglySorted Z.lt (sorted_set l) /\
  forall x, In x (sorted_set l) <-> In x l.
Proof.
  unfold sorted_set.
  set (e := elements (list_to_set l : gset Z)).
  assert (Hnd : NoDup e) by apply NoDup_elements.
  assert (Hperm : merge_sort Z.le e ≡ₚ e) by apply merge_sort_Permutation.
  assert (Hs : StronglySorted Z.le (merge_sort Z.le e)).
  { apply StronglySorted_merge_sort; [intros x y z; lia | intros x y; lia]. }
  assert (Hnd' : NoDup (merge_sort Z.le e)) by (rewrite Hperm; exact Hnd).
  split.
  - revert Hs Hnd'. generalize (merge_sort Z.le e) as s.
    induction s as [|a s IH]; intros Hs Hnd'; [constructor|].
    apply StronglySorted_inv in Hs as [Hs Ha].
    apply NoDup_cons in Hnd' as [Hna Hnd'].
    constructor; [now apply IH|].
    rewrite Forall_forall in *. intros x Hx.
    specialize (Ha x Hx).
    assert (x <> a) by (intros ->; apply Hna; now apply list_elem_of_In).
    lia.
  - intros x. rewrite <- !list_elem_of_In, Hperm. unfold e.
    rewrite elem_of_elements, elem_of_list_to_set. reflexivity.
Qed.

End PyStr.

(* ===================================================================== *)
(** * Python's [re]: a backtracking matcher *)
(* ===================================================================== *)

(** Patterns are given already parsed.  The matcher is the usual
    backtracking one: alternatives are tried left to right, quantifiers are
    greedy unless marked lazy, and a search returns the leftmost match.
    The patterns of the engines never match the empty string; after an
    empty match [scan] simply moves one character on. *)
Module Re.

Definition cls_item : Type := ascii * ascii.

Definition in_range (c : ascii) (it : cls_item) : bool :=
  (nat_of_ascii (fst it) <=? nat_of_ascii c)%nat &&
  (nat_of_ascii c <=? nat_of_ascii (snd it))%nat.

Definition in_class (neg : bool) (items : list cls_item) (c : ascii) : bool :=
  xorb neg (existsb (in_range c) items).

Inductive regex : Type :=
| REmpty
| RChar (c : ascii)
| RAny
| RClass (neg : bool) (items : list cls_item)
| RSeq (r1 r2 : regex)
| RAlt (r1 r2 : regex)
| RStar (greedy : bool) (r : regex)
| RPlus (greedy : bool) (r : regex)
| RGroup (n : nat) (r : regex)
| RBol
| RNotBehind (neg : bool) (items : list cls_item)
| RNotAhead (r : regex).

(** The matcher's position: the character before it, the text after it,
    its index, and the groups closed so far (latest first). *)
Record mstate := MState {
  ms_prev : option ascii;
  ms_rest : list ascii;
  ms_pos : nat;
  ms_caps : list (nat * (nat * nat))
}.

Definition advance (st : mstate) (c : ascii) (rest : list ascii) : mstate :=
  MState (Some c) rest (S (ms_pos st)) (ms_caps st).

Definition set_cap (n : nat) (span : nat * nat) (st : mstate) : mstate :=
  MState (ms_prev st) (ms_rest st) (ms_pos st) ((n, span) :: ms_caps st).

Definition one_char (p : ascii -> bool) (st : mstate)
    (k : mstate -> option mstate) : option mstate :=
  match ms_rest st with
  | c :: rest => if p c then k (advance st c rest) else None
  | [] => None
  end.

Definition orelse {A} (x y : option A) : option A :=
  match x with Some _ => x | None => y end.

(** [rmatch r st k]: match [r] at [st], then continue with [k]; [None] makes
    the caller backtrack.  A repetition stops when an iteration consumes
    nothing, so the fuel (the length of the remaining text) is never the
    reason a loop ends early. *)
Fixpoint rmatch (r : regex) (st : mstate) (k : mstate -> option mstate)
    {struct r} : option mstate :=
  match r with
  | REmpty => k st
  | RChar c => one_char (Ascii.eqb c) st k
  | RAny => one_char (fun c => negb (Ascii.eqb c PyStr.newline)) st k
  | RClass neg items => one_char (in_class neg items) st k
  | RSeq r1 r2 => rmatch r1 st (fun st' => rmatch r2 st' k)
  | RAlt r1 r2 => orelse (rmatch r1 st k) (rmatch r2 st k)
  | RStar greedy r1 =>
      (fix loop (fuel : nat) (st0 : mstate) {struct fuel} : option mstate :=
         match fuel with
         | O => k st0
         | S fuel' =>
             let again := rmatch r1 st0 (fun st' =>
                 if (ms_pos st' =? ms_pos st0)%nat then None else loop fuel' st') in
             if greedy then orelse again (k st0) else orelse (k st0) again
         end) (length (ms_rest st)) st
  | RPlus greedy r1 =>
      rmatch r1 st (fun st1 =>
      (fix loop (fuel : nat) (st0 : mstate) {struct fuel} : option mstate :=
         match fuel with
         | O => k st0
         | S fuel' =>
             let again := rmatch r1 st0 (fun st' =>
                 if (ms_pos st' =? ms_pos st0)%nat then None else loop fuel' st') in
             if greedy then orelse again (k st0) else orelse (k st0) again
         end) (length (ms_rest st1)) st1)
  | RGroup n r1 =>
      rmatch r1 st (fun st' => k (set_cap n (ms_pos st, ms_pos st') st'))
  | RBol => if (ms_pos st =? 0)%nat then k st else None
  | RNotBehind neg items =>
      match ms_prev st with
      | Some c => if in_class neg items c then None else k st
      | None => k st
      end
  | RNotAhead r1 =>
      match rmatch r1 st Some with
      | Some _ => None
      | None => k st
      end
  end.

(** A match object: the span of group 0 and the spans of the numbered groups. *)
Record match_obj := MatchObj {
  m_start : nat;
  m_end : nat;
  m_groups : list (nat * (nat * nat))
}.

(** The loop of [finditer]: the leftmost match from the current position,
    then resume after it. *)
Fixpoint scan (fuel : nat) (r : regex) (prev : option ascii) (s : list ascii)
    (pos : nat) : list match_obj :=
  match fuel with
  | O => []
  | S fuel' =>
      let next :=
        match s with
        | c :: s' => scan fuel' r (Some c) s' (S pos)
        | [] => []
        end in
      match rmatch r (MState prev s pos []) Some with
      | Some st' =>
          let m := MatchObj pos (ms_pos st') (ms_caps st') in
          if (ms_pos st' =? pos)%nat then m :: next
          else m :: scan fuel' r (ms_prev st') (ms_rest st') (ms_pos st')
      | None => next
      end
  end.

(** [re.finditer(r, subject)]. *)
Definition finditer (r : regex) (subject : string) : list match_obj :=
  let s := list_ascii_of_string subject in
  scan (S (length s)) r None s 0%nat.

(** [re.search(r, subject)]: the first match, if any. *)
Definition search (r : regex) (subject : string) : option match_obj :=
  head (finditer r subject).

(** [match.group(0)]. *)
Definition group0 (subject : string) (m : match_obj) : string :=
  PyStr.slice subject (m_start m) (m_end m).

Fixpoint assoc_nat {A} (n : nat) (l : list (nat * A)) : option A :=
  match l with
  | [] => None
  | (n', x) :: l' => if (n =? n')%nat then Some x else assoc_nat n l'
  end.

(** [match.group(n)]. *)
Definition group (subject : string) (m : match_obj) (n : nat) : string :=
  match assoc_nat n (m_groups m) with
  | Some (a, b) => PyStr.slice subject a b
  | None => EmptyString
  end.

(** [re.sub(r, '', subject)]: the text outside the matches. *)
Definition sub_empty (r : regex) (subject : string) : string :=
  let ms := finditer r subject in
  let keep (i : nat) : bool :=
    forallb (fun m => negb ((m_start m <=? i)%nat && (i <? m_end m)%nat)) ms in
  string_of_list_ascii
    (map snd
       (List.filter (fun ic => keep (fst ic))
          (combine (seq 0 (String.length subject)) (list_ascii_of_string subject)))).

(** Pattern builders. *)
Fixpoint lit (s : string) : regex :=
  match s with
  | EmptyString => REmpty
  | String c EmptyString => RChar c
  | String c s' => RSeq (RChar c) (lit s')
  end.

Fixpoint cat (rs : list regex) : regex :=
  match rs with
  | [] => REmpty
  | [r] => r
  | r :: rs' => RSeq r (cat rs')
  end.

Fixpoint alt (rs : list regex) : regex :=
  match rs with
  | [] => RClass false []
  | [r] => r
  | r :: rs' => RAlt r (alt rs')
  end.

Definition rng (a b : ascii) : cls_item := (a, b).
Definition chr (a : ascii) : cls_item := (a, a).

Definition cls_digit : list cls_item := [rng "0" "9"].
Definition cls_word : list cls_item :=
  [rng "a" "z"; rng "A" "Z"; rng "0" "9"; chr "_"].
Definition cls_space : list cls_item :=
  [chr " "; rng "009" "013"; rng "028" "031"].

(** [\s+], [\s*] and [\d+]. *)
Definition spaces1 : regex := RPlus true (RClass false cls_space).
Definition spaces0 : regex := RStar true (RClass false cls_space).
Definition digits1 : regex := RPlus true (RClass false cls_digit).

(** [for match in re.finditer(r, text): try: out.append(int(match.group(n)))
    except ValueError: continue]. *)
Definition group_ints (r : regex) (n : nat) (text : string) : list Z :=
  fold_left
    (fun acc m =>
       match PyStr.py_int (group text m n) with
       | Some v => (acc ++ [v])%list
       | None => acc
       end)
    (finditer r text) [].

(** ** What a match can be: the relation the matcher is sound for *)

(** [matches r st st']: [r] can take the matcher from [st] to [st'].  The
    look-around conditions are left out: the relation bounds what the
    matcher returns. *)
Inductive matches : regex -> mstate -> mstate -> Prop :=
| M_empty st : matches REmpty st st
| M_char c st rest :
    ms_rest st = c :: rest -> matches (RChar c) st (advance st c rest)
| M_any c st rest :
    ms_rest st = c :: rest -> Ascii.eqb c PyStr.newline = false ->
    matches RAny st (advance st c rest)
| M_class neg items c st rest :
    ms_rest st = c :: rest -> in_class neg items c = true ->
    matches (RClass neg items) st (advance st c rest)
| M_seq r1 r2 st st1 st2 :
    matches r1 st st1 -> matches r2 st1 st2 -> matches (RSeq r1 r2) st st2
| M_alt_l r1 r2 st st1 : matches r1 st st1 -> matches (RAlt r1 r2) st st1
| M_alt_r r1 r2 st st1 : matches r2 st st1 -> matches (RAlt r1 r2) st st1
| M_star_stop g r st : matches (RStar g r) st st
| M_star_more g r st st1 st2 :
    matches r st st1 -> matches (RStar g r) st1 st2 -> matches (RStar g r) st st2
| M_plus g r st st1 st2 :
    matches r st st1 -> matches (RStar g r) st1 st2 -> matches (RPlus g r) st st2
| M_group n r st st1 :
    matches r st st1 ->
    matches (RGroup n r) st (set_cap n (ms_pos st, ms_pos st1) st1)
| M_bol st : matches RBol st st
| M_not_behind neg items st : matches (RNotBehind neg items) st st
| M_not_ahead r st : matches (RNotAhead r) st st.

Lemma one_char_sound p st k out :
  one_char p st k = Some out ->
  exists c rest,
    ms_rest st = c :: rest /\ p c = true /\ k (advance st c rest) = Some out.
Proof.
  unfold one_char. destruct (ms_rest st) as [|c rest]; [discriminate|].
  destruct (p c) eqn:Hp; [|discriminate]. intros H. now exists c, rest.
Qed.

Lemma orelse_some {A} (x y : option A) out :
  orelse x y = Some out -> x = Some out \/ y = Some out.
Proof. destruct x; cbn; auto. Qed.

Section Loop.
Variables (greedy : bool) (r1 : regex) (k : mstate -> option mstate).
Hypothesis IH : forall st k out,
  rmatch r1 st k = Some out -> exists st', matches r1 st st' /\ k st' = Some out.

Definition star_loop : nat -> mstate -> option mstate :=
  fix loop (fuel : nat) (st0 : mstate) {struct fuel} : option mstate :=
    match fuel with
    | O => k st0
    | S fuel' =>
        let again := rmatch r1 st0 (fun st' =>
            if (ms_pos st' =? ms_pos st0)%nat then None else loop fuel' st') in
        if greedy then orelse again (k st0) else orelse (k st0) again
    end.

Lemma star_loop_sound fuel st0 out :
  star_loop fuel st0 = Some out ->
  exists st', matches (RStar greedy r1) st0 st' /\ k st' = Some out.
Proof.
  revert st0. induction fuel as [|fuel IHf]; intros st0; cbn.
  - intros H. exists st0. split; [constructor | exact H].
  - intros H.
    assert (Hcases : rmatch r1 st0 (fun st' =>
                if (ms_pos st' =? ms_pos st0)%nat then None else star_loop fuel st') = Some out
             \/ k st0 = Some out).
    { destruct greedy; apply orelse_some in H; tauto. }
    destruct Hcases as [Hagain | Hstop].
    + apply IH in Hagain as (st1 & Hm & Hk).
      destruct (ms_pos st1 =? ms_pos st0)%nat; [discriminate|].
      apply IHf in Hk as (st2 & Hm2 & Hk2).
      exists st2. split; [econstructor; eassumption | exact Hk2].
    + exists st0. split; [constructor | exact Hstop].
Qed.
End Loop.

(** The matcher only returns what [matches] allows. *)
Lemma rmatch_sound r : forall st k out,
  rmatch r st k = Some out -> exists st', matches r st st' /\ k st' = Some out.
Proof.
  induction r as [ | c | | neg items | r1 IH1 r2 IH2 | r1 IH1 r2 IH2
                 | g r1 IH1 | g r1 IH1 | n r1 IH1 | | neg items | r1 IH1];
    intros st k out H; cbn [rmatch] in H.
  - exists st. split; [constructor | exact H].
  - apply one_char_sound in H as (c' & rest & Hr & Hp & Hk).
    apply Ascii.eqb_eq in Hp as <-.
    exists (advance st c rest). split; [constructor; exact Hr | exact Hk].
  - apply one_char_sound in H as (c' & rest & Hr & Hp & Hk).
    exists (advance st c' rest). split; [|exact Hk].
    constructor; [exact Hr|]. now destruct (Ascii.eqb c' PyStr.newline).
  - apply one_char_sound in H as (c' & rest & Hr & Hp & Hk).
    exists (advance st c' rest). split; [constructor; assumption | exact Hk].
  - apply IH1 in H as (st1 & Hm1 & H). apply IH2 in H as (st2 & Hm2 & H).
    exists st2. split; [econstructor; eassumption | exact H].
  - apply orelse_some in H as [H | H].
    + apply IH1 in H as (st1 & Hm & H). exists st1. split; [now apply M_alt_l | exact H].
    + apply IH2 in H as (st1 & Hm & H). exists st1. split; [now apply M_alt_r | exact H].
  - change (star_loop g r1 k (length (ms_rest st)) st = Some out) in H.
    now apply (star_loop_sound g r1 k IH1) in H.
  - apply IH1 in H as (st1 & Hm1 & H).
    change (star_loop g r1 k (length (ms_rest st1)) st1 = Some out) in H.
    apply (star_loop_sound g r1 k IH1) in H as (st2 & Hm2 & H).
    exists st2. split; [econstructor; eassumption | exact H].
  - apply IH1 in H as (st1 & Hm & H).
    exists (set_cap n (ms_pos st, ms_pos st1) st1). split; [now constructor | exact H].
  - destruct (ms_pos st =? 0)%nat; [|discriminate].
    exists st. split; [constructor | exact H].
  - exists st. split; [constructor|].
    destruct (ms_prev st) as [c|]; [|exact H].
    destruct (in_class neg items c); [discriminate | exact H].
  - exists st. split; [constructor|].
    destruct (rmatch r1 st Some); [discriminate | exact H].
Qed.

(** ** Groups that cannot hold a number *)

(** [starts_with c r]: every text [r] matches begins with [c]. *)
Fixpoint starts_with (c : ascii) (r : regex) : bool :=
  match r with
  | RChar c' => Ascii.eqb c' c
  | RSeq r1 _ => starts_with c r1
  | RAlt r1 r2 => starts_with c r1 && starts_with c r2
  | RPlus _ r1 => starts_with c r1
  | RGroup _ r1 => starts_with c r1
  | _ => false
  end.

(** [group_starts_with g c r]: the body of every group numbered [g] in [r]
    starts with [c]. *)
Fixpoint group_starts_with (g : nat) (c : ascii) (r : regex) : bool :=
  match r with
  | RSeq r1 r2 | RAlt r1 r2 => group_starts_with g c r1 && group_starts_with g c r2
  | RStar _ r1 | RPlus _ r1 => group_starts_with g c r1
  | RGroup n r1 => (negb (n =? g)%nat || starts_with c r1) && group_starts_with g c r1
  | _ => true
  end.

(** The matcher's position belongs to the subject [s]. *)
Definition wf (s : list ascii) (st : mstate) : Prop :=
  ms_rest st = skipn (ms_pos st) s.

(** Every span recorded for group [g] starts at a character [c]. *)
Definition caps_start (s : list ascii) (g : nat) (c : ascii)
    (caps : list (nat * (nat * nat))) : Prop :=
  forall a b, In (g, (a, b)) caps -> nth_error s a = Some c.

Lemma skipn_cons_inv {A} (s : list A) pos c rest :
  skipn pos s = c :: rest -> nth_error s pos = Some c /\ skipn (S pos) s = rest.
Proof.
  revert s. induction pos as [|pos IH]; intros [|x s] H; try discriminate.
  - cbn in H. injection H as -> ->. split; reflexivity.
  - cbn in H. apply IH in H as [H1 H2]. split; [exact H1|].
    destruct s; exact H2.
Qed.

Lemma matches_wf s r st st' : matches r st st' -> wf s st -> wf s st'.
Proof.
  unfold wf.
  induction 1; intros Hwf; auto;
    try (cbn; rewrite Hwf in *;
         match goal with H : skipn _ _ = _ :: _ |- _ =>
           apply skipn_cons_inv in H as [_ H]; now rewrite H end).
Qed.

Lemma starts_with_first c r st st' :
  matches r st st' -> starts_with c r = true -> exists rest, ms_rest st = c :: rest.
Proof.
  induction 1; cbn; intros Hs; try discriminate; auto.
  - apply Ascii.eqb_eq in Hs as ->. eauto.
  - apply andb_prop in Hs as [Hs _]. auto.
  - apply andb_prop in Hs as [_ Hs]. auto.
Qed.

Lemma matches_caps s g c r st st' :
  matches r st st' -> wf s st -> group_starts_with g c r = true ->
  caps_start s g c (ms_caps st) -> caps_start s g c (ms_caps st').
Proof.
  induction 1; intros Hwf Hg Hc; auto.
  - cbn in Hg. apply andb_prop in Hg as [Hg1 Hg2].
    apply IHmatches2; [eapply matches_wf; eassumption | exact Hg2 | auto].
  - cbn in Hg. apply andb_prop in Hg as [Hg1 Hg2]. auto.
  - cbn in Hg. apply andb_prop in Hg as [Hg1 Hg2]. auto.
  - apply IHmatches2; [eapply matches_wf; eassumption | exact Hg | auto].
  - apply IHmatches2; [eapply matches_wf; eassumption | exact Hg | auto].
  - cbn in Hg. apply andb_prop in Hg as [Hg1 Hg2].
    intros a b [Heq | Hin]; [|now apply (IHmatches Hwf Hg2 Hc a b)].
    injection Heq as -> <- <-. rewrite Nat.eqb_refl in Hg1. cbn in Hg1.
    destruct (starts_with_first c r st st1 H Hg1) as [rest Hrest].
    unfold wf in Hwf. rewrite Hwf in Hrest.
    now apply skipn_cons_inv in Hrest as [Hn _].
Qed.

Lemma scan_caps s g c r :
  group_starts_with g c r = true ->
  forall fuel prev rest pos, rest = skipn pos s ->
  Forall (fun m => caps_start s g c (m_groups m)) (scan fuel r prev rest pos).
Proof.
  intros Hg. induction fuel as [|fuel IH]; intros prev rest pos Hrest; cbn [scan].
  - constructor.
  - assert (Hnext : Forall (fun m => caps_start s g c (m_groups m))
              match rest with
              | c0 :: s' => scan fuel r (Some c0) s' (S pos)
              | [] => []
              end).
    { destruct rest as [|c0 s']; [constructor|].
      apply IH. symmetry in Hrest. now apply skipn_cons_inv in Hrest as [_ ->]. }
    destruct (rmatch r (MState prev rest pos []) Some) as [st'|] eqn:Hm; [|exact Hnext].
    apply rmatch_sound in Hm as (st1 & Hm & [= ->]).
    assert (Hwf : wf s (MState prev rest pos [])) by exact Hrest.
    assert (Hcaps : caps_start s g c (ms_caps st')).
    { eapply matches_caps; [exact Hm | exact Hwf | exact Hg |]. intros a b []. }
    destruct (ms_pos st' =? pos)%nat; constructor; try exact Hcaps; [exact Hnext|].
    apply IH. exact (matches_wf s r _ _ Hm Hwf).
Qed.

Lemma assoc_nat_In {A} n (l : list (nat * A)) x :
  assoc_nat n l = Some x -> In (n, x) l.
Proof.
  induction l as [|[n' y] l IH]; cbn; [discriminate|].
  destruct (Nat.eqb_spec n n') as [-> | _].
  - intros [= ->]. now left.
  - intros H. right. auto.
Qed.

Lemma substring_first subject a n c :
  nth_error (list_ascii_of_string subject) a = Some c ->
  exists t, substring a (S n) subject = String c t.
Proof.
  revert a. induction subject as [|x subject IH]; intros [|a]; cbn; try discriminate.
  - intros [= ->]. eauto.
  - intros H. exact (IH a H).
Qed.

Lemma substring_none subject a : substring a 0 subject = EmptyString.
Proof.
  revert a. induction subject as [|x subject IH]; intros [|a]; cbn; auto.
Qed.

Lemma py_int_slice_none subject a b c :
  nth_error (list_ascii_of_string subject) a = Some c ->
  PyStr.digit_val c = None ->
  PyStr.py_int (PyStr.slice subject a b) = None.
Proof.
  intros Hn Hd. unfold PyStr.slice.
  destruct (b - a)%nat as [|n] eqn:E.
  - now rewrite substring_none.
  - destruct (substring_first subject a n c Hn) as [t ->]. cbn. now rewrite Hd.
Qed.

(** A group whose body must start with a character that is not a digit
    never gives a number: [group_ints] returns nothing, on every text. *)
Lemma group_ints_nil r g c text :
  group_starts_with g c r = true -> PyStr.digit_val c = None ->
  group_ints r g text = [].
Proof.
  intros Hg Hd. unfold group_ints, finditer.
  pose proof (scan_caps (list_ascii_of_string text) g c r Hg
                (S (length (list_ascii_of_string text))) None
                (list_ascii_of_string text) 0%nat eq_refl) as Hall.
  induction Hall as [|m ms Hm _ IH]; [reflexivity|].
  cbn [fold_left].
  assert (Hnone : PyStr.py_int (group text m g) = None).
  { unfold group.
    destruct (assoc_nat g (m_groups m)) as [[a b]|] eqn:E; [|reflexivity].
    apply assoc_nat_In in E. exact (py_int_slice_none text a b c (Hm a b E) Hd). }
  rewrite Hnone. exact IH.
Qed.

End Re.

(* ===================================================================== *)
(** * engines/analysis/risk_assessor.py *)
(* ===================================================================== *)

Module RiskAssessor.

(** The dictionary [{'risk_score': ..., 'risk_level': ...}]. *)
Record score_data := ScoreData {
  risk_score : Z;
  risk_level : string
}.

Definition SCORE_CRITICAL : Z := 30.
Definition SCORE_HIGH : Z := 15.
Definition SCORE_MEDIUM : Z := 5.
Definition SCORE_LOW : Z := 1.
Definition MAX_SCORE : Z := 100.

(** [_calculate_risk_score], lines 11-43. *)
Definition _calculate_risk_score
    (critical_count high_count medium_count low_count : Z) : score_data :=
  let risk_score :=
    critical_count * SCORE_CRITICAL +
    high_count * SCORE_HIGH +
    medium_count * SCORE_MEDIUM +
    low_count * SCORE_LOW in
  let risk_score := Z.min risk_score MAX_SCORE in
  let risk_level :=
    if 80 <=? risk_score then "critical"
    else if 50 <=? risk_score then "high"
    else if 20 <=? risk_score then "medium"
    else "low" in
  ScoreData risk_score risk_level.

(** The severity breakdown [{'critical':..,'high':..,'medium':..,'low':..}]. *)
Record breakdown := Breakdown {
  bd_critical : Z;
  bd_high : Z;
  bd_medium : Z;
  bd_low : Z
}.

Record risk_assessment := RiskAssessment {
  ra_risk_score : Z;
  ra_risk_level : string;
  ra_threat_count : Z;
  ra_breakdown : breakdown
}.

(** [assess_risk_from_counts], lines 46-72. *)
Definition assess_risk_from_counts (b : breakdown) : risk_assessment :=
  let critical_count := bd_critical b in
  let high_count := bd_high b in
  let medium_count := bd_medium b in
  let low_count := bd_low b in
  let sd := _calculate_risk_score critical_count high_count medium_count low_count in
  RiskAssessment (risk_score sd) (risk_level sd)
    (critical_count + high_count + medium_count + low_count)
    (Breakdown critical_count high_count medium_count low_count).

Lemma score_unfold c h m l :
  risk_score (_calculate_risk_score c h m l) =
  Z.min 100 (30 * c + 15 * h + 5 * m + 1 * l).
Proof.
  unfold _calculate_risk_score, SCORE_CRITICAL, SCORE_HIGH, SCORE_MEDIUM,
    SCORE_LOW, MAX_SCORE; cbn [risk_score]. lia.
Qed.

Lemma level_unfold c h m l :
  risk_level (_calculate_risk_score c h m l) =
  let s := risk_score (_calculate_risk_score c h m l) in
  if 80 <=? s then "critical"
  else if 50 <=? s then "high"
  else if 20 <=? s then "medium" else "low".
Proof. reflexivity. Qed.

Lemma score_monotone c h m l c' h' m' l' :
  c <= c' -> h <= h' -> m <= m' -> l <= l' ->
  risk_score (_calculate_risk_score c h m l) <=
  risk_score (_calculate_risk_score c' h' m' l').
Proof. intros. rewrite !score_unfold. lia. Qed.

(** C1. For non-negative severity counts the assessor returns
    [risk_score = min(100, 30*critical + 15*high + 5*medium + 1*low)]; the
    level is fixed by the exact thresholds 80 / 50 / 20; hence the score
    lies in [0,100], raising any count never lowers the score, and the
    scores 19/20, 49/50 and 79/80 sit on either side of a level boundary. *)
Theorem risk_score_formula_levels_monotone :
  forall c h m l : Z, 0 <= c -> 0 <= h -> 0 <= m -> 0 <= l ->
  let r := _calculate_risk_score c h m l in
  risk_score r = Z.min 100 (30 * c + 15 * h + 5 * m + 1 * l) /\
  (80 <= risk_score r -> risk_level r = "critical") /\
  (50 <= risk_score r < 80 -> risk_level r = "high") /\
  (20 <= risk_score r < 50 -> risk_level r = "medium") /\
  (risk_score r < 20 -> risk_level r = "low") /\
  0 <= risk_score r <= 100 /\
  (forall c' h' m' l', c <= c' -> h <= h' -> m <= m' -> l <= l' ->
     risk_score r <= risk_score (_calculate_risk_score c' h' m' l')) /\
  (risk_score r = 19 -> risk_level r = "low") /\
  (risk_score r = 20 -> risk_level r = "medium") /\
  (risk_score r = 49 -> risk_level r = "medium") /\
  (risk_score r = 50 -> risk_level r = "high") /\
  (risk_score r = 79 -> risk_level r = "high") /\
  (risk_score r = 80 -> risk_level r = "critical").
Proof.
  intros c h m l Hc Hh Hm Hl r.
  assert (Hlev : forall s, risk_score r = s ->
            risk_level r = if 80 <=? s then "critical"
                           else if 50 <=? s then "high"
                           else if 20 <=? s then "medium" else "low").
  { intros s <-. apply level_unfold. }
  assert (Hs := score_unfold c h m l). fold r in Hs.
  split; [exact Hs|].
  repeat split.
  - intros H. rewrite (Hlev _ eq_refl).
    destruct (Z.leb_spec 80 (risk_score r)); [reflexivity | lia].
  - intros H. rewrite (Hlev _ eq_refl).
    destruct (Z.leb_spec 80 (risk_score r)); [lia|].
    destruct (Z.leb_spec 50 (risk_score r)); [reflexivity | lia].
  - intros H. rewrite (Hlev _ eq_refl).
    destruct (Z.leb_spec 80 (risk_score r)); [lia|].
    destruct (Z.leb_spec 50 (risk_score r)); [lia|].
    destruct (Z.leb_spec 20 (risk_score r)); [reflexivity | lia].
  - intros H. rewrite (Hlev _ eq_refl).
    destruct (Z.leb_spec 80 (risk_score r)); [lia|].
    destruct (Z.leb_spec 50 (risk_score r)); [lia|].
    destruct (Z.leb_spec 20 (risk_score r)); [lia | reflexivity].
  - rewrite Hs. lia.
  - rewrite Hs. lia.
  - intros c' h' m' l' ? ? ? ?. unfold r. now apply score_monotone.
  - intros H. now rewrite (Hlev _ H).
  - intros H. now rewrite (Hlev _ H).
  - intros H. now rewrite (Hlev _ H).
  - intros H. now rewrite (Hlev _ H).
  - intros H. now rewrite (Hlev _ H).
  - intros H. now rewrite (Hlev _ H).
Qed.

(** The boundary scores are reached by actual counts. *)
Example risk_boundaries_reached :
  _calculate_risk_score 0 0 0 19 = ScoreData 19 "low" /\
  _calculate_risk_score 0 0 4 0 = ScoreData 20 "medium" /\
  _calculate_risk_score 0 0 0 49 = ScoreData 49 "medium" /\
  _calculate_risk_score 0 0 10 0 = ScoreData 50 "high" /\
  _calculate_risk_score 0 0 0 79 = ScoreData 79 "high" /\
  _calculate_risk_score 0 0 16 0 = ScoreData 80 "critical" /\
  _calculate_risk_score 7 3 2 1 = ScoreData 100 "critical".
Proof. repeat split; reflexivity. Qed.

Lemma risk_score_formula_levels_monotone_witness :
  let r := _calculate_risk_score 1 1 0 4 in
  risk_score r = Z.min 100 (30 * 1 + 15 * 1 + 5 * 0 + 1 * 4) /\
  (80 <= risk_score r -> risk_level r = "critical") /\
  (50 <= risk_score r < 80 -> risk_level r = "high") /\
  (20 <= risk_score r < 50 -> risk_level r = "medium") /\
  (risk_score r < 20 -> risk_level r = "low") /\
  0 <= risk_score r <= 100 /\
  (forall c' h' m' l', 1 <= c' -> 1 <= h' -> 0 <= m' -> 4 <= l' ->
     risk_score r <= risk_score (_calculate_risk_score c' h' m' l')) /\
  (risk_score r = 19 -> risk_level r = "low") /\
  (risk_score r = 20 -> risk_level r = "medium") /\
  (risk_score r = 49 -> risk_level r = "medium") /\
  (risk_score r = 50 -> risk_level r = "high") /\
  (risk_score r = 79 -> risk_level r = "high") /\
  (risk_score r = 80 -> risk_level r = "critical").
Proof.
  apply (risk_score_formula_levels_monotone 1 1 0 4); lia.
Defined.

End RiskAssessor.

(* ===================================================================== *)
(** * engines/analysis/threat_identifier.py *)
(* ===================================================================== *)

Module ThreatIdentifier.
Import PyStr.

(** ** The aggregated bundle

    Entries are dictionaries; a key read with [.get(key, default)] is an
    [option] field, [None] standing for an absent key. *)

Record pattern_match := PatternMatch {
  pm_rule_id : option string;
  pm_rule_name : string;
  pm_severity : string;
  pm_line : option Z;
  pm_matched_text : option string;
  pm_description : string
}.

Record taint_flow := TaintFlow {
  tf_source : option string;
  tf_sink : option string;
  tf_source_line : option Z;
  tf_sink_line : option Z;
  tf_severity : string
}.

(** An entry of [syscalls]: a dictionary (kept with its [str()] text), a log
    line, or anything else. *)
Inductive syscall :=
| SysDict (repr : string)
| SysStr (s : string)
| SysOther.

Record network_activity := NetworkActivity {
  na_type : string;
  na_target : string;
  na_line : option string
}.

Record file_activity := FileActivity {
  fa_operation : string;
  fa_file_path : string;
  fa_is_sensitive : bool;
  fa_line_numbers : option (list Z)
}.

Record fuzz_result := FuzzResult {
  fr_test_input : string;
  fr_return_code : Z;
  fr_crashed : bool;
  fr_timed_out : bool;
  fr_line_numbers : option (list Z)
}.

Record memory_finding := MemoryFinding {
  mf_type : option string;
  mf_detail : string;
  mf_line_numbers : option (list Z)
}.

Record aggregated := Aggregated {
  pattern_matches : list pattern_match;
  taint_flows : list taint_flow;
  network_activities : list network_activity;
  syscalls : list syscall;
  fuzz_results : list fuzz_result;
  file_activities : list file_activity;
  memory_findings : list memory_finding
}.

(** What a threat's [evidence] list holds: the entries themselves, or the
    small dictionaries [{'log_entry': s}] and [{'line': s}] built around a
    log line. *)
Inductive evidence :=
| EvPattern (m : pattern_match)
| EvFlow (f : taint_flow)
| EvSyscall (repr : string)
| EvLogEntry (s : string)
| EvNetwork (a : network_activity)
| EvNetLine (s : string)
| EvFile (op : file_activity)
| EvFuzz (r : fuzz_result)
| EvMemory (f : memory_finding).

Record threat := Threat {
  threat_type : string;
  severity : string;
  description : string;
  evidence_of : list evidence;
  line_numbers : list Z
}.

(** ** Line numbers out of a stack trace *)

(** The pattern [([A-Za-z]:\\[^:]+|/[^:]+):(\d+)] (a raw string). *)
Definition stack_re : Re.regex :=
  Re.RSeq
    (Re.RGroup 1
       (Re.RAlt
          (Re.cat [Re.RClass false [Re.rng "A" "Z"; Re.rng "a" "z"];
                   Re.RChar ":"; Re.RChar backslash;
                   Re.RPlus true (Re.RClass true [Re.chr ":"])])
          (Re.cat [Re.RChar "/"; Re.RPlus true (Re.RClass true [Re.chr ":"])])))
    (Re.RSeq (Re.RChar ":") (Re.RGroup 2 Re.digits1)).

Definition stack_line_numbers (text : string) : list Z :=
  Re.group_ints stack_re 2 text.

(** ** The loops *)

Definition get {A} (o : option A) (default : A) : A :=
  match o with Some x => x | None => default end.

(** One [for] loop over the entries [xs] that appends to an evidence list
    and to a list of lines: [pick x] is what the body appends for [x], or
    [None] when its test fails. *)
Definition scan_into {A} (pick : A -> option (evidence * list Z)) (xs : list A)
    (acc : list evidence * list Z) : list evidence * list Z :=
  fold_left
    (fun acc x =>
       match pick x with
       | Some (e, ls) => ((fst acc ++ [e])%list, (snd acc ++ ls)%list)
       | None => acc
       end)
    xs acc.

(** Pattern matches whose rule id contains [tag]. *)
Definition by_rule_tag (tag : string) (m : pattern_match) : option (evidence * list Z) :=
  if contains tag (get (pm_rule_id m) EmptyString)
  then Some (EvPattern m, [get (pm_line m) 0])
  else None.

(** 1. RCE, lines 38-68. *)
Definition rce_scan (agg : aggregated) : list evidence * list Z :=
  let acc := ([], []) in
  let acc := scan_into
    (fun m =>
       if contains "rce_" (get (pm_rule_id m) EmptyString) ||
          contains "os.system" (get (pm_matched_text m) EmptyString)
       then Some (EvPattern m, [get (pm_line m) 0]) else None)
    (pattern_matches agg) acc in
  let acc := scan_into
    (fun f =>
       if startswith (get (tf_sink f) EmptyString) "os.system" ||
          contains "subprocess" (get (tf_sink f) EmptyString)
       then Some (EvFlow f, [get (tf_sink_line f) 0]) else None)
    (taint_flows agg) acc in
  scan_into
    (fun sc =>
       match sc with
       | SysDict repr =>
           if contains "os.system" repr || contains "subprocess" repr
           then Some (EvSyscall repr, []) else None
       | SysStr s =>
           if contains "os.system" s || contains "subprocess" s
           then Some (EvLogEntry s, stack_line_numbers s) else None
       | SysOther => None
       end)
    (syscalls agg) acc.

(** 2. Command Injection, lines 80-86. *)
Definition cmd_injection_scan (agg : aggregated) : list evidence * list Z :=
  scan_into
    (fun f =>
       if startswith (get (tf_source f) EmptyString) "sys.argv" &&
          startswith (get (tf_sink f) EmptyString) "os.system"
       then Some (EvFlow f, [get (tf_sink_line f) 0]) else None)
    (taint_flows agg) ([], []).

(** 3.-5. and 7.: WebShell, Backdoor, SQL Injection, File Operation Risk. *)
Definition webshell_scan (agg : aggregated) : list evidence * list Z :=
  scan_into (by_rule_tag "webshell_") (pattern_matches agg) ([], []).

Definition backdoor_scan (agg : aggregated) : list evidence * list Z :=
  scan_into (by_rule_tag "backdoor_") (pattern_matches agg) ([], []).

Definition sql_injection_scan (agg : aggregated) : list evidence * list Z :=
  scan_into (by_rule_tag "sql_injection") (pattern_matches agg) ([], []).

Definition file_risk_scan (agg : aggregated) : list evidence * list Z :=
  scan_into (by_rule_tag "file_") (pattern_matches agg) ([], []).

(** 6. Network Exfiltration, lines 155-188. *)
Definition network_scan (agg : aggregated) : list evidence * list Z :=
  let acc := scan_into (by_rule_tag "network_") (pattern_matches agg) ([], []) in
  let acc := scan_into
    (fun a =>
       Some (EvNetwork a,
             match na_line a with
             | Some line_str => stack_line_numbers line_str
             | None => []
             end))
    (network_activities agg) acc in
  if nonempty (network_activities agg) then acc
  else scan_into
    (fun sc =>
       match sc with
       | SysStr s =>
           if contains "[ALERT] NETWORK:" s
           then Some (EvNetLine s, stack_line_numbers s) else None
       | _ => None
       end)
    (syscalls agg) acc.

(** [lines = []; for x in evidence: lines.extend(x.get('line_numbers', []) or [])]. *)
Definition extend_lines {A} (lines_of : A -> option (list Z)) (xs : list A) : list Z :=
  fold_left (fun acc x => (acc ++ get (lines_of x) [])%list) xs [].

(** 7b. Sensitive File Access, lines 219-223. *)
Definition sensitive_file_scan (agg : aggregated) : list evidence * list Z :=
  let sensitive_file_evidence := filter (fun op => fa_is_sensitive op = true) (file_activities agg) in
  (map EvFile sensitive_file_evidence,
   extend_lines fa_line_numbers sensitive_file_evidence).

(** 8. Runtime Vulnerability, lines 233-241. *)
Definition crash_scan (agg : aggregated) : list evidence * list Z :=
  let crash_evidence :=
    fold_left
      (fun acc r => if fr_crashed r && negb (fr_timed_out r) then (acc ++ [r])%list else acc)
      (fuzz_results agg) [] in
  (map EvFuzz crash_evidence, extend_lines fr_line_numbers crash_evidence).

(** 9. Memory Injection, lines 251-255. *)
Definition memory_scan (agg : aggregated) : list evidence * list Z :=
  (map EvMemory (memory_findings agg),
   extend_lines mf_line_numbers (memory_findings agg)).

Definition memory_api (agg : aggregated) : bool :=
  existsb
    (fun f => match mf_type f with
              | Some t => String.eqb t "memory_api"
              | None => false
              end)
    (memory_findings agg).

(** [sorted(set([l for l in lines if l > 0]))]. *)
Definition positive_sorted (lines : list Z) : list Z :=
  sorted_set (filter (fun l => 0 < l) lines).

(** [if evidence: threats.append({...})]. *)
Definition append_if_evidence (threats : list threat) (ty sev descr : string)
    (found : list evidence * list Z) : list threat :=
  if nonempty (fst found)
  then (threats ++ [Threat ty sev descr (fst found) (positive_sorted (snd found))])%list
  else threats.

(** [identify_threats], lines 11-264. *)
Definition identify_threats (agg : aggregated) : list threat :=
  let threats := [] in
  let threats := append_if_evidence threats "RCE" "critical"
    "Remote code execution detected via os.system/subprocess calls"
    (rce_scan agg) in
  let threats := append_if_evidence threats "Command Injection" "critical"
    "Command injection detected: user input (sys.argv) flows to os.system without sanitization"
    (cmd_injection_scan agg) in
  let threats := append_if_evidence threats "WebShell" "critical"
    "WebShell detected: usage of eval/exec/__import__/compile functions"
    (webshell_scan agg) in
  let threats := append_if_evidence threats "Backdoor" "high"
    "Backdoor detected: hardcoded passwords, secret keys, or obfuscated code"
    (backdoor_scan agg) in
  let threats := append_if_evidence threats "SQL Injection" "high"
    "SQL injection vulnerability detected: unsafe string concatenation in SQL queries"
    (sql_injection_scan agg) in
  let threats := append_if_evidence threats "Network Exfiltration" "medium"
    "Network connection activity detected: potential data exfiltration"
    (network_scan agg) in
  let threats := append_if_evidence threats "File Operation Risk" "medium"
    "Risky file operations detected: path traversal or sensitive file access"
    (file_risk_scan agg) in
  let threats := append_if_evidence threats "Sensitive File Access" "high"
    "Sensitive file activity detected during execution"
    (sensitive_file_scan agg) in
  let threats := append_if_evidence threats "Runtime Vulnerability" "medium"
    "Runtime crashes detected during fuzzing (may indicate input validation issues)"
    (crash_scan agg) in
  let threats := append_if_evidence threats "Memory Injection"
    (if memory_api agg then "high" else "medium")
    "Runtime code execution or memory API usage detected"
    (memory_scan agg) in
  threats.

(** ** Categories *)

Inductive category :=
| RCE | CommandInjection | WebShell | Backdoor | SQLInjection
| NetworkExfiltration | FileOperationRisk | SensitiveFileAccess
| RuntimeVulnerability | MemoryInjection.

Definition all_categories : list category :=
  [RCE; CommandInjection; WebShell; Backdoor; SQLInjection;
   NetworkExfiltration; FileOperationRisk; SensitiveFileAccess;
   RuntimeVulnerability; MemoryInjection].

Definition category_name (c : category) : string :=
  match c with
  | RCE => "RCE"
  | CommandInjection => "Command Injection"
  | WebShell => "WebShell"
  | Backdoor => "Backdoor"
  | SQLInjection => "SQL Injection"
  | NetworkExfiltration => "Network Exfiltration"
  | FileOperationRisk => "File Operation Risk"
  | SensitiveFileAccess => "Sensitive File Access"
  | RuntimeVulnerability => "Runtime Vulnerability"
  | MemoryInjection => "Memory Injection"
  end.

(** The evidence and the raw lines the code gathers for a category. *)
Definition category_scan (c : category) (agg : aggregated) : list evidence * list Z :=
  match c with
  | RCE => rce_scan agg
  | CommandInjection => cmd_injection_scan agg
  | WebShell => webshell_scan agg
  | Backdoor => backdoor_scan agg
  | SQLInjection => sql_injection_scan agg
  | NetworkExfiltration => network_scan agg
  | FileOperationRisk => file_risk_scan agg
  | SensitiveFileAccess => sensitive_file_scan agg
  | RuntimeVulnerability => crash_scan agg
  | MemoryInjection => memory_scan agg
  end.

(** The line numbers the code reads off one evidence entry. *)
Definition evidence_lines (e : evidence) : list Z :=
  match e with
  | EvPattern m => [get (pm_line m) 0]
  | EvFlow f => [get (tf_sink_line f) 0]
  | EvSyscall _ => []
  | EvLogEntry s => stack_line_numbers s
  | EvNetwork a =>
      match na_line a with
      | Some line_str => stack_line_numbers line_str
      | None => []
      end
  | EvNetLine s => stack_line_numbers s
  | EvFile op => get (fa_line_numbers op) []
  | EvFuzz r => get (fr_line_numbers r) []
  | EvMemory f => get (mf_line_numbers f) []
  end.

(** The threat a category contributes: none without evidence. *)
Definition category_threats (agg : aggregated) (c : category) : list threat :=
  append_if_evidence [] (category_name c)
    (match c with
     | RCE | CommandInjection | WebShell => "critical"
     | Backdoor | SQLInjection | SensitiveFileAccess => "high"
     | NetworkExfiltration | FileOperationRisk | RuntimeVulnerability => "medium"
     | MemoryInjection => if memory_api agg then "high" else "medium"
     end)
    (match c with
     | RCE => "Remote code execution detected via os.system/subprocess calls"
     | CommandInjection => "Command injection detected: user input (sys.argv) flows to os.system without sanitization"
     | WebShell => "WebShell detected: usage of eval/exec/__import__/compile functions"
     | Backdoor => "Backdoor detected: hardcoded passwords, secret keys, or obfuscated code"
     | SQLInjection => "SQL injection vulnerability detected: unsafe string concatenation in SQL queries"
     | NetworkExfiltration => "Network connection activity detected: potential data exfiltration"
     | FileOperationRisk => "Risky file operations detected: path traversal or sensitive file access"
     | SensitiveFileAccess => "Sensitive file activity detected during execution"
     | RuntimeVulnerability => "Runtime crashes detected during fuzzing (may indicate input validation issues)"
     | MemoryInjection => "Runtime code execution or memory API usage detected"
     end)
    (category_scan c agg).

(** ** Lemmas on the loops *)

Lemma append_if_evidence_app threats ty sev descr found :
  append_if_evidence threats ty sev descr found =
  (threats ++ append_if_evidence [] ty sev descr found)%list.
Proof.
  unfold append_if_evidence. destruct (nonempty (fst found)); [reflexivity|].
  now rewrite app_nil_r.
Qed.

Lemma append_if_evidence_nested threats ty sev descr found ty' sev' descr' found' :
  append_if_evidence (append_if_evidence threats ty sev descr found) ty' sev' descr' found' =
  (append_if_evidence threats ty sev descr found
     ++ append_if_evidence [] ty' sev' descr' found')%list.
Proof. apply append_if_evidence_app. Qed.

Lemma identify_threats_by_category agg :
  identify_threats agg = flat_map (category_threats agg) all_categories.
Proof.
  unfold identify_threats. cbv zeta.
  rewrite !append_if_evidence_nested.
  cbn [flat_map all_categories].
  unfold category_threats; cbn [category_scan category_name].
  rewrite app_nil_r, <- !app_assoc. reflexivity.
Qed.

Lemma scan_into_lines {A} (pick : A -> option (evidence * list Z)) xs acc :
  (forall x e ls, pick x = Some (e, ls) -> evidence_lines e = ls) ->
  snd acc = flat_map evidence_lines (fst acc) ->
  snd (scan_into pick xs acc) = flat_map evidence_lines (fst (scan_into pick xs acc)).
Proof.
  intros Hpick. unfold scan_into. revert acc.
  induction xs as [|x xs IH]; intros acc Hacc; [exact Hacc|].
  cbn [fold_left]. apply IH.
  destruct (pick x) as [[e ls]|] eqn:E; [|exact Hacc].
  cbn [fst snd]. rewrite flat_map_app, <- Hacc. cbn [flat_map].
  rewrite app_nil_r. now rewrite (Hpick _ _ _ E).
Qed.

Lemma by_rule_tag_lines tag m e ls :
  by_rule_tag tag m = Some (e, ls) -> evidence_lines e = ls.
Proof.
  unfold by_rule_tag. destruct (contains _ _); [|discriminate].
  intros [= <- <-]. reflexivity.
Qed.

Lemma extend_lines_flat_map {A} (lines_of : A -> option (list Z)) xs :
  extend_lines lines_of xs = flat_map (fun x => get (lines_of x) []) xs.
Proof.
  unfold extend_lines.
  enough (H : forall acc, fold_left (fun acc x => (acc ++ get (lines_of x) [])%list) xs acc
                          = (acc ++ flat_map (fun x => get (lines_of x) []) xs)%list)
    by apply (H []).
  induction xs as [|x xs IH]; intros acc; cbn [fold_left flat_map].
  - now rewrite app_nil_r.
  - rewrite IH. now rewrite app_assoc.
Qed.

Lemma flat_map_map {A B C} (f : B -> list C) (g : A -> B) xs :
  flat_map f (map g xs) = flat_map (fun x => f (g x)) xs.
Proof. induction xs as [|x xs IH]; cbn; [reflexivity | now rewrite IH]. Qed.

(** In every category the raw lines are the lines of the evidence, entry
    by entry. *)
Lemma category_scan_lines c agg :
  snd (category_scan c agg) = flat_map evidence_lines (fst (category_scan c agg)).
Proof.
  destruct c; cbn [category_scan].
  - unfold rce_scan. repeat apply scan_into_lines; try reflexivity.
    + intros [repr|s|] e ls; [| |discriminate];
        (destruct (_ || _); [|discriminate]); intros [= <- <-]; reflexivity.
    + intros f e ls. destruct (_ || _); [|discriminate]. intros [= <- <-]; reflexivity.
    + intros m e ls. destruct (_ || _); [|discriminate]. intros [= <- <-]; reflexivity.
  - unfold cmd_injection_scan. apply scan_into_lines; [|reflexivity].
    intros f e ls. destruct (_ && _); [|discriminate]. intros [= <- <-]; reflexivity.
  - apply scan_into_lines; [apply by_rule_tag_lines | reflexivity].
  - apply scan_into_lines; [apply by_rule_tag_lines | reflexivity].
  - apply scan_into_lines; [apply by_rule_tag_lines | reflexivity].
  - unfold network_scan.
    assert (H : forall acc, snd acc = flat_map evidence_lines (fst acc) ->
      let acc' := scan_into
        (fun a => Some (EvNetwork a,
           match na_line a with
           | Some line_str => stack_line_numbers line_str
           | None => []
           end)) (network_activities agg) acc in
      snd acc' = flat_map evidence_lines (fst acc')).
    { intros acc Hacc. apply scan_into_lines; [|exact Hacc].
      intros a e ls [= <- <-]. reflexivity. }
    destruct (nonempty (network_activities agg)).
    + apply H. apply scan_into_lines; [apply by_rule_tag_lines | reflexivity].
    + apply scan_into_lines.
      * intros [repr|s|] e ls; try discriminate.
        destruct (contains _ _); [|discriminate]. intros [= <- <-]; reflexivity.
      * apply H. apply scan_into_lines; [apply by_rule_tag_lines | reflexivity].
  - apply scan_into_lines; [apply by_rule_tag_lines | reflexivity].
  - unfold sensitive_file_scan. cbn [fst snd].
    now rewrite extend_lines_flat_map, flat_map_map.
  - unfold crash_scan. cbn [fst snd].
    now rewrite extend_lines_flat_map, flat_map_map.
  - unfold memory_scan. cbn [fst snd].
    now rewrite extend_lines_flat_map, flat_map_map.
Qed.

Lemma positive_sorted_spec lines :
  StronglySorted Z.lt (positive_sorted lines) /\
  forall l, In l (positive_sorted lines) <-> 0 < l /\ In l lines.
Proof.
  unfold positive_sorted.
  destruct (sorted_set_spec (filter (fun l => 0 < l) lines)) as [Hs Hin].
  split; [exact Hs|].
  intros l. rewrite Hin, <- !list_elem_of_In, list_elem_of_filter. reflexivity.
Qed.

(** What a threat of the list looks like. *)
Lemma in_category_threats agg c t :
  In t (category_threats agg c) ->
  threat_type t = category_name c /\
  evidence_of t = fst (category_scan c agg) /\
  evidence_of t <> [] /\
  line_numbers t = positive_sorted (flat_map evidence_lines (evidence_of t)).
Proof.
  unfold category_threats, append_if_evidence.
  destruct (fst (category_scan c agg)) as [|e ev] eqn:E; cbn [nonempty]; [intros []|].
  cbn [app]. intros [<- | []]. cbn [threat_type evidence_of line_numbers].
  repeat split; [discriminate|].
  now rewrite category_scan_lines, E.
Qed.

Lemma category_threats_present agg c :
  fst (category_scan c agg) <> [] ->
  exists t, category_threats agg c = [t] /\
            threat_type t = category_name c /\
            evidence_of t = fst (category_scan c agg).
Proof.
  intros Hne. unfold category_threats, append_if_evidence.
  destruct (fst (category_scan c agg)) as [|e ev] eqn:E; [congruence|].
  cbn [nonempty app]. eexists; split; [reflexivity|]. split; reflexivity.
Qed.

Lemma category_name_inj c1 c2 : category_name c1 = category_name c2 -> c1 = c2.
Proof. destruct c1, c2; cbn; intros H; try reflexivity; discriminate H. Qed.

Lemma in_identify_threats agg t :
  In t (identify_threats agg) <-> exists c, In t (category_threats agg c).
Proof.
  rewrite identify_threats_by_category, in_flat_map. split.
  - intros (c & _ & H). eauto.
  - intros (c & H). exists c. split; [|exact H].
    destruct c; cbn; tauto.
Qed.

Lemma threat_types_nodup agg (cs : list category) :
  NoDup cs -> NoDup (map threat_type (flat_map (category_threats agg) cs)).
Proof.
  induction cs as [|c cs IH]; intros Hnd; [constructor|].
  apply NoDup_cons in Hnd as [Hc Hnd].
  cbn [flat_map]. rewrite map_app. apply NoDup_app. split; [|split].
  - unfold category_threats, append_if_evidence.
    destruct (nonempty _); cbn; [apply NoDup_singleton | constructor].
  - intros ty Hty Hty'.
    apply list_elem_of_In, in_map_iff in Hty as (t & <- & Ht).
    apply list_elem_of_In, in_map_iff in Hty' as (t' & Heq & Ht').
    apply in_flat_map in Ht' as (c' & Hc' & Ht').
    apply in_category_threats in Ht as (Hn & _).
    apply in_category_threats in Ht' as (Hn' & _).
    rewrite Hn, Hn' in Heq. apply category_name_inj in Heq. subst c'.
    apply Hc. now apply list_elem_of_In.
  - now apply IH.
Qed.

(** C3. The identifier returns at most one threat per category; a category
    without evidence contributes nothing, a category with evidence
    contributes one threat carrying all of that evidence; and the
    [line_numbers] of each threat are strictly ascending (sorted, no
    duplicate) and are exactly the line numbers of its evidence entries,
    line numbers being the positive ones (see the next theorem for the
    entries whose line is absent or not positive). *)
Theorem identify_threats_one_per_category (agg : aggregated) :
  let ts := identify_threats agg in
  NoDup (map threat_type ts) /\
  (forall c,
     (fst (category_scan c agg) = [] ->
      Forall (fun t => threat_type t <> category_name c) ts) /\
     (fst (category_scan c agg) <> [] ->
      exists t, In t ts /\ threat_type t = category_name c /\
                evidence_of t = fst (category_scan c agg))) /\
  Forall
    (fun t =>
       (exists c, threat_type t = category_name c /\
                  evidence_of t = fst (category_scan c agg)) /\
       evidence_of t <> [] /\
       StronglySorted Z.lt (line_numbers t) /\
       (forall l, In l (line_numbers t) <->
                  0 < l /\ exists e, In e (evidence_of t) /\ In l (evidence_lines e)))
    ts.
Proof.
  intros ts. split; [|split].
  - unfold ts. rewrite identify_threats_by_category.
    apply threat_types_nodup. unfold all_categories.
    repeat (apply NoDup_cons; split;
      [rewrite ?elem_of_cons, elem_of_nil; intuition discriminate|]).
    constructor.
  - intros c. split.
    + intros Hnil. apply Forall_forall. intros t Ht Hty.
      apply list_elem_of_In, in_identify_threats in Ht as (c' & Ht).
      apply in_category_threats in Ht as (Hn & Hev & Hne & _).
      rewrite Hn in Hty. apply category_name_inj in Hty. subst c'.
      congruence.
    + intros Hne. destruct (category_threats_present agg c Hne) as (t & Heq & Hn & Hev).
      exists t. split; [|now split].
      apply in_identify_threats. exists c. rewrite Heq. now left.
  - apply Forall_forall. intros t Ht.
    apply list_elem_of_In, in_identify_threats in Ht as (c & Ht).
    apply in_category_threats in Ht as (Hn & Hev & Hne & Hl).
    split; [now exists c|]. split; [exact Hne|].
    rewrite Hl.
    destruct (positive_sorted_spec (flat_map evidence_lines (evidence_of t))) as [Hs Hin].
    split; [exact Hs|].
    intros l. rewrite Hin, in_flat_map. reflexivity.
Qed.

(** C10. Every line number of every returned threat is strictly positive:
    an entry whose line is absent (read as 0), zero or negative stays in the
    threat's evidence, which is all the evidence of its category, but none of
    its non-positive lines is a line number of the threat. *)
Theorem threat_line_numbers_positive (agg : aggregated) :
  Forall
    (fun t =>
       Forall (fun l => 0 < l) (line_numbers t) /\
       (exists c, threat_type t = category_name c /\
                  evidence_of t = fst (category_scan c agg)) /\
       (forall e l, In e (evidence_of t) -> In l (evidence_lines e) ->
                    (In l (line_numbers t) <-> 0 < l)))
    (identify_threats agg).
Proof.
  apply Forall_forall. intros t Ht.
  apply list_elem_of_In, in_identify_threats in Ht as (c & Ht).
  apply in_category_threats in Ht as (Hn & Hev & Hne & Hl).
  destruct (positive_sorted_spec (flat_map evidence_lines (evidence_of t))) as [_ Hin].
  split; [|split].
  - apply Forall_forall. intros l Hl'. rewrite Hl in Hl'.
    apply list_elem_of_In, Hin in Hl'. tauto.
  - now exists c.
  - intros e l He Hle. rewrite Hl, Hin, in_flat_map. split; [tauto|].
    intros Hpos. split; [exact Hpos|]. now exists e.
Qed.

(** Concrete runs. *)
Example stack_line_numbers_run :
  stack_line_numbers
    "[2024-01-01 10:00:00.123] [ALERT] SYSCALL: os.system called with command='ls' | stack=/tmp/a.py:12 -> /usr/lib/x.py:3"
  = [12; 3].
Proof. vm_compute. reflexivity. Qed.

Definition bundle_example : aggregated :=
  Aggregated
    [PatternMatch (Some "rce_os_system") "RCE" "critical" (Some 4) (Some "os.system(") "d";
     PatternMatch (Some "rce_eval") "RCE" "critical" None (Some "eval(") "d";
     PatternMatch (Some "rce_exec") "RCE" "critical" (Some 4) (Some "exec(") "d";
     PatternMatch (Some "file_open") "File" "medium" (Some 2) (Some "open(") "d"]
    [TaintFlow (Some "sys.argv[...]") (Some "os.system") (Some 3) (Some 4) "critical"]
    []
    [SysStr "[t] [ALERT] SYSCALL: os.system called with command='x' | stack=/tmp/a.py:9"]
    [] [] [].

Example identify_threats_run :
  map (fun t => (threat_type t, severity t, length (evidence_of t), line_numbers t))
      (identify_threats bundle_example)
  = [("RCE", "critical", 5%nat, [4; 9]);
     ("Command Injection", "critical", 1%nat, [4]);
     ("File Operation Risk", "medium", 1%nat, [2])].
Proof. vm_compute. reflexivity. Qed.

End ThreatIdentifier.

(* ===================================================================== *)
(** * engines/static/cfg_analysis.py *)
(* ===================================================================== *)

Module CFG.
Import PyStr.

(** ** The part of Python's [ast] the analyzer looks at

    Statements carry their [lineno].  [If], [For], [While] and [Try] are the
    four node classes the visitor handles; [Other] is every other statement,
    with the statements nested in it (a function or class body, a [with]
    block, ...), which [generic_visit] walks.  The test, target and iterator
    expressions are kept as the text [_get_node_repr] gives them. *)
#[local] Unset Elimination Schemes.
Inductive stmt :=
| If (lineno : Z) (test : string) (body orelse : list stmt)
| For (lineno : Z) (target iter : string) (body orelse : list stmt)
| While (lineno : Z) (test : string) (body orelse : list stmt)
| Try (lineno : Z) (body : list stmt) (handlers : list handler)
      (orelse finalbody : list stmt)
| Other (lineno : Z) (children : list stmt)
with handler :=
| ExceptHandler (lineno : Z) (body : list stmt).
#[local] Set Elimination Schemes.

Definition stmt_lineno (s : stmt) : Z :=
  match s with
  | If l _ _ _ | For l _ _ _ _ | While l _ _ _ | Try l _ _ _ _ | Other l _ => l
  end.

(** [isinstance(stmt, (ast.If, ast.For, ast.While, ast.Try))]. *)
Definition is_cfg_node (s : stmt) : bool :=
  match s with
  | Other _ _ => false
  | _ => true
  end.

Definition node_body (s : stmt) : list stmt :=
  match s with
  | If _ _ b _ | For _ _ _ b _ | While _ _ b _ | Try _ b _ _ _ => b
  | Other _ _ => []
  end.

(** What one iteration of the loop of [_get_body_lines] appends to [lines]
    for the statement [s]: its own line, then, for the four node classes,
    the (sorted, duplicate-free) results of the recursive calls. *)
Fixpoint body_entry (s : stmt) : list Z :=
  match s with
  | If l _ body orelse =>
      l :: sorted_set (flat_map body_entry body)
        ++ sorted_set (flat_map body_entry orelse)
  | For l _ _ body orelse =>
      l :: sorted_set (flat_map body_entry body)
        ++ sorted_set (flat_map body_entry orelse)
  | While l _ body orelse =>
      l :: sorted_set (flat_map body_entry body)
        ++ sorted_set (flat_map body_entry orelse)
  | Try l body handlers orelse finalbody =>
      l :: sorted_set (flat_map body_entry body)
        ++ flat_map handler_entry handlers
        ++ sorted_set (flat_map body_entry orelse)
        ++ sorted_set (flat_map body_entry finalbody)
  | Other l _ => [l]
  end
with handler_entry (h : handler) : list Z :=
  match h with
  | ExceptHandler _ body => sorted_set (flat_map body_entry body)
  end.

(** [_get_body_lines], lines 47-67. *)
Definition _get_body_lines (body : list stmt) : list Z :=
  sorted_set (flat_map body_entry body).

(** [_get_end_line], lines 69-87.  It is only ever called on the four node
    classes; on another statement the model returns its line. *)
Fixpoint _get_end_line (node : stmt) : Z :=
  let over_body (body : list stmt) (max_line : Z) : Z :=
    fold_left
      (fun max_line stmt =>
         let max_line := Z.max max_line (stmt_lineno stmt) in
         match stmt with
         | Other _ _ => max_line
         | _ => Z.max max_line (_get_end_line stmt)
         end)
      body max_line in
  let over_flat (stmts : list stmt) (max_line : Z) : Z :=
    fold_left (fun max_line stmt => Z.max max_line (stmt_lineno stmt)) stmts max_line in
  match node with
  | If l _ body orelse => over_flat orelse (over_body body l)
  | For l _ _ body orelse => over_flat orelse (over_body body l)
  | While l _ body orelse => over_flat orelse (over_body body l)
  | Try l body _ orelse finalbody =>
      over_flat finalbody (over_flat orelse (over_body body l))
  | Other l _ => l
  end.

(** An entry of [cfg_structures]. *)
Record cfg_structure := CfgStructure {
  cfg_type : string;
  start_line : Z;
  end_line : Z;
  condition : string;
  body_lines : list Z;
  else_lines : list Z;
  except_lines : list Z;
  finally_lines : list Z
}.

(** The dictionary [visit_If], [visit_For], [visit_While] or [visit_Try]
    appends for a node (lines 89-161); a [for] node's target and iterator
    are kept together in [condition]. *)
Definition structure_of (node : stmt) : option cfg_structure :=
  match node with
  | If l test body orelse =>
      Some (CfgStructure "if" l (_get_end_line node) test
              (_get_body_lines body) (_get_body_lines orelse) [] [])
  | For l target iter body orelse =>
      Some (CfgStructure "for" l (_get_end_line node) (target ++ " in " ++ iter)
              (_get_body_lines body) (_get_body_lines orelse) [] [])
  | While l test body orelse =>
      Some (CfgStructure "while" l (_get_end_line node) test
              (_get_body_lines body) (_get_body_lines orelse) [] [])
  | Try l body handlers orelse finalbody =>
      Some (CfgStructure "try" l (_get_end_line node) EmptyString
              (_get_body_lines body)
              (_get_body_lines orelse)
              (flat_map (fun h => match h with
                                  | ExceptHandler _ b => _get_body_lines b
                                  end) handlers)
              (_get_body_lines finalbody))
  | Other _ _ => None
  end.

(** The visitor: a node's own structure first, then [generic_visit] over
    its children in field order. *)
Fixpoint visit (node : stmt) : list cfg_structure :=
  match node with
  | If _ _ body orelse =>
      option_list (structure_of node) ++ flat_map visit body ++ flat_map visit orelse
  | For _ _ _ body orelse =>
      option_list (structure_of node) ++ flat_map visit body ++ flat_map visit orelse
  | While _ _ body orelse =>
      option_list (structure_of node) ++ flat_map visit body ++ flat_map visit orelse
  | Try _ body handlers orelse finalbody =>
      option_list (structure_of node)
        ++ flat_map visit body
        ++ flat_map visit_handler handlers
        ++ flat_map visit orelse
        ++ flat_map visit finalbody
  | Other _ children => flat_map visit children
  end
with visit_handler (h : handler) : list cfg_structure :=
  match h with
  | ExceptHandler _ body => flat_map visit body
  end.

(** [analyze], lines 164-185: [None] is a tree that did not parse, a module
    is the list of its statements. *)
Definition analyze (ast_tree : option (list stmt)) : list cfg_structure :=
  match ast_tree with
  | None => []
  | Some module_body => flat_map visit module_body
  end.

(** Nested statements never start before the statement that holds them,
    as in every tree [ast.parse] returns. *)
Fixpoint well_nested (s : stmt) : bool :=
  let ok (parent : Z) (ss : list stmt) : bool :=
    forallb (fun c => (parent <=? stmt_lineno c) && well_nested c) ss in
  match s with
  | If l _ body orelse => ok l body && ok l orelse
  | For l _ _ body orelse => ok l body && ok l orelse
  | While l _ body orelse => ok l body && ok l orelse
  | Try l body handlers orelse finalbody =>
      ok l body
      && forallb (fun h => match h with
                           | ExceptHandler hl hb => (l <=? hl) && ok l hb
                           end) handlers
      && ok l orelse && ok l finalbody
  | Other l children => ok l children
  end.

(** The property the specification states for one structure. *)
Definition strictly_inside (c : cfg_structure) : Prop :=
  Forall (fun v => start_line c < v < end_line c) (body_lines c).

(** ** Induction over statements *)

Section StmtInd.
Variable P : stmt -> Prop.
Hypothesis HIf : forall l t body orelse,
  Forall P body -> Forall P orelse -> P (If l t body orelse).
Hypothesis HFor : forall l t i body orelse,
  Forall P body -> Forall P orelse -> P (For l t i body orelse).
Hypothesis HWhile : forall l t body orelse,
  Forall P body -> Forall P orelse -> P (While l t body orelse).
Hypothesis HTry : forall l body handlers orelse finalbody,
  Forall P body ->
  Forall (fun h => match h with ExceptHandler _ b => Forall P b end) handlers ->
  Forall P orelse -> Forall P finalbody ->
  P (Try l body handlers orelse finalbody).
Hypothesis HOther : forall l children, Forall P children -> P (Other l children).

Fixpoint stmt_nested_ind (s : stmt) : P s :=
  let all :=
    fix all (ss : list stmt) : Forall P ss :=
      match ss with
      | [] => @List.Forall_nil _ P
      | x :: ss' => @List.Forall_cons _ P x ss' (stmt_nested_ind x) (all ss')
      end in
  match s with
  | If l t body orelse => HIf l t body orelse (all body) (all orelse)
  | For l t i body orelse => HFor l t i body orelse (all body) (all orelse)
  | While l t body orelse => HWhile l t body orelse (all body) (all orelse)
  | Try l body handlers orelse finalbody =>
      HTry l body handlers orelse finalbody (all body)
        ((fix allh (hs : list handler)
            : Forall (fun h => match h with ExceptHandler _ b => Forall P b end) hs :=
            match hs with
            | [] => @List.Forall_nil _ _
            | ExceptHandler hl hb :: hs' =>
                @List.Forall_cons _ _ (ExceptHandler hl hb) hs' (all hb) (allh hs')
            end) handlers)
        (all orelse) (all finalbody)
  | Other l children => HOther l children (all children)
  end.
End StmtInd.

(** ** The two helpers *)

Lemma get_body_lines_sorted body : StronglySorted Z.lt (_get_body_lines body).
Proof. apply sorted_set_spec. Qed.

Lemma in_get_body_lines body v :
  In v (_get_body_lines body) <-> exists s, In s body /\ In v (body_entry s).
Proof.
  unfold _get_body_lines.
  rewrite (proj2 (sorted_set_spec _)), in_flat_map. reflexivity.
Qed.

Lemma body_entry_own_line s : In (stmt_lineno s) (body_entry s).
Proof. destruct s; cbn; auto. Qed.

Definition over_body (body : list stmt) (max_line : Z) : Z :=
  fold_left
    (fun max_line stmt =>
       let max_line := Z.max max_line (stmt_lineno stmt) in
       match stmt with
       | Other _ _ => max_line
       | _ => Z.max max_line (_get_end_line stmt)
       end)
    body max_line.

Definition over_flat (stmts : list stmt) (max_line : Z) : Z :=
  fold_left (fun max_line stmt => Z.max max_line (stmt_lineno stmt)) stmts max_line.

Lemma get_end_line_unfold node :
  _get_end_line node =
  match node with
  | If l _ body orelse => over_flat orelse (over_body body l)
  | For l _ _ body orelse => over_flat orelse (over_body body l)
  | While l _ body orelse => over_flat orelse (over_body body l)
  | Try l body _ orelse finalbody =>
      over_flat finalbody (over_flat orelse (over_body body l))
  | Other l _ => l
  end.
Proof. destruct node; reflexivity. Qed.

Lemma over_flat_ge stmts m : m <= over_flat stmts m.
Proof.
  unfold over_flat. revert m.
  induction stmts as [|s ss IH]; intros m; cbn [fold_left]; [lia|].
  specialize (IH (Z.max m (stmt_lineno s))). lia.
Qed.

Lemma over_body_ge body m : m <= over_body body m.
Proof.
  unfold over_body. revert m.
  induction body as [|s ss IH]; intros m; cbn [fold_left]; [lia|].
  match goal with |- _ <= fold_left _ _ ?m' => specialize (IH m'); cbv zeta in IH end.
  destruct s; lia.
Qed.

Lemma over_body_covers body m s :
  In s body -> stmt_lineno s <= over_body body m.
Proof.
  unfold over_body. revert m.
  induction body as [|x ss IH]; intros m; [intros []|].
  intros [-> | Hin]; cbn [fold_left].
  - match goal with |- _ <= fold_left ?f _ ?m' =>
      pose proof (over_body_ge ss m') as H; unfold over_body in H end.
    destruct s; cbn [stmt_lineno] in *; lia.
  - now apply IH.
Qed.

Lemma get_end_line_bounds node :
  stmt_lineno node <= _get_end_line node /\
  forall s, In s (node_body node) -> stmt_lineno s <= _get_end_line node.
Proof.
  rewrite get_end_line_unfold.
  destruct node as [l t body orelse | l t i body orelse | l t body orelse
                   | l body handlers orelse finalbody | l children];
    cbn [stmt_lineno node_body].
  1-3: pose proof (over_body_ge body l);
       pose proof (over_flat_ge orelse (over_body body l));
       split; [lia|]; intros s Hs;
       pose proof (over_body_covers body l s Hs); lia.
  - pose proof (over_body_ge body l).
    pose proof (over_flat_ge orelse (over_body body l)).
    pose proof (over_flat_ge finalbody (over_flat orelse (over_body body l))).
    split; [lia|]. intros s Hs.
    pose proof (over_body_covers body l s Hs). lia.
  - split; [lia | intros s []].
Qed.

Lemma forallb_In {A} (f : A -> bool) l x : forallb f l = true -> In x l -> f x = true.
Proof. rewrite forallb_forall. auto. Qed.

(** In a well-nested statement no line of its loop entry precedes it. *)
Lemma body_entry_ge s :
  well_nested s = true -> forall v, In v (body_entry s) -> stmt_lineno s <= v.
Proof.
  assert (Hlist : forall l ss,
    Forall (fun s => well_nested s = true ->
                     forall v, In v (body_entry s) -> stmt_lineno s <= v) ss ->
    forallb (fun c => (l <=? stmt_lineno c) && well_nested c) ss = true ->
    forall v, In v (sorted_set (flat_map body_entry ss)) -> l <= v).
  { intros l ss IH Hok v Hv.
    apply (proj2 (sorted_set_spec _)), in_flat_map in Hv as (c & Hc & Hv).
    rewrite Forall_forall in IH.
    pose proof (forallb_In _ _ _ Hok Hc) as Hcc.
    apply andb_true_iff in Hcc as [Hle Hwn]. apply Z.leb_le in Hle.
    specialize (IH c (proj2 (list_elem_of_In _ _) Hc) Hwn v Hv). lia. }
  induction s using stmt_nested_ind; cbn [well_nested body_entry stmt_lineno];
    intros Hwn v Hv.
  - apply andb_true_iff in Hwn as [Hb Ho].
    destruct Hv as [<- | Hv]; [lia|]. apply in_app_or in Hv as [Hv | Hv]; eauto.
  - apply andb_true_iff in Hwn as [Hb Ho].
    destruct Hv as [<- | Hv]; [lia|]. apply in_app_or in Hv as [Hv | Hv]; eauto.
  - apply andb_true_iff in Hwn as [Hb Ho].
    destruct Hv as [<- | Hv]; [lia|]. apply in_app_or in Hv as [Hv | Hv]; eauto.
  - apply andb_true_iff in Hwn as [Hwn Hf].
    apply andb_true_iff in Hwn as [Hwn Ho].
    apply andb_true_iff in Hwn as [Hb Hh].
    destruct Hv as [<- | Hv]; [lia|].
    apply in_app_or in Hv as [Hv | Hv]; [eauto|].
    apply in_app_or in Hv as [Hv | Hv].
    + apply in_flat_map in Hv as ([hl hb] & Hin & Hv). cbn [handler_entry] in Hv.
      pose proof (forallb_In _ _ _ Hh Hin) as Hok. cbn beta iota in Hok.
      apply andb_true_iff in Hok as [_ Hok].
      rewrite Forall_forall in H0.
      specialize (H0 _ (proj2 (list_elem_of_In _ _) Hin)). cbn beta iota in H0.
      eauto.
    + apply in_app_or in Hv as [Hv | Hv]; eauto.
  - destruct Hv as [<- | []]. lia.
Qed.

(** What holds of the structure recorded for one node. *)
Definition structure_ok (c : cfg_structure) : Prop :=
  StronglySorted Z.lt (body_lines c) /\
  start_line c <= end_line c /\
  exists node,
    structure_of node = Some c /\
    (forall s, In s (node_body node) ->
       In (stmt_lineno s) (body_lines c) /\ stmt_lineno s <= end_line c) /\
    (well_nested node = true ->
       forall v, In v (body_lines c) -> start_line c <= v).

Lemma structure_of_ok node c : structure_of node = Some c -> structure_ok c.
Proof.
  intros Hc. unfold structure_ok.
  assert (Hb : body_lines c = _get_body_lines (node_body node) /\
               start_line c = stmt_lineno node /\
               end_line c = _get_end_line node).
  { destruct node; cbn in Hc; [..|discriminate]; injection Hc as <-; auto. }
  destruct Hb as (Hb & Hs & He). rewrite Hb, Hs, He.
  destruct (get_end_line_bounds node) as [Hle Hcov].
  split; [apply get_body_lines_sorted|]. split; [exact Hle|].
  exists node. split; [exact Hc|]. split.
  - intros s Hin. split; [|now apply Hcov].
    apply in_get_body_lines. exists s. split; [exact Hin | apply body_entry_own_line].
  - intros Hwn v Hv. apply in_get_body_lines in Hv as (s & Hin & Hv).
    enough (stmt_lineno node <= stmt_lineno s /\ well_nested s = true) as [H1 H2].
    { pose proof (body_entry_ge s H2 v Hv). lia. }
    destruct node; cbn [node_body] in Hin; [..|destruct Hin];
      cbn [well_nested stmt_lineno] in *;
      repeat (apply andb_true_iff in Hwn as [Hwn ?]);
      match goal with
      | H : forallb _ ?b = true, Hin : In s ?b |- _ =>
          pose proof (forallb_In _ _ _ H Hin) as Hok; cbn beta in Hok;
          apply andb_true_iff in Hok as [Hle' Hwn']; apply Z.leb_le in Hle'; auto
      end.
Qed.

Lemma visit_ok node : Forall structure_ok (visit node).
Proof.
  assert (Hlist : forall ss, Forall (fun s => Forall structure_ok (visit s)) ss ->
                             Forall structure_ok (flat_map visit ss)).
  { intros ss H. apply Forall_forall. intros c Hc.
    apply list_elem_of_In, in_flat_map in Hc as (s & Hs & Hc).
    rewrite Forall_forall in H. specialize (H s (proj2 (list_elem_of_In _ _) Hs)).
    rewrite Forall_forall in H. apply H. now apply list_elem_of_In. }
  assert (Hown : forall n, Forall structure_ok (option_list (structure_of n))).
  { intros n. destruct (structure_of n) as [c|] eqn:E; cbn; [|constructor].
    constructor; [|constructor]. eapply structure_of_ok; eauto. }
  induction node using stmt_nested_ind; cbn [visit];
    repeat (apply Forall_app; split); auto.
  apply Forall_forall. intros c Hc.
  apply list_elem_of_In, in_flat_map in Hc as ([hl hb] & Hh & Hc). cbn [visit_handler] in Hc.
  rewrite Forall_forall in H0. specialize (H0 _ (proj2 (list_elem_of_In _ _) Hh)).
  cbn beta iota in H0. apply Hlist in H0. rewrite Forall_forall in H0.
  apply H0. now apply list_elem_of_In.
Qed.



(** Both bounds are reached, and a line of a nested [except] block can lie
    beyond the estimated end line. *)
Example cfg_bounds_reached :
  analyze (Some [If 1 "x" [Other 1 []] []])
    = [CfgStructure "if" 1 1 "x" [1] [] [] []] /\
  analyze (Some [While 3 "y" [Other 4 []; Other 5 []] []])
    = [CfgStructure "while" 3 5 "y" [4; 5] [] [] []] /\
  map (fun c => (cfg_type c, start_line c, end_line c, body_lines c))
      (analyze (Some [If 1 "a" [Try 2 [Other 3 []] [ExceptHandler 4 [Other 5 []]] [] []] []]))
    = [("if", 1, 3, [2; 3; 5]); ("try", 2, 3, [3])].
Proof. repeat split; vm_compute; reflexivity. Qed.

End CFG.

(* ===================================================================== *)
(** * engines/static/taint_analysis.py *)
(* ===================================================================== *)

Module PyTaint.
Import PyStr.

(** ** The part of Python's [ast] the analyzer looks at

    One type for all nodes, as the visitor sees them.  [Call] and [Assign]
    carry their [lineno]; [Other] is any other node (a module, an expression
    statement, an [if], a function definition, a keyword argument, ...) with
    its child nodes in field order. *)
#[local] Unset Elimination Schemes.
Inductive node :=
| Name (id : string)
| Attribute (value : node) (attr : string)
| Subscript (value : node) (index : node)
| Call (lineno : Z) (func : node) (args : list node) (keywords : list node)
| BinOp (l r : node)
| Constant (repr : string)
| Assign (lineno : Z) (targets : list node) (value : node)
| Other (children : list node).
#[local] Set Elimination Schemes.

(** An entry of [taint_sources], of [taint_sinks] and of [taint_flows]. *)
Record source_entry := SourceEntry {
  se_source : string;
  se_line : Z;
  se_tainted_var : string
}.

Record sink_entry := SinkEntry {
  sk_sink : string;
  sk_line : Z;
  sk_args : list string
}.

Record flow := Flow {
  source : string;
  sink : string;
  source_line : Z;
  sink_line : Z;
  severity : string;
  flow_type : string;
  tainted_var : option string
}.

(** The fields of a [TaintAnalyzer]. *)
Record analyzer := Analyzer {
  taint_sources : list source_entry;
  taint_sinks : list sink_entry;
  taint_flows : list flow;
  current_tainted_vars : gset string;
  var_assignments : gmap string Z
}.

Definition new_analyzer : analyzer := Analyzer [] [] [] ∅ ∅.

Definition str_in (s : string) (l : list string) : bool :=
  existsb (String.eqb s) l.

(** [_is_taint_source], lines 22-37. *)
Definition _is_taint_source (n : node) : bool :=
  match n with
  | Subscript (Attribute (Name m) attr) _ =>
      String.eqb m "sys" && String.eqb attr "argv"
  | Call _ (Name f) _ _ => str_in f ["input"; "raw_input"]
  | _ => false
  end.

(** [_is_taint_sink], lines 39-56, on the [func] of a call. *)
Definition _is_taint_sink (func : node) : option string :=
  match func with
  | Attribute (Name m) attr =>
      if String.eqb m "os" then
        if str_in attr ["system"; "popen"] then Some ("os." ++ attr)%string else None
      else if String.eqb m "subprocess" then
        if str_in attr ["call"; "run"; "Popen"] then Some ("subprocess." ++ attr)%string
        else None
      else None
  | Name f => if str_in f ["eval"; "exec"] then Some f else None
  | _ => None
  end.

(** [_get_variable_name], lines 58-66. *)
Definition _get_variable_name (n : node) : option string :=
  match n with
  | Name id => Some id
  | Attribute (Name v) attr => Some (v ++ "." ++ attr)%string
  | _ => None
  end.

Section Analyzer.

(** [ast.dump], the fallback text of a node. *)
Variable ast_dump : node -> string.

(** [_get_node_repr], lines 139-163. *)
Fixpoint _get_node_repr (n : node) : string :=
  match n with
  | Name id => id
  | Attribute (Name v) attr => (v ++ "." ++ attr)%string
  | Subscript (Attribute (Name v) attr) _ => (v ++ "." ++ attr ++ "[...]")%string
  | Call _ (Name f) _ _ => (f ++ "(...)")%string
  | BinOp l r => (_get_node_repr l ++ " + " ++ _get_node_repr r)%string
  | Constant repr => repr
  | _ => ast_dump n
  end.

(** One iteration of the loop over [node.targets], lines 81-93. *)
Definition taint_target (lineno : Z) (value : node) (st : analyzer)
    (target : node) : analyzer :=
  match _get_variable_name target with
  | Some var_name =>
      if nonempty_str var_name then
        Analyzer
          (taint_sources st ++
             [SourceEntry (_get_node_repr value) lineno var_name])
          (taint_sinks st)
          (taint_flows st)
          ({[var_name]} ∪ current_tainted_vars st)
          (<[var_name := lineno]> (var_assignments st))
      else st
  | None => st
  end.

(** The body of [visit_Assign] before its [generic_visit], lines 70-93. *)
Definition assign_effect (lineno : Z) (targets : list node) (value : node)
    (st : analyzer) : analyzer :=
  let is_tainted := _is_taint_source value in
  let is_tainted :=
    if negb is_tainted then
      match _get_variable_name value with
      | Some var_name =>
          if nonempty_str var_name && bool_decide (var_name ∈ current_tainted_vars st)
          then true else is_tainted
      | None => is_tainted
      end
    else is_tainted in
  if is_tainted then fold_left (taint_target lineno value) targets st
  else st.

Definition add_flow (st : analyzer) (f : flow) : analyzer :=
  Analyzer (taint_sources st) (taint_sinks st) (taint_flows st ++ [f])
    (current_tainted_vars st) (var_assignments st).

(** One iteration of the loop over [node.args], lines 110-135. *)
Definition check_arg (sink_name : string) (lineno : Z) (st : analyzer)
    (arg : node) : analyzer :=
  let arg_repr := _get_node_repr arg in
  if _is_taint_source arg then
    add_flow st (Flow arg_repr sink_name lineno lineno "critical" "direct" None)
  else
    match _get_variable_name arg with
    | Some var_name =>
        if nonempty_str var_name &&
           bool_decide (var_name ∈ current_tainted_vars st)
        then
          let source_line :=
            match var_assignments st !! var_name with
            | Some l => l
            | None => lineno
            end in
          add_flow st (Flow arg_repr sink_name source_line lineno "critical"
                         "variable_flow" (Some var_name))
        else st
    | None => st
    end.

(** The body of [visit_Call] before its [generic_visit], lines 99-135. *)
Definition call_effect (lineno : Z) (func : node) (args : list node)
    (st : analyzer) : analyzer :=
  match _is_taint_sink func with
  | Some sink_name =>
      let st :=
        Analyzer (taint_sources st)
          (taint_sinks st ++ [SinkEntry sink_name lineno (map _get_node_repr args)])
          (taint_flows st) (current_tainted_vars st) (var_assignments st) in
      fold_left (check_arg sink_name lineno) args st
  | None => st
  end.

(** The visitor: [visit_Assign] and [visit_Call] for their node classes,
    [generic_visit] (the children in field order) for every node. *)
Fixpoint visit (n : node) (st : analyzer) : analyzer :=
  let generic_visit (children : list node) (st : analyzer) : analyzer :=
    fold_left (fun st c => visit c st) children st in
  match n with
  | Name _ => st
  | Constant _ => st
  | Attribute value _ => visit value st
  | Subscript value index => visit index (visit value st)
  | BinOp l r => visit r (visit l st)
  | Call lineno func args keywords =>
      let st := call_effect lineno func args st in
      generic_visit keywords (generic_visit args (visit func st))
  | Assign lineno targets value =>
      let st := assign_effect lineno targets value st in
      visit value (generic_visit targets st)
  | Other children => generic_visit children st
  end.

Definition visit_all (ns : list node) (st : analyzer) : analyzer :=
  fold_left (fun st c => visit c st) ns st.

(** [analyze], lines 166-188. *)
Definition analyze (ast_tree : option node) : list flow :=
  match ast_tree with
  | None => []
  | Some tree => taint_flows (visit tree new_analyzer)
  end.

(** A node with no call and no assignment inside: visiting it changes
    nothing. *)
Fixpoint inert (n : node) : bool :=
  match n with
  | Name _ => true
  | Constant _ => true
  | Attribute value _ => inert value
  | Subscript value index => inert value && inert index
  | BinOp l r => inert l && inert r
  | Call _ _ _ _ => false
  | Assign _ _ _ => false
  | Other children => forallb inert children
  end.

(** ** Induction over nodes *)

Section NodeInd.
Variable P : node -> Prop.
Hypothesis HName : forall id, P (Name id).
Hypothesis HAttribute : forall value attr, P value -> P (Attribute value attr).
Hypothesis HSubscript : forall value index, P value -> P index -> P (Subscript value index).
Hypothesis HCall : forall lineno func args keywords,
  P func -> Forall P args -> Forall P keywords -> P (Call lineno func args keywords).
Hypothesis HBinOp : forall l r, P l -> P r -> P (BinOp l r).
Hypothesis HConstant : forall repr, P (Constant repr).
Hypothesis HAssign : forall lineno targets value,
  Forall P targets -> P value -> P (Assign lineno targets value).
Hypothesis HOther : forall children, Forall P children -> P (Other children).

Fixpoint node_nested_ind (n : node) : P n :=
  let all :=
    fix all (ns : list node) : Forall P ns :=
      match ns with
      | [] => @List.Forall_nil _ P
      | x :: ns' => @List.Forall_cons _ P x ns' (node_nested_ind x) (all ns')
      end in
  match n with
  | Name id => HName id
  | Attribute value attr => HAttribute value attr (node_nested_ind value)
  | Subscript value index =>
      HSubscript value index (node_nested_ind value) (node_nested_ind index)
  | Call lineno func args keywords =>
      HCall lineno func args keywords (node_nested_ind func) (all args) (all keywords)
  | BinOp l r => HBinOp l r (node_nested_ind l) (node_nested_ind r)
  | Constant repr => HConstant repr
  | Assign lineno targets value =>
      HAssign lineno targets value (all targets) (node_nested_ind value)
  | Other children => HOther children (all children)
  end.
End NodeInd.

(** ** What a visit keeps *)

Lemma fold_visit_preserves (Q : analyzer -> Prop) ns :
  Forall (fun n => forall st, Q st -> Q (visit n st)) ns ->
  forall st, Q st -> Q (fold_left (fun st c => visit c st) ns st).
Proof.
  induction 1 as [|n ns Hn _ IH]; intros st Hst; cbn [fold_left]; auto.
Qed.

Lemma visit_preserves (Q : analyzer -> Prop) :
  (forall l f a st, Q st -> Q (call_effect l f a st)) ->
  (forall l t v st, Q st -> Q (assign_effect l t v st)) ->
  forall n st, Q st -> Q (visit n st).
Proof.
  intros Hcall Hassign n.
  induction n using node_nested_ind; intros st Hst; cbn [visit]; auto.
  - apply fold_visit_preserves; [assumption|].
    apply fold_visit_preserves; [assumption|]. auto.
  - apply IHn. apply fold_visit_preserves; [assumption|]. auto.
  - apply fold_visit_preserves; assumption.
Qed.

Lemma visit_all_preserves (Q : analyzer -> Prop) :
  (forall l f a st, Q st -> Q (call_effect l f a st)) ->
  (forall l t v st, Q st -> Q (assign_effect l t v st)) ->
  forall ns st, Q st -> Q (visit_all ns st).
Proof.
  intros Hcall Hassign ns st Hst. unfold visit_all.
  apply fold_visit_preserves; [|exact Hst].
  apply Forall_forall. intros n _ st'. now apply visit_preserves.
Qed.

Lemma check_arg_vars sink_name l st arg :
  current_tainted_vars (check_arg sink_name l st arg) = current_tainted_vars st /\
  var_assignments (check_arg sink_name l st arg) = var_assignments st.
Proof.
  unfold check_arg. destruct (_is_taint_source arg); [auto|].
  destruct (_get_variable_name arg) as [vn|]; [|auto].
  destruct (nonempty_str vn && _); auto.
Qed.

Lemma fold_check_arg_vars sink_name l args st :
  current_tainted_vars (fold_left (check_arg sink_name l) args st) = current_tainted_vars st /\
  var_assignments (fold_left (check_arg sink_name l) args st) = var_assignments st.
Proof.
  revert st. induction args as [|x xs IH]; intros st; cbn [fold_left]; [auto|].
  destruct (IH (check_arg sink_name l st x)) as [-> ->].
  apply check_arg_vars.
Qed.

Lemma call_effect_vars l f a st :
  current_tainted_vars (call_effect l f a st) = current_tainted_vars st /\
  var_assignments (call_effect l f a st) = var_assignments st.
Proof.
  unfold call_effect. destruct (_is_taint_sink f) as [sink_name|]; [|auto].
  match goal with |- context [fold_left _ a ?s0] =>
    destruct (fold_check_arg_vars sink_name l a s0) as [-> ->] end.
  auto.
Qed.

Lemma assign_effect_tainted l t v st x :
  x ∈ current_tainted_vars st -> x ∈ current_tainted_vars (assign_effect l t v st).
Proof.
  unfold assign_effect.
  match goal with |- context [if ?b then _ else st] => destruct b; [|auto] end.
  revert st.
  induction t as [|y ys IH]; intros s0 Hx; cbn [fold_left]; [auto|].
  apply IH. unfold taint_target. destruct (_get_variable_name y) as [vn|]; [|auto].
  destruct (nonempty_str vn); [|auto]. cbn. set_solver.
Qed.

(** A tainted variable stays tainted: nothing ever leaves the set. *)
Lemma tainted_stays n st x :
  x ∈ current_tainted_vars st -> x ∈ current_tainted_vars (visit n st).
Proof.
  apply (visit_preserves (fun st => x ∈ current_tainted_vars st)).
  - intros l f a st' H. now rewrite (proj1 (call_effect_vars l f a st')).
  - intros l t v st'. apply assign_effect_tainted.
Qed.

Lemma tainted_stays_all ns st x :
  x ∈ current_tainted_vars st -> x ∈ current_tainted_vars (visit_all ns st).
Proof.
  apply (visit_all_preserves (fun st => x ∈ current_tainted_vars st)).
  - intros l f a st' H. now rewrite (proj1 (call_effect_vars l f a st')).
  - intros l t v st'. apply assign_effect_tainted.
Qed.

Lemma visit_inert n st : inert n = true -> visit n st = st.
Proof.
  revert st. induction n using node_nested_ind; intros st Hin;
    cbn [inert] in Hin; cbn [visit]; try discriminate; auto.
  - apply andb_true_iff in Hin as [H1 H2]. now rewrite IHn1, IHn2.
  - apply andb_true_iff in Hin as [H1 H2]. now rewrite IHn1, IHn2.
  - revert st. induction H as [|c cs Hc _ IH]; intros st; cbn [fold_left]; [reflexivity|].
    cbn [forallb] in Hin. apply andb_true_iff in Hin as [H1 H2].
    rewrite Hc by assumption. now apply IH.
Qed.

Lemma visit_all_inert ns st : forallb inert ns = true -> visit_all ns st = st.
Proof.
  intros H. change (visit_all ns st) with (visit (Other ns) st).
  now apply visit_inert.
Qed.

Lemma sink_func_inert func sink_name :
  _is_taint_sink func = Some sink_name -> inert func = true.
Proof.
  destruct func as [id|value attr| | | | | |]; cbn; try discriminate; [reflexivity|].
  destruct value; try discriminate. reflexivity.
Qed.

(** The assignment [v = sys.argv[index]] on line [L1] taints [v] and records
    [L1] for it. *)
Lemma argv_assignment_taints st v index L1 :
  v <> EmptyString -> inert index = true ->
  let st1 := visit (Assign L1 [Name v] (Subscript (Attribute (Name "sys") "argv") index)) st in
  v ∈ current_tainted_vars st1 /\ var_assignments st1 !! v = Some L1 /\
  taint_flows st1 = taint_flows st.
Proof.
  intros Hv Hidx st1. unfold st1. cbn [visit fold_left].
  rewrite (visit_inert index) by exact Hidx.
  unfold assign_effect.
  change (_is_taint_source (Subscript (Attribute (Name "sys") "argv") index)) with true.
  cbn [negb fold_left]. unfold taint_target. cbn [_get_variable_name].
  assert (Hne : nonempty_str v = true) by (destruct v; [congruence | reflexivity]).
  rewrite Hne. cbn [current_tainted_vars var_assignments taint_flows].
  split; [set_solver|]. split; [apply lookup_insert_eq | reflexivity].
Qed.

(** The sink call [func(v, ...)] on line [L2], reached with [v] tainted and
    recorded on line [L1], appends one flow and nothing else. *)
Lemma sink_call_emits_one st v L1 L2 func keywords sink_name :
  v <> EmptyString ->
  _is_taint_sink func = Some sink_name ->
  forallb inert keywords = true ->
  v ∈ current_tainted_vars st ->
  var_assignments st !! v = Some L1 ->
  taint_flows (visit (Call L2 func [Name v] keywords) st) =
  (taint_flows st ++
     [Flow v sink_name L1 L2 "critical" "variable_flow" (Some v)])%list.
Proof.
  intros Hv Hsink Hkw Hin Hl1. cbn [visit].
  fold (visit_all keywords). rewrite visit_all_inert by exact Hkw.
  cbn [fold_left visit].
  rewrite (visit_inert func) by (eapply sink_func_inert; eauto).
  unfold call_effect. rewrite Hsink. cbn [fold_left]. unfold check_arg.
  cbn [_is_taint_source _get_variable_name].
  assert (Hne : nonempty_str v = true) by (destruct v; [congruence | reflexivity]).
  rewrite Hne. cbn [andb current_tainted_vars var_assignments].
  rewrite bool_decide_eq_true_2 by exact Hin.
  rewrite Hl1. reflexivity.
Qed.

(** [assigns v n]: some assignment inside [n] has a target named [v]. *)
Fixpoint assigns (v : string) (n : node) : bool :=
  match n with
  | Name _ => false
  | Constant _ => false
  | Attribute value _ => assigns v value
  | Subscript value index => assigns v value || assigns v index
  | BinOp l r => assigns v l || assigns v r
  | Call _ func args keywords =>
      assigns v func || existsb (assigns v) args || existsb (assigns v) keywords
  | Assign _ targets value =>
      existsb (fun t => match _get_variable_name t with
                        | Some w => String.eqb w v
                        | None => false
                        end) targets
      || existsb (assigns v) targets || assigns v value
  | Other children => existsb (assigns v) children
  end.

Lemma fold_taint_target_other l value targets st v :
  existsb (fun t => match _get_variable_name t with
                    | Some w => String.eqb w v
                    | None => false
                    end) targets = false ->
  var_assignments (fold_left (taint_target l value) targets st) !! v
  = var_assignments st !! v.
Proof.
  revert st. induction targets as [|t ts IH]; intros st H; cbn [fold_left]; [reflexivity|].
  cbn [existsb] in H. apply orb_false_iff in H as [Ht Hts].
  rewrite IH by exact Hts. unfold taint_target.
  destruct (_get_variable_name t) as [w|]; [|reflexivity].
  destruct (nonempty_str w); [|reflexivity]. cbn [var_assignments].
  apply String.eqb_neq in Ht. now rewrite lookup_insert_ne.
Qed.

(** Statements that do not assign [v] leave the line recorded for it. *)
Lemma visit_keeps_assignment n st v :
  assigns v n = false ->
  var_assignments (visit n st) !! v = var_assignments st !! v.
Proof.
  assert (Hlist : forall ns,
    Forall (fun n => forall st, assigns v n = false ->
                     var_assignments (visit n st) !! v = var_assignments st !! v) ns ->
    forall st, existsb (assigns v) ns = false ->
    var_assignments (fold_left (fun st c => visit c st) ns st) !! v
    = var_assignments st !! v).
  { clear st. induction 1 as [|c cs Hc _ IH]; intros st H; cbn [fold_left]; [reflexivity|].
    cbn [existsb] in H. apply orb_false_iff in H as [H1 H2].
    rewrite IH by exact H2. now apply Hc. }
  revert st. induction n using node_nested_ind; intros st Hn;
    cbn [assigns] in Hn; cbn [visit]; auto.
  - apply orb_false_iff in Hn as [H1 H2]. rewrite IHn2, IHn1; auto.
  - apply orb_false_iff in Hn as [Hn H3]. apply orb_false_iff in Hn as [H1 H2].
    rewrite !Hlist, IHn by assumption.
    now rewrite (proj2 (call_effect_vars _ _ _ st)).
  - apply orb_false_iff in Hn as [H1 H2]. rewrite IHn2, IHn1; auto.
  - apply orb_false_iff in Hn as [Hn H3]. apply orb_false_iff in Hn as [H1 H2].
    rewrite IHn, Hlist by assumption.
    unfold assign_effect.
    match goal with |- context [if ?b then _ else st] => destruct b; [|reflexivity] end.
    now apply fold_taint_target_other.
Qed.

Lemma visit_all_keeps_assignment ns st v :
  existsb (assigns v) ns = false ->
  var_assignments (visit_all ns st) !! v = var_assignments st !! v.
Proof.
  intros H. change (visit_all ns st) with (visit (Other ns) st).
  now apply visit_keeps_assignment.
Qed.

(** From any state: [v = sys.argv[index]] on line [L1], then statements
    that do not assign [v], then the sink call [func(v, ...)] on line [L2].
    The call appends exactly one flow. *)
Lemma py_variable_flow st v index L1 mid L2 func keywords sink_name :
  v <> EmptyString ->
  inert index = true ->
  existsb (assigns v) mid = false ->
  _is_taint_sink func = Some sink_name ->
  forallb inert keywords = true ->
  let st1 := visit (Assign L1 [Name v] (Subscript (Attribute (Name "sys") "argv") index)) st in
  let st2 := visit_all mid st1 in
  taint_flows (visit (Call L2 func [Name v] keywords) st2) =
  (taint_flows st2 ++
     [Flow v sink_name L1 L2 "critical" "variable_flow" (Some v)])%list.
Proof.
  intros Hv Hidx Hmid Hsink Hkw st1 st2.
  destruct (argv_assignment_taints st v index L1 Hv Hidx) as (Hin & Hl1 & _).
  fold st1 in Hin, Hl1.
  apply sink_call_emits_one; auto.
  - unfold st2. now apply tainted_stays_all.
  - unfold st2. now rewrite visit_all_keeps_assignment.
Qed.

End Analyzer.

(** The key of a flow of this analyzer: its flows carry no rule id, the
    sink name stands for the rule. *)
Definition flow_key (f : flow) : Z * Z * string * string :=
  (source_line f, sink_line f, default "direct" (tainted_var f), sink f).

(** A stand-in for [ast.dump] in the concrete runs below (no run reaches it
    with a node whose text matters). *)
Definition dump_stub (n : node) : string := "<ast>".

Definition argv1 : node :=
  Subscript (Attribute (Name "sys") "argv") (Constant "1").

(** [x = sys.argv[1]] / [x = input()] / [os.system(x)] on lines 1, 2, 3. *)
Definition retainted_program : node :=
  Other [Assign 1 [Name "x"] argv1;
         Assign 2 [Name "x"] (Call 2 (Name "input") [] []);
         Other [Call 3 (Attribute (Name "os") "system") [Name "x"] []]].

(** [x = sys.argv[1]] / [os.system(x, x)] on lines 1, 2. *)
Definition repeated_argument_program : node :=
  Other [Assign 1 [Name "x"] argv1;
         Other [Call 2 (Attribute (Name "os") "system") [Name "x"; Name "x"] []]].

(** [user_input = sys.argv[1]] / [os.system(user_input)] on lines 3, 4. *)
Definition scenario_program : node :=
  Other [Assign 3 [Name "user_input"] argv1;
         Other [Call 4 (Attribute (Name "os") "system") [Name "user_input"] []]].

Example scenario_run :
  analyze dump_stub (Some scenario_program) =
  [Flow "user_input" "os.system" 3 4 "critical" "variable_flow" (Some "user_input")].
Proof. vm_compute. reflexivity. Qed.

End PyTaint.

(* ===================================================================== *)
(** * engines/static/go_taint_analysis.py, java_taint_analysis.py *)
(* ===================================================================== *)

(** The Go and the Java analyzers are the same line-by-line loop; they
    differ in their tables of source and sink patterns and in
    [_extract_assigned_vars].  The loop is embedded once, over a language
    [profile]. *)
Module LineTaint.
Import PyStr.

(** ** [_strip_comments], lines 13-39 *)

(** The inner [while True] loop on one line: the text left of the line and
    whether a block comment is still open.  Every turn of the loop removes
    at least two characters, so the length of the line (plus one) is fuel
    enough. *)
Fixpoint strip_block_comments (fuel : nat) (in_block : bool) (current : string)
    : string * bool :=
  match fuel with
  | O => (current, in_block)
  | S fuel' =>
      if in_block then
        match find_from "*/" current 0 with
        | None => (EmptyString, true)
        | Some e => strip_block_comments fuel' false (drop_str (e + 2) current)
        end
      else
        match find_from "/*" current 0 with
        | Some start =>
            match find_from "*/" current (start + 2) with
            | None => (take_str start current, true)
            | Some e =>
                strip_block_comments fuel' false
                  (take_str start current ++ drop_str (e + 2) current)
            end
        | None => (current, false)
        end
  end.

Definition _strip_comments (lines : list string) : list string :=
  fst (fold_left
         (fun (acc : list string * bool) line =>
            let '(cleaned, in_block) := acc in
            let '(current, in_block) :=
              strip_block_comments (S (String.length line)) in_block line in
            let current := before_first "//" current in
            ((cleaned ++ [current])%list, in_block))
         lines ([], false)).

(** ** Patterns and helpers *)

Record sink_info := SinkInfo {
  rule_id : string;
  rule_name : string;
  rule_severity : string
}.

Record profile := Profile {
  taint_sources : list Re.regex;
  sink_rules : list (Re.regex * sink_info);
  _extract_assigned_vars : string -> list string * option string
}.

(** [(?<![\w\.])] + [re.escape(var_name)] + [(?![\w])]. *)
Definition var_pattern (var_name : string) : Re.regex :=
  Re.cat [Re.RNotBehind false (Re.chr "." :: Re.cls_word);
          Re.lit var_name;
          Re.RNotAhead (Re.RClass false Re.cls_word)].

(** [_line_contains_var], lines 65-69. *)
Definition _line_contains_var (text var_name : string) : bool :=
  if negb (nonempty_str var_name) then false
  else match Re.search (var_pattern var_name) text with
       | Some _ => true
       | None => false
       end.

(** The value stored for a tainted variable. *)
Record origin := Origin {
  o_source_line : Z;
  o_source_code : string
}.

(** [tainted_vars]: a dictionary read in insertion order. *)
Definition dict : Type := list (string * origin).

Fixpoint dict_get (k : string) (d : dict) : option origin :=
  match d with
  | [] => None
  | (k', v) :: d' => if String.eqb k k' then Some v else dict_get k d'
  end.

(** [d[k] = v]: in place when the key is there, at the end otherwise. *)
Fixpoint dict_set (k : string) (v : origin) (d : dict) : dict :=
  match d with
  | [] => [(k, v)]
  | (k', v') :: d' =>
      if String.eqb k k' then (k, v) :: d' else (k', v') :: dict_set k v d'
  end.

(** [_find_taint_origin], lines 72-76. *)
Fixpoint _find_taint_origin (rhs : string) (tainted_vars : dict) : option origin :=
  match tainted_vars with
  | [] => None
  | (var_name, o) :: rest =>
      if _line_contains_var rhs var_name then Some o
      else _find_taint_origin rhs rest
  end.

(** ** The loop of [analyze] *)

Record flow := Flow {
  source_line : Z;
  source_code : string;
  sink_line : Z;
  sink_code : string;
  flow_rule_id : string;
  flow_rule_name : string;
  severity : string;
  line_no : Z;
  matched_text : string;
  description : string
}.

(** The de-duplication key [(source_line, sink_line, var-or-'direct', rule_id)]. *)
Definition key : Type := Z * Z * string * string.

Definition key_source_line (k : key) : Z := k.1.1.1.
Definition key_sink_line (k : key) : Z := k.1.1.2.
Definition key_var (k : key) : string := k.1.2.
Definition key_rule (k : key) : string := k.2.

(** The variables of the loop.  [emitted] is [taint_flows] with, beside
    each flow, the key the code computed when it appended it. *)
Record state := State {
  tainted_vars : dict;
  seen_flows : gset key;
  emitted : list (key * flow)
}.

Definition taint_flows (st : state) : list flow := map snd (emitted st).

Definition init : state := State [] ∅ [].

(** [sources_present], line 159, as a truth value. *)
Definition sources_present (P : profile) (line : string) : bool :=
  nonempty (List.filter (fun p => bool_decide (is_Some (Re.search p line))) (taint_sources P)).

(** Lines 162-172: what the line does to [tainted_vars]. *)
Definition taint_assignments (P : profile) (i : Z) (line : string)
    (tainted_vars : dict) : dict :=
  let '(assigned_vars, rhs) := _extract_assigned_vars P line in
  if sources_present P line && nonempty assigned_vars then
    fold_left (fun d var_name => dict_set var_name (Origin i line) d)
      assigned_vars tainted_vars
  else if nonempty assigned_vars &&
          match rhs with Some r => nonempty_str r | None => false end then
    match _find_taint_origin (default EmptyString rhs) tainted_vars with
    | Some o => fold_left (fun d var_name => dict_set var_name o d)
                  assigned_vars tainted_vars
    | None => tainted_vars
    end
  else tainted_vars.

(** Lines 174-181: the first sink rule that matches, and the matched text. *)
Fixpoint first_sink (rules : list (Re.regex * sink_info)) (line : string)
    : option (sink_info * string) :=
  match rules with
  | [] => None
  | (pattern, info) :: rest =>
      match Re.search pattern line with
      | Some m => Some (info, Re.group0 line m)
      | None => first_sink rest line
      end
  end.

(** [if key not in seen_flows: taint_flows.append(...); seen_flows.add(key)]. *)
Definition emit (k : key) (f : flow) (st : state) : state :=
  if bool_decide (k ∈ seen_flows st) then st
  else State (tainted_vars st) ({[k]} ∪ seen_flows st) (emitted st ++ [(k, f)]).

Definition or_line (matched_text line : string) : string :=
  if nonempty_str matched_text then matched_text else line.

Definition direct_flow (i : Z) (line : string) (info : sink_info) (mt : string) : flow :=
  Flow i line i line (rule_id info) (rule_name info) (rule_severity info) i
    (or_line mt line)
    ("Taint source on line " ++ pretty i ++ " flows to sink on line " ++ pretty i).

Definition variable_flow (i : Z) (line : string) (info : sink_info) (mt : string)
    (o : origin) : flow :=
  Flow (o_source_line o) (o_source_code o) i line
    (rule_id info) (rule_name info) (rule_severity info) i
    (or_line mt line)
    ("Taint data from line " ++ pretty (o_source_line o)
       ++ " flows to sink at line " ++ pretty i).

(** Lines 204-226: one turn of the loop over [tainted_vars.items()]. *)
Definition emit_variable (i : Z) (line : string) (info : sink_info) (mt : string)
    (st : state) (entry : string * origin) : state :=
  let '(var_name, o) := entry in
  if negb (_line_contains_var line var_name) then st
  else emit (o_source_line o, i, var_name, rule_id info)
         (variable_flow i line info mt o) st.

(** Lines 174-226: the flows of a line, once [tainted_vars] is updated. *)
Definition emit_flows (P : profile) (i : Z) (line : string) (st : state) : state :=
  let matched := first_sink (sink_rules P) line in
  if bool_decide (matched = None) &&
     negb (existsb (fun pi => bool_decide (is_Some (Re.search (fst pi) line))) (sink_rules P))
  then st
  else
    match matched with
    | None => st
    | Some (info, mt) =>
        let st :=
          if sources_present P line
          then emit (i, i, "direct", rule_id info) (direct_flow i line info mt) st
          else st in
        fold_left (emit_variable i line info mt) (tainted_vars st) st
    end.

(** The body of [for i, raw_line in enumerate(lines, 1)]. *)
Definition process_line (P : profile) (st : state) (entry : Z * string) : state :=
  let '(i, raw_line) := entry in
  let line := strip raw_line in
  if negb (nonempty_str line) then st
  else
    let st := State (taint_assignments P i line (tainted_vars st))
                (seen_flows st) (emitted st) in
    emit_flows P i line st.

Fixpoint enumerate_from {A} (i : Z) (l : list A) : list (Z * A) :=
  match l with
  | [] => []
  | x :: l' => (i, x) :: enumerate_from (i + 1) l'
  end.

Definition run_from (P : profile) (i : Z) (lines : list string) (st : state) : state :=
  fold_left (process_line P) (enumerate_from i lines) st.

Definition run (P : profile) (lines : list string) : state :=
  run_from P 1 lines init.

(** [analyze], on the text [parse_*_file] read from the file; [None] is a
    file that could not be read. *)
Definition analyze (P : profile) (source_code : option string) : list flow :=
  match source_code with
  | None => []
  | Some code => taint_flows (run P (_strip_comments (split_char newline code)))
  end.

(** ** The Go tables, go_taint_analysis.py lines 42-62 and 99-147 *)

Definition split_vars (pick : list string -> option string) (lhs : string) : list string :=
  fold_left
    (fun (vars_found : list string) part =>
       let part := strip part in
       if negb (nonempty_str part) then vars_found
       else
         let var_name := default EmptyString (pick (split_ws part)) in
         if String.eqb var_name "_" then vars_found
         else (vars_found ++ [var_name])%list)
    (split_char "," lhs) [].

Definition not_behind_cmp : Re.regex :=
  Re.RNotBehind false [Re.chr "="; Re.chr "!"; Re.chr "<"; Re.chr ">"].

Definition spaces1 : Re.regex := Re.spaces1.
Definition spaces0 : Re.regex := Re.spaces0.

(** [:=|(?<![=!<>])=(?![=])]. *)
Definition go_assign_re : Re.regex :=
  Re.RAlt (Re.lit ":=")
    (Re.cat [not_behind_cmp; Re.RChar "=";
             Re.RNotAhead (Re.RClass false [Re.chr "="])]).

Definition go_extract_assigned_vars (line : string) : list string * option string :=
  match Re.search go_assign_re line with
  | None => ([], None)
  | Some m =>
      let lhs := strip (take_str (Re.m_start m) line) in
      let rhs := strip (drop_str (Re.m_end m) line) in
      let lhs := Re.sub_empty
        (Re.cat [Re.RBol; Re.RGroup 1 (Re.alt [Re.lit "if"; Re.lit "for"; Re.lit "switch"]);
                 spaces1]) lhs in
      let lhs := Re.sub_empty (Re.lit "range ") lhs in
      let lhs := Re.sub_empty (Re.cat [Re.RBol; Re.lit "var"; spaces1]) lhs in
      (split_vars head lhs, Some rhs)
  end.

Definition go_profile : profile :=
  Profile
    [Re.lit "os.Args"; Re.lit "flag.String("; Re.lit "flag.Int("; Re.lit "flag.Bool(";
     Re.lit "http.Request.FormValue("; Re.lit "http.Request.PostFormValue(";
     Re.lit "http.Request.Header.Get("; Re.lit "c.Query("; Re.lit "c.Param("]
    [(Re.lit "exec.CommandContext(",
      SinkInfo "go_rce_exec_command" "Go RCE - exec.CommandContext" "critical");
     (Re.lit "exec.Command(",
      SinkInfo "go_rce_exec_command" "Go RCE - exec.Command" "critical");
     (Re.lit "exec.Run(",
      SinkInfo "go_rce_exec_command" "Go RCE - exec.Run" "critical");
     (Re.cat [Re.RGroup 1 (Re.alt [Re.lit "os"; Re.lit "syscall"]); Re.lit ".Exec("],
      SinkInfo "go_os_exec" "Go RCE - os/exec Usage" "critical");
     (Re.cat [Re.lit "sql.DB."; Re.RGroup 1 (Re.alt [Re.lit "Query"; Re.lit "Exec"]);
              Re.RChar "("],
      SinkInfo "go_sql_injection" "Go SQL Injection - String Concatenation" "high");
     (Re.cat [Re.lit "os.";
              Re.RGroup 1 (Re.alt [Re.lit "OpenFile"; Re.lit "Create"; Re.lit "WriteFile"]);
              Re.RChar "("],
      SinkInfo "go_file_write" "Go File Write Operation" "medium");
     (Re.lit "net.Dial(",
      SinkInfo "go_network_dial" "Go Network - net.Dial()" "medium")]
    go_extract_assigned_vars.

(** ** The Java tables, java_taint_analysis.py lines 42-59 and 96-137 *)

(** [(?<![=!<>])=(?![=])]. *)
Definition java_assign_re : Re.regex :=
  Re.cat [not_behind_cmp; Re.RChar "="; Re.RNotAhead (Re.RClass false [Re.chr "="])].

Definition java_extract_assigned_vars (line : string) : list string * option string :=
  match Re.search java_assign_re line with
  | None => ([], None)
  | Some m =>
      let lhs := strip (take_str (Re.m_start m) line) in
      let rhs := strip (drop_str (Re.m_end m) line) in
      (split_vars last lhs, Some rhs)
  end.

Definition java_profile : profile :=
  Profile
    [Re.lit "System.in"; Re.cat [Re.lit "args"; spaces0; Re.RChar "["];
     Re.lit "request.getParameter("; Re.lit "request.getHeader(";
     Re.lit "request.getQueryString("; Re.lit "request.getCookies(";
     Re.lit "session.getAttribute("]
    [(Re.lit "Runtime.getRuntime().exec(",
      SinkInfo "java_rce_runtime_exec" "Java RCE - Runtime.exec()" "critical");
     (Re.RAlt (Re.cat [Re.lit "new"; spaces1; Re.lit "ProcessBuilder("])
              (Re.lit "ProcessBuilder("),
      SinkInfo "java_rce_processbuilder" "Java RCE - ProcessBuilder" "critical");
     (Re.cat [Re.RGroup 1 (Re.alt [Re.lit "Statement"; Re.lit "PreparedStatement"]);
              Re.lit ".execute";
              Re.RGroup 2 (Re.alt [Re.lit "Query"; Re.lit "Update"; Re.REmpty]);
              Re.RChar "("],
      SinkInfo "java_sql_injection" "Java SQL Injection - String Concatenation" "high");
     (Re.cat [Re.RGroup 1 (Re.alt [Re.lit "FileWriter"; Re.lit "FileOutputStream";
                                   Re.lit "PrintWriter"]);
              Re.RChar "("],
      SinkInfo "java_file_operation" "Java File Operation" "medium");
     (Re.RAlt
        (Re.cat [Re.RGroup 1 (Re.alt [Re.lit "Socket"; Re.lit "URL";
                                      Re.lit "HttpURLConnection"]);
                 spaces0; Re.RChar "("])
        (Re.cat [Re.lit ".connect"; spaces0; Re.RChar "("]),
      SinkInfo "java_network_connection" "Java Network Connection" "medium");
     (Re.cat [Re.RGroup 1 (Re.alt [Re.lit "ObjectInputStream"; Re.lit "readObject";
                                   Re.lit "readUnshared"]);
              spaces0; Re.RChar "("],
      SinkInfo "java_deserialization" "Java Deserialization Risk" "high")]
    java_extract_assigned_vars.

(** ** The dictionary *)

Lemma dict_get_set_eq k v d : dict_get k (dict_set k v d) = Some v.
Proof.
  induction d as [|[k' v'] d IH]; cbn.
  - now rewrite String.eqb_refl.
  - destruct (String.eqb k k') eqn:E; cbn; rewrite ?String.eqb_refl, ?E; auto.
Qed.

Lemma dict_get_set_ne k k' v d : k <> k' -> dict_get k (dict_set k' v d) = dict_get k d.
Proof.
  intros Hne. induction d as [|[k2 v2] d IH]; cbn.
  - destruct (String.eqb k k') eqn:E; [apply String.eqb_eq in E; congruence | reflexivity].
  - destruct (String.eqb k' k2) eqn:E; cbn.
    + apply String.eqb_eq in E. subst k2.
      destruct (String.eqb k k') eqn:E'; [apply String.eqb_eq in E'; congruence | reflexivity].
    + destruct (String.eqb k k2); auto.
Qed.

Lemma dict_set_keys k v d :
  map fst (dict_set k v d) =
  if bool_decide (k ∈ map fst d) then map fst d else (map fst d ++ [k])%list.
Proof.
  induction d as [|[k' v'] d IH]; cbn; [reflexivity|].
  destruct (String.eqb k k') eqn:E.
  - apply String.eqb_eq in E. subst k'. cbn.
    rewrite bool_decide_eq_true_2 by (left). reflexivity.
  - apply String.eqb_neq in E. cbn. rewrite IH.
    destruct (bool_decide (k ∈ map fst d)) eqn:B.
    + apply bool_decide_eq_true in B.
      rewrite bool_decide_eq_true_2 by (now right). reflexivity.
    + apply bool_decide_eq_false in B.
      rewrite bool_decide_eq_false_2; [reflexivity|].
      rewrite elem_of_cons. intros [?|?]; congruence.
Qed.

Lemma dict_set_nodup k v d : NoDup (map fst d) -> NoDup (map fst (dict_set k v d)).
Proof.
  intros H. rewrite dict_set_keys. case_bool_decide as B; [exact H|].
  apply NoDup_app. split; [exact H|]. split; [|apply NoDup_singleton].
  intros x Hx Hx'. apply list_elem_of_singleton in Hx'. subst. contradiction.
Qed.

Lemma dict_get_In k o d : NoDup (map fst d) -> (dict_get k d = Some o <-> In (k, o) d).
Proof.
  induction d as [|[k' v'] d IH]; cbn; intros Hnd; [split; [discriminate | tauto]|].
  apply NoDup_cons in Hnd as [Hk Hnd].
  destruct (String.eqb k k') eqn:E.
  - apply String.eqb_eq in E. subst k'. split.
    + intros [= ->]. now left.
    + intros [[= ->] | Hin]; [reflexivity|].
      exfalso. apply Hk. apply list_elem_of_In, in_map_iff. now exists (k, o).
  - apply String.eqb_neq in E. rewrite (IH Hnd). split; [tauto|].
    intros [[= -> ->] | Hin]; [congruence | exact Hin].
Qed.

Lemma fold_dict_set_get vars o d v :
  dict_get v (fold_left (fun d var_name => dict_set var_name o d) vars d) =
  if bool_decide (v ∈ vars) then Some o else dict_get v d.
Proof.
  revert d. induction vars as [|w vars IH]; intros d; cbn [fold_left].
  - rewrite bool_decide_eq_false_2 by (apply not_elem_of_nil). reflexivity.
  - rewrite IH. destruct (bool_decide (v ∈ vars)) eqn:B.
    + apply bool_decide_eq_true in B.
      rewrite bool_decide_eq_true_2 by (now right). reflexivity.
    + apply bool_decide_eq_false in B.
      destruct (decide (v = w)) as [->|Hne].
      * rewrite bool_decide_eq_true_2 by (now left). apply dict_get_set_eq.
      * rewrite bool_decide_eq_false_2 by (rewrite elem_of_cons; intros [?|?]; congruence).
        now apply dict_get_set_ne.
Qed.

Lemma fold_dict_set_nodup vars o d :
  NoDup (map fst d) ->
  NoDup (map fst (fold_left (fun d var_name => dict_set var_name o d) vars d)).
Proof.
  revert d. induction vars as [|w vars IH]; intros d H; cbn [fold_left]; [exact H|].
  apply IH. now apply dict_set_nodup.
Qed.

Lemma taint_assignments_nodup P i line d :
  NoDup (map fst d) -> NoDup (map fst (taint_assignments P i line d)).
Proof.
  intros H. unfold taint_assignments.
  destruct (_extract_assigned_vars P line) as [vars rhs].
  destruct (sources_present P line && nonempty vars); [now apply fold_dict_set_nodup|].
  destruct (nonempty vars && _); [|exact H].
  destruct (_find_taint_origin _ d); [now apply fold_dict_set_nodup | exact H].
Qed.

(** A line whose source pattern matches and that assigns [v] sets the
    origin of [v] to that line. *)
Lemma taint_assignments_source P i line d v :
  sources_present P line = true ->
  In v (fst (_extract_assigned_vars P line)) ->
  dict_get v (taint_assignments P i line d) = Some (Origin i line).
Proof.
  intros Hs Hv. unfold taint_assignments.
  destruct (_extract_assigned_vars P line) as [vars rhs]. cbn [fst] in Hv.
  rewrite Hs. destruct vars as [|w vars]; [destruct Hv|]. cbn [nonempty andb].
  rewrite fold_dict_set_get. now rewrite bool_decide_eq_true_2 by (now apply list_elem_of_In).
Qed.

(** A line that does not assign [v] leaves the origin of [v] alone. *)
Lemma taint_assignments_other P i line d v :
  ~ In v (fst (_extract_assigned_vars P line)) ->
  dict_get v (taint_assignments P i line d) = dict_get v d.
Proof.
  intros Hv. unfold taint_assignments.
  destruct (_extract_assigned_vars P line) as [vars rhs]. cbn [fst] in Hv.
  destruct (sources_present P line && nonempty vars).
  - rewrite fold_dict_set_get. now rewrite bool_decide_eq_false_2 by (now rewrite list_elem_of_In).
  - destruct (nonempty vars && _); [|reflexivity].
    destruct (_find_taint_origin _ d); [|reflexivity].
    rewrite fold_dict_set_get. now rewrite bool_decide_eq_false_2 by (now rewrite list_elem_of_In).
Qed.

(** ** Emissions *)

Lemma emit_spec k f st :
  tainted_vars (emit k f st) = tainted_vars st /\
  emitted (emit k f st) =
    (emitted st ++ if bool_decide (k ∈ seen_flows st) then [] else [(k, f)])%list /\
  seen_flows (emit k f st) = {[k]} ∪ seen_flows st.
Proof.
  unfold emit. case_bool_decide as B; cbn.
  - rewrite app_nil_r. repeat split. set_solver.
  - repeat split.
Qed.

(** The key of the flow a tainted variable gives on line [i]. *)
Definition var_key (i : Z) (info : sink_info) (e : string * origin) : key :=
  (o_source_line e.2, i, e.1, rule_id info).

(** The flows the loop over [tainted_vars] appends, given the keys [seen]
    when it starts. *)
Definition variable_emissions (i : Z) (line : string) (info : sink_info)
    (mt : string) (seen : gset key) (d : dict) : list (key * flow) :=
  map (fun e => (var_key i info e, variable_flow i line info mt e.2))
    (List.filter
       (fun e => _line_contains_var line e.1 &&
                 negb (bool_decide (var_key i info e ∈ seen)))
       d).

Lemma emit_variable_spec i line info mt st w o :
  let st1 := emit_variable i line info mt st (w, o) in
  tainted_vars st1 = tainted_vars st /\
  emitted st1 =
    (emitted st ++
     if _line_contains_var line w &&
        negb (bool_decide (var_key i info (w, o) ∈ seen_flows st))
     then [(var_key i info (w, o), variable_flow i line info mt o)] else [])%list /\
  seen_flows st1 =
    (if _line_contains_var line w then {[var_key i info (w, o)]} else ∅) ∪ seen_flows st.
Proof.
  unfold emit_variable, var_key. cbn [fst snd].
  destruct (_line_contains_var line w); cbn [negb andb].
  - destruct (emit_spec (o_source_line o, i, w, rule_id info)
                (variable_flow i line info mt o) st) as (E1 & E2 & E3).
    rewrite E1, E2, E3. repeat split. case_bool_decide; reflexivity.
  - rewrite app_nil_r. repeat split. set_solver.
Qed.

Lemma fold_emit_variable_spec i line info mt d st :
  NoDup (map fst d) ->
  let st' := fold_left (emit_variable i line info mt) d st in
  tainted_vars st' = tainted_vars st /\
  emitted st' = (emitted st ++ variable_emissions i line info mt (seen_flows st) d)%list /\
  seen_flows st' =
    seen_flows st ∪
    list_to_set (map (var_key i info)
                   (List.filter (fun e => _line_contains_var line e.1) d)).
Proof.
  revert st. induction d as [|[w o] d IH]; intros st Hnd; cbn [fold_left].
  - unfold variable_emissions. cbn. rewrite app_nil_r. repeat split. set_solver.
  - cbn [map fst] in Hnd. apply NoDup_cons in Hnd as [Hw Hnd].
    destruct (emit_variable_spec i line info mt st w o) as (E1 & E2 & E3).
    cbv zeta in E1, E2, E3.
    specialize (IH (emit_variable i line info mt st (w, o)) Hnd).
    cbv zeta in IH. destruct IH as (IH1 & IH2 & IH3).
    rewrite IH1, IH2, IH3, E1, E2, E3. clear IH1 IH2 IH3 E1 E2 E3.
    split; [reflexivity|].
    assert (Hext : variable_emissions i line info mt
                     ((if _line_contains_var line w then {[var_key i info (w, o)]} else ∅)
                        ∪ seen_flows st) d =
                   variable_emissions i line info mt (seen_flows st) d).
    { unfold variable_emissions. f_equal.
      apply filter_ext_in. intros [w' o'] Hin. f_equal. f_equal.
      apply bool_decide_ext. unfold var_key. cbn [fst snd].
      assert (w' <> w).
      { intros ->. apply Hw. apply list_elem_of_In, in_map_iff. now exists (w, o'). }
      destruct (_line_contains_var line w); set_solver. }
    rewrite Hext. split.
    + rewrite <- app_assoc. f_equal.
      unfold variable_emissions at 2. cbn [List.filter fst snd].
      destruct (_line_contains_var line w && _); reflexivity.
    + cbn [List.filter fst]. destruct (_line_contains_var line w); cbn; set_solver.
Qed.

Definition direct_key (i : Z) (info : sink_info) : key :=
  (i, i, "direct", rule_id info).

(** The flows a line appends once a sink rule matched. *)
Definition line_emissions (P : profile) (i : Z) (line : string) (info : sink_info)
    (mt : string) (seen : gset key) (d : dict) : list (key * flow) :=
  ((if sources_present P line && negb (bool_decide (direct_key i info ∈ seen))
    then [(direct_key i info, direct_flow i line info mt)] else []) ++
   variable_emissions i line info mt
     (if sources_present P line then {[direct_key i info]} ∪ seen else seen) d)%list.

Lemma emit_flows_spec P i line st :
  NoDup (map fst (tainted_vars st)) ->
  let st' := emit_flows P i line st in
  tainted_vars st' = tainted_vars st /\
  emitted st' =
    (emitted st ++
     match first_sink (sink_rules P) line with
     | Some (info, mt) => line_emissions P i line info mt (seen_flows st) (tainted_vars st)
     | None => []
     end)%list.
Proof.
  intros Hnd. unfold emit_flows.
  destruct (first_sink (sink_rules P) line) as [[info mt]|] eqn:F.
  - rewrite bool_decide_eq_false_2 by discriminate. cbn [andb].
    unfold line_emissions.
    destruct (sources_present P line); cbn [andb].
    + destruct (emit_spec (i, i, "direct", rule_id info) (direct_flow i line info mt) st)
        as (E1 & E2 & E3).
      match goal with |- context [fold_left ?f ?d ?s] =>
        destruct (fold_emit_variable_spec i line info mt d s) as (F1 & F2 & _) end.
      { now rewrite E1. }
      rewrite F1, F2, E1, E2, E3. split; [reflexivity|].
      unfold direct_key. rewrite <- app_assoc. f_equal. f_equal.
      case_bool_decide; reflexivity.
    + destruct (fold_emit_variable_spec i line info mt (tainted_vars st) st Hnd)
        as (F1 & F2 & _).
      rewrite F1, F2. split; reflexivity.
  - destruct (_ && _); cbn; rewrite app_nil_r; split; reflexivity.
Qed.

(** ** The invariant of the loop *)

Definition key_agrees (kf : key * flow) : Prop :=
  key_source_line kf.1 = source_line kf.2 /\
  key_sink_line kf.1 = sink_line kf.2 /\
  key_rule kf.1 = flow_rule_id kf.2.

(** Before line [i]: [seen_flows] holds exactly the keys of the flows
    appended so far, no key twice; these flows are on earlier lines and
    carry the lines and the rule of their key; [tainted_vars] has no key
    twice. *)
Record inv (i : Z) (st : state) : Prop := Inv {
  inv_seen : forall k, k ∈ seen_flows st <-> k ∈ map fst (emitted st);
  inv_nodup : NoDup (map fst (emitted st));
  inv_lines : Forall (fun kf => key_sink_line kf.1 < i) (emitted st);
  inv_agree : Forall key_agrees (emitted st);
  inv_dict : NoDup (map fst (tainted_vars st))
}.

Lemma inv_init i : inv i init.
Proof. split; cbn; try constructor; set_solver. Qed.

Lemma inv_weaken i j st : i <= j -> inv i st -> inv j st.
Proof.
  intros Hij [H1 H2 H3 H4 H5]. split; auto.
  eapply Forall_impl; [exact H3|]. cbn. intros; lia.
Qed.

Lemma emit_inv j k f st :
  key_sink_line k < j -> key_agrees (k, f) -> inv j st -> inv j (emit k f st).
Proof.
  intros Hk Hag [H1 H2 H3 H4 H5]. unfold emit. case_bool_decide as B; [now split|].
  split; cbn [seen_flows emitted tainted_vars]; auto.
  - intros k'. rewrite map_app, elem_of_app, elem_of_union, H1. cbn. set_solver.
  - rewrite map_app. apply NoDup_app. split; [exact H2|]. split; [|apply NoDup_singleton].
    intros x Hx Hx'. cbn in Hx'. apply list_elem_of_singleton in Hx'. subst x.
    apply B. now apply H1.
  - apply Forall_app. split; [exact H3|]. now constructor.
  - apply Forall_app. split; [exact H4|]. now constructor.
Qed.

Lemma fold_emit_variable_inv j i line info mt d st :
  i < j -> inv j st -> inv j (fold_left (emit_variable i line info mt) d st).
Proof.
  intros Hij. revert st. induction d as [|[w o] d IH]; intros st Hinv; cbn [fold_left]; auto.
  apply IH. unfold emit_variable. destruct (negb _); [exact Hinv|].
  apply emit_inv; [exact Hij | | exact Hinv]. repeat split.
Qed.

Lemma emit_flows_inv P j i line st :
  i < j -> inv j st -> inv j (emit_flows P i line st).
Proof.
  intros Hij Hinv. unfold emit_flows.
  destruct (_ && _); [exact Hinv|].
  destruct (first_sink (sink_rules P) line) as [[info mt]|]; [|exact Hinv].
  apply fold_emit_variable_inv; [exact Hij|].
  destruct (sources_present P line); [|exact Hinv].
  apply emit_inv; [exact Hij | | exact Hinv]. repeat split.
Qed.

Lemma process_line_inv P i raw st :
  inv i st -> inv (i + 1) (process_line P st (i, raw)).
Proof.
  intros Hinv. apply (inv_weaken i (i + 1)) in Hinv; [|lia].
  unfold process_line. destruct (negb _); [exact Hinv|].
  apply emit_flows_inv; [lia|].
  destruct Hinv as [H1 H2 H3 H4 H5]. split; cbn [seen_flows emitted tainted_vars]; auto.
  now apply taint_assignments_nodup.
Qed.

Lemma run_from_inv P lines i st :
  inv i st -> inv (i + Z.of_nat (length lines)) (run_from P i lines st).
Proof.
  unfold run_from. revert i st.
  induction lines as [|l lines IH]; intros i st Hinv; cbn [enumerate_from fold_left length].
  - now rewrite Z.add_0_r.
  - replace (i + Z.of_nat (S (length lines))) with ((i + 1) + Z.of_nat (length lines)) by lia.
    apply IH. now apply process_line_inv.
Qed.

Lemma run_from_app P a b i st :
  run_from P i (a ++ b) st =
  run_from P (i + Z.of_nat (length a)) b (run_from P i a st).
Proof.
  unfold run_from. revert i st.
  induction a as [|l a IH]; intros i st; cbn [app enumerate_from fold_left length].
  - now rewrite Z.add_0_r.
  - rewrite IH. f_equal. f_equal. lia.
Qed.

(** What one line appends, and what it does to the dictionary. *)
Lemma process_line_spec P i raw st :
  NoDup (map fst (tainted_vars st)) ->
  let line := strip raw in
  let st' := process_line P st (i, raw) in
  if nonempty_str line then
    tainted_vars st' = taint_assignments P i line (tainted_vars st) /\
    emitted st' =
      (emitted st ++
       match first_sink (sink_rules P) line with
       | Some (info, mt) =>
           line_emissions P i line info mt (seen_flows st)
             (taint_assignments P i line (tainted_vars st))
       | None => []
       end)%list
  else st' = st.
Proof.
  intros Hnd line st'. unfold st', process_line. fold line.
  destruct (nonempty_str line); cbn [negb]; [|reflexivity].
  match goal with |- context [emit_flows P i line ?s] =>
    destruct (emit_flows_spec P i line s) as [E1 E2] end.
  { cbn. now apply taint_assignments_nodup. }
  cbv zeta in E1, E2. rewrite E1, E2. split; reflexivity.
Qed.

Lemma line_emissions_sink_line P i line info mt seen d :
  Forall (fun kf => key_sink_line kf.1 = i) (line_emissions P i line info mt seen d).
Proof.
  unfold line_emissions. apply Forall_app. split.
  - destruct (_ && _); repeat constructor.
  - unfold variable_emissions. apply Forall_forall. intros kf Hin.
    apply list_elem_of_In, in_map_iff in Hin as (e & <- & _). reflexivity.
Qed.

(** Flows are only ever appended, and those of the lines from [i] on have
    their sink on these lines. *)
Lemma run_from_emitted P lines i st :
  NoDup (map fst (tainted_vars st)) ->
  exists new,
    emitted (run_from P i lines st) = (emitted st ++ new)%list /\
    Forall (fun kf => i <= key_sink_line kf.1) new.
Proof.
  unfold run_from. revert i st.
  induction lines as [|l lines IH]; intros i st Hnd; cbn [enumerate_from fold_left].
  - exists []. rewrite app_nil_r. split; [reflexivity | constructor].
  - pose proof (process_line_spec P i l st Hnd) as Hspec. cbv zeta in Hspec.
    assert (Hnd' : NoDup (map fst (tainted_vars (process_line P st (i, l))))).
    { destruct (nonempty_str (strip l)); [|now rewrite Hspec].
      destruct Hspec as [-> _]. now apply taint_assignments_nodup. }
    destruct (IH (i + 1) (process_line P st (i, l)) Hnd') as (new & Hnew & Hall).
    assert (Hstep : exists new0, emitted (process_line P st (i, l)) = (emitted st ++ new0)%list
                            /\ Forall (fun kf => key_sink_line kf.1 = i) new0).
    { destruct (nonempty_str (strip l)).
      - destruct Hspec as [_ ->]. eexists; split; [reflexivity|].
        destruct (first_sink _ _) as [[info mt]|]; [|constructor].
        apply line_emissions_sink_line.
      - rewrite Hspec. exists []. rewrite app_nil_r. split; [reflexivity | constructor]. }
    destruct Hstep as (new0 & Hnew0 & Hall0).
    exists (new0 ++ new)%list. rewrite Hnew, Hnew0, <- app_assoc. split; [reflexivity|].
    apply Forall_app. split.
    + eapply Forall_impl; [exact Hall0|]. cbn. intros; lia.
    + eapply Forall_impl; [exact Hall|]. cbn. intros; lia.
Qed.

(** Lines that do not assign [v] keep its origin. *)
Lemma run_from_keeps_origin P lines i st v :
  NoDup (map fst (tainted_vars st)) ->
  Forall (fun l => ~ In v (fst (_extract_assigned_vars P (strip l)))) lines ->
  dict_get v (tainted_vars (run_from P i lines st)) = dict_get v (tainted_vars st).
Proof.
  unfold run_from. revert i st.
  induction lines as [|l lines IH]; intros i st Hnd Hall; cbn [enumerate_from fold_left];
    [reflexivity|].
  apply Forall_cons in Hall as [Hl Hall].
  pose proof (process_line_spec P i l st Hnd) as Hspec. cbv zeta in Hspec.
  destruct (nonempty_str (strip l)).
  - destruct Hspec as [Ht _]. rewrite IH; [|rewrite Ht; now apply taint_assignments_nodup | exact Hall].
    rewrite Ht. now apply taint_assignments_other.
  - rewrite Hspec. now apply IH.
Qed.

(** The sink line: with [v] tainted from origin [o] when the flows of line
    [i] are computed, the line appends the flow of [v], and no other flow
    for [v]. *)
Lemma sink_line_emits P i raw st v o info mt :
  inv i st ->
  nonempty_str (strip raw) = true ->
  first_sink (sink_rules P) (strip raw) = Some (info, mt) ->
  dict_get v (taint_assignments P i (strip raw) (tainted_vars st)) = Some o ->
  _line_contains_var (strip raw) v = true ->
  v <> "direct" ->
  exists a b,
    emitted (process_line P st (i, raw)) =
      (emitted st ++ a ++
       [((o_source_line o, i, v, rule_id info), variable_flow i (strip raw) info mt o)]
       ++ b)%list /\
    Forall (fun kf => key_var kf.1 <> v) (a ++ b) /\
    Forall (fun kf => key_sink_line kf.1 = i) (a ++ b).
Proof.
  intros Hinv Hne Hsink Hget Hcont Hv.
  pose proof (process_line_spec P i raw st (inv_dict _ _ Hinv)) as Hspec.
  cbv zeta in Hspec. rewrite Hne, Hsink in Hspec. destruct Hspec as [_ Hem].
  set (line := strip raw) in *.
  set (d := taint_assignments P i line (tainted_vars st)) in *.
  assert (Hnd : NoDup (map fst d)) by (apply taint_assignments_nodup, (inv_dict _ _ Hinv)).
  apply (dict_get_In _ _ _ Hnd) in Hget.
  apply in_split in Hget as (d1 & d2 & Hd).
  assert (Hother : forall w o', In (w, o') (d1 ++ d2) -> w <> v).
  { intros w o' Hin ->. rewrite Hd, map_app in Hnd. cbn in Hnd.
    apply NoDup_app in Hnd as (_ & Hdisj & Hnd2).
    apply NoDup_cons in Hnd2 as [Hv2 _].
    apply in_app_or in Hin as [Hin | Hin].
    - apply (Hdisj v); [apply list_elem_of_In, in_map_iff; now exists (v, o') | left].
    - apply Hv2. apply list_elem_of_In, in_map_iff. now exists (v, o'). }
  set (seen_d := if sources_present P line
                 then {[direct_key i info]} ∪ seen_flows st else seen_flows st).
  assert (Hfresh : (o_source_line o, i, v, rule_id info) ∉ seen_d).
  { assert (Hold : (o_source_line o, i, v, rule_id info) ∉ seen_flows st).
    { intros Hin. apply (inv_seen _ _ Hinv) in Hin.
      apply list_elem_of_In, in_map_iff in Hin as (kf & Hk & Hin).
      pose proof (inv_lines _ _ Hinv) as Hl. rewrite Forall_forall in Hl.
      specialize (Hl kf (proj2 (list_elem_of_In _ _) Hin)). rewrite Hk in Hl.
      cbn in Hl. lia. }
    unfold seen_d. destruct (sources_present P line); [|exact Hold].
    unfold direct_key. rewrite elem_of_union, elem_of_singleton.
    intros [[= _ Hvd] | Hin]; [congruence | contradiction]. }
  exists ((if sources_present P line && negb (bool_decide (direct_key i info ∈ seen_flows st))
           then [(direct_key i info, direct_flow i line info mt)] else [])
          ++ variable_emissions i line info mt seen_d d1)%list,
         (variable_emissions i line info mt seen_d d2).
  split; [|split].
  - rewrite Hem. unfold line_emissions. fold seen_d. rewrite Hd.
    assert (Hpass : _line_contains_var line (v, o).1 &&
                    negb (bool_decide (var_key i info (v, o) ∈ seen_d)) = true).
    { cbn [fst]. rewrite Hcont. unfold var_key. cbn [fst snd].
      now rewrite bool_decide_eq_false_2 by exact Hfresh. }
    unfold variable_emissions. rewrite List.filter_app, map_app. cbn [List.filter].
    rewrite Hpass. cbn [map]. rewrite <- !app_assoc. reflexivity.
  - rewrite <- app_assoc. apply Forall_app. split; [|apply Forall_app; split].
    + destruct (_ && _); [|constructor]. constructor; [|constructor].
      cbn. congruence.
    + unfold variable_emissions. apply Forall_forall. intros kf Hin.
      apply list_elem_of_In, in_map_iff in Hin as ([w o'] & <- & Hin).
      apply filter_In in Hin as [Hin _]. cbn.
      apply (Hother w o'). apply in_or_app. now left.
    + unfold variable_emissions. apply Forall_forall. intros kf Hin.
      apply list_elem_of_In, in_map_iff in Hin as ([w o'] & <- & Hin).
      apply filter_In in Hin as [Hin _]. cbn.
      apply (Hother w o'). apply in_or_app. now right.
  - pose proof (line_emissions_sink_line P i line info mt (seen_flows st) d) as Hall.
    unfold line_emissions in Hall. fold seen_d in Hall. rewrite Hd in Hall.
    unfold variable_emissions in Hall. rewrite List.filter_app, map_app in Hall.
    apply Forall_app in Hall as [H1 H2]. apply Forall_app in H2 as [H2 H3].
    rewrite <- app_assoc. apply Forall_app. split; [exact H1|].
    apply Forall_app. split; [exact H2|].
    cbn [List.filter] in H3.
    destruct (_line_contains_var line (v, o).1 && _) in H3; [|exact H3].
    cbn [map] in H3. now apply Forall_cons in H3 as [_ H3].
Qed.

Lemma lookup_split {A} (l : list A) n x :
  l !! n = Some x -> l = (take n l ++ x :: drop (S n) l)%list /\ length (take n l) = n.
Proof.
  intros H. split.
  - rewrite <- (take_drop_middle l n x H) at 1. reflexivity.
  - apply length_take_le. apply lookup_lt_Some in H. lia.
Qed.

(** The origin of [v] when the flows of the sink line are computed. *)
Lemma origin_at_sink P lines n1 n2 l1 l2 v :
  (n1 <= n2)%nat ->
  lines !! n1 = Some l1 -> lines !! n2 = Some l2 ->
  nonempty_str (strip l1) = true ->
  sources_present P (strip l1) = true ->
  In v (fst (_extract_assigned_vars P (strip l1))) ->
  (forall n l, (n1 < n <= n2)%nat -> lines !! n = Some l ->
               ~ In v (fst (_extract_assigned_vars P (strip l)))) ->
  dict_get v
    (taint_assignments P (Z.of_nat n2 + 1) (strip l2)
       (tainted_vars (run_from P 1 (take n2 lines) init)))
  = Some (Origin (Z.of_nat n1 + 1) (strip l1)).
Proof.
  intros Hle H1 H2 Hne Hsrc Hv Hno.
  destruct (decide (n1 = n2)) as [->|Hlt].
  - assert (l1 = l2) by congruence. subst l2.
    now apply taint_assignments_source.
  - assert (Hn : (n1 < n2)%nat) by lia.
    rewrite taint_assignments_other by (apply (Hno n2 l2); [lia | exact H2]).
    assert (H1' : take n2 lines !! n1 = Some l1) by (rewrite lookup_take_lt by lia; exact H1).
    destruct (lookup_split _ _ _ H1') as [Hsplit Hlen].
    rewrite Hsplit.
    change (take n1 (take n2 lines) ++ l1 :: drop (S n1) (take n2 lines))%list
      with (take n1 (take n2 lines) ++ [l1] ++ drop (S n1) (take n2 lines))%list.
    rewrite !run_from_app. rewrite Hlen. cbn [length].
    set (st0 := run_from P 1 (take n1 (take n2 lines)) init).
    assert (Hinv0 : inv (1 + Z.of_nat (length (take n1 (take n2 lines)))) st0)
      by (apply run_from_inv, inv_init).
    assert (Hnd0 : NoDup (map fst (tainted_vars st0))) by apply (inv_dict _ _ Hinv0).
    set (st1 := run_from P (1 + Z.of_nat n1) [l1] st0).
    assert (Hst1 : tainted_vars st1 =
                   taint_assignments P (1 + Z.of_nat n1) (strip l1) (tainted_vars st0)).
    { unfold st1, run_from. cbn [enumerate_from fold_left].
      pose proof (process_line_spec P (1 + Z.of_nat n1) l1 st0 Hnd0) as Hspec.
      cbv zeta in Hspec. rewrite Hne in Hspec. apply Hspec. }
    rewrite run_from_keeps_origin.
    + rewrite Hst1. replace (1 + Z.of_nat n1) with (Z.of_nat n1 + 1) by lia.
      now apply taint_assignments_source.
    + rewrite Hst1. now apply taint_assignments_nodup.
    + apply Forall_forall. intros l Hl.
      apply list_elem_of_lookup in Hl as (j & Hj).
      rewrite lookup_drop in Hj.
      assert (S n1 + j < n2)%nat.
      { apply lookup_lt_Some in Hj. rewrite length_take in Hj. lia. }
      rewrite lookup_take_lt in Hj by lia.
      apply (Hno (S n1 + j)%nat l); [lia | exact Hj].
Qed.

(** The assignment on line [n1 + 1], the sink on line [n2 + 1], no
    assignment of [v] in between: the flow of [v] is emitted, once. *)
Lemma line_variable_flow P lines n1 n2 l1 l2 v info mt :
  (n1 <= n2)%nat ->
  lines !! n1 = Some l1 -> lines !! n2 = Some l2 ->
  nonempty_str (strip l1) = true ->
  sources_present P (strip l1) = true ->
  In v (fst (_extract_assigned_vars P (strip l1))) ->
  (forall n l, (n1 < n <= n2)%nat -> lines !! n = Some l ->
               ~ In v (fst (_extract_assigned_vars P (strip l)))) ->
  nonempty_str (strip l2) = true ->
  first_sink (sink_rules P) (strip l2) = Some (info, mt) ->
  _line_contains_var (strip l2) v = true ->
  v <> "direct" ->
  let L1 := Z.of_nat n1 + 1 in
  let L2 := Z.of_nat n2 + 1 in
  let out := emitted (run P lines) in
  let k0 : key := (L1, L2, v, rule_id info) in
  let f0 := variable_flow L2 (strip l2) info mt (Origin L1 (strip l1)) in
  In (k0, f0) out /\
  source_line f0 = L1 /\ sink_line f0 = L2 /\ severity f0 = rule_severity info /\
  (forall k f, In (k, f) out -> key_sink_line k = L2 -> key_var k = v ->
               (k, f) = (k0, f0)) /\
  NoDup (map fst out).
Proof.
  intros Hle H1 H2 Hne1 Hsrc Hv Hno Hne2 Hsink Hcont Hvd L1 L2 out k0 f0.
  pose proof (origin_at_sink P lines n1 n2 l1 l2 v Hle H1 H2 Hne1 Hsrc Hv Hno) as Horigin.
  destruct (lookup_split _ _ _ H2) as [Hsplit Hlen].
  assert (Hrun : run P lines =
                 run_from P (L2 + 1) (drop (S n2) lines)
                   (process_line P (run_from P 1 (take n2 lines) init) (L2, l2))).
  { unfold run. rewrite Hsplit at 1.
    change (take n2 lines ++ l2 :: drop (S n2) lines)%list
      with (take n2 lines ++ [l2] ++ drop (S n2) lines)%list.
    rewrite !run_from_app, Hlen. cbn [length].
    unfold run_from at 2. cbn [enumerate_from fold_left].
    replace (1 + Z.of_nat n2) with L2 by (unfold L2; lia).
    replace (L2 + Z.of_nat 1) with (L2 + 1) by lia. reflexivity. }
  set (st2 := run_from P 1 (take n2 lines) init) in *.
  assert (Hinv2 : inv L2 st2).
  { replace L2 with (1 + Z.of_nat (length (take n2 lines))) by (unfold L2; lia).
    apply run_from_inv, inv_init. }
  destruct (sink_line_emits P L2 l2 st2 v _ info mt Hinv2 Hne2 Hsink Horigin Hcont Hvd)
    as (a & b & Hem & Hvars & Hlines).
  cbn [o_source_line] in Hem. fold L1 in Hem. fold k0 f0 in Hem.
  set (st3 := process_line P st2 (L2, l2)) in *.
  assert (Hinv3 : inv (L2 + 1) st3) by (apply process_line_inv; exact Hinv2).
  destruct (run_from_emitted P (drop (S n2) lines) (L2 + 1) st3 (inv_dict _ _ Hinv3))
    as (new & Hnew & Hafter).
  assert (Hout : out = (emitted st2 ++ a ++ [(k0, f0)] ++ b ++ new)%list).
  { unfold out. rewrite Hrun, Hnew, Hem. now rewrite <- !app_assoc. }
  split; [|split; [|split; [|split; [|split]]]]; try reflexivity.
  - rewrite Hout. apply in_or_app. right. apply in_or_app. right. now left.
  - intros k f Hin Hk Hkv. rewrite Hout in Hin.
    apply in_app_or in Hin as [Hin | Hin].
    { pose proof (inv_lines _ _ Hinv2) as Hl. rewrite Forall_forall in Hl.
      specialize (Hl _ (proj2 (list_elem_of_In _ _) Hin)). cbn in Hl. lia. }
    rewrite Forall_app in Hvars, Hlines.
    destruct Hvars as [Hva Hvb]. rewrite Forall_forall in Hva, Hvb.
    apply in_app_or in Hin as [Hin | Hin].
    { exfalso. apply (Hva _ (proj2 (list_elem_of_In _ _) Hin)). exact Hkv. }
    apply in_app_or in Hin as [Hin | Hin].
    { destruct Hin as [Hin | []]. now symmetry. }
    apply in_app_or in Hin as [Hin | Hin].
    { exfalso. apply (Hvb _ (proj2 (list_elem_of_In _ _) Hin)). exact Hkv. }
    rewrite Forall_forall in Hafter.
    specialize (Hafter _ (proj2 (list_elem_of_In _ _) Hin)). cbn in Hafter. lia.
  - unfold out, run.
    apply (inv_nodup (1 + Z.of_nat (length lines))). apply run_from_inv, inv_init.
Qed.

End LineTaint.

(* ===================================================================== *)
(** * The taint analyzers: flows per variable, flows per key *)
(* ===================================================================== *)

Module TaintClaims.
Import PyStr.

(** ** Concrete programs *)

(** Go: [x := os.Args[1]] / [x = flag.String(n)] / [exec.Command(x)]. *)
Definition go_retainted : list string :=
  ["x := os.Args[1]"; "x = flag.String(n)"; "exec.Command(x)"].

(** Go: a tainted variable, an alias of it, both in one sink line. *)
Definition go_aliases : list string :=
  ["cmd := os.Args[1]"; "alias := cmd"; "exec.Command(cmd, alias).Run()"].

(** Java: the parameter read on line 1 reaches [Runtime.exec] on line 3. *)
Definition java_scenario : list string :=
  ["String cmd = request.getParameter(name);";
   "int n = 0;";
   "Runtime.getRuntime().exec(cmd);"].

Example go_aliases_run :
  map fst (LineTaint.emitted (LineTaint.run LineTaint.go_profile go_aliases))
  = [(1, 3, "cmd", "go_rce_exec_command"); (1, 3, "alias", "go_rce_exec_command")].
Proof. vm_compute. reflexivity. Qed.

Example java_scenario_run :
  map (fun f => (LineTaint.source_line f, LineTaint.sink_line f, LineTaint.severity f,
                 LineTaint.flow_rule_id f))
      (LineTaint.taint_flows (LineTaint.run LineTaint.java_profile java_scenario))
  = [(1, 3, "critical", "java_rce_runtime_exec")].
Proof. vm_compute. reflexivity. Qed.

(** ** C2 *)

(** [user_input = sys.argv[1]] on line 3, [os.system("echo " + user_input)]
    on line 4: the scenario of the specification. *)
Definition concatenation_program : PyTaint.node :=
  PyTaint.Other
    [PyTaint.Assign 3 [PyTaint.Name "user_input"] PyTaint.argv1;
     PyTaint.Other
       [PyTaint.Call 4 (PyTaint.Attribute (PyTaint.Name "os") "system")
          [PyTaint.BinOp (PyTaint.Constant "'echo '") (PyTaint.Name "user_input")] []]].

(** The same two statements in Go and in Java. *)
Definition go_concatenation : list string :=
  ["userInput := os.Args[1]"; "exec.Command(`sh`, `-c`, `echo ` + userInput).Run()"].

Definition java_concatenation : list string :=
  ["String userInput = request.getParameter(name);";
   "Runtime.getRuntime().exec(prefix + userInput);"].

(** The Python analyzer records the sink with the text of its argument,
    and no flow; the Go and the Java analyzer report the flow. *)
Example concatenation_run :
  PyTaint.taint_sinks
    (PyTaint.visit PyTaint.dump_stub concatenation_program PyTaint.new_analyzer)
    = [PyTaint.SinkEntry "os.system" 4 ["'echo ' + user_input"]] /\
  PyTaint.analyze PyTaint.dump_stub (Some concatenation_program) = [] /\
  map fst (LineTaint.emitted (LineTaint.run LineTaint.go_profile go_concatenation))
    = [(1, 2, "userInput", "go_rce_exec_command")] /\
  map fst (LineTaint.emitted (LineTaint.run LineTaint.java_profile java_concatenation))
    = [(1, 2, "userInput", "java_rce_runtime_exec")].
Proof. repeat split; vm_compute; reflexivity. Qed.

(** When the variable is tainted again between the two lines, the flow
    reported at the sink starts at the later assignment, and no flow runs
    from line 1 to line 3: the analyzers keep one origin per variable.
    Python ([x = sys.argv[1]], [x = input()], [os.system(x)]) and Go
    alike. *)
Lemma retainted_variable_flow_starts_later :
  PyTaint.analyze PyTaint.dump_stub (Some PyTaint.retainted_program)
    = [PyTaint.Flow "x" "os.system" 2 3 "critical" "variable_flow" (Some "x")] /\
  List.filter
    (fun f => (PyTaint.source_line f =? 1) && (PyTaint.sink_line f =? 3))
    (PyTaint.analyze PyTaint.dump_stub (Some PyTaint.retainted_program)) = [] /\
  map fst (LineTaint.emitted (LineTaint.run LineTaint.go_profile go_retainted))
    = [(2, 3, "x", "go_rce_exec_command")].
Proof. repeat split; vm_compute; reflexivity. Qed.

(** [names v arg]: the argument is the variable [v] itself, the only case
    in which [_get_variable_name] gives [v]. *)
Definition names (v : string) (arg : PyTaint.node) : bool :=
  match PyTaint._get_variable_name arg with
  | Some w => String.eqb w v
  | None => false
  end.

(** An argument that is neither a taint source nor a variable: a
    concatenation, a constant, a call of another function, ... *)
Definition compound (arg : PyTaint.node) : bool :=
  negb (PyTaint._is_taint_source arg) &&
  match PyTaint._get_variable_name arg with
  | Some _ => false
  | None => true
  end.

(** The flows that report the variable [v]. *)
Definition about (v : string) (f : PyTaint.flow) : bool :=
  bool_decide (PyTaint.tainted_var f = Some v).

Section PythonCalls.
Variable ast_dump : PyTaint.node -> string.

Lemma variable_name_repr arg w :
  PyTaint._get_variable_name arg = Some w ->
  PyTaint._get_node_repr ast_dump arg = w /\ PyTaint._is_taint_source arg = false.
Proof.
  destruct arg as [id|value attr| | | | | |]; cbn; try discriminate.
  - intros [= ->]. now split.
  - destruct value; try discriminate. intros [= ->]. now split.
Qed.

(** One argument: a flow about [v] exactly when the argument is [v]. *)
Lemma check_arg_flows v L1 sink_name L2 st arg :
  v <> EmptyString ->
  v ∈ PyTaint.current_tainted_vars st ->
  PyTaint.var_assignments st !! v = Some L1 ->
  exists here,
    PyTaint.taint_flows (PyTaint.check_arg ast_dump sink_name L2 st arg)
      = (PyTaint.taint_flows st ++ here)%list /\
    List.filter (about v) here
      = (if names v arg
         then [PyTaint.Flow v sink_name L1 L2 "critical" "variable_flow" (Some v)]
         else []) /\
    Forall (fun f => PyTaint.sink f = sink_name /\ PyTaint.sink_line f = L2 /\
                     PyTaint.severity f = "critical") here.
Proof.
  intros Hv Hin Hl1. unfold PyTaint.check_arg, names.
  assert (Hne : nonempty_str v = true) by (destruct v; [congruence | reflexivity]).
  destruct (PyTaint._get_variable_name arg) as [w|] eqn:Ename.
  - destruct (variable_name_repr arg w Ename) as [-> ->].
    destruct (String.eqb_spec w v) as [-> | Hwv].
    + rewrite Hne, bool_decide_eq_true_2 by exact Hin. cbn [andb]. rewrite Hl1.
      eexists. split; [reflexivity|]. split.
      * cbn [List.filter]. unfold about. cbn [PyTaint.tainted_var].
        now rewrite bool_decide_eq_true_2 by reflexivity.
      * repeat constructor.
    + destruct (nonempty_str w && bool_decide (w ∈ PyTaint.current_tainted_vars st)).
      * eexists. split; [reflexivity|]. split; [|repeat constructor].
        cbn [List.filter]. unfold about. cbn [PyTaint.tainted_var].
        rewrite bool_decide_eq_false_2; [reflexivity | congruence].
      * exists []. rewrite app_nil_r. repeat split. constructor.
  - destruct (PyTaint._is_taint_source arg).
    + eexists. split; [reflexivity|]. split; [|repeat constructor].
      cbn [List.filter]. unfold about. cbn [PyTaint.tainted_var].
      rewrite bool_decide_eq_false_2; [reflexivity | discriminate].
    + exists []. rewrite app_nil_r. repeat split. constructor.
Qed.

(** The loop over the arguments: one flow about [v] for each argument
    that is [v]. *)
Lemma check_args_flows v L1 sink_name L2 args :
  v <> EmptyString ->
  forall st,
  v ∈ PyTaint.current_tainted_vars st ->
  PyTaint.var_assignments st !! v = Some L1 ->
  exists new,
    PyTaint.taint_flows (fold_left (PyTaint.check_arg ast_dump sink_name L2) args st)
      = (PyTaint.taint_flows st ++ new)%list /\
    List.filter (about v) new
      = repeat (PyTaint.Flow v sink_name L1 L2 "critical" "variable_flow" (Some v))
          (length (List.filter (names v) args)) /\
    Forall (fun f => PyTaint.sink f = sink_name /\ PyTaint.sink_line f = L2 /\
                     PyTaint.severity f = "critical") new.
Proof.
  intros Hv. induction args as [|arg args IH]; intros st Hin Hl1; cbn [fold_left].
  - exists []. rewrite app_nil_r. repeat split. constructor.
  - destruct (check_arg_flows v L1 sink_name L2 st arg Hv Hin Hl1)
      as (here & Hflows & Hhere & Hall).
    destruct (PyTaint.check_arg_vars ast_dump sink_name L2 st arg) as [Hvars Hassign].
    destruct (IH (PyTaint.check_arg ast_dump sink_name L2 st arg)) as (new & Hnew & Hcount & Hall').
    { now rewrite Hvars. }
    { now rewrite Hassign. }
    exists (here ++ new)%list. split; [|split].
    + rewrite Hnew, Hflows. now rewrite <- app_assoc.
    + rewrite List.filter_app, Hhere, Hcount. cbn [List.filter].
      destruct (names v arg); reflexivity.
    + apply Forall_app. now split.
Qed.

Lemma check_arg_compound sink_name L2 st arg :
  compound arg = true -> PyTaint.check_arg ast_dump sink_name L2 st arg = st.
Proof.
  unfold compound, PyTaint.check_arg. intros H. apply andb_prop in H as [Hsrc Hname].
  apply negb_true_iff in Hsrc. rewrite Hsrc.
  destruct (PyTaint._get_variable_name arg); [discriminate | reflexivity].
Qed.

Lemma check_args_compound sink_name L2 args st :
  forallb compound args = true ->
  fold_left (PyTaint.check_arg ast_dump sink_name L2) args st = st.
Proof.
  revert st. induction args as [|arg args IH]; intros st H; cbn [fold_left]; [reflexivity|].
  cbn [forallb] in H. apply andb_prop in H as [Harg Hargs].
  rewrite check_arg_compound by exact Harg. now apply IH.
Qed.

(** A sink call with nothing to visit inside: only [visit_Call] acts. *)
Lemma visit_sink_call st L2 func args keywords sink_name :
  PyTaint._is_taint_sink func = Some sink_name ->
  forallb PyTaint.inert args = true ->
  forallb PyTaint.inert keywords = true ->
  PyTaint.visit ast_dump (PyTaint.Call L2 func args keywords) st
  = PyTaint.call_effect ast_dump L2 func args st.
Proof.
  intros Hsink Hargs Hkw. cbn [PyTaint.visit].
  change (fold_left (fun st c => PyTaint.visit ast_dump c st) keywords ?s)
    with (PyTaint.visit_all ast_dump keywords s).
  rewrite PyTaint.visit_all_inert by exact Hkw.
  change (fold_left (fun st c => PyTaint.visit ast_dump c st) args ?s)
    with (PyTaint.visit_all ast_dump args s).
  rewrite PyTaint.visit_all_inert by exact Hargs.
  apply PyTaint.visit_inert. eapply PyTaint.sink_func_inert; eauto.
Qed.

End PythonCalls.

(** C2.  The Python analyzer reports a tainted variable at a sink call only
    where an argument of the call is the variable itself.  After
    [v = sys.argv[...]] on line [L1] and statements that do not assign [v],
    a sink call on line [L2] appends, among its flows, one [variable_flow]
    about [v] for each argument that is [v], each with [source_line = L1],
    [sink_line = L2] and severity [critical] (the only severity of this
    analyzer): exactly one when [v] is an argument once, and none when [v]
    only occurs inside an argument.  For a sink call all of whose arguments
    are compound (any concatenation [l + r], a constant, a call of another
    function) no flow at all is appended, whatever is tainted: on the
    scenario of the specification, [os.system("echo " + user_input)], the
    analyzer emits nothing.  Go and Java: when line [n1 + 1] matches a
    source pattern and assigns [v], no line after it up to and including
    line [n2 + 1] assigns [v], and line [n2 + 1] matches the sink rule
    [info] and mentions [v] anywhere, then exactly one flow is emitted for
    [v] on that line; its [source_line] is [n1 + 1], its [sink_line] is
    [n2 + 1] and its severity is that of the rule ([v] not being named
    "direct", the key word of same-line flows). *)
Theorem python_flow_only_for_argument_that_is_the_variable :
  (forall (ast_dump : PyTaint.node -> string) (st : PyTaint.analyzer)
          (v : string) (index : PyTaint.node) (L1 : Z) (mid : list PyTaint.node)
          (L2 : Z) (func : PyTaint.node) (args keywords : list PyTaint.node)
          (sink_name : string),
     v <> EmptyString ->
     PyTaint.inert index = true ->
     existsb (PyTaint.assigns v) mid = false ->
     PyTaint._is_taint_sink func = Some sink_name ->
     forallb PyTaint.inert args = true ->
     forallb PyTaint.inert keywords = true ->
     let st1 :=
       PyTaint.visit ast_dump
         (PyTaint.Assign L1 [PyTaint.Name v]
            (PyTaint.Subscript (PyTaint.Attribute (PyTaint.Name "sys") "argv") index))
         st in
     let st2 := PyTaint.visit_all ast_dump mid st1 in
     exists new,
       PyTaint.taint_flows
         (PyTaint.visit ast_dump (PyTaint.Call L2 func args keywords) st2)
         = (PyTaint.taint_flows st2 ++ new)%list /\
       List.filter (about v) new
         = repeat (PyTaint.Flow v sink_name L1 L2 "critical" "variable_flow" (Some v))
             (length (List.filter (names v) args)) /\
       Forall (fun f => PyTaint.sink f = sink_name /\ PyTaint.sink_line f = L2 /\
                        PyTaint.severity f = "critical") new) /\
  ((forall l r, compound (PyTaint.BinOp l r) = true) /\
   forall (ast_dump : PyTaint.node -> string) (st : PyTaint.analyzer)
          (L2 : Z) (func : PyTaint.node) (args keywords : list PyTaint.node)
          (sink_name : string),
     PyTaint._is_taint_sink func = Some sink_name ->
     forallb compound args = true ->
     forallb PyTaint.inert args = true ->
     forallb PyTaint.inert keywords = true ->
     PyTaint.taint_flows
       (PyTaint.visit ast_dump (PyTaint.Call L2 func args keywords) st)
     = PyTaint.taint_flows st) /\
  (forall (P : LineTaint.profile) (lines : list string) (n1 n2 : nat)
          (l1 l2 v : string) (info : LineTaint.sink_info) (mt : string),
     (n1 <= n2)%nat ->
     lines !! n1 = Some l1 -> lines !! n2 = Some l2 ->
     nonempty_str (strip l1) = true ->
     LineTaint.sources_present P (strip l1) = true ->
     In v (fst (LineTaint._extract_assigned_vars P (strip l1))) ->
     (forall n l, (n1 < n <= n2)%nat -> lines !! n = Some l ->
                  ~ In v (fst (LineTaint._extract_assigned_vars P (strip l)))) ->
     nonempty_str (strip l2) = true ->
     LineTaint.first_sink (LineTaint.sink_rules P) (strip l2) = Some (info, mt) ->
     LineTaint._line_contains_var (strip l2) v = true ->
     v <> "direct" ->
     let L1 := Z.of_nat n1 + 1 in
     let L2 := Z.of_nat n2 + 1 in
     let out := LineTaint.emitted (LineTaint.run P lines) in
     let k0 : LineTaint.key := (L1, L2, v, LineTaint.rule_id info) in
     let f0 := LineTaint.variable_flow L2 (strip l2) info mt
                 (LineTaint.Origin L1 (strip l1)) in
     In (k0, f0) out /\
     LineTaint.source_line f0 = L1 /\ LineTaint.sink_line f0 = L2 /\
     LineTaint.severity f0 = LineTaint.rule_severity info /\
     (forall k f, In (k, f) out -> LineTaint.key_sink_line k = L2 ->
                  LineTaint.key_var k = v -> (k, f) = (k0, f0)) /\
     NoDup (map fst out)).
Proof.
  split; [|split].
  - intros ast_dump st v index L1 mid L2 func args keywords sink_name
           Hv Hidx Hmid Hsink Hargs Hkw st1 st2.
    destruct (PyTaint.argv_assignment_taints ast_dump st v index L1 Hv Hidx)
      as (Hin & Hl1 & _).
    fold st1 in Hin, Hl1.
    rewrite (visit_sink_call ast_dump st2 L2 func args keywords sink_name Hsink Hargs Hkw).
    unfold PyTaint.call_effect. rewrite Hsink.
    match goal with |- context [fold_left _ args ?s0] =>
      destruct (check_args_flows ast_dump v L1 sink_name L2 args Hv s0)
        as (new & Hnew & Hcount & Hall)
    end.
    + cbn [PyTaint.current_tainted_vars]. unfold st2.
      now apply PyTaint.tainted_stays_all.
    + cbn [PyTaint.var_assignments]. unfold st2.
      now rewrite PyTaint.visit_all_keeps_assignment.
    + exists new. split; [exact Hnew|]. now split.
  - split; [reflexivity|].
    intros ast_dump st L2 func args keywords sink_name Hsink Hcomp Hargs Hkw.
    rewrite (visit_sink_call ast_dump st L2 func args keywords sink_name Hsink Hargs Hkw).
    unfold PyTaint.call_effect. rewrite Hsink.
    now rewrite check_args_compound by exact Hcomp.
  - intros. now apply LineTaint.line_variable_flow.
Qed.

(** The theorem at work: [os.system("echo " + user_input)] on line 4, after
    [user_input = sys.argv[1]] on line 3, emits no flow; [os.system(user_input)]
    emits the one flow; and the Java scenario above (lines 1 and 3). *)
Lemma python_flow_only_for_argument_that_is_the_variable_witness :
  PyTaint.analyze PyTaint.dump_stub (Some concatenation_program) = [] /\
  (exists new,
     PyTaint.analyze PyTaint.dump_stub (Some PyTaint.scenario_program) = new /\
     List.filter (about "user_input") new
       = [PyTaint.Flow "user_input" "os.system" 3 4 "critical" "variable_flow"
            (Some "user_input")]) /\
  In ((1, 3, "cmd", "java_rce_runtime_exec") : LineTaint.key)
     (map fst (LineTaint.emitted (LineTaint.run LineTaint.java_profile java_scenario))).
Proof.
  split; [|split].
  - exact (proj2 (proj1 (proj2 python_flow_only_for_argument_that_is_the_variable))
             PyTaint.dump_stub
             (PyTaint.visit PyTaint.dump_stub
                (PyTaint.Assign 3 [PyTaint.Name "user_input"] PyTaint.argv1)
                PyTaint.new_analyzer)
             4 (PyTaint.Attribute (PyTaint.Name "os") "system")
             [PyTaint.BinOp (PyTaint.Constant "'echo '") (PyTaint.Name "user_input")] []
             "os.system" eq_refl eq_refl eq_refl eq_refl).
  - destruct (proj1 python_flow_only_for_argument_that_is_the_variable
                PyTaint.dump_stub PyTaint.new_analyzer
                "user_input" (PyTaint.Constant "1") 3 [] 4
                (PyTaint.Attribute (PyTaint.Name "os") "system")
                [PyTaint.Name "user_input"] [] "os.system"
                ltac:(discriminate) eq_refl eq_refl eq_refl eq_refl eq_refl)
      as (new & Hnew & Hcount & _).
    exists new. split; [exact Hnew | exact Hcount].
  - assert (Hno : forall n l, (0 < n <= 2)%nat -> java_scenario !! n = Some l ->
               ~ In "cmd" (fst (LineTaint._extract_assigned_vars LineTaint.java_profile
                                  (strip l)))).
    { intros n l Hn Hl.
      destruct n as [|[|[|n]]]; try lia; vm_compute in Hl; injection Hl as <-;
        vm_compute; intuition discriminate. }
    pose proof (proj2 (proj2 python_flow_only_for_argument_that_is_the_variable) LineTaint.java_profile java_scenario
                  0%nat 2%nat
                  "String cmd = request.getParameter(name);"
                  "Runtime.getRuntime().exec(cmd);" "cmd"
                  (LineTaint.SinkInfo "java_rce_runtime_exec" "Java RCE - Runtime.exec()"
                     "critical")
                  "Runtime.getRuntime().exec("
                  ltac:(lia) eq_refl eq_refl eq_refl
                  ltac:(vm_compute; reflexivity) ltac:(vm_compute; auto) Hno eq_refl
                  ltac:(vm_compute; reflexivity) ltac:(vm_compute; reflexivity)
                  ltac:(discriminate)) as H.
    cbv zeta in H. destruct H as [Hin _].
    apply (in_map fst) in Hin. exact Hin.
Defined.

(** ** C5 *)

(** The Python analyzer has no [seen_flows]: a tainted variable passed
    twice to one sink call gives the same flow twice. *)
Lemma python_repeated_argument_duplicates :
  PyTaint.analyze PyTaint.dump_stub (Some PyTaint.repeated_argument_program)
    = [PyTaint.Flow "x" "os.system" 1 2 "critical" "variable_flow" (Some "x");
       PyTaint.Flow "x" "os.system" 1 2 "critical" "variable_flow" (Some "x")] /\
  ~ NoDup (map PyTaint.flow_key
             (PyTaint.analyze PyTaint.dump_stub (Some PyTaint.repeated_argument_program))).
Proof.
  split; [vm_compute; reflexivity|].
  intros H. vm_compute in H. apply NoDup_cons in H as [H _].
  apply H. left.
Qed.

(** C5, amended.  In the Go and the Java analyzer (the loop over any
    language profile) no two emitted flows have the same key
    [(source_line, sink_line, variable-or-"direct", rule_id)]: the flows
    are in one-to-one correspondence with the keys of [seen_flows], and each
    flow carries the lines and the rule of its key.  (The Python analyzer
    does not de-duplicate.) *)
Theorem line_taint_flows_have_distinct_keys (P : LineTaint.profile) (lines : list string) :
  let st := LineTaint.run P lines in
  NoDup (map fst (LineTaint.emitted st)) /\
  LineTaint.taint_flows st = map snd (LineTaint.emitted st) /\
  (forall k, k ∈ LineTaint.seen_flows st <-> k ∈ map fst (LineTaint.emitted st)) /\
  Forall LineTaint.key_agrees (LineTaint.emitted st) /\
  (forall code,
     LineTaint.analyze P (Some code) =
     LineTaint.taint_flows
       (LineTaint.run P (LineTaint._strip_comments (split_char newline code)))).
Proof.
  intros st.
  assert (Hinv : LineTaint.inv (1 + Z.of_nat (length lines)) st)
    by apply LineTaint.run_from_inv, LineTaint.inv_init.
  destruct Hinv as [H1 H2 H3 H4 H5].
  repeat split; auto; apply H1.
Qed.

End TaintClaims.

(* ===================================================================== *)
(** * engines/static/pattern_matcher.py *)
(* ===================================================================== *)

Module PatternMatcher.
Import PyStr.

(** A rule of rules.yaml; keys read with [.get] are [option] fields. *)
Record rule := Rule {
  r_id : option string;
  r_name : option string;
  r_pattern : option string;
  r_severity : option string;
  r_description : option string;
  r_language : option string
}.

Record pattern_match := PatternMatch {
  rule_id : string;
  rule_name : string;
  severity : string;
  line : Z;
  matched_text : string;
  description : string;
  context : string;
  col_offset : nat
}.

(** ['\n'.join(l)]. *)
Fixpoint join_lines (l : list string) : string :=
  match l with
  | [] => EmptyString
  | [x] => x
  | x :: l' => x ++ String newline (join_lines l')
  end.

(** [l[a:b]] for [0 <= a], [0 <= b]. *)
Definition list_slice {A} (l : list A) (a b : nat) : list A :=
  take (b - a) (drop a l).

(** [matches.sort(key=lambda x: x['line'])]: a stable sort; an entry goes
    behind the entries of the same line already placed. *)
Fixpoint insert_by_line (x : pattern_match) (l : list pattern_match) : list pattern_match :=
  match l with
  | [] => [x]
  | y :: l' => if line x <? line y then x :: y :: l' else y :: insert_by_line x l'
  end.

Definition sort_by_line (l : list pattern_match) : list pattern_match :=
  fold_left (fun acc x => insert_by_line x acc) l [].

Section Matcher.

(** Python's [re]: [re.compile] ([None] when it raises) and the spans
    [(match.start(), match.end())] of [regex.finditer]. *)
Variable compiled : Type.
Variable re_compile : string -> option compiled.
Variable re_finditer : compiled -> string -> list (nat * nat).

(** The entry appended for one match, lines 58-74. *)
Definition entry_of (r : rule) (lines : list string) (line_num : nat)
    (text : string) (span : nat * nat) : pattern_match :=
  let context_start := (line_num - 2)%nat in
  let context_end := Nat.min (length lines) (line_num + 2) in
  PatternMatch
    (default EmptyString (r_id r))
    (default EmptyString (r_name r))
    (default "medium" (r_severity r))
    (Z.of_nat line_num)
    (slice text (fst span) (snd span))
    (default EmptyString (r_description r))
    (join_lines (list_slice lines context_start context_end))
    (fst span).

(** [for line_num, line in enumerate(lines, start=1)], lines 55-74. *)
Fixpoint scan_lines (r : rule) (regex : compiled) (lines : list string)
    (line_num : nat) (rest : list string) (matches : list pattern_match)
    : list pattern_match :=
  match rest with
  | [] => matches
  | text :: rest' =>
      let matches :=
        fold_left
          (fun matches span => (matches ++ [entry_of r lines line_num text span])%list)
          (re_finditer regex text) matches in
      scan_lines r regex lines (S line_num) rest' matches
  end.

(** The body of [for rule in rules], lines 40-80. *)
Definition scan_rule (lines : list string) (matches : list pattern_match) (r : rule)
    : list pattern_match :=
  let pattern := default EmptyString (r_pattern r) in
  if negb (nonempty_str pattern) then matches
  else
    match re_compile pattern with
    | None => matches
    | Some regex => scan_lines r regex lines 1 lines matches
    end.

(** [match_patterns], lines 12-85. *)
Definition match_patterns (source_code : string) (rules : list rule) : list pattern_match :=
  if negb (nonempty_str source_code) || negb (nonempty rules) then []
  else
    let lines := split_char newline source_code in
    let matches := fold_left (scan_rule lines) rules [] in
    sort_by_line matches.

(** ** The loops, flattened *)

(** The occurrences of a rule's pattern in a line: none when the rule has
    no pattern or its pattern does not compile. *)
Definition occurrences (r : rule) (text : string) : list (nat * nat) :=
  let pattern := default EmptyString (r_pattern r) in
  if negb (nonempty_str pattern) then []
  else
    match re_compile pattern with
    | None => []
    | Some regex => re_finditer regex text
    end.

(** [enumerate(lines, start)]. *)
Fixpoint numbered (start : nat) (l : list string) : list (nat * string) :=
  match l with
  | [] => []
  | x :: l' => (start, x) :: numbered (S start) l'
  end.

(** One entry per occurrence, line after line. *)
Definition rule_entries (lines : list string) (r : rule) : list pattern_match :=
  flat_map
    (fun nt => map (entry_of r lines (fst nt) (snd nt)) (occurrences r (snd nt)))
    (numbered 1 lines).

Definition is_substring (sub s : string) : Prop :=
  exists pre post, s = (pre ++ sub ++ post)%string.

Lemma fold_append_entries r lines n text spans matches :
  fold_left
    (fun matches span => (matches ++ [entry_of r lines n text span])%list)
    spans matches
  = (matches ++ map (entry_of r lines n text) spans)%list.
Proof.
  revert matches. induction spans as [|s spans IH]; intros matches; cbn [fold_left map].
  - now rewrite app_nil_r.
  - rewrite IH, <- app_assoc. reflexivity.
Qed.

Lemma scan_lines_flat r regex lines n rest matches :
  scan_lines r regex lines n rest matches =
  (matches ++
   flat_map (fun nt => map (entry_of r lines (fst nt) (snd nt))
                         (re_finditer regex (snd nt)))
     (numbered n rest))%list.
Proof.
  revert n matches. induction rest as [|text rest IH]; intros n matches;
    cbn [scan_lines numbered flat_map].
  - now rewrite app_nil_r.
  - rewrite IH, fold_append_entries, <- app_assoc. reflexivity.
Qed.

Lemma scan_rule_flat lines matches r :
  scan_rule lines matches r = (matches ++ rule_entries lines r)%list.
Proof.
  unfold scan_rule, rule_entries, occurrences.
  destruct (negb (nonempty_str (default EmptyString (r_pattern r)))).
  - induction (numbered 1 lines) as [|nt l IH]; cbn [flat_map map app].
    + now rewrite app_nil_r.
    + exact IH.
  - destruct (re_compile _) as [regex|].
    + apply scan_lines_flat.
    + induction (numbered 1 lines) as [|nt l IH]; cbn [flat_map map app].
      * now rewrite app_nil_r.
      * exact IH.
Qed.

Lemma fold_scan_rule_flat lines rules matches :
  fold_left (scan_rule lines) rules matches =
  (matches ++ flat_map (rule_entries lines) rules)%list.
Proof.
  revert matches. induction rules as [|r rules IH]; intros matches; cbn [fold_left flat_map].
  - now rewrite app_nil_r.
  - rewrite IH, scan_rule_flat, <- app_assoc. reflexivity.
Qed.

(** ** The sort *)

Definition line_le (a b : pattern_match) : Prop := line a <= line b.

Lemma insert_by_line_perm x l : insert_by_line x l ≡ₚ x :: l.
Proof.
  induction l as [|y l IH]; cbn [insert_by_line]; [reflexivity|].
  destruct (line x <? line y); [reflexivity|].
  rewrite IH. apply Permutation_swap.
Qed.

Lemma insert_by_line_sorted x l :
  StronglySorted line_le l -> StronglySorted line_le (insert_by_line x l).
Proof.
  induction l as [|y l IH]; intros Hs; cbn [insert_by_line].
  - repeat constructor.
  - apply StronglySorted_inv in Hs as [Hs Hy].
    destruct (Z.ltb_spec (line x) (line y)) as [Hlt | Hge].
    + constructor; [constructor; assumption|].
      constructor; [unfold line_le; lia|].
      eapply Forall_impl; [exact Hy|]. unfold line_le. cbn. intros; lia.
    + constructor; [now apply IH|].
      rewrite insert_by_line_perm. constructor; [exact Hge | exact Hy].
Qed.

Lemma sort_by_line_spec l :
  StronglySorted line_le (sort_by_line l) /\ sort_by_line l ≡ₚ l.
Proof.
  unfold sort_by_line.
  enough (H : forall acc, StronglySorted line_le acc ->
              StronglySorted line_le (fold_left (fun acc x => insert_by_line x acc) l acc) /\
              fold_left (fun acc x => insert_by_line x acc) l acc ≡ₚ (acc ++ l)%list).
  { destruct (H [] ltac:(constructor)) as [H1 H2]. now split. }
  induction l as [|x l IH]; intros acc Hacc; cbn [fold_left].
  - rewrite app_nil_r. now split.
  - destruct (IH (insert_by_line x acc) (insert_by_line_sorted x acc Hacc)) as [H1 H2].
    split; [exact H1|]. rewrite H2, insert_by_line_perm.
    apply Permutation_middle.
Qed.

(** ** Substrings *)

Lemma substring_prefix m s : exists post, s = (substring 0 m s ++ post)%string.
Proof.
  revert m. induction s as [|c s IH]; intros m.
  - exists EmptyString. destruct m; reflexivity.
  - destruct m as [|m]; [exists (String c s); reflexivity|].
    destruct (IH m) as (post & Hp). exists post.
    change (String c s = String c (substring 0 m s ++ post)%string). now f_equal.
Qed.

Lemma substring_is_substring n m s : is_substring (substring n m s) s.
Proof.
  revert n. induction s as [|c s IH]; intros n.
  - exists EmptyString, EmptyString. destruct n, m; reflexivity.
  - destruct n as [|n].
    + destruct (substring_prefix m (String c s)) as (post & Hp).
      exists EmptyString, post. exact Hp.
    + destruct (IH n) as (pre & post & Heq).
      exists (String c pre), post.
      change (String c s = String c (pre ++ substring n m s ++ post)%string). now f_equal.
Qed.

Lemma numbered_lookup start l nt :
  In nt (numbered start l) ->
  exists j, l !! j = Some (snd nt) /\ fst nt = (start + j)%nat.
Proof.
  revert start. induction l as [|x l IH]; intros start; cbn [numbered]; [intros []|].
  intros [<- | Hin].
  - exists 0%nat. split; [reflexivity | cbn; lia].
  - destruct (IH (S start) Hin) as (j & Hj & Hf).
    exists (S j). split; [exact Hj | lia].
Qed.

Lemma in_rule_entries lines r m :
  In m (rule_entries lines r) ->
  exists j text, lines !! j = Some text /\ line m = Z.of_nat (j + 1) /\
                 is_substring (matched_text m) text.
Proof.
  unfold rule_entries. intros Hin.
  apply in_flat_map in Hin as ([n text] & Hnt & Hin). cbn [fst snd] in Hin.
  apply in_map_iff in Hin as (span & <- & _).
  apply numbered_lookup in Hnt as (j & Hj & Hf). cbn [fst snd] in Hj, Hf.
  exists j, text. split; [exact Hj|]. split.
  - cbn [entry_of line]. f_equal. lia.
  - cbn [entry_of matched_text]. apply substring_is_substring.
Qed.

Lemma filter_line_same r lines n text spans :
  List.filter (fun m => line m =? Z.of_nat n) (map (entry_of r lines n text) spans)
  = map (entry_of r lines n text) spans.
Proof.
  induction spans as [|s l IHl]; cbn; [reflexivity|].
  rewrite Z.eqb_refl. now rewrite IHl.
Qed.

Lemma filter_line_other r lines n k text spans :
  n <> k ->
  List.filter (fun m => line m =? Z.of_nat k) (map (entry_of r lines n text) spans) = [].
Proof.
  intros Hne. induction spans as [|s l IHl]; cbn; [reflexivity|].
  destruct (Z.eqb_spec (Z.of_nat n) (Z.of_nat k)); [lia | exact IHl].
Qed.

Lemma filter_line_later r lines start k l :
  (start < k)%nat ->
  List.filter (fun m => line m =? Z.of_nat start)
    (flat_map
       (fun nt => map (entry_of r lines (fst nt) (snd nt)) (occurrences r (snd nt)))
       (numbered k l)) = [].
Proof.
  revert k. induction l as [|y l IHl]; intros k Hk; [reflexivity|].
  cbn [numbered flat_map fst snd]. rewrite List.filter_app, IHl by lia.
  rewrite app_nil_r. apply filter_line_other. lia.
Qed.

(** The entries of line [j + 1]: one per occurrence of the rule's pattern
    in that line. *)
Lemma count_line_entries lines r j text :
  lines !! j = Some text ->
  length (List.filter (fun m => line m =? Z.of_nat (j + 1)) (rule_entries lines r))
  = length (occurrences r text).
Proof.
  unfold rule_entries.
  enough (H : forall start rest,
            rest !! j = Some text ->
            length (List.filter (fun m => line m =? Z.of_nat (start + j))
                      (flat_map
                         (fun nt => map (entry_of r lines (fst nt) (snd nt))
                                      (occurrences r (snd nt)))
                         (numbered start rest)))
            = length (occurrences r text)).
  { intros Hj. rewrite (Nat.add_comm j 1). now apply H. }
  intros start rest. revert start j.
  induction rest as [|x rest IH]; intros start j Hj; [discriminate|].
  cbn [numbered flat_map fst snd]. rewrite List.filter_app, length_app.
  destruct j as [|j].
  - injection Hj as ->. rewrite Nat.add_0_r.
    rewrite filter_line_same, filter_line_later by lia.
    rewrite length_map. cbn. lia.
  - cbn in Hj. rewrite filter_line_other by lia.
    cbn [length]. replace (start + S j)%nat with (S start + j)%nat by lia.
    now apply IH.
Qed.

Fixpoint sum_nat (l : list nat) : nat :=
  match l with
  | [] => 0%nat
  | x :: l' => (x + sum_nat l')%nat
  end.

Lemma count_line_all_rules lines rules j text :
  lines !! j = Some text ->
  length (List.filter (fun m => line m =? Z.of_nat (j + 1))
            (flat_map (rule_entries lines) rules))
  = sum_nat (map (fun r => length (occurrences r text)) rules).
Proof.
  intros Hj. induction rules as [|r rules IH]; [reflexivity|].
  cbn [flat_map map sum_nat]. rewrite List.filter_app, length_app, IH.
  now rewrite (count_line_entries lines r j text Hj).
Qed.

Lemma filter_length_perm {A} (f : A -> bool) (l1 l2 : list A) :
  l1 ≡ₚ l2 -> length (List.filter f l1) = length (List.filter f l2).
Proof.
  induction 1 as [|x l1 l2 _ IH|x y l|l1 l2 l3 _ IH1 _ IH2]; cbn.
  - reflexivity.
  - destruct (f x); cbn; congruence.
  - destruct (f x), (f y); reflexivity.
  - congruence.
Qed.

(** C6.  The output is sorted by ascending line number; it holds exactly one
    entry per occurrence [finditer] reports, for every rule and every line
    (so the entries of a line are as many as the occurrences of the rules'
    patterns in it); and the [matched_text] of an entry is a substring of
    the source line the entry is reported on.  The empty source text has no
    line and gives no entry. *)
Theorem match_patterns_sorted_per_occurrence (source_code : string) (rules : list rule) :
  let out := match_patterns source_code rules in
  let lines := split_char newline source_code in
  StronglySorted line_le out /\
  (source_code = EmptyString -> out = []) /\
  (source_code <> EmptyString ->
     out ≡ₚ flat_map (rule_entries lines) rules /\
     forall j text, lines !! j = Some text ->
       length (List.filter (fun m => line m =? Z.of_nat (j + 1)) out)
       = sum_nat (map (fun r => length (occurrences r text)) rules)) /\
  Forall
    (fun m => exists j text,
       lines !! j = Some text /\ line m = Z.of_nat (j + 1) /\
       is_substring (matched_text m) text)
    out.
Proof.
  intros out lines.
  assert (Hperm : source_code <> EmptyString -> out ≡ₚ flat_map (rule_entries lines) rules).
  { intros Hne. unfold out, match_patterns.
    destruct source_code as [|c s]; [congruence|]. cbn [nonempty_str negb orb].
    destruct rules as [|r rules]; [reflexivity|]. cbn [nonempty negb].
    rewrite (proj2 (sort_by_line_spec _)), fold_scan_rule_flat. reflexivity. }
  split; [|split; [|split]].
  - unfold out, match_patterns. destruct (_ || _); [constructor|].
    apply sort_by_line_spec.
  - intros ->. reflexivity.
  - intros Hne. split; [now apply Hperm|].
    intros j text Hj. rewrite (filter_length_perm _ _ _ (Hperm Hne)).
    now apply count_line_all_rules.
  - destruct source_code as [|c s]; [constructor|].
    apply Forall_forall. intros m Hm.
    rewrite (Hperm ltac:(discriminate)) in Hm.
    apply list_elem_of_In, in_flat_map in Hm as (r & _ & Hm).
    now apply in_rule_entries in Hm.
Qed.

End Matcher.

(** A concrete run, with the matcher of module [Re] behind [finditer] and
    three patterns a rule file could hold (the third does not compile). *)
Definition compile_known (pattern : string) : option Re.regex :=
  if String.eqb pattern "os\.system\(" then Some (Re.lit "os.system(")
  else if String.eqb pattern "eval\(" then Some (Re.lit "eval(")
  else None.

Definition spans (r : Re.regex) (text : string) : list (nat * nat) :=
  map (fun m => (Re.m_start m, Re.m_end m)) (Re.finditer r text).

Definition source_example : string :=
  "import os" ++ String newline "eval(a); os.system(b)"
    ++ String newline "os.system(c) or os.system(d)".

Definition rules_example : list rule :=
  [Rule (Some "rce_os_system") (Some "os.system") (Some "os\.system\(") (Some "critical")
     (Some "d") None;
   Rule (Some "broken") None (Some "(") None None None;
   Rule (Some "webshell_eval") (Some "eval") (Some "eval\(") None None None].

Example match_patterns_run :
  map (fun m => (rule_id m, severity m, line m, matched_text m, col_offset m))
      (match_patterns Re.regex compile_known spans source_example rules_example)
  = [("rce_os_system", "critical", 2, "os.system(", 9%nat);
     ("webshell_eval", "medium", 2, "eval(", 0%nat);
     ("rce_os_system", "critical", 3, "os.system(", 0%nat);
     ("rce_os_system", "critical", 3, "os.system(", 16%nat)].
Proof. vm_compute. reflexivity. Qed.

End PatternMatcher.

(* ===================================================================== *)
(** * engines/dynamic/network_monitor.py *)
(* ===================================================================== *)

Module NetworkMonitor.
Import PyStr.

(** [raw_address]: the address text, or the pair parsed out of it. *)
Inductive raw_address :=
| RawText (s : string)
| RawPair (ip : string) (port : Z).

Record activity := Activity {
  activity_type : string;
  target : string;
  timestamp : string;
  log_line : string;
  raw : raw_address
}.

Definition quote_class : list Re.cls_item := [Re.chr "'"; Re.chr dquote].

(** The pattern of lines 49-51: a bracketed time stamp (group 1), the
    ALERT tag, the NETWORK tag, [socket.] and one of connect, connect_ex,
    bind, create_connection (group 2), the words [called with address=],
    and the address between single or double quote characters (group 3). *)
Definition network_pattern : Re.regex :=
  Re.cat
    [Re.RChar "["; Re.RGroup 1 (Re.RPlus true (Re.RClass true [Re.chr "]"])); Re.RChar "]";
     Re.spaces1; Re.lit "[ALERT]"; Re.spaces1; Re.lit "NETWORK:"; Re.spaces1;
     Re.lit "socket.";
     Re.RGroup 2 (Re.alt [Re.lit "connect"; Re.lit "connect_ex"; Re.lit "bind";
                          Re.lit "create_connection"]);
     Re.spaces1; Re.lit "called"; Re.spaces1; Re.lit "with"; Re.spaces1;
     Re.lit "address="; Re.RClass false quote_class;
     Re.RGroup 3 (Re.RPlus true (Re.RClass true quote_class));
     Re.RClass false quote_class].

(** [re.match(r'\(([^,]+),\s*(\d+)\)', address_str)]. *)
Definition tuple_pattern : Re.regex :=
  Re.cat
    [Re.RBol; Re.RChar "("; Re.RGroup 1 (Re.RPlus true (Re.RClass true [Re.chr ","]));
     Re.RChar ","; Re.spaces0; Re.RGroup 2 Re.digits1; Re.RChar ")"].

(** The body of the loop, lines 53-78. *)
Definition activity_of_line (text : string) : option activity :=
  match Re.search network_pattern text with
  | None => None
  | Some m =>
      let timestamp := Re.group text m 1 in
      let activity_type := Re.group text m 2 in
      let address_str := Re.group text m 3 in
      let '(target, raw) :=
        match Re.search tuple_pattern address_str with
        | Some tm =>
            let ip := strip_chars (String "'" (String dquote EmptyString))
                        (Re.group address_str tm 1) in
            let port := Re.group address_str tm 2 in
            ((ip ++ ":" ++ port)%string, RawPair ip (default 0 (py_int port)))
        | None => (address_str, RawText address_str)
        end in
      Some (Activity activity_type target timestamp (strip text) raw)
  end.

(** [analyze_network_activity] on a list of log entries, lines 13-80. *)
Definition analyze_network_activity (log_source : list string) : list activity :=
  fold_left
    (fun activities text =>
       match activity_of_line text with
       | Some a => (activities ++ [a])%list
       | None => activities
       end)
    log_source [].

Example analyze_network_activity_run :
  map (fun a => (activity_type a, target a, timestamp a))
      (analyze_network_activity
         ["[2024-05-01 10:00:00.123] [ALERT] NETWORK: socket.connect called with address='8.8.8.8:53' | stack=/tmp/t.py:4";
          "[2024-05-01 10:00:00.200] [INFO] FILE OPEN: /tmp/x (mode: r)";
          "[2024-05-01 10:00:01.000] [ALERT] NETWORK: socket.connect_ex called with address='(10.0.0.1, 80)' | stack=/tmp/t.py:9"])
  = [("connect", "8.8.8.8:53", "2024-05-01 10:00:00.123");
     ("connect_ex", "10.0.0.1:80", "2024-05-01 10:00:01.000")].
Proof. vm_compute. reflexivity. Qed.

End NetworkMonitor.

(* ===================================================================== *)
(** * engines/dynamic/file_monitor.py *)
(* ===================================================================== *)

Module FileMonitor.
Import PyStr.

Record file_operation := FileOperation {
  operation : string;
  file_path : string;
  mode : string;
  is_sensitive : bool;
  line_numbers : list Z
}.

(** [s.lower()]. *)
Definition lower_char (c : ascii) : ascii :=
  let n := nat_of_ascii c in
  if ((65 <=? n) && (n <=? 90))%nat then ascii_of_nat (n + 32) else c.

Fixpoint lower (s : string) : string :=
  match s with
  | EmptyString => EmptyString
  | String c s' => String (lower_char c) (lower s')
  end.

(** The pattern of line 128, [([A-Za-z]:\\\\[^:]+|/[^:]+):(\\d+)] in a raw
    string: the regex engine reads [\\\\] as two backslash characters and
    [\\d+] as one backslash character followed by one or more letters d. *)
Definition stack_re_as_written : Re.regex :=
  Re.RSeq
    (Re.RGroup 1
       (Re.RAlt
          (Re.cat [Re.RClass false [Re.rng "A" "Z"; Re.rng "a" "z"];
                   Re.RChar ":"; Re.RChar backslash; Re.RChar backslash;
                   Re.RPlus true (Re.RClass true [Re.chr ":"])])
          (Re.cat [Re.RChar "/"; Re.RPlus true (Re.RClass true [Re.chr ":"])])))
    (Re.RSeq (Re.RChar ":")
       (Re.RGroup 2 (Re.RSeq (Re.RChar backslash) (Re.RPlus true (Re.RChar "d"))))).

(** The body of the loop of [analyze_file_activity], lines 111-140. *)
Definition operation_of_line (text : string) : option file_operation :=
  if negb (contains "FILE" text) then None
  else
    match split_str "FILE" (strip text) with
    | [_; part] =>
        let operation_part := strip part in
        match split_once ":" operation_part with
        | [op; rest] =>
            let operation := strip op in
            let file_path := strip (default EmptyString (head (split_str "(mode:" rest))) in
            let mode :=
              if contains "(mode:" operation_part then
                strip (default EmptyString
                         (head (split_str ")"
                                  (default EmptyString
                                     (split_str "(mode:" operation_part !! 1%nat)))))
              else EmptyString in
            let line_numbers :=
              if contains "stack=" text
              then Re.group_ints stack_re_as_written 2 text
              else [] in
            Some (FileOperation (lower operation) file_path mode
                    (contains "[ALERT]" text) line_numbers)
        | _ => None
        end
    | _ => None
    end.

(** [analyze_file_activity] on a list of log entries, lines 84-144. *)
Definition analyze_file_activity (log_source : list string) : list file_operation :=
  fold_left
    (fun operations text =>
       match operation_of_line text with
       | Some op => (operations ++ [op])%list
       | None => operations
       end)
    log_source [].

(** The group [(\\d+)] of the pattern as written starts with a backslash:
    [int] never accepts it, so no operation gets a line number. *)
Lemma operation_of_line_no_lines text op :
  operation_of_line text = Some op -> line_numbers op = [].
Proof.
  unfold operation_of_line. intros H.
  destruct (negb (contains "FILE" text)); [discriminate|].
  destruct (split_str "FILE" (strip text)) as [|p0 [|part [|? ?]]]; try discriminate.
  destruct (split_once ":" (strip part)) as [|o [|rest [|? ?]]]; try discriminate.
  injection H as <-. cbn [line_numbers].
  destruct (contains "stack=" text); [|reflexivity].
  apply (Re.group_ints_nil stack_re_as_written 2 backslash); reflexivity.
Qed.

Lemma analyze_file_activity_no_lines log_source :
  Forall (fun op => line_numbers op = []) (analyze_file_activity log_source).
Proof.
  unfold analyze_file_activity.
  assert (H : forall acc, Forall (fun op => line_numbers op = []) acc ->
    Forall (fun op => line_numbers op = [])
      (fold_left
         (fun operations text =>
            match operation_of_line text with
            | Some op => (operations ++ [op])%list
            | None => operations
            end) log_source acc)).
  { induction log_source as [|text rest IH]; intros acc Hacc; cbn [fold_left]; [exact Hacc|].
    apply IH. destruct (operation_of_line text) as [op|] eqn:E; [|exact Hacc].
    apply Forall_app. split; [exact Hacc|].
    constructor; [exact (operation_of_line_no_lines text op E) | constructor]. }
  apply H. constructor.
Qed.

End FileMonitor.

(* ===================================================================== *)
(** * engines/dynamic/fuzzer.py *)
(* ===================================================================== *)

Module Fuzzer.
Import PyStr.

(** [string.ascii_letters], [string.digits] and [special_chars]. *)
Definition letters : string :=
  "abcdefghijklmnopqrstuvwxyzABCDEFGHIJKLMNOPQRSTUVWXYZ".
Definition digits : string := "0123456789".
Definition special_chars : string :=
  ";|&><$`" ++ String dquote (String "'" (String backslash EmptyString)).

Definition all_chars : string := letters ++ digits ++ special_chars.

(** The catalog of injection payloads, lines 59-69. *)
Definition injection_patterns : list string :=
  ["; ls";
   "| cat /etc/passwd";
   "& whoami";
   "`id`";
   "$(whoami)";
   String dquote "> /tmp/test";
   "' || 1=1 --";
   "; rm -rf /";
   "| nc -l 1234"].

(** [l[:k]] for any integer [k]: a negative [k] counts from the end. *)
Definition slice_to {A} (l : list A) (k : Z) : list A :=
  if 0 <=? k then take (Z.to_nat k) l
  else take (Z.to_nat (Z.of_nat (length l) + k)) l.

Section Random.

(** The module [random]: a generator state, and a draw below a bound.
    [random.randint] and [random.choice] both reduce to it. *)
Variable rng : Type.
Variable random_below : nat -> rng -> nat * rng.
Hypothesis random_below_lt :
  forall n g, (0 < n)%nat -> (fst (random_below n g) < n)%nat.

(** [random.randint(a, b)] for [a <= b]. *)
Definition randint (a b : Z) (g : rng) : Z * rng :=
  let '(r, g) := random_below (Z.to_nat (b - a + 1)) g in
  (a + Z.of_nat r, g).

(** [random.choice(s)] for a non-empty string [s]. *)
Definition choice (s : string) (g : rng) : ascii * rng :=
  let '(i, g) := random_below (String.length s) g in
  (default Ascii.zero (String.get i s), g).

(** [''.join(random.choice(all_chars) for _ in range(length))]. *)
Fixpoint random_chars (length : nat) (g : rng) : string * rng :=
  match length with
  | O => (EmptyString, g)
  | S n =>
      let '(c, g) := choice all_chars g in
      let '(s, g) := random_chars n g in
      (String c s, g)
  end.

(** [generate_random_string], lines 14-38. *)
Definition generate_random_string (min_length max_length : Z) (g : rng) : string * rng :=
  let '(length, g) := randint min_length max_length g in
  random_chars (Z.to_nat length) g.

(** [for i in range(num_tests): test_cases.append(generate_random_string(1, 50))]. *)
Fixpoint random_cases (n : nat) (g : rng) : list string * rng :=
  match n with
  | O => ([], g)
  | S n' =>
      let '(s, g) := generate_random_string 1 50 g in
      let '(rest, g) := random_cases n' g in
      (s :: rest, g)
  end.

(** [generate_fuzz_cases], lines 41-75. *)
Definition generate_fuzz_cases (num_tests : Z) (g : rng) : list string * rng :=
  let '(test_cases, g) := random_cases (Z.to_nat num_tests) g in
  let test_cases :=
    (test_cases ++
     slice_to injection_patterns
       (Z.min num_tests (Z.of_nat (length injection_patterns))))%list in
  (slice_to test_cases (num_tests * 2), g).

(** Every character of [s] is a letter, a digit or one of the special
    characters. *)
Definition drawn_from_all_chars (s : string) : Prop :=
  Forall (fun c => In c (list_ascii_of_string all_chars)) (list_ascii_of_string s).

(** ** One run per test case *)

(** What [run_in_sandbox] or [run_direct] returns; keys the fuzzer reads
    with [.get] are [option] fields.  [float] stands for Python's floats,
    which are only passed along. *)
Variable float : Type.
Variable float_zero : float.

Record run_result := RunResult {
  return_code : Z;
  stdout : string;
  stderr : string;
  execution_time : float;
  run_timed_out : option bool;
  run_log_entries : option (list string);
  run_log_file : option string
}.

Record fuzz_result := FuzzResult {
  test_input : string;
  fr_return_code : Z;
  crashed : bool;
  fr_stdout : string;
  fr_stderr : string;
  fr_execution_time : float;
  fr_log_file : string;
  network_activities : list NetworkMonitor.activity;
  timed_out : bool;
  line_numbers : option (list Z);
  error : option string
}.

(** The run of the target on one input: [inl] its result, [inr] the text
    of the exception when the run fails altogether.  The index tells the
    runs apart: the same input can behave differently twice. *)
Variable run_target : nat -> string -> run_result + string.

(** Reading a log file for [analyze_network_activity]: its lines, or
    [None] when the file is missing or unreadable. *)
Variable read_log_file : string -> option (list string).

(** The pattern of line 137, written [File \x22[^\x22]+\x22, line (\\d+)]
    in a raw string (x22 stands for the double quote): the regex engine
    reads [\\d+] as one backslash character followed by one or more
    letters d. *)
Definition traceback_re_as_written : Re.regex :=
  Re.cat
    [Re.lit "File "; Re.RChar dquote;
     Re.RPlus true (Re.RClass true [Re.chr dquote]); Re.RChar dquote;
     Re.lit ", line ";
     Re.RGroup 1 (Re.RSeq (Re.RChar backslash) (Re.RPlus true (Re.RChar "d")))].

(** Lines 133-141. *)
Definition stderr_line_numbers (stderr : string) : list Z :=
  if nonempty_str stderr then Re.group_ints traceback_re_as_written 1 stderr else [].

(** Lines 126-164 and 166-179: the result recorded for one run. *)
Definition result_of_run (use_sandbox : bool) (test_input : string)
    (outcome : run_result + string) : fuzz_result :=
  match outcome with
  | inl result =>
      let crashed :=
        (negb (return_code result =? 0) && negb (default false (run_timed_out result)))
        || contains "Traceback" (stderr result)
        || contains "Error" (stderr result) in
      let line_numbers := stderr_line_numbers (stderr result) in
      let network_activities :=
        if use_sandbox then
          let log_entries := default [] (run_log_entries result) in
          if nonempty log_entries
          then NetworkMonitor.analyze_network_activity log_entries
          else if nonempty_str (default EmptyString (run_log_file result))
          then NetworkMonitor.analyze_network_activity
                 (default [] (read_log_file (default EmptyString (run_log_file result))))
          else []
        else [] in
      FuzzResult test_input (return_code result) crashed (stdout result) (stderr result)
        (execution_time result) (default EmptyString (run_log_file result))
        network_activities (default false (run_timed_out result))
        (Some line_numbers) None
  | inr e =>
      FuzzResult test_input (-1) true EmptyString e float_zero EmptyString [] false
        None (Some e)
  end.

(** [for test_input in test_cases], lines 109-179. *)
Fixpoint run_cases (use_sandbox : bool) (i : nat) (test_cases : list string)
    : list fuzz_result :=
  match test_cases with
  | [] => []
  | test_input :: rest =>
      result_of_run use_sandbox test_input (run_target i test_input)
        :: run_cases use_sandbox (S i) rest
  end.

(** [fuzz_execution], lines 78-181. *)
Definition fuzz_execution (num_tests : Z) (use_sandbox : bool) (g : rng)
    : list fuzz_result :=
  let '(test_cases, _) := generate_fuzz_cases num_tests g in
  run_cases use_sandbox 0 test_cases.

(** ** The test cases *)

Lemma randint_range a b g :
  a <= b -> a <= fst (randint a b g) <= b.
Proof.
  intros Hab. unfold randint.
  pose proof (random_below_lt (Z.to_nat (b - a + 1)) g ltac:(lia)) as Hlt.
  destruct (random_below (Z.to_nat (b - a + 1)) g) as [r g']. cbn [fst] in *. lia.
Qed.

Lemma get_in_list i s c :
  String.get i s = Some c -> In c (list_ascii_of_string s).
Proof.
  revert i. induction s as [|d s IH]; intros i; [destruct i; discriminate|].
  destruct i as [|i]; cbn.
  - intros [= ->]. now left.
  - intros H. right. eauto.
Qed.

Lemma get_lt i s : (i < String.length s)%nat -> exists c, String.get i s = Some c.
Proof.
  revert i. induction s as [|d s IH]; intros i Hi; cbn in Hi; [lia|].
  destruct i as [|i]; cbn; [eauto|]. apply IH. lia.
Qed.

Lemma choice_all_chars g : In (fst (choice all_chars g)) (list_ascii_of_string all_chars).
Proof.
  unfold choice.
  pose proof (random_below_lt (String.length all_chars) g
                ltac:(vm_compute; lia)) as Hlt.
  destruct (random_below (String.length all_chars) g) as [i g']. cbn [fst] in *.
  destruct (get_lt i all_chars Hlt) as (c & Hc). rewrite Hc. cbn [default].
  eapply get_in_list; eauto.
Qed.

Lemma random_chars_spec n g :
  String.length (fst (random_chars n g)) = n /\
  drawn_from_all_chars (fst (random_chars n g)).
Proof.
  revert g. induction n as [|n IH]; intros g; cbn [random_chars].
  - split; [reflexivity | constructor].
  - pose proof (choice_all_chars g) as Hc.
    destruct (choice all_chars g) as [c g1]. cbn [fst] in Hc.
    specialize (IH g1). destruct (random_chars n g1) as [s g2]. cbn [fst] in *.
    destruct IH as [IH1 IH2]. split; [cbn; now rewrite IH1|].
    unfold drawn_from_all_chars. cbn [list_ascii_of_string]. now constructor.
Qed.

Lemma generate_random_string_spec a b g :
  0 <= a <= b ->
  a <= Z.of_nat (String.length (fst (generate_random_string a b g))) <= b /\
  drawn_from_all_chars (fst (generate_random_string a b g)).
Proof.
  intros Hab. unfold generate_random_string.
  pose proof (randint_range a b g ltac:(lia)) as Hr.
  destruct (randint a b g) as [len g1]. cbn [fst] in Hr.
  destruct (random_chars_spec (Z.to_nat len) g1) as [H1 H2].
  rewrite H1. split; [lia | exact H2].
Qed.

Definition random_case_ok (s : string) : Prop :=
  (1 <= String.length s <= 50)%nat /\ drawn_from_all_chars s.

Lemma random_cases_spec n g :
  length (fst (random_cases n g)) = n /\
  Forall random_case_ok (fst (random_cases n g)).
Proof.
  revert g. induction n as [|n IH]; intros g; cbn [random_cases].
  - split; [reflexivity | constructor].
  - pose proof (generate_random_string_spec 1 50 g ltac:(lia)) as [Hl Hd].
    destruct (generate_random_string 1 50 g) as [s g1]. cbn [fst] in Hl, Hd.
    specialize (IH g1). destruct (random_cases n g1) as [rest g2]. cbn [fst] in *.
    destruct IH as [IH1 IH2]. split; [cbn; now rewrite IH1|].
    constructor; [|exact IH2]. split; [lia | exact Hd].
Qed.

Lemma run_cases_length use_sandbox i test_cases :
  length (run_cases use_sandbox i test_cases) = length test_cases.
Proof.
  revert i. induction test_cases as [|t ts IH]; intros i; cbn; [reflexivity|].
  now rewrite IH.
Qed.

(** The test cases for any count: [N >= 0] gives [N] random strings and
    then the first [min(N, 9)] payloads; [N < 0] gives no random string and
    what the two slices, then counted from the end, leave of the catalog. *)
Lemma generate_fuzz_cases_spec (num_tests : Z) (g : rng) :
  let test_cases := fst (generate_fuzz_cases num_tests g) in
  (0 <= num_tests ->
     exists randoms,
       test_cases =
         (randoms ++ take (Z.to_nat (Z.min num_tests 9)) injection_patterns)%list /\
       Z.of_nat (length randoms) = num_tests /\
       Forall random_case_ok randoms /\
       Z.of_nat (length test_cases) <= 2 * num_tests) /\
  (num_tests < 0 ->
     test_cases = take (Z.to_nat (9 + 3 * num_tests)) injection_patterns).
Proof.
  intros test_cases. unfold test_cases, generate_fuzz_cases.
  destruct (random_cases_spec (Z.to_nat num_tests) g) as [Hlen Hok].
  destruct (random_cases (Z.to_nat num_tests) g) as [randoms g1] eqn:Erandom.
  cbn [fst] in *.
  change (Z.of_nat (length injection_patterns)) with 9.
  split.
  - intros Hn.
    assert (Hpay : slice_to injection_patterns (Z.min num_tests 9)
                   = take (Z.to_nat (Z.min num_tests 9)) injection_patterns).
    { unfold slice_to. destruct (Z.leb_spec 0 (Z.min num_tests 9)); [reflexivity | lia]. }
    rewrite Hpay.
    set (payloads := take (Z.to_nat (Z.min num_tests 9)) injection_patterns).
    assert (Hplen : (length payloads <= Z.to_nat num_tests)%nat).
    { unfold payloads. rewrite length_take. lia. }
    assert (Hall : slice_to (randoms ++ payloads) (num_tests * 2)
                   = (randoms ++ payloads)%list).
    { unfold slice_to. destruct (Z.leb_spec 0 (num_tests * 2)); [|lia].
      apply take_ge. rewrite length_app. lia. }
    rewrite Hall. exists randoms.
    split; [reflexivity|]. split; [lia|]. split; [exact Hok|].
    rewrite length_app. lia.
  - intros Hn.
    assert (randoms = []) as -> by (destruct randoms; [reflexivity | cbn in Hlen; lia]).
    cbn [app]. unfold slice_to.
    destruct (Z.leb_spec 0 (Z.min num_tests 9)); [lia|].
    destruct (Z.leb_spec 0 (num_tests * 2)); [lia|].
    rewrite take_take, length_take. f_equal.
    change (length injection_patterns) with 9%nat. lia.
Qed.

End Random.

(** ** A concrete generator and concrete runs *)

(** A linear congruential generator, for the runs below. *)
Definition lcg_below (n : nat) (g : Z) : nat * Z :=
  (Z.to_nat (g mod Z.of_nat n), (g * 1103515245 + 12345) mod 2147483648).

Lemma lcg_below_lt n g : (0 < n)%nat -> (fst (lcg_below n g) < n)%nat.
Proof.
  intros Hn. unfold lcg_below. cbn [fst].
  pose proof (Z.mod_pos_bound g (Z.of_nat n) ltac:(lia)). lia.
Qed.

(** A generator that plays back a list of draws, for the strings one
    wants to see. *)
Definition scripted_below (n : nat) (g : list nat) : nat * list nat :=
  match g with
  | [] => (0%nat, [])
  | d :: g' => ((d mod n)%nat, g')
  end.

Lemma scripted_below_lt n g : (0 < n)%nat -> (fst (scripted_below n g) < n)%nat.
Proof.
  intros Hn. destruct g as [|d g]; cbn [scripted_below fst]; [exact Hn|].
  apply Nat.mod_upper_bound. lia.
Qed.

(** The place of a character in a string. *)
Fixpoint index_of (c : ascii) (s : string) : nat :=
  match s with
  | EmptyString => 0
  | String d s' => if Ascii.eqb c d then 0 else S (index_of c s')
  end.

(** The draws that spell [s]: its length less one, for
    [random.randint(1, 50)], then the place of each of its characters in
    [all_chars], for [random.choice]. *)
Definition script_of (s : string) : list nat :=
  (String.length s - 1)%nat :: map (fun c => index_of c all_chars) (list_ascii_of_string s).

Lemma index_of_spec c s :
  In c (list_ascii_of_string s) ->
  (index_of c s < String.length s)%nat /\ String.get (index_of c s) s = Some c.
Proof.
  induction s as [|d s IH]; cbn [list_ascii_of_string In index_of String.length];
    [intros []|].
  intros Hin. destruct (Ascii.eqb_spec c d) as [-> | Hne].
  - split; [lia | reflexivity].
  - destruct Hin as [-> | Hin]; [congruence|].
    destruct (IH Hin) as [Hlt Hget]. split; [lia | exact Hget].
Qed.

Lemma choice_scripted c g :
  In c (list_ascii_of_string all_chars) ->
  choice (list nat) scripted_below all_chars (index_of c all_chars :: g) = (c, g).
Proof.
  intros Hin. destruct (index_of_spec c all_chars Hin) as [Hlt Hget].
  unfold choice. cbn [scripted_below].
  rewrite Nat.mod_small by exact Hlt. now rewrite Hget.
Qed.

Lemma random_chars_scripted s g :
  drawn_from_all_chars s ->
  random_chars (list nat) scripted_below (String.length s)
    (map (fun c => index_of c all_chars) (list_ascii_of_string s) ++ g)%list = (s, g).
Proof.
  unfold drawn_from_all_chars.
  induction s as [|c s IH]; cbn [list_ascii_of_string map app String.length random_chars];
    [reflexivity|].
  intros H. apply Forall_cons in H as [Hc Hs].
  rewrite choice_scripted by exact Hc. now rewrite IH.
Qed.

Lemma generate_random_string_scripted s g :
  random_case_ok s ->
  generate_random_string (list nat) scripted_below 1 50 (script_of s ++ g)%list = (s, g).
Proof.
  intros [Hlen Hdrawn]. unfold generate_random_string, randint, script_of.
  cbn [app]. change (Z.to_nat (50 - 1 + 1)) with 50%nat. cbn [scripted_below].
  rewrite Nat.mod_small by lia.
  replace (Z.to_nat (1 + Z.of_nat (String.length s - 1))) with (String.length s) by lia.
  now apply random_chars_scripted.
Qed.

Lemma random_cases_scripted ss g :
  Forall random_case_ok ss ->
  random_cases (list nat) scripted_below (length ss) (flat_map script_of ss ++ g)%list
  = (ss, g).
Proof.
  induction 1 as [|s ss Hs _ IH]; cbn [flat_map length random_cases app]; [reflexivity|].
  rewrite <- app_assoc, generate_random_string_scripted by exact Hs. now rewrite IH.
Qed.

Lemma drawn_from_all_chars_check s :
  forallb (fun c => existsb (Ascii.eqb c) (list_ascii_of_string all_chars))
    (list_ascii_of_string s) = true ->
  drawn_from_all_chars s.
Proof.
  intros H. apply List.Forall_forall. intros c Hc.
  rewrite forallb_forall in H. specialize (H c Hc).
  apply existsb_exists in H as (d & Hd & Heq).
  apply Ascii.eqb_eq in Heq. now subst.
Qed.

(** ** C7 *)




Example generate_fuzz_cases_run :
  map String.length (fst (generate_fuzz_cases Z lcg_below 3 42)) = [43; 23; 45; 4; 17; 8]%nat /\
  drop 3 (fst (generate_fuzz_cases Z lcg_below 3 42)) = ["; ls"; "| cat /etc/passwd"; "& whoami"] /\
  length (fst (generate_fuzz_cases Z lcg_below 20 42)) = 29%nat.
Proof. repeat split; vm_compute; reflexivity. Qed.

(** The [stderr] of a target that fails on line 7. *)
Definition traceback_example : string :=
  "Traceback (most recent call last):" ++ String newline
    ("  File " ++ String dquote ("/tmp/target.py" ++ String dquote
       (", line 7, in <module>" ++ String newline
          ("    os.system(sys.argv[1])" ++ String newline
             "IndexError: list index out of range")))).

(** The log line of a hooked [open] of a sensitive file. *)
Definition file_log_example : string :=
  "[2024-05-01 10:00:00.123] [ALERT] FILE READ: /etc/passwd (mode: r) | stack=/tmp/target.py:12 -> /usr/lib/python3/codecs.py:3".

(** The traceback pattern as written never gives a line number. *)
Lemma stderr_line_numbers_nil stderr : stderr_line_numbers stderr = [].
Proof.
  unfold stderr_line_numbers. destruct (nonempty_str stderr); [|reflexivity].
  apply (Re.group_ints_nil traceback_re_as_written 1 backslash); reflexivity.
Qed.

(** C8.  The fuzzer records no line number, whatever the stderr of the
    run, and the file monitor none, whatever the log: the group of both
    patterns, written [(\\d+)] in a raw string, matches a backslash followed
    by letters d.  So the traceback of [traceback_example], which names
    line 7, gives the empty list, and so does the stack of
    [file_log_example], from which the pattern of the threat identifier,
    written [(\d+)], recovers lines 12 and 3. *)
Theorem traceback_and_stack_lines_not_recovered :
  (forall stderr, stderr_line_numbers stderr = []) /\
  (forall log_source,
     Forall (fun op => FileMonitor.line_numbers op = [])
       (FileMonitor.analyze_file_activity log_source)) /\
  contains "File " traceback_example = true /\
  contains ", line 7" traceback_example = true /\
  line_numbers unit
    (result_of_run unit tt (fun _ => None) true "x"
       (inl (RunResult unit (-1) EmptyString traceback_example tt (Some false)
               (Some []) None)))
    = Some [] /\
  FileMonitor.analyze_file_activity [file_log_example]
    = [FileMonitor.FileOperation "read" "/etc/passwd" "r" true []] /\
  ThreatIdentifier.stack_line_numbers file_log_example = [12; 3].
Proof.
  split; [exact stderr_line_numbers_nil|].
  split; [exact FileMonitor.analyze_file_activity_no_lines|].
  repeat split; vm_compute; reflexivity.
Qed.

End Fuzzer.

(* ===================================================================== *)
(** * engines/dynamic/sandbox.py *)
(* ===================================================================== *)

(** [run_in_sandbox] drives a worker process through [multiprocessing] (or
    [subprocess]).  The worker, its two queues and the pipes under them are
    modelled by a state machine over a clock of whole seconds: what the
    target does if left alone is a [behaviour]; [start], [join],
    [is_alive], [terminate] and the queue reads act on a [world] as the
    library's calls act on the process. *)
Module Sandbox.
Import PyStr.

(** What [_execute_with_hooks] puts on the result queue (lines 145-150). *)
Record worker_result := WorkerResult {
  wr_return_code : Z;
  wr_stdout : string;
  wr_stderr : string;
  wr_execution_time : Z
}.

(** ** The target *)

(** The target left alone: a second passes, or one of its hooked calls
    logs an entry ([_log] of syscall_monitor.py puts it on the log queue).
    Only the passing of a second takes time. *)
Inductive action := Tick | Emit (entry : string).

(** After its actions the target ends and [_execute_with_hooks] puts the
    result on the result queue (lines 134-150: an exception and a
    [SystemExit] give a result as well), or it never ends. *)
Inductive ending := Returns (r : worker_result) | Hangs.

Record behaviour := Behaviour {
  steps : list action;
  ends : ending
}.

(** The seconds the target needs for its actions. *)
Fixpoint ticks (todo : list action) : nat :=
  match todo with
  | [] => 0
  | Tick :: rest => S (ticks rest)
  | Emit _ :: rest => ticks rest
  end.

(** The entries the target has emitted when [budget] seconds have passed. *)
Fixpoint emitted (budget : nat) (todo : list action) : list string :=
  match todo with
  | [] => []
  | Emit entry :: rest => entry :: emitted budget rest
  | Tick :: rest =>
      match budget with
      | O => []
      | S k => emitted k rest
      end
  end.

(** All the entries of the target. *)
Fixpoint entries_of (todo : list action) : list string :=
  match todo with
  | [] => []
  | Emit entry :: rest => entry :: entries_of rest
  | Tick :: rest => entries_of rest
  end.

(** ** A [multiprocessing.Queue] *)

(** [put] appends the object to a buffer inside the putting process; a
    feeder thread of that process pickles the buffered objects and writes
    them, one message each, to a pipe.  The pipe holds [capacity] bytes
    (65536 on Linux).  A write of at most [atomic] bytes ([PIPE_BUF]) is all
    or nothing; of a longer message the part that fits is written and the
    thread waits for room.  The reader takes whole messages off the pipe.
    [entry_size] and [result_size] give the bytes of a pickled log entry
    and of a pickled result, with their length header. *)
Record platform := Platform {
  capacity : N;
  atomic : N;
  entry_size : string -> N;
  result_size : worker_result -> N
}.

(** One queue: the objects put and not yet written in full ([buffer], the
    next to write first), the bytes of the first of them that are in the
    pipe already ([partial]), and the whole messages in the pipe, oldest
    first. *)
Record queue (A : Type) := Queue {
  buffer : list A;
  partial : N;
  pipe : list A
}.
Arguments Queue {A} _ _ _.
Arguments buffer {A} _.
Arguments partial {A} _.
Arguments pipe {A} _.

(** What a read finds: a message, nothing ([queue.Empty]), or the start
    of a message whose rest never comes (the call does not return). *)
Inductive read (A : Type) := Got (m : A) | Empty | Blocked.
Arguments Got {A} _.
Arguments Empty {A}.
Arguments Blocked {A}.

Section Queues.
Context {A : Type}.
Variable cap atom : N.
Variable size : A -> N.

Definition bytes (l : list A) : N := fold_right (fun m n => size m + n)%N 0%N l.

(** The feeder thread writes what the pipe takes. *)
Fixpoint feed (buffer : list A) (partial : N) (pipe : list A) : queue A :=
  match buffer with
  | [] => Queue [] partial pipe
  | m :: rest =>
      let free := (cap - (bytes pipe + partial))%N in
      if (size m - partial <=? free)%N then feed rest 0%N (pipe ++ [m])
      else if (size m <=? atom)%N then Queue buffer partial pipe
      else Queue buffer (partial + free)%N pipe
  end.

(** [Queue.put]: it returns at once, whatever the pipe holds. *)
Definition put (m : A) (q : queue A) : queue A :=
  feed (buffer q ++ [m]) (partial q) (pipe q).

(** The process that wrote to the queue is gone: what its feeder thread
    had not written is lost, what is in the pipe stays. *)
Definition abandoned (q : queue A) : queue A := Queue [] (partial q) (pipe q).

(** [Queue.empty()]: no byte is waiting in the pipe. *)
Definition empty (q : queue A) : bool :=
  match pipe q with
  | [] => negb (0 <? partial q)%N
  | _ :: _ => false
  end.

(** [Queue.get_nowait()] once the writing process has ended: the oldest
    whole message; [queue.Empty] when the pipe holds no byte; and when it
    holds only the start of a message, the read of the rest never returns
    (the reading process keeps the write end of the pipe open, so no end of
    file comes). *)
Definition get_nowait (q : queue A) : read A * queue A :=
  match pipe q with
  | m :: rest => (Got m, Queue (buffer q) (partial q) rest)
  | [] => if (0 <? partial q)%N then (Blocked, q) else (Empty, q)
  end.

(** [_drain_queue], lines 97-103: [get_nowait] until [queue.Empty].  No
    value when a read does not return. *)
Fixpoint drain_loop (fuel : nat) (q : queue A) (entries : list A)
    : option (list A * queue A) :=
  match fuel with
  | O => None
  | S k =>
      match get_nowait q with
      | (Got m, q) => drain_loop k q (entries ++ [m])
      | (Empty, q) => Some (entries, q)
      | (Blocked, _) => None
      end
  end.

Definition _drain_queue (q : queue A) : option (list A * queue A) :=
  drain_loop (S (length (pipe q))) q [].

End Queues.

(** ** The worker process *)

(** [Flushing]: the target has ended, and the process waits, before it
    exits, until its feeder threads have written all they hold. *)
Inductive status := NotStarted | Running (todo : list action) | Flushing | Exited | Terminated.

Record world := World {
  worker : status;
  elapsed : nat;
  log_queue : queue string;
  result_queue : queue worker_result
}.

(** Lines 184-185: two queues, nothing in them. *)
Definition fresh : world := World NotStarted 0 (Queue [] 0%N []) (Queue [] 0%N []).

(** The dictionary [run_in_sandbox] returns. *)
Record sandbox_result := SandboxResult {
  return_code : Z;
  stdout : string;
  stderr : string;
  execution_time : Z;
  log_file : string;
  log_entries : list string;
  timed_out : bool
}.

Definition timeout_message (timeout : Z) : string :=
  "Execution timed out after " ++ pretty timeout ++ " seconds".

Definition is_nil {A} (l : list A) : bool :=
  match l with [] => true | _ => false end.

Section Run.
Variable P : platform.
Variable b : behaviour.

Definition put_entry : string -> queue string -> queue string :=
  put (capacity P) (atomic P) (entry_size P).

Definition put_result : worker_result -> queue worker_result -> queue worker_result :=
  put (capacity P) (atomic P) (result_size P).

(** The worker runs while the parent waits in [join] and reads nothing:
    for [budget] seconds, or until the process has exited.  At its end the
    target puts its result; the process exits once both feeder threads
    have written everything, and waits as long as one of them has not. *)
Fixpoint work (budget : nat) (todo : list action) (t : nat)
    (lq : queue string) (rq : queue worker_result) : world :=
  match todo with
  | Emit entry :: rest => work budget rest t (put_entry entry lq) rq
  | Tick :: rest =>
      match budget with
      | O => World (Running todo) t lq rq
      | S k => work k rest (S t) lq rq
      end
  | [] =>
      match ends b with
      | Returns r =>
          let rq := put_result r rq in
          if is_nil (buffer lq) && is_nil (buffer rq) then World Exited t lq rq
          else World Flushing (t + budget) lq rq
      | Hangs => World (Running []) (t + budget) lq rq
      end
  end.

(** [worker.start()]. *)
Definition start (w : world) : world :=
  World (Running (steps b)) 0 (log_queue w) (result_queue w).

(** [worker.join(timeout)]: wait until the process has exited, [timeout]
    seconds at most. *)
Definition join (timeout : Z) (w : world) : world :=
  match worker w with
  | Running todo => work (Z.to_nat timeout) todo (elapsed w) (log_queue w) (result_queue w)
  | Flushing => World Flushing (elapsed w + Z.to_nat timeout) (log_queue w) (result_queue w)
  | _ => w
  end.

(** [worker.is_alive()]. *)
Definition is_alive (w : world) : bool :=
  match worker w with
  | Running _ | Flushing => true
  | _ => false
  end.

(** [worker.terminate()]: the signal ends the process at once, feeder
    threads included. *)
Definition terminate (w : world) : world :=
  if is_alive w then
    World Terminated (elapsed w) (abandoned (log_queue w)) (abandoned (result_queue w))
  else w.

(** Lines 190-197: the worker is started and waited for, and terminated
    when still alive; the value is [timed_out]. *)
Definition wait_worker (timeout : Z) (w : world) : bool * world :=
  let w := start w in
  let w := join timeout w in
  let timed_out := false in
  if is_alive w then (true, join 1 (terminate w)) else (timed_out, w).

(** Lines 199-204: the result, when the queue is not empty.  No value when
    the read does not return. *)
Definition take_result (w : world) : option (option worker_result * world) :=
  if empty (result_queue w) then Some (None, w)
  else
    match get_nowait (result_queue w) with
    | (Got r, q) => Some (Some r, World (worker w) (elapsed w) (log_queue w) q)
    | (Empty, _) => Some (None, w)
    | (Blocked, _) => None
    end.

(** The queue mode of [run_in_sandbox], lines 183-215.  No record when a
    read of a queue does not return. *)
Definition run_queue (timeout : Z) (w : world) : option sandbox_result * world :=
  let '(timed_out, w) := wait_worker timeout w in
  match take_result w with
  | None => (None, w)
  | Some (result, w) =>
      match _drain_queue (log_queue w) with
      | None => (None, w)
      | Some (log_entries, lq) =>
          (Some
             (SandboxResult
                (match result with Some r => wr_return_code r | None => -1 end)
                (match result with Some r => wr_stdout r | None => EmptyString end)
                (match result with
                 | Some r => wr_stderr r
                 | None => if timed_out then timeout_message timeout else EmptyString
                 end)
                (match result with
                 | Some r => wr_execution_time r
                 | None => if timed_out then timeout else 0
                 end)
                EmptyString
                log_entries
                timed_out),
           World (worker w) (elapsed w) lq (result_queue w))
      end
  end.

(** The runner script under [subprocess.run(..., timeout=timeout)], lines
    244-262: the hooks append to the log file; the parent reads the
    script's output while it waits, and kills the script when the time is
    up.  The value is the end of the script, if it came in time, and the
    log file. *)
Fixpoint run_script (budget : nat) (todo : list action) (t : nat) (log : list string)
    : option (nat * worker_result) * list string :=
  match todo with
  | Emit entry :: rest => run_script budget rest t (log ++ [entry])
  | Tick :: rest =>
      match budget with
      | O => (None, log)
      | S k => run_script k rest (S t) log
      end
  | [] =>
      match ends b with
      | Returns r => (Some (t, r), log)
      | Hangs => (None, log)
      end
  end.

(** The file mode, lines 217-289; the log file holds the [header] written
    first and then what the hooks appended. *)
Definition run_file (timeout : Z) (log_path : string) (header : list string)
    : sandbox_result :=
  let '(completed, log_entries) := run_script (Z.to_nat timeout) (steps b) 0 header in
  match completed with
  | Some (t, r) =>
      SandboxResult (wr_return_code r) (wr_stdout r) (wr_stderr r)
        (Z.of_nat t) log_path log_entries false
  | None =>
      SandboxResult (-1) EmptyString (timeout_message timeout) timeout
        log_path log_entries true
  end.

(** [run_in_sandbox], lines 153-289: the record, if the call returns. *)
Definition run_in_sandbox (timeout : Z) (log_mode log_path : string)
    (header : list string) : option sandbox_result :=
  if String.eqb log_mode "queue" then fst (run_queue timeout fresh)
  else Some (run_file timeout log_path header).

(** The target has not ended when [timeout] seconds have passed. *)
Definition exceeds (timeout : Z) : Prop :=
  match ends b with
  | Returns _ => (Z.to_nat timeout < ticks (steps b))%nat
  | Hangs => True
  end.

(** What the worker writes to its queues while the parent waits does not
    go beyond what the pipes hold: the log entries of the first [timeout]
    seconds, and the result if the target ends within them. *)
Definition fits (timeout : Z) : Prop :=
  (bytes (entry_size P) (emitted (Z.to_nat timeout) (steps b)) <= capacity P)%N /\
  match ends b with
  | Returns r =>
      (ticks (steps b) <= Z.to_nat timeout)%nat -> (result_size P r <= capacity P)%N
  | Hangs => True
  end.

End Run.


(** ** Queues: what fits is written, what is whole is read *)

Section QueueFacts.
Context {A : Type}.
Variable cap atom : N.
Variable size : A -> N.

Lemma bytes_cons (m : A) (l : list A) :
  bytes size (m :: l) = (size m + bytes size l)%N.
Proof. reflexivity. Qed.

Lemma bytes_snoc (l : list A) (m : A) :
  bytes size (l ++ [m]) = (bytes size l + size m)%N.
Proof.
  induction l as [|x l IH]; cbn [bytes fold_right app] in *; [lia|].
  fold (bytes size (l ++ [m])). fold (bytes size l). rewrite IH. lia.
Qed.

Lemma bytes_app (l1 l2 : list A) :
  bytes size (l1 ++ l2) = (bytes size l1 + bytes size l2)%N.
Proof.
  induction l1 as [|x l IH]; cbn [bytes fold_right app] in *; [reflexivity|].
  fold (bytes size (l ++ l2)). fold (bytes size l). rewrite IH. lia.
Qed.

(** A message that fits goes to the pipe at once. *)
Lemma put_fits (q : queue A) (m : A) :
  buffer q = [] -> partial q = 0%N ->
  (bytes size (pipe q) + size m <= cap)%N ->
  put cap atom size m q = Queue [] 0%N (pipe q ++ [m]).
Proof.
  intros Hb Hp Hfit. unfold put. rewrite Hb, Hp. cbn [app feed].
  destruct (N.leb_spec (size m - 0) (cap - (bytes size (pipe q) + 0))) as [_ | Hno];
    [reflexivity | lia].
Qed.

(** A message longer than an empty pipe holds, and than one write takes
    whole, stays in the buffer with its start in the pipe. *)
Lemma put_too_long (m : A) :
  (cap < size m)%N -> (atom < size m)%N ->
  put cap atom size m (Queue [] 0%N []) = Queue [m] cap [].
Proof.
  intros Hcap Hatom. unfold put. cbn [buffer partial pipe app feed bytes fold_right].
  destruct (N.leb_spec (size m - 0) (cap - (0 + 0))) as [Hle | _]; [lia|].
  destruct (N.leb_spec (size m) atom) as [Hle | _]; [lia|].
  f_equal. lia.
Qed.

Lemma drain_loop_spec (bf : list A) (pt : N) (l : list A) :
  forall fuel entries, (length l < fuel)%nat ->
  drain_loop fuel (Queue bf pt l) entries =
  if (0 <? pt)%N then None else Some ((entries ++ l)%list, Queue bf pt []).
Proof.
  induction l as [|m l IH]; intros fuel entries Hfuel;
    (destruct fuel as [|fuel]; [cbn in Hfuel; lia|]);
    cbn [drain_loop get_nowait pipe buffer partial].
  - destruct (0 <? pt)%N; [reflexivity|]. now rewrite app_nil_r.
  - rewrite IH by (cbn in Hfuel; lia). now rewrite <- app_assoc.
Qed.

(** [_drain_queue] returns the whole messages of the pipe, unless the
    start of a further message follows them. *)
Lemma drain_queue_spec (q : queue A) :
  _drain_queue q =
  if (0 <? partial q)%N then None else Some (pipe q, Queue (buffer q) (partial q) []).
Proof.
  destruct q as [bf pt l]. unfold _drain_queue. cbn [pipe buffer partial].
  now rewrite drain_loop_spec by lia.
Qed.

End QueueFacts.

(** ** The worker while the parent waits *)

Lemma emitted_all budget todo :
  (ticks todo <= budget)%nat -> emitted budget todo = entries_of todo.
Proof.
  revert budget. induction todo as [|[|entry] rest IH]; intros budget Hb;
    cbn [ticks emitted entries_of] in *; [reflexivity| |].
  - destruct budget as [|k]; [lia|]. apply IH. lia.
  - f_equal. now apply IH.
Qed.

Section RunFacts.
Variable P : platform.
Variable b : behaviour.

(** The target ends in time and everything fits: the process exits, all
    entries and the result are in the pipes. *)
Lemma work_in_time r :
  ends b = Returns r ->
  (result_size P r <= capacity P)%N ->
  forall todo budget t lq,
  (ticks todo <= budget)%nat ->
  buffer lq = [] -> partial lq = 0%N ->
  (bytes (entry_size P) (pipe lq) + bytes (entry_size P) (entries_of todo) <= capacity P)%N ->
  work P b budget todo t lq (Queue [] 0%N []) =
  World Exited (t + ticks todo) (Queue [] 0%N (pipe lq ++ entries_of todo)) (Queue [] 0%N [r]).
Proof.
  intros Hends Hres.
  induction todo as [|[|entry] rest IH]; intros budget t lq Hb Hbuf Hpart Hfit;
    cbn [work ticks entries_of] in *.
  - rewrite Hends. unfold put_result.
    rewrite put_fits by (cbn [buffer partial pipe bytes fold_right]; first [reflexivity | lia]).
    rewrite Hbuf. cbn [is_nil buffer andb pipe app].
    rewrite Nat.add_0_r, app_nil_r. f_equal.
    destruct lq as [bf pt l]. cbn in *. now subst.
  - destruct budget as [|k]; [lia|].
    rewrite IH by (first [assumption | lia]). f_equal. lia.
  - unfold put_entry. rewrite bytes_cons in Hfit.
    rewrite put_fits; [|assumption|assumption|lia].
    rewrite IH.
    + cbn [pipe]. now rewrite <- app_assoc.
    + assumption.
    + reflexivity.
    + reflexivity.
    + cbn [pipe]. rewrite bytes_snoc. lia.
Qed.

(** The target has not ended when the time is up, and its entries so far
    fit: the process is still running, the entries are in the pipe. *)
Lemma work_over_time (rq : queue worker_result) :
  forall todo budget t lq,
  match ends b with
  | Returns _ => (budget < ticks todo)%nat
  | Hangs => True
  end ->
  buffer lq = [] -> partial lq = 0%N ->
  (bytes (entry_size P) (pipe lq) + bytes (entry_size P) (emitted budget todo)
   <= capacity P)%N ->
  exists todo',
    work P b budget todo t lq rq =
    World (Running todo') (t + budget) (Queue [] 0%N (pipe lq ++ emitted budget todo)) rq.
Proof.
  induction todo as [|[|entry] rest IH]; intros budget t lq Hex Hbuf Hpart Hfit;
    cbn [work ticks emitted] in *.
  - destruct (ends b) as [r|]; [lia|].
    exists []. rewrite app_nil_r. f_equal.
    destruct lq as [bf pt l]. cbn in *. now subst.
  - destruct budget as [|k].
    + exists (Tick :: rest). rewrite app_nil_r, Nat.add_0_r. f_equal.
      destruct lq as [bf pt l]. cbn in *. now subst.
    + destruct (IH k (S t) lq) as (todo' & ->); try assumption.
      * destruct (ends b); [lia | exact I].
      * exists todo'. f_equal. lia.
  - unfold put_entry. rewrite bytes_cons in Hfit.
    rewrite put_fits; [|assumption|assumption|lia].
    destruct (IH budget t (Queue [] 0%N (pipe lq ++ [entry]))) as (todo' & ->);
      try assumption; try reflexivity.
    + cbn [pipe]. rewrite bytes_snoc. lia.
    + exists todo'. cbn [pipe]. now rewrite <- app_assoc.
Qed.

(** The target ends in time with a result longer than the pipe holds: the
    process cannot exit, the start of the result sits in the pipe. *)
Lemma work_cannot_exit r :
  ends b = Returns r ->
  (capacity P < result_size P r)%N -> (atomic P < result_size P r)%N ->
  forall todo budget t lq,
  (ticks todo <= budget)%nat ->
  exists lq',
    work P b budget todo t lq (Queue [] 0%N []) =
    World Flushing (t + budget) lq' (Queue [r] (capacity P) []).
Proof.
  intros Hends Hcap Hatom.
  induction todo as [|[|entry] rest IH]; intros budget t lq Hb; cbn [work ticks] in *.
  - rewrite Hends. unfold put_result. rewrite put_too_long by assumption.
    cbn [buffer is_nil]. rewrite andb_false_r. now exists lq.
  - destruct budget as [|k]; [lia|].
    destruct (IH k (S t) lq ltac:(lia)) as (lq' & ->).
    exists lq'. f_equal. lia.
  - apply IH. assumption.
Qed.

Lemma run_script_in_time r :
  ends b = Returns r ->
  forall todo budget t log,
  (ticks todo <= budget)%nat ->
  run_script b budget todo t log = (Some ((t + ticks todo)%nat, r), (log ++ entries_of todo)%list).
Proof.
  intros Hends.
  induction todo as [|[|entry] rest IH]; intros budget t log Hb;
    cbn [run_script ticks entries_of] in *.
  - now rewrite Hends, Nat.add_0_r, app_nil_r.
  - destruct budget as [|k]; [lia|]. rewrite IH by lia. do 2 f_equal. f_equal. lia.
  - rewrite IH by assumption. now rewrite <- app_assoc.
Qed.

Lemma run_script_over_time :
  forall todo budget t log,
  match ends b with
  | Returns _ => (budget < ticks todo)%nat
  | Hangs => True
  end ->
  run_script b budget todo t log = (None, (log ++ emitted budget todo)%list).
Proof.
  induction todo as [|[|entry] rest IH]; intros budget t log Hex;
    cbn [run_script ticks emitted] in *.
  - destruct (ends b); [lia|]. now rewrite app_nil_r.
  - destruct budget as [|k]; [now rewrite app_nil_r|].
    apply IH. destruct (ends b); [lia | exact I].
  - rewrite IH by assumption. now rewrite <- app_assoc.
Qed.

(** Lines 190-197 from the fresh world. *)
Lemma wait_worker_fresh timeout :
  wait_worker P b timeout fresh =
  let w := work P b (Z.to_nat timeout) (steps b) 0 (Queue [] 0%N []) (Queue [] 0%N []) in
  if is_alive w then (true, terminate w) else (false, w).
Proof.
  unfold wait_worker.
  change (join P b timeout (start b fresh))
    with (work P b (Z.to_nat timeout) (steps b) 0 (Queue [] 0%N []) (Queue [] 0%N [])).
  cbv zeta.
  destruct (is_alive (work P b (Z.to_nat timeout) (steps b) 0 (Queue [] 0%N [])
                        (Queue [] 0%N []))) eqn:Ealive; [|reflexivity].
  unfold terminate. rewrite Ealive. reflexivity.
Qed.

(** The queue mode when the target has not ended in time. *)
Lemma run_queue_over_time timeout :
  exceeds b timeout -> fits P b timeout ->
  wait_worker P b timeout fresh =
    (true, World Terminated (Z.to_nat timeout)
             (Queue [] 0%N (emitted (Z.to_nat timeout) (steps b))) (Queue [] 0%N [])) /\
  fst (run_queue P b timeout fresh) =
    Some (SandboxResult (-1) EmptyString (timeout_message timeout) timeout EmptyString
            (emitted (Z.to_nat timeout) (steps b)) true).
Proof.
  intros Hex [Hfit _]. unfold exceeds in Hex.
  destruct (work_over_time (Queue [] 0%N []) (steps b) (Z.to_nat timeout) 0
              (Queue [] 0%N []) Hex eq_refl eq_refl) as (todo' & Hwork).
  { cbn [pipe bytes fold_right]. lia. }
  cbn [pipe app] in Hwork.
  assert (Hwait : wait_worker P b timeout fresh =
    (true, World Terminated (Z.to_nat timeout)
             (Queue [] 0%N (emitted (Z.to_nat timeout) (steps b))) (Queue [] 0%N []))).
  { rewrite wait_worker_fresh. cbv zeta. rewrite Hwork. reflexivity. }
  split; [exact Hwait|].
  unfold run_queue. rewrite Hwait.
  unfold take_result. cbn [result_queue empty pipe partial N.ltb N.compare negb
                           worker elapsed log_queue].
  rewrite drain_queue_spec. reflexivity.
Qed.

(** The queue mode when the target ends in time and everything fits. *)
Lemma run_queue_in_time timeout r :
  ends b = Returns r -> (ticks (steps b) <= Z.to_nat timeout)%nat ->
  fits P b timeout ->
  wait_worker P b timeout fresh =
    (false, World Exited (ticks (steps b))
              (Queue [] 0%N (entries_of (steps b))) (Queue [] 0%N [r])) /\
  fst (run_queue P b timeout fresh) =
    Some (SandboxResult (wr_return_code r) (wr_stdout r) (wr_stderr r)
            (wr_execution_time r) EmptyString (entries_of (steps b)) false).
Proof.
  intros Hends Hticks [Hlog Hres]. rewrite Hends in Hres. specialize (Hres Hticks).
  rewrite emitted_all in Hlog by assumption.
  pose proof (work_in_time r Hends Hres (steps b) (Z.to_nat timeout) 0%nat
                (Queue [] 0%N []) Hticks eq_refl eq_refl) as Hwork.
  cbn [pipe app bytes fold_right] in Hwork. specialize (Hwork ltac:(lia)).
  assert (Hwait : wait_worker P b timeout fresh =
    (false, World Exited (ticks (steps b))
              (Queue [] 0%N (entries_of (steps b))) (Queue [] 0%N [r]))).
  { rewrite wait_worker_fresh. cbv zeta. rewrite Hwork. reflexivity. }
  split; [exact Hwait|].
  unfold run_queue. rewrite Hwait.
  unfold take_result. cbn [result_queue empty pipe get_nowait buffer partial
                           worker elapsed log_queue].
  rewrite drain_queue_spec. reflexivity.
Qed.

(** The queue mode when the target ends in time with a result longer than
    the pipe holds: the parent waits the whole time, terminates the worker,
    and its read of the result queue does not return. *)
Lemma run_queue_blocked timeout r :
  (0 < capacity P)%N -> (atomic P <= capacity P)%N ->
  ends b = Returns r -> (ticks (steps b) <= Z.to_nat timeout)%nat ->
  (capacity P < result_size P r)%N ->
  fst (wait_worker P b timeout fresh) = true /\
  worker (snd (wait_worker P b timeout fresh)) = Terminated /\
  elapsed (snd (wait_worker P b timeout fresh)) = Z.to_nat timeout /\
  empty (result_queue (snd (wait_worker P b timeout fresh))) = false /\
  fst (run_queue P b timeout fresh) = None.
Proof.
  intros Hpos Hatom Hends Hticks Hcap.
  destruct (work_cannot_exit r Hends Hcap ltac:(lia) (steps b) (Z.to_nat timeout) 0%nat
              (Queue [] 0%N []) Hticks) as (lq' & Hwork).
  assert (Hwait : wait_worker P b timeout fresh =
    (true, World Terminated (Z.to_nat timeout) (abandoned lq')
             (Queue [] (capacity P) []))).
  { rewrite wait_worker_fresh. cbv zeta. rewrite Hwork. reflexivity. }
  unfold run_queue. rewrite Hwait. cbn [fst snd worker elapsed result_queue].
  unfold take_result, empty, get_nowait. cbn [result_queue pipe partial].
  destruct (N.ltb_spec 0 (capacity P)) as [_ | Hno]; [|lia].
  cbn [negb fst]. repeat split.
Qed.

(** The target has not ended when the time is up, whatever the pipes
    hold: the process is still running and has put no result. *)
Lemma work_still_running (rq : queue worker_result) :
  forall todo budget t lq,
  match ends b with
  | Returns _ => (budget < ticks todo)%nat
  | Hangs => True
  end ->
  exists todo' lq', work P b budget todo t lq rq = World (Running todo') (t + budget) lq' rq.
Proof.
  induction todo as [|[|entry] rest IH]; intros budget t lq Hex; cbn [work ticks] in *.
  - destruct (ends b) as [r|]; [lia|]. now exists [], lq.
  - destruct budget as [|k].
    + exists (Tick :: rest), lq. now rewrite Nat.add_0_r.
    + destruct (IH k (S t) lq) as (todo' & lq' & ->).
      * destruct (ends b); [lia | exact I].
      * exists todo', lq'. f_equal. lia.
  - apply IH. assumption.
Qed.

(** The record of the queue mode, if one comes back, when the target has
    not ended in time: nothing of the worker's is in it but log entries. *)
Lemma run_queue_over_time_record timeout r :
  exceeds b timeout ->
  fst (run_queue P b timeout fresh) = Some r ->
  timed_out r = true /\ return_code r = -1 /\ stdout r = EmptyString /\
  stderr r = timeout_message timeout /\ execution_time r = timeout /\
  log_file r = EmptyString.
Proof.
  intros Hex. unfold exceeds in Hex.
  destruct (work_still_running (Queue [] 0%N []) (steps b) (Z.to_nat timeout) 0%nat
              (Queue [] 0%N []) Hex) as (todo' & lq' & Hwork).
  assert (Hwait : wait_worker P b timeout fresh =
    (true, World Terminated (Z.to_nat timeout) (abandoned lq') (Queue [] 0%N []))).
  { rewrite wait_worker_fresh. cbv zeta. rewrite Hwork. reflexivity. }
  unfold run_queue. rewrite Hwait.
  unfold take_result. cbn [result_queue empty pipe partial N.ltb N.compare negb
                           worker elapsed log_queue].
  destruct (_drain_queue (abandoned lq')) as [[entries lq'']|]; cbn [fst];
    [|discriminate].
  intros [= <-]. repeat split.
Qed.

(** [run_in_sandbox] in both modes, when what the target writes fits
    into the pipes (the log file takes whatever is written). *)
Lemma run_in_sandbox_over_time timeout log_mode log_path header :
  (log_mode = "queue" -> fits P b timeout) ->
  exceeds b timeout ->
  run_in_sandbox P b timeout log_mode log_path header =
  Some (SandboxResult (-1) EmptyString (timeout_message timeout) timeout
          (if String.eqb log_mode "queue" then EmptyString else log_path)
          ((if String.eqb log_mode "queue" then [] else header)
           ++ emitted (Z.to_nat timeout) (steps b)) true).
Proof.
  intros Hfits Hex. unfold run_in_sandbox.
  destruct (String.eqb_spec log_mode "queue") as [Hq | Hq].
  - exact (proj2 (run_queue_over_time timeout Hex (Hfits Hq))).
  - unfold run_file. rewrite run_script_over_time by exact Hex. reflexivity.
Qed.

Lemma run_in_sandbox_in_time timeout log_mode log_path header r :
  (log_mode = "queue" -> fits P b timeout) ->
  ends b = Returns r -> (ticks (steps b) <= Z.to_nat timeout)%nat ->
  run_in_sandbox P b timeout log_mode log_path header =
  Some (SandboxResult (wr_return_code r) (wr_stdout r) (wr_stderr r)
          (if String.eqb log_mode "queue" then wr_execution_time r
           else Z.of_nat (ticks (steps b)))
          (if String.eqb log_mode "queue" then EmptyString else log_path)
          ((if String.eqb log_mode "queue" then [] else header)
           ++ entries_of (steps b)) false).
Proof.
  intros Hfits Hends Hticks. unfold run_in_sandbox.
  destruct (String.eqb_spec log_mode "queue") as [Hq | Hq].
  - exact (proj2 (run_queue_in_time timeout r Hends Hticks (Hfits Hq))).
  - unfold run_file. rewrite (run_script_in_time r Hends) by exact Hticks. reflexivity.
Qed.

(** The target has ended in time or it has not. *)
Lemma in_time_or_over timeout :
  (exists r, ends b = Returns r /\ (ticks (steps b) <= Z.to_nat timeout)%nat) \/
  exceeds b timeout.
Proof.
  unfold exceeds. destruct (ends b) as [r|]; [|now right].
  destruct (le_lt_dec (ticks (steps b)) (Z.to_nat timeout)); [left; eauto | now right].
Qed.

End RunFacts.

(** ** C9 *)


(** ** Concrete runs *)

(** Linux: a pipe of 65536 bytes, writes of up to 4096 bytes whole.  The
    sizes count the four bytes of the length header and the characters of
    the texts, which the pickled message holds among others. *)
Definition linux : platform :=
  Platform 65536 4096
    (fun entry => 4 + N.of_nat (String.length entry))%N
    (fun r => 4 + N.of_nat (String.length (wr_stdout r))
              + N.of_nat (String.length (wr_stderr r)))%N.

Fixpoint text_of (n : nat) (c : ascii) : string :=
  match n with
  | O => EmptyString
  | S k => String c (text_of k c)
  end.

(** A target that prints 70000 characters and ends at once. *)
Definition printing_target : behaviour :=
  Behaviour [] (Returns (WorkerResult 0 (text_of (N.to_nat 70000) "x") EmptyString 0)).

(** A target that logs at once and after 1, 4 and 9 seconds, and would end
    after 12. *)
Definition slow_target : behaviour :=
  Behaviour
    ([Emit "[SYSCALL] import"; Tick; Emit "[SYSCALL] open"; Tick; Tick; Tick;
      Emit "[NETWORK] connect"; Tick; Tick; Tick; Tick; Tick; Emit "[SYSCALL] exec";
      Tick; Tick; Tick])
    (Returns (WorkerResult 0 "done" EmptyString 12)).


Example run_in_sandbox_run :
  run_in_sandbox linux slow_target 5 "queue" EmptyString [] =
    Some (SandboxResult (-1) EmptyString "Execution timed out after 5 seconds" 5
            EmptyString ["[SYSCALL] import"; "[SYSCALL] open"; "[NETWORK] connect"] true) /\
  run_in_sandbox linux slow_target 30 "file" "sandbox.log" ["[INFO] Timeout: 30s"] =
    Some (SandboxResult 0 "done" EmptyString 12 "sandbox.log"
            ["[INFO] Timeout: 30s"; "[SYSCALL] import"; "[SYSCALL] open";
             "[NETWORK] connect"; "[SYSCALL] exec"]
            false) /\
  run_in_sandbox linux printing_target 30 "file" "sandbox.log" [] =
    Some (SandboxResult 0 (text_of (N.to_nat 70000) "x") EmptyString 0 "sandbox.log" [] false).
Proof. repeat split; vm_compute; reflexivity. Qed.

End Sandbox.

(* ===================================================================== *)
(** * engines/analysis/risk_assessor.py: [assess_risk] *)
(* ===================================================================== *)

Module AssessRisk.
Import PyStr RiskAssessor.

Section Threats.
Context {threat : Type}.

(** [threat.get('severity')]: [None] when the key is absent. *)
Variable get_severity : threat -> option string.

(** The body of [for threat in threats], lines 96-105. *)
Definition count_threat (b : breakdown) (t : threat) : breakdown :=
  let severity := FileMonitor.lower (default "medium" (get_severity t)) in
  if String.eqb severity "critical" then
    Breakdown (bd_critical b + 1) (bd_high b) (bd_medium b) (bd_low b)
  else if String.eqb severity "high" then
    Breakdown (bd_critical b) (bd_high b + 1) (bd_medium b) (bd_low b)
  else if String.eqb severity "medium" then
    Breakdown (bd_critical b) (bd_high b) (bd_medium b + 1) (bd_low b)
  else
    Breakdown (bd_critical b) (bd_high b) (bd_medium b) (bd_low b + 1).

(** [assess_risk], lines 75-125. *)
Definition assess_risk (threats : list threat) : risk_assessment :=
  let b := fold_left count_threat threats (Breakdown 0 0 0 0) in
  let sd := _calculate_risk_score (bd_critical b) (bd_high b) (bd_medium b) (bd_low b) in
  RiskAssessment (risk_score sd) (risk_level sd) (Z.of_nat (length threats)) b.

Definition total (b : breakdown) : Z :=
  bd_critical b + bd_high b + bd_medium b + bd_low b.

Definition weighted (b : breakdown) : Z :=
  30 * bd_critical b + 15 * bd_high b + 5 * bd_medium b + 1 * bd_low b.

Definition le_breakdown (b b' : breakdown) : Prop :=
  bd_critical b <= bd_critical b' /\ bd_high b <= bd_high b' /\
  bd_medium b <= bd_medium b' /\ bd_low b <= bd_low b'.

Lemma count_threat_step b t :
  le_breakdown b (count_threat b t) /\ total (count_threat b t) = total b + 1.
Proof.
  unfold count_threat, le_breakdown, total.
  repeat (destruct (String.eqb _ _)); cbn; lia.
Qed.

Lemma count_threat_comm b t u :
  count_threat (count_threat b t) u = count_threat (count_threat b u) t.
Proof.
  unfold count_threat.
  repeat (destruct (String.eqb _ _)); cbn; f_equal; lia.
Qed.

Lemma fold_count_total threats b :
  le_breakdown b (fold_left count_threat threats b) /\
  total (fold_left count_threat threats b) = total b + Z.of_nat (length threats).
Proof.
  revert b. induction threats as [|t ts IH]; intros b; cbn [fold_left length].
  - unfold le_breakdown. lia.
  - destruct (IH (count_threat b t)) as [Hle Htot].
    destruct (count_threat_step b t) as [Hle1 Htot1].
    unfold le_breakdown in *. lia.
Qed.

Lemma fold_count_perm threats threats' :
  Permutation threats threats' ->
  forall b, fold_left count_threat threats b = fold_left count_threat threats' b.
Proof.
  induction 1 as [|t l l' _ IH|t u l|l l' l'' _ IH1 _ IH2]; intros b; cbn [fold_left].
  - reflexivity.
  - apply IH.
  - now rewrite count_threat_comm.
  - now rewrite IH1, IH2.
Qed.

(** A threat counted as critical, high or medium leaves the low count alone. *)
Definition counted_low (t : threat) : bool :=
  let severity := FileMonitor.lower (default "medium" (get_severity t)) in
  negb (String.eqb severity "critical") && negb (String.eqb severity "high") &&
  negb (String.eqb severity "medium").

Lemma fold_count_low threats b :
  Forall (fun t => counted_low t = false) threats ->
  bd_low (fold_left count_threat threats b) = bd_low b.
Proof.
  revert b. induction threats as [|t ts IH]; intros b Hall; cbn [fold_left]; [reflexivity|].
  apply Forall_cons in Hall as [Ht Hall]. rewrite (IH _ Hall).
  unfold counted_low in Ht. unfold count_threat.
  repeat (destruct (String.eqb _ _)); cbn in *; congruence.
Qed.

(** The assessment reads nothing of a threat but its severity. *)
Lemma assess_risk_by_severity threats threats' :
  map get_severity threats = map get_severity threats' ->
  assess_risk threats = assess_risk threats'.
Proof.
  intros Hmap. unfold assess_risk.
  assert (Hlen : length threats = length threats').
  { rewrite <- (length_map get_severity threats), Hmap. apply length_map. }
  assert (Hfold : forall b, fold_left count_threat threats b
                            = fold_left count_threat threats' b).
  { clear Hlen. revert threats' Hmap.
    induction threats as [|t ts IH]; intros [|t' ts'] Hmap b; try discriminate;
      [reflexivity|].
    cbn [map] in Hmap. injection Hmap as Ht Hts. cbn [fold_left].
    rewrite (IH ts' Hts). f_equal. unfold count_threat. now rewrite Ht. }
  now rewrite Hfold, Hlen.
Qed.

Lemma assess_risk_facts (threats : list threat) :
  let r := assess_risk threats in
  let b := ra_breakdown r in
  (0 <= bd_critical b /\ 0 <= bd_high b /\ 0 <= bd_medium b /\ 0 <= bd_low b) /\
  bd_critical b + bd_high b + bd_medium b + bd_low b = ra_threat_count r /\
  ra_threat_count r = Z.of_nat (length threats) /\
  ra_risk_score r =
    Z.min 100 (30 * bd_critical b + 15 * bd_high b + 5 * bd_medium b + 1 * bd_low b).
Proof.
  intros r b. subst b r. unfold assess_risk.
  cbn [ra_breakdown ra_threat_count ra_risk_score].
  destruct (fold_count_total threats (Breakdown 0 0 0 0)) as [Hle Htot].
  unfold le_breakdown, total in Hle, Htot.
  cbn [bd_critical bd_high bd_medium bd_low] in Hle, Htot.
  split; [lia|]. split; [lia|]. split; [reflexivity|]. apply score_unfold.
Qed.

(** X1.  [assess_risk] puts every threat in exactly one severity bucket:
    the four counts are non-negative and add up to [threat_count], the
    length of the list.  The score is [min(100, 30c + 15h + 5m + l)] of
    those counts, lies in [0, 100], never goes down when a threat is added,
    and the whole assessment ignores the order of the threats; it is also
    what [assess_risk_from_counts] gives on the breakdown. *)
Theorem assess_risk_counts_every_threat (threats : list threat) :
  let r := assess_risk threats in
  let b := ra_breakdown r in
  (0 <= bd_critical b /\ 0 <= bd_high b /\ 0 <= bd_medium b /\ 0 <= bd_low b) /\
  bd_critical b + bd_high b + bd_medium b + bd_low b = ra_threat_count r /\
  ra_threat_count r = Z.of_nat (length threats) /\
  ra_risk_score r = Z.min 100 (30 * bd_critical b + 15 * bd_high b + 5 * bd_medium b + 1 * bd_low b) /\
  0 <= ra_risk_score r <= 100 /\
  (forall t, ra_risk_score r <= ra_risk_score (assess_risk (threats ++ [t]))) /\
  (forall threats', Permutation threats threats' -> assess_risk threats' = r) /\
  assess_risk_from_counts b = r.
Proof.
  intros r b. subst b r. unfold assess_risk.
  cbn [ra_breakdown ra_threat_count ra_risk_score].
  destruct (fold_count_total threats (Breakdown 0 0 0 0)) as [Hle Htot].
  set (B := fold_left count_threat threats (Breakdown 0 0 0 0)) in *.
  unfold le_breakdown, total in Hle, Htot.
  cbn [bd_critical bd_high bd_medium bd_low] in Hle, Htot.
  split; [lia|]. split; [lia|]. split; [reflexivity|].
  split; [apply score_unfold|]. split; [rewrite score_unfold; lia|].
  split; [|split].
  - intros t. rewrite fold_left_app. cbn [fold_left]. fold B. rewrite !score_unfold.
    destruct (count_threat_step B t) as [Hstep _].
    unfold le_breakdown in Hstep. lia.
  - intros threats' Hp.
    rewrite <- (fold_count_perm threats threats' Hp (Breakdown 0 0 0 0)).
    rewrite <- (Permutation_length Hp). reflexivity.
  - unfold assess_risk_from_counts. clearbody B. destruct B as [c h m l].
    cbn [bd_critical bd_high bd_medium bd_low] in *. f_equal. lia.
Qed.

End Threats.

End AssessRisk.

(* ===================================================================== *)
(** * engines/analysis/threat_merger.py *)
(* ===================================================================== *)

Module ThreatMerger.

(** The key [(threat_type, source_file, tuple(line_numbers or []))]. *)
Definition key : Type := option string * option string * list Z.

Section Merge.
Context {threat : Type}.

(** [threat.get(...)] for the three keys read; [None] is an absent key (or
    the value [None]). *)
Variable get_threat_type : threat -> option string.
Variable get_source_file : threat -> option string.
Variable get_line_numbers : threat -> option (list Z).

Definition key_of (t : threat) : key :=
  (get_threat_type t, get_source_file t, default [] (get_line_numbers t)).

(** The first loop, lines 13-19: the keys of the existing threats. *)
Definition seen_of (merged : list threat) : gset key :=
  fold_left (fun seen t => {[key_of t]} ∪ seen) merged ∅.

(** The body of the second loop, lines 21-30. *)
Definition add_incoming (acc : list threat * gset key) (t : threat)
    : list threat * gset key :=
  let '(merged, seen) := acc in
  if bool_decide (key_of t ∈ seen) then (merged, seen)
  else ((merged ++ [t])%list, {[key_of t]} ∪ seen).

(** [merge_threats], lines 10-32; [None] for either list is the empty list. *)
Definition merge_threats (existing incoming : list threat) : list threat :=
  let merged := existing in
  let seen := seen_of merged in
  fst (fold_left add_incoming incoming (merged, seen)).

(** The keys of a list of threats. *)
Definition keys (l : list threat) : list key := map key_of l.

Lemma seen_of_spec merged (k : key) : k ∈ seen_of merged <-> k ∈ keys merged.
Proof.
  unfold seen_of.
  enough (H : forall s : gset key, k ∈ fold_left (fun seen t => {[key_of t]} ∪ seen) merged s
                        <-> k ∈ s \/ k ∈ keys merged).
  { rewrite H. set_solver. }
  induction merged as [|t ts IH]; intros s; cbn [fold_left map].
  - set_solver.
  - rewrite IH. set_solver.
Qed.

(** The second loop started from [merged] and a [seen] that holds the keys
    of [merged]. *)
Lemma add_incoming_spec incoming : forall merged seen,
  (forall k, k ∈ seen <-> k ∈ keys merged) ->
  exists added,
    fold_left add_incoming incoming (merged, seen)
      = ((merged ++ added)%list, list_to_set (keys added) ∪ seen) /\
    sublist added incoming /\
    NoDup (keys added) /\
    (forall t, t ∈ added -> key_of t ∉ seen) /\
    (forall t, t ∈ incoming -> key_of t ∈ keys (merged ++ added)).
Proof.
  induction incoming as [|t ts IH]; intros merged seen Hseen; cbn [fold_left].
  - exists []. rewrite app_nil_r. cbn. split; [f_equal; set_solver|].
    split; [constructor|]. split; [constructor|]. split; intros t Ht; inversion Ht.
  - unfold add_incoming at 2. destruct (bool_decide (key_of t ∈ seen)) eqn:E.
    + apply bool_decide_eq_true in E.
      destruct (IH merged seen Hseen) as (added & Hfold & Hsub & Hnd & Hnew & Hall).
      exists added. split; [exact Hfold|]. split; [now apply sublist_cons|].
      split; [exact Hnd|]. split; [exact Hnew|].
      intros u Hu. apply elem_of_cons in Hu as [-> | Hu]; [|now apply Hall].
      unfold keys. rewrite map_app, elem_of_app. left. now apply Hseen.
    + apply bool_decide_eq_false in E.
      destruct (IH (merged ++ [t])%list ({[key_of t]} ∪ seen)) as (added & Hfold & Hsub & Hnd & Hnew & Hall).
      { intros k. unfold keys. rewrite map_app, elem_of_app, elem_of_union, Hseen. cbn. set_solver. }
      exists (t :: added). rewrite Hfold, <- app_assoc. unfold keys. cbn [app map list_to_set].
      split; [f_equal; set_solver|]. split; [now apply sublist_skip|].
      split; [|split].
      * apply NoDup_cons. split; [|exact Hnd].
        intros Hin. unfold keys in Hin. apply list_elem_of_fmap in Hin as (u & Hk & Hu).
        apply (Hnew u Hu). rewrite <- Hk. set_solver.
      * intros u Hu. apply elem_of_cons in Hu as [-> | Hu]; [exact E|].
        specialize (Hnew u Hu). set_solver.
      * intros u Hu. apply elem_of_cons in Hu as [-> | Hu].
        -- unfold keys. rewrite map_app, elem_of_app. right. cbn. set_solver.
        -- specialize (Hall u Hu). now rewrite <- app_assoc in Hall.
Qed.

(** Nothing is added when every incoming key has been seen. *)
Lemma add_incoming_noop incoming merged seen :
  (forall t, t ∈ incoming -> key_of t ∈ seen) ->
  fold_left add_incoming incoming (merged, seen) = (merged, seen).
Proof.
  induction incoming as [|t ts IH]; intros Hall; cbn [fold_left]; [reflexivity|].
  unfold add_incoming at 2. rewrite bool_decide_eq_true_2 by (apply Hall; left).
  apply IH. intros u Hu. apply Hall. now right.
Qed.

(** X2.  [merge_threats] returns the existing threats unchanged, followed
    by some of the incoming ones in their order: those added have pairwise
    different keys, none of which is the key of an existing threat, and
    every incoming threat has its key in the result. *)
Theorem merge_threats_appends_unseen (existing incoming : list threat) :
  exists added,
    merge_threats existing incoming = (existing ++ added)%list /\
    sublist added incoming /\
    NoDup (keys added) /\
    (forall t, t ∈ added -> key_of t ∉ keys existing) /\
    (forall t, t ∈ incoming -> key_of t ∈ keys (merge_threats existing incoming)).
Proof.
  unfold merge_threats.
  destruct (add_incoming_spec incoming existing (seen_of existing)
              (seen_of_spec existing)) as (added & Hfold & Hsub & Hnd & Hnew & Hall).
  exists added. rewrite Hfold. cbn [fst].
  split; [reflexivity|]. split; [exact Hsub|]. split; [exact Hnd|].
  split; [|exact Hall].
  intros t Ht Hin. apply (Hnew t Ht). now apply seen_of_spec.
Qed.

(** X3.  Merging the same incoming list a second time changes nothing, and
    an empty incoming list gives back the existing threats, duplicates
    included. *)
Theorem merge_threats_idempotent (existing incoming : list threat) :
  merge_threats (merge_threats existing incoming) incoming
    = merge_threats existing incoming /\
  merge_threats existing [] = existing.
Proof.
  split; [|reflexivity].
  destruct (add_incoming_spec incoming existing (seen_of existing)
              (seen_of_spec existing)) as (added & Hfold & _ & _ & _ & Hall).
  unfold merge_threats at 1. rewrite add_incoming_noop; [reflexivity|].
  intros t Ht. apply seen_of_spec.
  unfold merge_threats. rewrite Hfold. cbn [fst]. now apply Hall.
Qed.

End Merge.

End ThreatMerger.

(* ===================================================================== *)
(** * engines/analysis/aggregator.py *)
(* ===================================================================== *)

Module Aggregator.
Import PyStr.

Section Aggregate.
Context {pattern_match taint_flow cfg_structure symbols cve : Type}.
Context {syscall network_activity fuzz_result file_activity memory_finding : Type}.

(** What the loops read from an entry: [match.get('severity')],
    [str(syscall)], the truth of [activity.get('is_sensitive')],
    [f.get('type')] and the truth of [fuzz_result.get('crashed', False)]. *)
Variable match_severity : pattern_match -> option string.
Variable str : syscall -> string.
Variable is_sensitive : file_activity -> bool.
Variable finding_type : memory_finding -> option string.
Variable crashed : fuzz_result -> bool.

(** The empty dictionary, the default of [symbols]. *)
Variable no_symbols : symbols.

(** [static_results] and [dynamic_results]: every key may be absent. *)
Record static_results := StaticResults {
  sr_pattern_matches : option (list pattern_match);
  sr_taint_flows : option (list taint_flow);
  sr_cfg_structures : option (list cfg_structure);
  sr_syntax_valid : option bool;
  sr_symbols : option symbols;
  sr_cve_matches : option (list cve)
}.

Record dynamic_results := DynamicResults {
  dr_syscalls : option (list syscall);
  dr_network_activities : option (list network_activity);
  dr_fuzz_results : option (list fuzz_result);
  dr_file_activities : option (list file_activity);
  dr_memory_findings : option (list memory_finding);
  dr_execution_log : option string
}.

Record static_part := StaticPart {
  pattern_matches : list pattern_match;
  taint_flows : list taint_flow;
  cfg_structures : list cfg_structure;
  syntax_valid : bool;
  symbols_of : symbols;
  cve_data : list cve
}.

Record dynamic_part := DynamicPart {
  syscalls : list syscall;
  network_activities : list network_activity;
  fuzz_results : list fuzz_result;
  file_activities : list file_activity;
  memory_findings : list memory_finding;
  execution_log : string
}.

Record summary := Summary {
  total_threats : Z;
  critical_count : Z;
  high_count : Z;
  medium_count : Z;
  low_count : Z
}.

Record aggregated := Aggregated {
  static : static_part;
  dynamic : dynamic_part;
  summary_of : summary
}.

(** The four counters of the function. *)
Record counts := Counts {
  critical : Z;
  high : Z;
  medium : Z;
  low : Z
}.

(** Lines 68-77: one pattern match. *)
Definition count_match (c : counts) (m : pattern_match) : counts :=
  let severity := FileMonitor.lower (default "medium" (match_severity m)) in
  if String.eqb severity "critical" then Counts (critical c + 1) (high c) (medium c) (low c)
  else if String.eqb severity "high" then Counts (critical c) (high c + 1) (medium c) (low c)
  else if String.eqb severity "medium" then Counts (critical c) (high c) (medium c + 1) (low c)
  else Counts (critical c) (high c) (medium c) (low c + 1).

(** Lines 83-87: one system call. *)
Definition count_syscall (c : counts) (sc : syscall) : counts :=
  if contains "os.system" (str sc) || contains "subprocess" (str sc)
  then Counts (critical c + 1) (high c) (medium c) (low c)
  else if contains "socket" (str sc)
  then Counts (critical c) (high c) (medium c + 1) (low c)
  else c.

(** Lines 93-97: one file activity. *)
Definition count_file (c : counts) (a : file_activity) : counts :=
  if is_sensitive a then Counts (critical c) (high c + 1) (medium c) (low c)
  else Counts (critical c) (high c) (medium c) (low c + 1).

(** Lines 106-108: one fuzz result. *)
Definition count_fuzz (c : counts) (r : fuzz_result) : counts :=
  if crashed r then Counts (critical c) (high c) (medium c + 1) (low c) else c.

Definition is_memory_api (f : memory_finding) : bool :=
  match finding_type f with
  | Some t => String.eqb t "memory_api"
  | None => false
  end.

(** The entries of the default [dynamic_results], lines 35-43. *)
Definition default_dynamic : dynamic_results :=
  DynamicResults (Some []) (Some []) (Some []) (Some []) (Some []) (Some EmptyString).

(** [aggregate_results], lines 11-137. *)
Definition aggregate_results (static_results : static_results)
    (dynamic_results : option dynamic_results) : aggregated :=
  let dynamic_results := default default_dynamic dynamic_results in
  let pattern_matches := default [] (sr_pattern_matches static_results) in
  let taint_flows := default [] (sr_taint_flows static_results) in
  let cfg_structures := default [] (sr_cfg_structures static_results) in
  let syntax_valid := default true (sr_syntax_valid static_results) in
  let symbols := default no_symbols (sr_symbols static_results) in
  let cve_data := default [] (sr_cve_matches static_results) in
  let syscalls := default [] (dr_syscalls dynamic_results) in
  let network_activities := default [] (dr_network_activities dynamic_results) in
  let fuzz_results := default [] (dr_fuzz_results dynamic_results) in
  let file_activities := default [] (dr_file_activities dynamic_results) in
  let memory_findings := default [] (dr_memory_findings dynamic_results) in
  let execution_log := default EmptyString (dr_execution_log dynamic_results) in
  let c := Counts 0 0 0 0 in
  let c := fold_left count_match pattern_matches c in
  let c := Counts (critical c + Z.of_nat (length taint_flows)) (high c) (medium c) (low c) in
  let c := fold_left count_syscall syscalls c in
  let c := Counts (critical c) (high c)
             (medium c + Z.of_nat (length network_activities)) (low c) in
  let c := fold_left count_file file_activities c in
  let memory_high := Z.of_nat (length (List.filter is_memory_api memory_findings)) in
  let memory_medium := Z.of_nat (length memory_findings) - memory_high in
  let c := Counts (critical c) (high c + memory_high) (medium c + memory_medium) (low c) in
  let c := fold_left count_fuzz fuzz_results c in
  let total_threats := critical c + high c + medium c + low c in
  Aggregated
    (StaticPart pattern_matches taint_flows cfg_structures syntax_valid symbols cve_data)
    (DynamicPart syscalls network_activities fuzz_results file_activities
       memory_findings execution_log)
    (Summary total_threats (critical c) (high c) (medium c) (low c)).

(** The system calls the summary counts. *)
Definition counted_syscall (sc : syscall) : bool :=
  contains "os.system" (str sc) || contains "subprocess" (str sc) ||
  contains "socket" (str sc).

Definition sum_counts (c : counts) : Z := critical c + high c + medium c + low c.

Definition le_counts (c c' : counts) : Prop :=
  critical c <= critical c' /\ high c <= high c' /\
  medium c <= medium c' /\ low c <= low c'.

(** A loop whose body adds one to a counter for the entries [p] accepts. *)
Lemma fold_counts {A} (step : counts -> A -> counts) (p : A -> bool) :
  (forall c x, le_counts c (step c x) /\
               sum_counts (step c x) = sum_counts c + (if p x then 1 else 0)) ->
  forall xs c,
    le_counts c (fold_left step xs c) /\
    sum_counts (fold_left step xs c) = sum_counts c + Z.of_nat (length (List.filter p xs)).
Proof.
  intros Hstep. induction xs as [|x xs IH]; intros c; cbn [fold_left List.filter length].
  - unfold le_counts. lia.
  - destruct (IH (step c x)) as [Hle Hsum]. destruct (Hstep c x) as [Hle1 Hsum1].
    unfold le_counts in *. destruct (p x); cbn [length]; lia.
Qed.

Lemma filter_true_length {A} (xs : list A) :
  length (List.filter (fun _ => true) xs) = length xs.
Proof. induction xs; cbn; auto. Qed.

Lemma filter_length_le {A} (p : A -> bool) (xs : list A) :
  (length (List.filter p xs) <= length xs)%nat.
Proof. induction xs as [|x xs IH]; cbn; [lia|]. destruct (p x); cbn; lia. Qed.

(** X4.  The summary counts findings, not threats: [total_threats] is the
    sum of the four severity counts, and it is the number of pattern
    matches, taint flows, network activities, file activities and memory
    findings, plus the system calls that mention os.system, subprocess or
    socket, plus the fuzz runs that crashed.  Every taint flow counts as
    critical and every network activity as medium; the lists themselves
    are passed on unchanged. *)
Theorem aggregate_results_counts_findings (sr : static_results)
    (dr : option dynamic_results) :
  let a := aggregate_results sr dr in
  let s := summary_of a in
  total_threats s = critical_count s + high_count s + medium_count s + low_count s /\
  total_threats s =
    Z.of_nat (length (pattern_matches (static a)) + length (taint_flows (static a))
              + length (List.filter counted_syscall (syscalls (dynamic a)))
              + length (network_activities (dynamic a))
              + length (file_activities (dynamic a))
              + length (memory_findings (dynamic a))
              + length (List.filter crashed (fuzz_results (dynamic a)))) /\
  Z.of_nat (length (taint_flows (static a))) <= critical_count s /\
  Z.of_nat (length (network_activities (dynamic a))) <= medium_count s /\
  0 <= high_count s /\ 0 <= low_count s /\
  pattern_matches (static a) = default [] (sr_pattern_matches sr) /\
  taint_flows (static a) = default [] (sr_taint_flows sr) /\
  (dr = None ->
   total_threats s =
     Z.of_nat (length (pattern_matches (static a)) + length (taint_flows (static a)))).
Proof.
  intros a s. subst s a. unfold aggregate_results.
  cbn [summary_of static dynamic total_threats critical_count high_count medium_count
       low_count pattern_matches taint_flows syscalls network_activities
       file_activities memory_findings fuzz_results].
  set (dyn := default default_dynamic dr).
  set (pms := default [] (sr_pattern_matches sr)).
  set (tfs := default [] (sr_taint_flows sr)).
  set (scs := default [] (dr_syscalls dyn)).
  set (nas := default [] (dr_network_activities dyn)).
  set (frs := default [] (dr_fuzz_results dyn)).
  set (fas := default [] (dr_file_activities dyn)).
  set (mfs := default [] (dr_memory_findings dyn)).
  assert (Hmatch : forall c x, le_counts c (count_match c x) /\
            sum_counts (count_match c x) = sum_counts c + (if (fun _ => true) x then 1 else 0)).
  { intros c x. unfold count_match, le_counts, sum_counts.
    repeat (destruct (String.eqb _ _)); cbn; lia. }
  assert (Hsys : forall c x, le_counts c (count_syscall c x) /\
            sum_counts (count_syscall c x) = sum_counts c + (if counted_syscall x then 1 else 0)).
  { intros c x. unfold count_syscall, counted_syscall, le_counts, sum_counts.
    destruct (contains "os.system" (str x) || contains "subprocess" (str x));
      [cbn; lia|]. cbn [orb]. destruct (contains "socket" (str x)); cbn; lia. }
  assert (Hfile : forall c x, le_counts c (count_file c x) /\
            sum_counts (count_file c x) = sum_counts c + (if (fun _ => true) x then 1 else 0)).
  { intros c x. unfold count_file, le_counts, sum_counts.
    destruct (is_sensitive x); cbn; lia. }
  assert (Hfuzz : forall c x, le_counts c (count_fuzz c x) /\
            sum_counts (count_fuzz c x) = sum_counts c + (if crashed x then 1 else 0)).
  { intros c x. unfold count_fuzz, le_counts, sum_counts.
    destruct (crashed x); cbn; lia. }
  set (c1 := fold_left count_match pms (Counts 0 0 0 0)).
  destruct (fold_counts count_match (fun _ => true) Hmatch pms (Counts 0 0 0 0)) as [L1 S1].
  fold c1 in L1, S1. rewrite filter_true_length in S1.
  set (c2 := Counts (critical c1 + Z.of_nat (length tfs)) (high c1) (medium c1) (low c1)).
  set (c3 := fold_left count_syscall scs c2).
  destruct (fold_counts count_syscall counted_syscall Hsys scs c2) as [L3 S3]. fold c3 in L3, S3.
  set (c4 := Counts (critical c3) (high c3) (medium c3 + Z.of_nat (length nas)) (low c3)).
  set (c5 := fold_left count_file fas c4).
  destruct (fold_counts count_file (fun _ => true) Hfile fas c4) as [L5 S5]. fold c5 in L5, S5.
  rewrite filter_true_length in S5.
  set (mh := Z.of_nat (length (List.filter is_memory_api mfs))).
  set (c6 := Counts (critical c5) (high c5 + mh)
               (medium c5 + (Z.of_nat (length mfs) - mh)) (low c5)).
  set (c7 := fold_left count_fuzz frs c6).
  destruct (fold_counts count_fuzz crashed Hfuzz frs c6) as [L7 S7]. fold c7 in L7, S7.
  pose proof (filter_length_le is_memory_api mfs) as Hmh. fold mh in Hmh.
  unfold le_counts, sum_counts in *.
  clearbody c1. subst c2. clearbody c3. subst c4. clearbody c5. subst c6. clearbody c7.
  cbn [critical high medium low] in *.
  split; [reflexivity|]. split; [lia|]. split; [lia|]. split; [lia|].
  split; [lia|]. split; [lia|]. split; [reflexivity|]. split; [reflexivity|].
  intros ->. subst scs nas frs fas mfs dyn. cbn in *. lia.
Qed.

End Aggregate.

End Aggregator.

(* ===================================================================== *)
(** * main_controller.py: threats, then risk *)
(* ===================================================================== *)

(** [threats = identify_threats(aggregated)] followed by
    [risk_assessment = assess_risk(threats)], lines 513-517. *)
Module Pipeline.
Import PyStr RiskAssessor ThreatIdentifier.

(** [threat.get('severity')] on a threat built by [identify_threats]. *)
Definition threat_severity (t : threat) : option string := Some (severity t).

Definition risk_of_bundle (agg : aggregated) : risk_assessment :=
  AssessRisk.assess_risk threat_severity (identify_threats agg).

Lemma category_threats_severity agg c t :
  In t (category_threats agg c) ->
  severity t = "critical" \/ severity t = "high" \/ severity t = "medium".
Proof.
  unfold category_threats, append_if_evidence.
  destruct (nonempty _); [|intros []].
  intros [<- | []]. cbn [severity].
  destruct c; auto. destruct (memory_api agg); auto.
Qed.

Lemma category_threats_length agg c : (length (category_threats agg c) <= 1)%nat.
Proof.
  unfold category_threats, append_if_evidence. destruct (nonempty _); cbn; lia.
Qed.

Lemma flat_map_length_le {A B} (f : A -> list B) (xs : list A) :
  (forall x, (length (f x) <= 1)%nat) -> (length (flat_map f xs) <= length xs)%nat.
Proof.
  intros Hf. induction xs as [|x xs IH]; cbn [flat_map length]; [lia|].
  rewrite length_app. specialize (Hf x). lia.
Qed.

Lemma category_threats_severities agg agg' c :
  nonempty (fst (category_scan c agg)) = nonempty (fst (category_scan c agg')) ->
  memory_api agg = memory_api agg' ->
  map severity (category_threats agg c) = map severity (category_threats agg' c).
Proof.
  intros Hne Hmem. unfold category_threats, append_if_evidence.
  destruct (nonempty (fst (category_scan c agg))) eqn:E1;
    destruct (nonempty (fst (category_scan c agg'))) eqn:E2;
    try discriminate; [|reflexivity].
  cbn [app map severity]. now rewrite Hmem.
Qed.

Lemma map_flat_map {A B C} (g : B -> C) (f : A -> list B) (xs : list A) :
  map g (flat_map f xs) = flat_map (fun x => map g (f x)) xs.
Proof.
  induction xs as [|x xs IH]; cbn [flat_map map]; [reflexivity|].
  now rewrite map_app, IH.
Qed.

(** X5.  On the threats of [identify_threats], [assess_risk] counts at
    most ten threats and none of low severity; the score is 0 exactly when
    no threat was identified, and otherwise at least 5 per threat (or the
    cap of 100).  The assessment depends on which categories have evidence
    (and on whether a memory API was seen), not on how much evidence each
    category has. *)
Theorem risk_of_identified_threats (agg : aggregated) :
  let r := risk_of_bundle agg in
  ra_threat_count r = Z.of_nat (length (identify_threats agg)) /\
  ra_threat_count r <= 10 /\
  bd_low (ra_breakdown r) = 0 /\
  Z.min 100 (5 * ra_threat_count r) <= ra_risk_score r /\
  (ra_risk_score r = 0 <-> identify_threats agg = []) /\
  (forall agg',
     (forall c, nonempty (fst (category_scan c agg'))
                = nonempty (fst (category_scan c agg))) ->
     memory_api agg' = memory_api agg ->
     risk_of_bundle agg' = r).
Proof.
  intros r. subst r. unfold risk_of_bundle.
  destruct (AssessRisk.assess_risk_facts threat_severity (identify_threats agg))
    as (Hnn & Hsum & Hcount & Hscore).
  cbv zeta in *.
  assert (Hlen : (length (identify_threats agg) <= 10)%nat).
  { rewrite identify_threats_by_category.
    apply (flat_map_length_le _ all_categories (category_threats_length agg)). }
  assert (Hlow : bd_low (ra_breakdown
             (AssessRisk.assess_risk threat_severity (identify_threats agg))) = 0).
  { unfold AssessRisk.assess_risk. cbn [ra_breakdown].
    rewrite AssessRisk.fold_count_low; [reflexivity|].
    apply Forall_forall. intros t Ht.
    apply list_elem_of_In, in_identify_threats in Ht as (c & Ht).
    apply category_threats_severity in Ht.
    unfold AssessRisk.counted_low, threat_severity. cbn [default].
    destruct Ht as [-> | [-> | ->]]; reflexivity. }
  split; [exact Hcount|]. split; [lia|]. split; [exact Hlow|].
  split; [lia|].
  split; [split|].
  - intros Hz. destruct (identify_threats agg) as [|t ts]; [reflexivity|].
    cbn [length] in *. lia.
  - intros Hnil. rewrite Hnil in *. cbn [length] in *. lia.
  - intros agg' Hcat Hmem. apply AssessRisk.assess_risk_by_severity.
    unfold threat_severity.
    rewrite <- !(map_map severity Some). f_equal.
    rewrite !identify_threats_by_category, !map_flat_map.
    apply flat_map_ext. intros c. now apply category_threats_severities.
Qed.

End Pipeline.

(* ===================================================================== *)
(** * engines/dynamic/memory_analyzer.py *)
(* ===================================================================== *)

Module MemoryAnalyzer.
Import PyStr.

Record finding := Finding {
  finding_type : string;
  detail : string;
  line_numbers : list Z
}.

(** The body of the loop of [analyze_memory], lines 44-57.  The pattern of
    line 48 is, character for character, the one of file_monitor.py. *)
Definition finding_of_line (line : string) : option finding :=
  if contains "[ALERT] CODE_EXEC:" line || contains "[ALERT] MEMORY:" line then
    let line_numbers :=
      if contains "stack=" line
      then Re.group_ints FileMonitor.stack_re_as_written 2 line
      else [] in
    Some (Finding (if contains "[ALERT] MEMORY:" line then "memory_api" else "code_exec")
            (strip line) line_numbers)
  else None.

(** [analyze_memory] on a list of log entries, lines 12-61. *)
Definition analyze_memory (log_source : list string) : list finding :=
  fold_left
    (fun findings line =>
       match finding_of_line line with
       | Some f => (findings ++ [f])%list
       | None => findings
       end)
    log_source [].

(** [check_code_injection], lines 64-75. *)
Definition check_code_injection (log_source : list string) : list finding :=
  analyze_memory log_source.

(** The lines that give a finding. *)
Definition is_alert (line : string) : bool :=
  contains "[ALERT] CODE_EXEC:" line || contains "[ALERT] MEMORY:" line.

Lemma fold_append_option {A B} (f : A -> option B) (xs : list A) (acc : list B) :
  fold_left
    (fun acc x => match f x with Some y => (acc ++ [y])%list | None => acc end) xs acc
  = (acc ++ flat_map (fun x => match f x with Some y => [y] | None => [] end) xs)%list.
Proof.
  revert acc. induction xs as [|x xs IH]; intros acc; cbn [fold_left flat_map].
  - now rewrite app_nil_r.
  - rewrite IH. destruct (f x); [now rewrite <- app_assoc | reflexivity].
Qed.

Lemma finding_of_line_spec line :
  finding_of_line line =
  if is_alert line
  then Some (Finding (if contains "[ALERT] MEMORY:" line then "memory_api" else "code_exec")
               (strip line) [])
  else None.
Proof.
  unfold finding_of_line, is_alert.
  destruct (_ || _); [|reflexivity].
  destruct (contains "stack=" line); [|reflexivity].
  now rewrite (Re.group_ints_nil FileMonitor.stack_re_as_written 2 backslash).
Qed.

Lemma analyze_memory_spec (log_source : list string) :
  analyze_memory log_source =
    map (fun line =>
           Finding (if contains "[ALERT] MEMORY:" line then "memory_api" else "code_exec")
             (strip line) [])
        (List.filter is_alert log_source).
Proof.
  unfold analyze_memory. rewrite fold_append_option. cbn [app].
  induction log_source as [|line rest IH]; cbn [flat_map List.filter map]; [reflexivity|].
  rewrite finding_of_line_spec, IH. destruct (is_alert line); reflexivity.
Qed.

Lemma analyze_memory_no_lines (log_source : list string) :
  Forall (fun f => line_numbers f = []) (analyze_memory log_source).
Proof.
  rewrite analyze_memory_spec. apply Forall_forall. intros f Hf.
  apply list_elem_of_In, in_map_iff in Hf as (line & <- & _). reflexivity.
Qed.

(** X6.  [analyze_memory] gives one finding per log line that carries the
    CODE_EXEC or the MEMORY alert tag, in the order of the log, with the
    stripped line as its detail and type memory_api exactly for the MEMORY
    lines; whatever the stack text of the line, its [line_numbers] list is
    empty.  [check_code_injection] returns the same list. *)
Theorem analyze_memory_one_finding_per_alert (log_source : list string) :
  analyze_memory log_source =
    map (fun line =>
           Finding (if contains "[ALERT] MEMORY:" line then "memory_api" else "code_exec")
             (strip line) [])
        (List.filter is_alert log_source) /\
  Forall (fun f => line_numbers f = []) (analyze_memory log_source) /\
  check_code_injection log_source = analyze_memory log_source.
Proof.
  split; [apply analyze_memory_spec|]. split; [apply analyze_memory_no_lines|].
  reflexivity.
Qed.

End MemoryAnalyzer.

(* ===================================================================== *)
(** * engines/dynamic/network_monitor.py: [get_network_summary] *)
(* ===================================================================== *)

Module NetworkSummary.
Import PyStr NetworkMonitor.

Record network_summary := NetworkSummary {
  total_connections : Z;
  unique_targets : list string;
  connect_count : Z;
  bind_count : Z
}.

(** The body of the loop, lines 105-110. *)
Definition count_activity (acc : gset string * Z * Z) (a : activity)
    : gset string * Z * Z :=
  let '(unique_targets, connect_count, bind_count) := acc in
  let unique_targets := {[target a]} ∪ unique_targets in
  if String.eqb (activity_type a) "connect"
  then (unique_targets, connect_count + 1, bind_count)
  else if String.eqb (activity_type a) "bind"
  then (unique_targets, connect_count, bind_count + 1)
  else (unique_targets, connect_count, bind_count).

(** [sorted(list(s))] for a set of strings: by code point. *)
Definition sorted_strings (s : gset string) : list string :=
  merge_sort String.le (elements s).

(** [get_network_summary], lines 83-122. *)
Definition get_network_summary (activities : list activity) : network_summary :=
  if negb (nonempty activities) then NetworkSummary 0 [] 0 0
  else
    let '(unique_targets, connect_count, bind_count) :=
      fold_left count_activity activities (∅, 0, 0) in
    NetworkSummary (Z.of_nat (length activities)) (sorted_strings unique_targets)
      connect_count bind_count.

Lemma fold_count_activity activities : forall s c b,
  let '(s', c', b') := fold_left count_activity activities (s, c, b) in
  (forall x, x ∈ s' <-> x ∈ s \/ x ∈ map target activities) /\
  c' = c + Z.of_nat (length (List.filter
                               (fun a => String.eqb (activity_type a) "connect") activities)) /\
  b' = b + Z.of_nat (length (List.filter
                               (fun a => String.eqb (activity_type a) "bind") activities)).
Proof.
  induction activities as [|a rest IH]; intros s c b; cbn [fold_left map List.filter].
  - split; [set_solver|]. cbn. lia.
  - unfold count_activity at 2.
    destruct (String.eqb (activity_type a) "connect") eqn:Ec.
    + apply String.eqb_eq in Ec. rewrite Ec. cbn [String.eqb Ascii.eqb Bool.eqb].
      specialize (IH ({[target a]} ∪ s) (c + 1) b).
      destruct (fold_left count_activity rest _) as [[s' c'] b'].
      destruct IH as (Hs & Hc & Hb). split; [|cbn [length]; lia].
      intros x. rewrite Hs. set_solver.
    + destruct (String.eqb (activity_type a) "bind") eqn:Eb.
      * specialize (IH ({[target a]} ∪ s) c (b + 1)).
        destruct (fold_left count_activity rest _) as [[s' c'] b'].
        destruct IH as (Hs & Hc & Hb). split; [|cbn [length]; lia].
        intros x. rewrite Hs. set_solver.
      * specialize (IH ({[target a]} ∪ s) c b).
        destruct (fold_left count_activity rest _) as [[s' c'] b'].
        destruct IH as (Hs & Hc & Hb). split; [|lia].
        intros x. rewrite Hs. set_solver.
Qed.

Lemma sorted_strings_spec (s : gset string) :
  StronglySorted String.le (sorted_strings s) /\
  NoDup (sorted_strings s) /\
  forall x, x ∈ sorted_strings s <-> x ∈ s.
Proof.
  unfold sorted_strings. split; [|split].
  - apply StronglySorted_merge_sort; apply _.
  - rewrite merge_sort_Permutation. apply NoDup_elements.
  - intros x. rewrite merge_sort_Permutation. apply elem_of_elements.
Qed.

Lemma filter_disjoint_length {A} (p q : A -> bool) (xs : list A) :
  (forall x, p x = true -> q x = false) ->
  (length (List.filter p xs) + length (List.filter q xs) <= length xs)%nat.
Proof.
  intros Hpq. induction xs as [|x xs IH]; cbn [List.filter length]; [lia|].
  destruct (p x) eqn:Ep.
  - rewrite (Hpq x Ep). cbn [length]. lia.
  - destruct (q x); cbn [length]; lia.
Qed.

(** X7.  [get_network_summary] counts every activity in
    [total_connections]; [connect_count] and [bind_count] count the
    activities of exactly those two types, so together they never exceed
    the total (connect_ex and create_connection are in neither);
    [unique_targets] holds each target once, in ascending order.  With no
    activity all four are zero or empty. *)
Theorem network_summary_counts (activities : list activity) :
  let s := get_network_summary activities in
  total_connections s = Z.of_nat (length activities) /\
  connect_count s = Z.of_nat (length (List.filter
      (fun a => String.eqb (activity_type a) "connect") activities)) /\
  bind_count s = Z.of_nat (length (List.filter
      (fun a => String.eqb (activity_type a) "bind") activities)) /\
  connect_count s + bind_count s <= total_connections s /\
  StronglySorted String.le (unique_targets s) /\
  NoDup (unique_targets s) /\
  (forall x, x ∈ unique_targets s <-> x ∈ map target activities) /\
  (activities = [] -> s = NetworkSummary 0 [] 0 0).
Proof.
  intros s. subst s. unfold get_network_summary.
  destruct activities as [|a rest].
  { cbn. repeat split; try constructor; try lia; try (intros H; inversion H). }
  cbn [nonempty negb].
  pose proof (fold_count_activity (a :: rest) ∅ 0 0) as H.
  destruct (fold_left count_activity (a :: rest) (∅, 0, 0)) as [[s' c'] b'].
  destruct H as (Hs & Hc & Hb).
  cbn [total_connections unique_targets connect_count bind_count].
  destruct (sorted_strings_spec s') as (Hsorted & Hnd & Hin).
  split; [reflexivity|]. split; [lia|]. split; [lia|].
  split.
  { pose proof (filter_disjoint_length
                  (fun a => String.eqb (activity_type a) "connect")
                  (fun a => String.eqb (activity_type a) "bind") (a :: rest)) as Hd.
    rewrite Hc, Hb.
    assert ((length (List.filter (fun a => String.eqb (activity_type a) "connect") (a :: rest))
             + length (List.filter (fun a => String.eqb (activity_type a) "bind") (a :: rest))
             <= length (a :: rest))%nat); [|lia].
    apply Hd. intros x Hx. apply String.eqb_eq in Hx. now rewrite Hx. }
  split; [exact Hsorted|]. split; [exact Hnd|].
  split; [|discriminate].
  intros x. rewrite Hin, Hs. set_solver.
Qed.

End NetworkSummary.

(* ===================================================================== *)
(** * main_controller.py: the dynamic results of a Python target *)
(* ===================================================================== *)

(** Lines 414-456: the log of the sandbox run goes through the network,
    file and memory analyzers, its SYSCALL and NETWORK alert lines become
    [syscalls], and the fuzzer adds its results; the bundle then goes to
    [identify_threats]. *)
Module DynamicPipeline.
Import PyStr ThreatIdentifier.

(** Lines 447-451. *)
Definition syscalls_of_log (log_entries : list string) : list string :=
  fold_left
    (fun syscalls entry =>
       if contains "[ALERT] SYSCALL:" entry || contains "[ALERT] NETWORK:" entry
       then (syscalls ++ [strip entry])%list
       else syscalls)
    log_entries [].

(** The dictionaries of the analyzers, as [identify_threats] reads them. *)
Definition network_entry (a : NetworkMonitor.activity) : network_activity :=
  NetworkActivity (NetworkMonitor.activity_type a) (NetworkMonitor.target a)
    (Some (NetworkMonitor.log_line a)).

Definition file_entry (op : FileMonitor.file_operation) : file_activity :=
  FileActivity (FileMonitor.operation op) (FileMonitor.file_path op)
    (FileMonitor.is_sensitive op) (Some (FileMonitor.line_numbers op)).

Definition memory_entry (f : MemoryAnalyzer.finding) : memory_finding :=
  MemoryFinding (Some (MemoryAnalyzer.finding_type f)) (MemoryAnalyzer.detail f)
    (Some (MemoryAnalyzer.line_numbers f)).

Definition fuzz_entry {float} (r : Fuzzer.fuzz_result float) : fuzz_result :=
  FuzzResult (Fuzzer.test_input _ r) (Fuzzer.fr_return_code _ r) (Fuzzer.crashed _ r)
    (Fuzzer.timed_out _ r) (Fuzzer.line_numbers _ r).

(** The bundle [identify_threats] receives.  The analyzers run on the log
    entries, or on the lines of the log file when the result carries no
    entries: in both cases on the lines of the log. *)
Definition python_bundle {float} (pattern_matches : list pattern_match)
    (taint_flows : list taint_flow) (log_entries : list string)
    (fuzz_results : list (Fuzzer.fuzz_result float)) : aggregated :=
  Aggregated pattern_matches taint_flows
    (map network_entry (NetworkMonitor.analyze_network_activity log_entries))
    (map SysStr (syscalls_of_log log_entries))
    (map fuzz_entry fuzz_results)
    (map file_entry (FileMonitor.analyze_file_activity log_entries))
    (map memory_entry (MemoryAnalyzer.analyze_memory log_entries)).

Lemma flat_map_all_nil {A B} (f : A -> list B) (xs : list A) :
  (forall x, In x xs -> f x = []) -> flat_map f xs = [].
Proof.
  induction xs as [|x xs IH]; intros H; cbn [flat_map]; [reflexivity|].
  rewrite (H x (or_introl eq_refl)), IH; [reflexivity|].
  intros y Hy. apply H. now right.
Qed.

Lemma positive_sorted_nil : positive_sorted [] = [].
Proof.
  destruct (positive_sorted_spec []) as [_ Hin].
  destruct (positive_sorted []) as [|l ls]; [reflexivity|].
  destruct (proj1 (Hin l) (or_introl eq_refl)) as [_ []].
Qed.

Lemma crash_evidence_subset (rs : list fuzz_result) r :
  In r (fold_left
          (fun acc r => if fr_crashed r && negb (fr_timed_out r) then (acc ++ [r])%list else acc)
          rs []) ->
  In r rs.
Proof.
  enough (H : forall acc,
    In r (fold_left
            (fun acc r => if fr_crashed r && negb (fr_timed_out r) then (acc ++ [r])%list else acc)
            rs acc) -> In r acc \/ In r rs).
  { intros Hin. destruct (H [] Hin) as [[] | Hr]. exact Hr. }
  induction rs as [|x rs IH]; intros acc; cbn [fold_left]; [tauto|].
  intros Hin. apply IH in Hin as [Hin | Hin]; [|right; now right].
  destruct (fr_crashed x && negb (fr_timed_out x)); [|now left].
  apply in_app_or in Hin as [Hin | [<- | []]]; [now left | right; now left].
Qed.

Section Fuzzed.
Context {float : Type}.
Variable float_zero : float.
Variable run_target : nat -> string -> Fuzzer.run_result float + string.
Variable read_log_file : string -> option (list string).

Lemma run_cases_no_lines use_sandbox test_cases : forall i r,
  In r (Fuzzer.run_cases float float_zero run_target read_log_file use_sandbox i test_cases) ->
  get (Fuzzer.line_numbers _ r) [] = [].
Proof.
  induction test_cases as [|t ts IH]; intros i r; cbn [Fuzzer.run_cases]; [intros []|].
  intros [<- | Hin]; [|exact (IH _ _ Hin)].
  unfold Fuzzer.result_of_run. destruct (run_target i t) as [res | e]; cbn.
  - apply Fuzzer.stderr_line_numbers_nil.
  - reflexivity.
Qed.

(** X8.  In the bundle built from a sandbox log and the fuzzer's results,
    the threats Sensitive File Access, Runtime Vulnerability and Memory
    Injection never carry a line number: the file monitor, the fuzzer and
    the memory analyzer hand over empty [line_numbers] lists, whatever the
    log and the runs contain. *)
Theorem dynamic_threats_have_no_lines (pattern_matches : list pattern_match)
    (taint_flows : list taint_flow) (log_entries : list string)
    (use_sandbox : bool) (test_cases : list string) :
  let fuzz_results :=
    Fuzzer.run_cases float float_zero run_target read_log_file use_sandbox 0 test_cases in
  let agg := python_bundle pattern_matches taint_flows log_entries fuzz_results in
  Forall
    (fun t =>
       threat_type t = "Sensitive File Access" \/
       threat_type t = "Runtime Vulnerability" \/
       threat_type t = "Memory Injection" ->
       line_numbers t = [])
    (identify_threats agg).
Proof.
  intros fuzz_results agg. apply Forall_forall. intros t Ht Hty.
  apply list_elem_of_In, in_identify_threats in Ht as (c & Ht).
  apply in_category_threats in Ht as (Hn & Hev & _ & Hl).
  rewrite Hl, Hev. rewrite flat_map_all_nil; [apply positive_sorted_nil|].
  intros e He.
  assert (Hc : c = SensitiveFileAccess \/ c = RuntimeVulnerability \/ c = MemoryInjection).
  { rewrite Hn in Hty.
    destruct Hty as [H | [H | H]];
      [left; apply category_name_inj; exact H
      | right; left; apply category_name_inj; exact H
      | right; right; apply category_name_inj; exact H]. }
  destruct Hc as [-> | [-> | ->]]; cbn [category_scan] in He.
  - unfold sensitive_file_scan in He. cbn [fst] in He.
    apply in_map_iff in He as (op & <- & Hop).
    apply list_elem_of_In, list_elem_of_filter in Hop as [_ Hop].
    apply list_elem_of_In in Hop. unfold agg, python_bundle in Hop.
    cbn [file_activities] in Hop.
    apply in_map_iff in Hop as (op0 & <- & Hop0).
    cbn [evidence_lines file_entry fa_line_numbers get].
    pose proof (FileMonitor.analyze_file_activity_no_lines log_entries) as Hall.
    rewrite Forall_forall in Hall. apply Hall. now apply list_elem_of_In.
  - unfold crash_scan in He. cbn [fst] in He.
    apply in_map_iff in He as (r & <- & Hr).
    apply crash_evidence_subset in Hr. unfold agg, python_bundle in Hr.
    cbn [fuzz_results] in Hr. apply in_map_iff in Hr as (r0 & <- & Hr0).
    cbn [evidence_lines fuzz_entry fr_line_numbers].
    exact (run_cases_no_lines use_sandbox test_cases 0%nat r0 Hr0).
  - unfold memory_scan in He. cbn [fst] in He.
    apply in_map_iff in He as (f & <- & Hf).
    unfold agg, python_bundle in Hf. cbn [memory_findings] in Hf.
    apply in_map_iff in Hf as (f0 & <- & Hf0).
    cbn [evidence_lines memory_entry mf_line_numbers get].
    pose proof (MemoryAnalyzer.analyze_memory_no_lines log_entries) as Hall.
    rewrite Forall_forall in Hall. apply Hall. now apply list_elem_of_In.
Qed.

End Fuzzed.

End DynamicPipeline.

(* ===================================================================== *)
(** * engines/static/go_cfg_analysis.py *)
(* ===================================================================== *)

Module GoCFG.
Import PyStr.

(** [s.splitlines()]: the line boundaries among the 256 characters are
    LF, VT, FF, CR, FS, GS, RS and NEL, and CR LF counts once; the text
    after the last boundary is a line when it is not empty. *)
Definition is_linebreak (c : ascii) : bool :=
  let n := nat_of_ascii c in
  ((n =? 10) || (n =? 11) || (n =? 12) || (n =? 13) ||
   (n =? 28) || (n =? 29) || (n =? 30) || (n =? 133))%nat.

Fixpoint splitlines_from (s : string) (cur : string) (after_cr : bool) : list string :=
  match s with
  | EmptyString => if nonempty_str cur then [cur] else []
  | String c s' =>
      if after_cr && Ascii.eqb c newline then splitlines_from s' cur false
      else if is_linebreak c
      then cur :: splitlines_from s' EmptyString (Ascii.eqb c "013")
      else splitlines_from s' (cur ++ String c EmptyString) false
  end.

Definition splitlines (s : string) : list string := splitlines_from s EmptyString false.

(** [s.count(c)] for a one-character [c]. *)
Fixpoint count_char (c : ascii) (s : string) : Z :=
  match s with
  | EmptyString => 0
  | String c' s' => (if Ascii.eqb c' c then 1 else 0) + count_char c s'
  end.

(** The loop of [_find_block_end], lines 44-50, from index [idx] on. *)
Fixpoint find_block_end_from (rest : list string) (idx : nat) (brace_count : Z)
    (started : bool) : option nat :=
  match rest with
  | [] => None
  | line :: rest' =>
      let brace_count := brace_count + count_char "{" line in
      let started := if 0 <? count_char "{" line then true else started in
      let brace_count := brace_count - count_char "}" line in
      if started && (brace_count =? 0) then Some idx
      else find_block_end_from rest' (S idx) brace_count started
  end.

(** [_find_block_end], lines 41-51. *)
Definition _find_block_end (lines : list string) (start_idx : nat) : Z :=
  match find_block_end_from (skipn start_idx lines) start_idx 0 false with
  | Some idx => Z.of_nat idx
  | None => Z.of_nat (length lines) - 1
  end.

(** The loop of [_collect_body_lines] over the indices [idxs]; [None] is
    the [IndexError] of [lines[idx]]. *)
Fixpoint collect_from (lines : list string) (idxs : list nat) : option (list Z) :=
  match idxs with
  | [] => Some []
  | idx :: rest =>
      match lines !! idx with
      | None => None
      | Some line =>
          match collect_from lines rest with
          | None => None
          | Some body_lines =>
              Some (if nonempty_str (strip line)
                    then (Z.of_nat idx + 1) :: body_lines
                    else body_lines)
          end
      end
  end.

(** [_collect_body_lines], lines 54-59: [range(start_idx + 1, end_idx)]. *)
Definition _collect_body_lines (lines : list string) (start_idx : nat) (end_idx : Z)
    : option (list Z) :=
  collect_from lines (seq (S start_idx) (Z.to_nat end_idx - S start_idx)).

Record cfg_structure := Structure {
  cfg_type : string;
  start_line : Z;
  end_line : Z;
  condition : string;
  body_lines : list Z
}.

(** [pattern.match(text)]: a match at the start of the text. *)
Definition re_match (r : Re.regex) (text : string) : option Re.match_obj :=
  match Re.rmatch r (Re.MState None (list_ascii_of_string text) 0 []) Some with
  | Some st => Some (Re.MatchObj 0 (Re.ms_pos st) (Re.ms_caps st))
  | None => None
  end.

(** The patterns of lines 76-81, with whether they have a group. *)
Definition patterns : list (string * Re.regex * bool) :=
  [("if",
    Re.cat [Re.RBol; Re.spaces0; Re.lit "if"; Re.spaces1;
            Re.RGroup 1 (Re.RPlus false Re.RAny); Re.spaces0; Re.RChar "{"], true);
   ("for",
    Re.cat [Re.RBol; Re.spaces0; Re.lit "for"; Re.spaces1;
            Re.RGroup 1 (Re.RPlus false Re.RAny); Re.spaces0; Re.RChar "{"], true);
   ("switch",
    Re.cat [Re.RBol; Re.spaces0; Re.lit "switch"; Re.spaces0;
            Re.RGroup 1 (Re.RStar false Re.RAny); Re.spaces0; Re.RChar "{"], true);
   ("select",
    Re.cat [Re.RBol; Re.spaces0; Re.lit "select"; Re.spaces0; Re.RChar "{"], false)].

(** [for cfg_type, pattern in patterns: ... break]: the first pattern that
    matches, with the condition text. *)
Fixpoint first_pattern (ps : list (string * Re.regex * bool)) (stripped : string)
    : option (string * string) :=
  match ps with
  | [] => None
  | (cfg_type, pattern, has_groups) :: rest =>
      match re_match pattern stripped with
      | None => first_pattern rest stripped
      | Some m =>
          Some (cfg_type,
                if has_groups then strip (Re.group stripped m 1) else EmptyString)
      end
  end.

(** The body of [for idx, line in enumerate(lines)], lines 83-103. *)
Definition scan_line (lines : list string) (acc : option (list cfg_structure))
    (entry : nat * string) : option (list cfg_structure) :=
  let '(idx, line) := entry in
  match acc with
  | None => None
  | Some structures =>
      let stripped := strip line in
      if negb (nonempty_str stripped) || startswith stripped "else" then Some structures
      else
        match first_pattern patterns stripped with
        | None => Some structures
        | Some (cfg_type, condition) =>
            let end_idx := _find_block_end lines idx in
            match _collect_body_lines lines idx end_idx with
            | None => None
            | Some body_lines =>
                Some (structures ++
                      [Structure cfg_type (Z.of_nat idx + 1) (end_idx + 1)
                         condition body_lines])%list
            end
        end
  end.

Definition analyze_lines (lines : list string) : option (list cfg_structure) :=
  fold_left (scan_line lines) (combine (seq 0 (length lines)) lines) (Some []).

(** [analyze], lines 62-105: [None] would be an exception. *)
Definition analyze (source_code : string) : option (list cfg_structure) :=
  if negb (nonempty_str source_code) then Some []
  else analyze_lines (LineTaint._strip_comments (splitlines source_code)).


(** ** The end of a block *)

(** The braces a line opens minus those it closes, and whether it opens one. *)
Definition net_braces (line : string) : Z := count_char "{" line - count_char "}" line.
Definition opens_brace (line : string) : bool := 0 <? count_char "{" line.

Fixpoint sum_net (seg : list string) : Z :=
  match seg with
  | [] => 0
  | line :: rest => net_braces line + sum_net rest
  end.

(** The lines [start .. i] of the text. *)
Definition segment (lines : list string) (start i : nat) : list string :=
  firstn (S i - start) (skipn start lines).

(** The block that starts at line [start] is closed at line [i]: a brace
    has been opened and as many have been closed. *)
Definition block_closed (lines : list string) (start i : nat) : bool :=
  existsb opens_brace (segment lines start i) && (sum_net (segment lines start i) =? 0).

(** The same with the loop's variables on entry. *)
Definition closed_after (rest : list string) (k : nat) (brace_count : Z) (started : bool)
    : bool :=
  (started || existsb opens_brace (firstn (S k) rest)) &&
  (brace_count + sum_net (firstn (S k) rest) =? 0).

Lemma closed_after_cons line rest k bc st :
  closed_after (line :: rest) (S k) bc st
  = closed_after rest k (bc + count_char "{" line - count_char "}" line)
      (if 0 <? count_char "{" line then true else st).
Proof.
  unfold closed_after.
  change (firstn (S (S k)) (line :: rest)) with (line :: firstn (S k) rest).
  cbn [existsb sum_net]. unfold opens_brace at 1, net_braces at 1.
  replace (bc + (count_char "{" line - count_char "}" line + sum_net (firstn (S k) rest)))
    with (bc + count_char "{" line - count_char "}" line + sum_net (firstn (S k) rest))
    by lia.
  destruct (0 <? count_char "{" line); destruct st; reflexivity.
Qed.

Lemma closed_after_zero line rest bc st :
  closed_after (line :: rest) 0 bc st
  = (if 0 <? count_char "{" line then true else st) &&
    (bc + count_char "{" line - count_char "}" line =? 0).
Proof.
  unfold closed_after. change (firstn 1 (line :: rest)) with [line].
  cbn [existsb sum_net]. unfold opens_brace, net_braces.
  replace (bc + (count_char "{" line - count_char "}" line + 0))
    with (bc + count_char "{" line - count_char "}" line) by lia.
  destruct (0 <? count_char "{" line); destruct st; reflexivity.
Qed.

Lemma find_block_end_from_spec rest : forall idx bc st,
  match find_block_end_from rest idx bc st with
  | Some r =>
      exists k, r = (idx + k)%nat /\ (k < length rest)%nat /\
                closed_after rest k bc st = true /\
                forall j, (j < k)%nat -> closed_after rest j bc st = false
  | None => forall j, (j < length rest)%nat -> closed_after rest j bc st = false
  end.
Proof.
  induction rest as [|line rest IH]; intros idx bc st; cbn [find_block_end_from].
  - intros j Hj. cbn in Hj. lia.
  - pose proof (closed_after_zero line rest bc st) as Hz.
    destruct ((if 0 <? count_char "{" line then true else st) &&
              (bc + count_char "{" line - count_char "}" line =? 0)) eqn:E.
    + exists 0%nat. split; [lia|]. split; [cbn; lia|]. split; [exact Hz|]. intros j Hj; lia.
    + specialize (IH (S idx) (bc + count_char "{" line - count_char "}" line)
                     (if 0 <? count_char "{" line then true else st)).
      destruct (find_block_end_from rest (S idx) _ _) as [r|].
      * destruct IH as (k & -> & Hk & Hc & Hfirst).
        exists (S k). split; [lia|]. split; [cbn; lia|].
        split; [now rewrite closed_after_cons|].
        intros [|j] Hj; [exact Hz|]. rewrite closed_after_cons. apply Hfirst. lia.
      * intros [|j] Hj; [exact Hz|]. rewrite closed_after_cons. apply IH.
        cbn in Hj. lia.
Qed.

Lemma closed_after_segment lines start k :
  closed_after (skipn start lines) k 0 false = block_closed lines start (start + k).
Proof.
  unfold closed_after, block_closed, segment.
  replace (S (start + k) - start)%nat with (S k) by lia. reflexivity.
Qed.

Lemma find_block_end_bounds lines start_idx :
  (start_idx < length lines)%nat ->
  Z.of_nat start_idx <= _find_block_end lines start_idx <= Z.of_nat (length lines) - 1.
Proof.
  intros Hlt. unfold _find_block_end.
  pose proof (find_block_end_from_spec (skipn start_idx lines) start_idx 0 false) as H.
  destruct (find_block_end_from _ _ _ _) as [r|]; [|lia].
  destruct H as (k & -> & Hk & _). rewrite length_skipn in Hk. lia.
Qed.

(** X9.  For a start index inside the text, [_find_block_end] returns the
    first line, from the start line on, at which the block is closed (a
    brace has been opened since the start line and the closing braces
    equal the opening ones); when no line closes the block it returns the
    last line of the text.  The result is never before the start line nor
    past the end of the text. *)
Theorem find_block_end_first_closing (lines : list string) (start_idx : nat) :
  (start_idx < length lines)%nat ->
  let e := _find_block_end lines start_idx in
  Z.of_nat start_idx <= e <= Z.of_nat (length lines) - 1 /\
  (forall j, (start_idx <= j)%nat -> Z.of_nat j < e -> block_closed lines start_idx j = false) /\
  (block_closed lines start_idx (Z.to_nat e) = true \/
   (e = Z.of_nat (length lines) - 1 /\
    forall j, (start_idx <= j < length lines)%nat -> block_closed lines start_idx j = false)).
Proof.
  intros Hlt e. split; [now apply find_block_end_bounds|].
  subst e. unfold _find_block_end.
  pose proof (find_block_end_from_spec (skipn start_idx lines) start_idx 0 false) as H.
  destruct (find_block_end_from _ _ _ _) as [r|].
  - destruct H as (k & -> & Hk & Hc & Hfirst). split.
    + intros j Hj Hje. replace j with (start_idx + (j - start_idx))%nat by lia.
      rewrite <- closed_after_segment. apply Hfirst. lia.
    + left. rewrite Nat2Z.id, <- closed_after_segment. exact Hc.
  - rewrite length_skipn in H. split.
    + intros j Hj Hje. replace j with (start_idx + (j - start_idx))%nat by lia.
      rewrite <- closed_after_segment. apply H. lia.
    + right. split; [reflexivity|].
      intros j Hj. replace j with (start_idx + (j - start_idx))%nat by lia.
      rewrite <- closed_after_segment. apply H. lia.
Qed.

Lemma find_block_end_first_closing_witness :
  _find_block_end ["if a {"; "  for b {"; "  }"; "}"; "x"] 0 = 3 /\
  block_closed ["if a {"; "  for b {"; "  }"; "}"; "x"] 0 2 = false.
Proof.
  pose proof (find_block_end_first_closing
                ["if a {"; "  for b {"; "  }"; "}"; "x"] 0 ltac:(cbn; lia)) as (Hb & Hfirst & Hc).
  split; [reflexivity|]. apply Hfirst; [lia | reflexivity].
Defined.

(** ** The body lines *)

Definition nonblank_at (lines : list string) (idx : nat) : bool :=
  match lines !! idx with
  | Some line => nonempty_str (strip line)
  | None => false
  end.

Lemma collect_from_spec lines idxs :
  Forall (fun idx => (idx < length lines)%nat) idxs ->
  collect_from lines idxs
  = Some (map (fun idx => Z.of_nat idx + 1) (List.filter (nonblank_at lines) idxs)).
Proof.
  induction 1 as [|idx idxs Hidx _ IH]; cbn [collect_from List.filter map]; [reflexivity|].
  unfold nonblank_at at 1.
  destruct (lookup_lt_is_Some_2 lines idx Hidx) as [line Hline].
  rewrite Hline, IH. destruct (nonempty_str (strip line)); reflexivity.
Qed.

Lemma seq_strictly_sorted start len :
  StronglySorted Z.lt
    (map (fun idx => Z.of_nat idx + 1) (List.filter (fun _ : nat => true) (seq start len))).
Proof.
  revert start. induction len as [|len IH]; intros start; cbn; [constructor|].
  constructor; [apply IH|].
  apply Forall_forall. intros x Hx.
  apply list_elem_of_In, in_map_iff in Hx as (i & <- & Hi).
  apply filter_In in Hi as [Hi _]. apply in_seq in Hi. lia.
Qed.

Lemma filter_seq_sorted (p : nat -> bool) start len :
  StronglySorted Z.lt (map (fun idx => Z.of_nat idx + 1) (List.filter p (seq start len))).
Proof.
  revert start. induction len as [|len IH]; intros start; cbn [seq List.filter]; [constructor|].
  destruct (p start); [|apply IH]. cbn [map]. constructor; [apply IH|].
  apply Forall_forall. intros x Hx.
  apply list_elem_of_In, in_map_iff in Hx as (i & <- & Hi).
  apply filter_In in Hi as [Hi _]. apply in_seq in Hi. lia.
Qed.

(** What [analyze] records for a structure found on line [idx]. *)
Definition structure_ok (lines : list string) (s : cfg_structure) : Prop :=
  1 <= start_line s <= end_line s /\ end_line s <= Z.of_nat (length lines) /\
  end_line s = _find_block_end lines (Z.to_nat (start_line s - 1)) + 1 /\
  StronglySorted Z.lt (body_lines s) /\
  (forall l, In l (body_lines s) <->
             start_line s < l < end_line s /\ nonblank_at lines (Z.to_nat (l - 1)) = true).

Lemma scan_line_ok lines structures idx line :
  (idx < length lines)%nat ->
  Forall (structure_ok lines) structures ->
  Forall (fun s => start_line s <= Z.of_nat idx) structures ->
  StronglySorted Z.lt (map start_line structures) ->
  exists structures',
    scan_line lines (Some structures) (idx, line) = Some structures' /\
    Forall (structure_ok lines) structures' /\
    Forall (fun s => start_line s <= Z.of_nat idx + 1) structures' /\
    StronglySorted Z.lt (map start_line structures').
Proof.
  intros Hidx Hok Hle Hsorted. unfold scan_line.
  assert (Hkeep : exists structures',
    Some structures = Some structures' /\
    Forall (structure_ok lines) structures' /\
    Forall (fun s => start_line s <= Z.of_nat idx + 1) structures' /\
    StronglySorted Z.lt (map start_line structures')).
  { exists structures. split; [reflexivity|]. split; [exact Hok|]. split; [|exact Hsorted].
    eapply Forall_impl; [exact Hle|]. cbn. intros s Hs. lia. }
  destruct (negb (nonempty_str (strip line)) || startswith (strip line) "else");
    [exact Hkeep|].
  destruct (first_pattern patterns (strip line)) as [[cfg_type condition]|]; [|exact Hkeep].
  pose proof (find_block_end_bounds lines idx Hidx) as Hb.
  set (e := _find_block_end lines idx) in *.
  unfold _collect_body_lines. rewrite collect_from_spec.
  2:{ apply Forall_forall. intros i Hi. apply list_elem_of_In, in_seq in Hi. lia. }
  eexists. split; [reflexivity|]. split; [|split].
  - apply Forall_app. split; [exact Hok|]. constructor; [|constructor].
    unfold structure_ok. cbn [start_line end_line body_lines].
    replace (Z.to_nat (Z.of_nat idx + 1 - 1)) with idx by lia. fold e.
    split; [lia|]. split; [lia|]. split; [reflexivity|].
    split; [apply filter_seq_sorted|].
    intros l. rewrite in_map_iff. split.
    + intros (i & <- & Hi). apply filter_In in Hi as [Hi Hnb]. apply in_seq in Hi.
      replace (Z.to_nat (Z.of_nat i + 1 - 1)) with i by lia. split; [lia | exact Hnb].
    + intros (Hl & Hnb). exists (Z.to_nat (l - 1)). split; [lia|].
      apply filter_In. split; [|exact Hnb]. apply in_seq. lia.
  - apply Forall_app. split.
    + eapply Forall_impl; [exact Hle|]. cbn. intros s Hs. lia.
    + constructor; [cbn; lia | constructor].
  - rewrite map_app. cbn [map start_line].
    apply StronglySorted_app_2; [|exact Hsorted | repeat constructor].
    intros x y Hx Hy. apply list_elem_of_In, in_map_iff in Hx as (s & <- & Hs).
    apply list_elem_of_singleton in Hy as ->.
    rewrite Forall_forall in Hle. apply list_elem_of_In in Hs.
    specialize (Hle s Hs). cbn beta in Hle. lia.
Qed.


Lemma fold_scan_line_ok lines : forall ls i structures,
  (i + length ls <= length lines)%nat ->
  Forall (structure_ok lines) structures ->
  Forall (fun s => start_line s <= Z.of_nat i) structures ->
  StronglySorted Z.lt (map start_line structures) ->
  exists structures',
    fold_left (scan_line lines) (combine (seq i (length ls)) ls) (Some structures)
      = Some structures' /\
    Forall (structure_ok lines) structures' /\
    StronglySorted Z.lt (map start_line structures').
Proof.
  induction ls as [|line ls IH]; intros i structures Hlen Hok Hle Hsorted;
    cbn [length seq combine fold_left].
  - exists structures. auto.
  - cbn [length] in Hlen.
    destruct (scan_line_ok lines structures i line ltac:(lia) Hok Hle Hsorted)
      as (structures1 & -> & Hok1 & Hle1 & Hsorted1).
    apply IH; [lia | exact Hok1 | | exact Hsorted1].
    eapply Forall_impl; [exact Hle1|]. cbn. intros s Hs. lia.
Qed.

(** [_strip_comments] keeps the number of lines. *)
Lemma strip_comments_length lines :
  length (LineTaint._strip_comments lines) = length lines.
Proof.
  unfold LineTaint._strip_comments.
  enough (H : forall acc,
    length (fst (fold_left
      (fun (acc : list string * bool) line =>
         let '(cleaned, in_block) := acc in
         let '(current, in_block) :=
           LineTaint.strip_block_comments (S (String.length line)) in_block line in
         let current := before_first "//" current in
         ((cleaned ++ [current])%list, in_block))
      lines acc)) = (length (fst acc) + length lines)%nat).
  { rewrite H. reflexivity. }
  induction lines as [|line lines IH]; intros [cleaned in_block]; cbn [fold_left length fst].
  - lia.
  - destruct (LineTaint.strip_block_comments _ in_block line) as [current in_block'].
    rewrite IH. cbn [fst]. rewrite length_app. cbn [length]. lia.
Qed.

(** X10.  [analyze] never fails on an index, and every structure it
    reports lies inside the text: [1 <= start_line <= end_line <= number of
    lines], with [end_line] the line [_find_block_end] returns for the
    start line.  Its [body_lines] are in strictly ascending order and are
    exactly the non-blank lines (after comments are removed) strictly
    between [start_line] and [end_line].  The structures come in strictly
    ascending order of [start_line], at most one per line. *)
Theorem analyze_body_lines_strictly_inside (source_code : string) :
  let lines := LineTaint._strip_comments (splitlines source_code) in
  exists structures,
    analyze source_code = Some structures /\
    length lines = length (splitlines source_code) /\
    StronglySorted Z.lt (map start_line structures) /\
    Forall
      (fun s =>
         1 <= start_line s <= end_line s /\ end_line s <= Z.of_nat (length lines) /\
         end_line s = _find_block_end lines (Z.to_nat (start_line s - 1)) + 1 /\
         StronglySorted Z.lt (body_lines s) /\
         (forall l, In l (body_lines s) <->
                    start_line s < l < end_line s /\
                    nonblank_at lines (Z.to_nat (l - 1)) = true))
      structures.
Proof.
  intros lines. unfold analyze.
  destruct (negb (nonempty_str source_code)).
  - exists []. split; [reflexivity|]. split; [apply strip_comments_length|].
    split; constructor.
  - destruct (fold_scan_line_ok lines lines 0 [] ltac:(cbn; lia)
                ltac:(constructor) ltac:(constructor) ltac:(constructor))
      as (structures & Hfold & Hok & Hsorted).
    exists structures. split; [exact Hfold|]. split; [apply strip_comments_length|].
    split; [exact Hsorted | exact Hok].
Qed.

Example splitlines_run :
  splitlines ("a" ++ String newline ("" ++ String newline ("b" ++ String "013" (String newline "c"))))
    = ["a"; ""; "b"; "c"] /\
  splitlines (String newline "") = [""] /\
  splitlines "" = [] /\
  splitlines ("x" ++ String newline "") = ["x"].
Proof. repeat split. Qed.

Definition go_example : string :=
  "func main() {" ++ String newline
  ("  if x > 0 { // positive" ++ String newline
  ("    run(x)" ++ String newline
  ("" ++ String newline
  ("    for i := range xs {" ++ String newline
  ("      use(i)" ++ String newline
  ("    }" ++ String newline
  ("  } else {" ++ String newline
  ("    stop()" ++ String newline
  ("  }" ++ String newline
  ("  select {}" ++ String newline
   "}")))))))))).

Example analyze_run :
  analyze go_example =
    Some [Structure "if" 2 10 "x > 0" [3; 5; 6; 7; 8; 9];
          Structure "for" 5 7 "i := range xs" [6];
          Structure "select" 11 11 "" []].
Proof. vm_compute. reflexivity. Qed.

End GoCFG.

(* ===================================================================== *)
(** * go_taint_analysis.py, java_taint_analysis.py: what a flow reports *)
(* ===================================================================== *)

Module LineTaintFacts.
Import PyStr LineTaint.

Section Lines.
Variable P : profile.
Variable lines : list string.

(** The stripped text of line [n] (counted from 1), as the loop reads it. *)
Definition line_at (n : Z) : option string :=
  if 1 <=? n then option_map strip (lines !! Z.to_nat (n - 1)) else None.

(** An origin recorded by line [i] at the latest: a line that holds a taint
    source, with its text. *)
Definition origin_ok (i : Z) (o : origin) : Prop :=
  1 <= o_source_line o <= i /\
  line_at (o_source_line o) = Some (o_source_code o) /\
  sources_present P (o_source_code o) = true.

(** A flow reported by line [i] at the latest. *)
Definition flow_ok (i : Z) (f : flow) : Prop :=
  1 <= source_line f <= sink_line f /\ sink_line f <= i /\
  line_at (source_line f) = Some (source_code f) /\
  line_at (sink_line f) = Some (sink_code f) /\
  line_no f = sink_line f /\
  sources_present P (source_code f) = true /\
  exists pattern info,
    In (pattern, info) (sink_rules P) /\
    is_Some (Re.search pattern (sink_code f)) /\
    flow_rule_id f = rule_id info /\ flow_rule_name f = rule_name info /\
    severity f = rule_severity info.

Definition state_ok (i : Z) (st : state) : Prop :=
  Forall (fun e => origin_ok i e.2) (tainted_vars st) /\
  Forall (fun kf => flow_ok i kf.2) (emitted st) /\
  StronglySorted Z.le (map (fun kf => sink_line kf.2) (emitted st)).

Lemma origin_ok_weaken i j o : i <= j -> origin_ok i o -> origin_ok j o.
Proof. unfold origin_ok. intros ? (? & ? & ?). repeat split; auto; lia. Qed.

Lemma flow_ok_weaken i j f : i <= j -> flow_ok i f -> flow_ok j f.
Proof.
  unfold flow_ok. intros ? (? & ? & ? & ? & ? & ? & ?). repeat split; auto; lia.
Qed.

Lemma dict_set_values k v d e :
  In e (dict_set k v d) -> e.2 = v \/ In e d.
Proof.
  induction d as [|[k' v'] d IH]; cbn [dict_set].
  - intros [<- | []]. now left.
  - destruct (String.eqb k k').
    + intros [<- | Hin]; [now left | right; now right].
    + intros [<- | Hin]; [right; now left|].
      destruct (IH Hin) as [Hv | Hd]; [now left | right; now right].
Qed.

Lemma fold_dict_set_values (vars : list string) v d e :
  In e (fold_left (fun d var_name => dict_set var_name v d) vars d) ->
  e.2 = v \/ In e d.
Proof.
  revert d. induction vars as [|x vars IH]; intros d; cbn [fold_left]; [now right|].
  intros Hin. destruct (IH _ Hin) as [Hv | Hd]; [now left|].
  now apply dict_set_values in Hd.
Qed.

Lemma find_taint_origin_in rhs d o :
  _find_taint_origin rhs d = Some o -> exists k, In (k, o) d.
Proof.
  induction d as [|[k o'] d IH]; cbn [_find_taint_origin]; [discriminate|].
  destruct (_line_contains_var rhs k).
  - intros [= ->]. exists k. now left.
  - intros H. destruct (IH H) as [k' Hk']. exists k'. now right.
Qed.

Lemma taint_assignments_ok i line d :
  line_at i = Some line -> 1 <= i ->
  Forall (fun e => origin_ok i e.2) d ->
  Forall (fun e => origin_ok i e.2) (taint_assignments P i line d).
Proof.
  intros Hline Hi Hd. unfold taint_assignments.
  destruct (_extract_assigned_vars P line) as [vars rhs].
  destruct (sources_present P line && nonempty vars) eqn:E.
  - apply andb_prop in E as [Esrc _].
    apply Forall_forall. intros e He. apply list_elem_of_In in He.
    destruct (fold_dict_set_values vars _ d e He) as [-> | Hin].
    + unfold origin_ok. cbn [o_source_line o_source_code]. repeat split; auto; lia.
    + rewrite Forall_forall in Hd. apply Hd. now apply list_elem_of_In.
  - destruct (nonempty vars && _); [|exact Hd].
    destruct (_find_taint_origin _ d) as [o|] eqn:F; [|exact Hd].
    apply find_taint_origin_in in F as [k Hk].
    apply Forall_forall. intros e He. apply list_elem_of_In in He.
    destruct (fold_dict_set_values vars _ d e He) as [-> | Hin].
    + rewrite Forall_forall in Hd.
      exact (Hd (k, o) (proj2 (list_elem_of_In _ _) Hk)).
    + rewrite Forall_forall in Hd. apply Hd. now apply list_elem_of_In.
Qed.

Lemma first_sink_in rules line info mt :
  first_sink rules line = Some (info, mt) ->
  exists pattern, In (pattern, info) rules /\ is_Some (Re.search pattern line).
Proof.
  induction rules as [|[pattern info'] rules IH]; cbn [first_sink]; [discriminate|].
  destruct (Re.search pattern line) as [m|] eqn:E.
  - intros [= <- <-]. exists pattern. split; [now left | now rewrite E].
  - intros H. destruct (IH H) as (p & Hp & Hs). exists p. split; [now right | exact Hs].
Qed.

(** Appending a flow of line [i] to flows of lines up to [i]. *)
Lemma emit_ok i k f st :
  flow_ok i f -> sink_line f = i -> state_ok i st -> state_ok i (emit k f st).
Proof.
  intros Hf Hsink (Ho & Hfl & Hs). unfold emit.
  destruct (bool_decide (k ∈ seen_flows st)); [now repeat split|].
  unfold state_ok. cbn [tainted_vars emitted]. split; [exact Ho|]. split.
  - apply Forall_app. split; [exact Hfl|]. now constructor.
  - rewrite map_app. apply StronglySorted_app_2; [|exact Hs | repeat constructor].
    intros x y Hx Hy. apply list_elem_of_In, in_map_iff in Hx as (kf & <- & Hkf).
    apply list_elem_of_singleton in Hy as ->. cbn [snd].
    rewrite Forall_forall in Hfl. apply list_elem_of_In in Hkf.
    destruct (Hfl kf Hkf) as (_ & Hle & _). lia.
Qed.

Lemma emit_flows_ok i line st :
  line_at i = Some line -> 1 <= i ->
  state_ok i st -> state_ok i (emit_flows P i line st).
Proof.
  intros Hline Hi Hst. unfold emit_flows.
  destruct (_ && _); [exact Hst|].
  destruct (first_sink (sink_rules P) line) as [[info mt]|] eqn:F; [|exact Hst].
  apply first_sink_in in F as (pattern & Hin & Hmatch).
  assert (Hrule : exists pattern info0,
            In (pattern, info0) (sink_rules P) /\ is_Some (Re.search pattern line) /\
            rule_id info = rule_id info0 /\ rule_name info = rule_name info0 /\
            rule_severity info = rule_severity info0).
  { exists pattern, info. auto. }
  set (st1 := if sources_present P line
              then emit (i, i, "direct", rule_id info) (direct_flow i line info mt) st
              else st).
  assert (Hst1 : state_ok i st1 /\ tainted_vars st1 = tainted_vars st).
  { unfold st1. destruct (sources_present P line) eqn:Esrc; [|now split].
    split; [|apply emit_spec].
    apply emit_ok; [|reflexivity | exact Hst].
    unfold flow_ok, direct_flow. cbn. repeat split; auto; lia. }
  destruct Hst1 as [Hst1 Htv]. rewrite Htv.
  assert (Hsub : Forall (fun e => origin_ok i e.2) (tainted_vars st)) by apply Hst.
  clearbody st1. clear Htv Hst.
  revert st1 Hst1. induction (tainted_vars st) as [|[w o] d IH]; intros st1 Hst1;
    cbn [fold_left]; [exact Hst1|].
  apply Forall_cons in Hsub as [Ho Hsub]. apply IH; [exact Hsub|].
  unfold emit_variable. destruct (negb _); [exact Hst1|].
  apply emit_ok; [|reflexivity | exact Hst1].
  destruct Ho as (Hr & Hl & Hsrc). cbn [snd] in Hr, Hl, Hsrc.
  unfold flow_ok, variable_flow. cbn. repeat split; auto; lia.
Qed.

Lemma state_ok_weaken i j st : i <= j -> state_ok i st -> state_ok j st.
Proof.
  intros Hij (Ho & Hf & Hs). split; [|split; [|exact Hs]].
  - eapply Forall_impl; [exact Ho|]. intros e. now apply origin_ok_weaken.
  - eapply Forall_impl; [exact Hf|]. intros e. now apply flow_ok_weaken.
Qed.

Lemma process_line_ok i raw st :
  1 <= i -> lines !! Z.to_nat (i - 1) = Some raw ->
  state_ok (i - 1) st -> state_ok i (process_line P st (i, raw)).
Proof.
  intros Hi Hraw Hst. apply (state_ok_weaken (i - 1) i) in Hst; [|lia].
  unfold process_line. destruct (negb _); [exact Hst|].
  assert (Hline : line_at i = Some (strip raw)).
  { unfold line_at. destruct (Z.leb_spec 1 i); [|lia]. now rewrite Hraw. }
  apply emit_flows_ok; [exact Hline | exact Hi |].
  destruct Hst as (Ho & Hf & Hs). split; [|split]; cbn [tainted_vars emitted]; auto.
  now apply taint_assignments_ok.
Qed.

Lemma run_from_ok rest : forall i st,
  1 <= i ->
  (forall k raw, rest !! k = Some raw -> lines !! (Z.to_nat (i - 1) + k)%nat = Some raw) ->
  state_ok (i - 1) st ->
  state_ok (i - 1 + Z.of_nat (length rest)) (run_from P i rest st).
Proof.
  unfold run_from.
  induction rest as [|raw rest IH]; intros i st Hi Hrest Hst;
    cbn [enumerate_from fold_left length].
  - now rewrite Z.add_0_r.
  - replace (i - 1 + Z.of_nat (S (length rest)))
      with ((i + 1) - 1 + Z.of_nat (length rest)) by lia.
    apply IH; [lia| |].
    + intros k r Hk. specialize (Hrest (S k) r Hk).
      replace (Z.to_nat (i + 1 - 1) + k)%nat with (Z.to_nat (i - 1) + S k)%nat by lia.
      exact Hrest.
    + replace (i + 1 - 1) with i by lia. apply process_line_ok; [exact Hi | | exact Hst].
      specialize (Hrest 0%nat raw eq_refl). now rewrite Nat.add_0_r in Hrest.
Qed.

End Lines.

Lemma run_flows_ok (P : profile) (lines : list string) :
  Forall (flow_ok P lines (Z.of_nat (length lines))) (taint_flows (run P lines)) /\
  StronglySorted Z.le (map sink_line (taint_flows (run P lines))).
Proof.
  unfold run, taint_flows.
  destruct (run_from_ok P lines lines 1 init ltac:(lia)) as (_ & Hf & Hs).
  { intros k raw Hk. exact Hk. }
  { repeat split; constructor. }
  replace (1 - 1 + Z.of_nat (length lines)) with (Z.of_nat (length lines)) in Hf by lia.
  split.
  - apply Forall_forall. intros f Hin.
    apply list_elem_of_In, in_map_iff in Hin as (kf & <- & Hkf).
    rewrite Forall_forall in Hf. apply Hf. now apply list_elem_of_In.
  - now rewrite map_map.
Qed.

(** X11.  What the Go and the Java analyzer report is in the text.  For
    every table of sources and sinks and every source text, with [lines]
    the lines of the text after comment removal (as many as in the text),
    each flow has [1 <= source_line <= sink_line <= number of lines];
    [source_code] and [sink_code] are the stripped lines at these numbers;
    the source line matches a taint source pattern and the sink line the
    pattern of the sink rule whose id, name and severity the flow carries;
    [line] equals [sink_line]; and the flows come in ascending order of
    [sink_line].  A file that cannot be read gives no flow. *)
Theorem line_taint_flows_are_in_the_text (P : profile) (source_code : string) :
  let lines := _strip_comments (split_char newline source_code) in
  let flows := analyze P (Some source_code) in
  length lines = length (split_char newline source_code) /\
  Forall (flow_ok P lines (Z.of_nat (length lines))) flows /\
  StronglySorted Z.le (map sink_line flows) /\
  analyze P None = [].
Proof.
  intros lines flows. subst flows. cbn [analyze]. fold lines.
  split; [apply GoCFG.strip_comments_length|].
  destruct (run_flows_ok P lines) as [Hf Hs].
  split; [exact Hf|]. split; [exact Hs | reflexivity].
Qed.

End LineTaintFacts.

(* ===================================================================== *)
(** * engines/static/taint_analysis.py: the analyzer's bookkeeping *)
(* ===================================================================== *)

Module PyTaintFacts.
Import PyStr PyTaint.

(** The names [_is_taint_sink] can return. *)
Definition sink_names : list string :=
  ["os.system"; "os.popen"; "subprocess.call"; "subprocess.run"; "subprocess.Popen";
   "eval"; "exec"].

Section Analyzer.
Variable ast_dump : node -> string.

(** A flow of [taint_flows], read against the analyzer's other tables. *)
Definition flow_wf (st : analyzer) (f : flow) : Prop :=
  severity f = "critical" /\
  In (sink f) sink_names /\
  (exists k, In k (taint_sinks st) /\ sk_sink k = sink f /\ sk_line k = sink_line f) /\
  ((flow_type f = "direct" /\ tainted_var f = None /\ source_line f = sink_line f) \/
   (flow_type f = "variable_flow" /\
    exists v, tainted_var f = Some v /\ source f = v /\
              v ∈ current_tainted_vars st /\
              exists e, In e (taint_sources st) /\
                        se_tainted_var e = v /\ se_line e = source_line f)).

(** The tables agree: the tainted variables are those with a recorded
    assignment line, and that line is the line of one of their entries in
    [taint_sources]. *)
Definition tables_agree (st : analyzer) : Prop :=
  (forall v, v ∈ current_tainted_vars st <-> is_Some (var_assignments st !! v)) /\
  (forall v l, var_assignments st !! v = Some l ->
     exists e, In e (taint_sources st) /\ se_tainted_var e = v /\ se_line e = l).

Definition analyzer_ok (st : analyzer) : Prop :=
  tables_agree st /\ Forall (flow_wf st) (taint_flows st).

(** [st'] holds all that [st] holds in its tables. *)
Definition extends (st st' : analyzer) : Prop :=
  (forall e, In e (taint_sources st) -> In e (taint_sources st')) /\
  (forall k, In k (taint_sinks st) -> In k (taint_sinks st')) /\
  current_tainted_vars st ⊆ current_tainted_vars st'.

Lemma flow_wf_extends st st' f : extends st st' -> flow_wf st f -> flow_wf st' f.
Proof.
  intros (Hsrc & Hsnk & Hvars) (Hsev & Hname & (k & Hk & Hks) & Hkind).
  split; [exact Hsev|]. split; [exact Hname|]. split; [exists k; auto|].
  destruct Hkind as [Hd | (Hty & v & Hv & Hs & Hin & e & He & Hev)]; [now left|].
  right. split; [exact Hty|]. exists v. repeat split; auto.
  exists e. split; [now apply Hsrc | exact Hev].
Qed.

Lemma is_taint_sink_name func name :
  _is_taint_sink func = Some name -> In name sink_names.
Proof.
  unfold _is_taint_sink, str_in, sink_names.
  destruct func as [f|value attr| | | | | |]; try discriminate.
  - cbn [existsb]. destruct (String.eqb_spec f "eval") as [-> | _].
    { intros [= <-]. cbn. tauto. }
    destruct (String.eqb_spec f "exec") as [-> | _]; [|discriminate].
    intros [= <-]. cbn. tauto.
  - destruct value as [m| | | | | | |]; try discriminate.
    destruct (String.eqb m "os").
    + cbn [existsb]. destruct (String.eqb_spec attr "system") as [-> | _].
      { intros [= <-]. cbn. tauto. }
      destruct (String.eqb_spec attr "popen") as [-> | _]; [|discriminate].
      intros [= <-]. cbn. tauto.
    + destruct (String.eqb m "subprocess"); [|discriminate].
      cbn [existsb]. destruct (String.eqb_spec attr "call") as [-> | _].
      { intros [= <-]. cbn. tauto. }
      destruct (String.eqb_spec attr "run") as [-> | _].
      { intros [= <-]. cbn. tauto. }
      destruct (String.eqb_spec attr "Popen") as [-> | _]; [|discriminate].
      intros [= <-]. cbn. tauto.
Qed.

Lemma variable_name_is_repr n v :
  _get_variable_name n = Some v -> _get_node_repr ast_dump n = v.
Proof.
  destruct n as [id|value attr| | | | | |]; cbn; try discriminate.
  - now intros [= ->].
  - destruct value; try discriminate. now intros [= ->].
Qed.

Lemma check_arg_ok name l st arg :
  In name sink_names ->
  (exists k, In k (taint_sinks st) /\ sk_sink k = name /\ sk_line k = l) ->
  analyzer_ok st -> analyzer_ok (check_arg ast_dump name l st arg).
Proof.
  intros Hname Hk Hst. pose proof Hst as [Htab Hfl].
  assert (Hadd : forall f, flow_wf st f -> analyzer_ok (add_flow st f)).
  { intros f Hf. split; [exact Htab|]. cbn [add_flow taint_flows].
    apply Forall_app. split; [|constructor; [|constructor]].
    - eapply Forall_impl; [exact Hfl|]. intros g. apply flow_wf_extends.
      repeat split; auto.
    - revert Hf. apply flow_wf_extends. repeat split; auto. }
  unfold check_arg. destruct (_is_taint_source arg).
  - apply Hadd. unfold flow_wf. cbn. repeat split; auto.
  - destruct (_get_variable_name arg) as [v|] eqn:Ev; [|exact Hst].
    destruct (nonempty_str v && bool_decide (v ∈ current_tainted_vars st)) eqn:E;
      [|exact Hst].
    apply andb_prop in E as [_ Hin]. apply bool_decide_eq_true in Hin.
    apply Hadd. unfold flow_wf. cbn. split; [reflexivity|]. split; [exact Hname|].
    split; [exact Hk|]. right. split; [reflexivity|]. exists v.
    split; [reflexivity|]. split; [now apply variable_name_is_repr|].
    split; [exact Hin|].
    destruct Htab as [Hdom Hline].
    destruct (proj1 (Hdom v) Hin) as [l0 Hl0]. rewrite Hl0.
    exact (Hline v l0 Hl0).
Qed.

Lemma call_effect_ok l f a st : analyzer_ok st -> analyzer_ok (call_effect ast_dump l f a st).
Proof.
  intros Hst. unfold call_effect.
  destruct (_is_taint_sink f) as [name|] eqn:Esink; [|exact Hst].
  apply is_taint_sink_name in Esink.
  set (k := SinkEntry name l (map (_get_node_repr ast_dump) a)).
  set (st0 := Analyzer (taint_sources st) (taint_sinks st ++ [k]) (taint_flows st)
                (current_tainted_vars st) (var_assignments st)).
  assert (Hst0 : analyzer_ok st0).
  { destruct Hst as [Htab Hfl]. split; [exact Htab|]. cbn [st0 taint_flows].
    eapply Forall_impl; [exact Hfl|]. intros g. apply flow_wf_extends.
    repeat split; cbn; auto. intros k' Hk'. apply in_or_app. now left. }
  assert (Hk : forall st1, (forall k', In k' (taint_sinks st0) -> In k' (taint_sinks st1)) ->
                 exists k', In k' (taint_sinks st1) /\ sk_sink k' = name /\ sk_line k' = l).
  { intros st1 Hsub. exists k. split; [|split; reflexivity].
    apply Hsub. cbn. apply in_or_app. right. now left. }
  clearbody st0.
  assert (Hgen : forall st1, (forall k', In k' (taint_sinks st0) -> In k' (taint_sinks st1)) ->
                   analyzer_ok st1 ->
                   analyzer_ok (fold_left (check_arg ast_dump name l) a st1)).
  { induction a as [|x xs IH]; intros st1 Hsub Hst1; cbn [fold_left]; [exact Hst1|].
    apply IH.
    - intros k' Hk'. specialize (Hsub k' Hk').
      unfold check_arg. destruct (_is_taint_source x); [exact Hsub|].
      destruct (_get_variable_name x); [|exact Hsub].
      destruct (_ && _); exact Hsub.
    - apply check_arg_ok; [exact Esink | now apply Hk | exact Hst1]. }
  apply Hgen; [auto | exact Hst0].
Qed.

Lemma taint_target_ok l value st target :
  analyzer_ok st -> analyzer_ok (taint_target ast_dump l value st target).
Proof.
  intros Hst. pose proof Hst as [[Hdom Hline] Hfl]. unfold taint_target.
  destruct (_get_variable_name target) as [v|]; [|exact Hst].
  destruct (nonempty_str v); [|exact Hst].
  split; [split|]; cbn [current_tainted_vars var_assignments taint_sources taint_flows].
  - intros w. rewrite elem_of_union, elem_of_singleton, Hdom.
    destruct (decide (w = v)) as [-> | Hne].
    + rewrite lookup_insert_eq. split; [eauto | now left].
    + rewrite lookup_insert_ne by congruence. split; [intros [? | ?]; [congruence | auto] | now right].
  - intros w l0. destruct (decide (w = v)) as [-> | Hne].
    + rewrite lookup_insert_eq. intros [= <-]. eexists. split; [apply in_or_app; right; now left|].
      split; reflexivity.
    + rewrite lookup_insert_ne by congruence. intros Hw.
      destruct (Hline w l0 Hw) as (e & He & Hev). exists e. split; [|exact Hev].
      apply in_or_app. now left.
  - eapply Forall_impl; [exact Hfl|]. intros g. apply flow_wf_extends.
    repeat split; cbn; auto.
    + intros e He. apply in_or_app. now left.
    + set_solver.
Qed.

Lemma assign_effect_ok l t v st : analyzer_ok st -> analyzer_ok (assign_effect ast_dump l t v st).
Proof.
  intros Hst. unfold assign_effect.
  match goal with |- context [if ?b then _ else st] => destruct b; [|exact Hst] end.
  revert st Hst. induction t as [|y ys IH]; intros st Hst; cbn [fold_left]; [exact Hst|].
  apply IH. now apply taint_target_ok.
Qed.

Lemma visit_analyzer_ok n st : analyzer_ok st -> analyzer_ok (visit ast_dump n st).
Proof.
  apply (visit_preserves ast_dump analyzer_ok).
  - intros l f a st'. apply call_effect_ok.
  - intros l t v st'. apply assign_effect_ok.
Qed.

(** X12.  After any visit from a fresh analyzer the tables agree: the
    tainted variables are exactly those with a recorded assignment line,
    which is the line of an entry of [taint_sources] for that variable.
    Every flow has severity critical and a sink among os.system, os.popen,
    subprocess.call, subprocess.run, subprocess.Popen, eval and exec, at the
    line of a recorded sink call; it is either direct, with [source_line]
    equal to [sink_line], or a variable_flow whose source text is its
    tainted variable, a tainted variable of the analyzer, and whose
    [source_line] is the line of a recorded tainting assignment of that
    variable.  No variable ever leaves the tainted set. *)
Theorem taint_flows_match_the_tables (tree : node) :
  let st := visit ast_dump tree new_analyzer in
  tables_agree st /\
  Forall (flow_wf st) (taint_flows st) /\
  analyze ast_dump (Some tree) = taint_flows st /\
  (forall n st0 x, x ∈ current_tainted_vars st0 ->
                   x ∈ current_tainted_vars (visit ast_dump n st0)).
Proof.
  intros st.
  assert (Hok : analyzer_ok st).
  { apply visit_analyzer_ok. split; [split|constructor].
    - intros v. cbn. rewrite lookup_empty. split; [set_solver | intros [? [=]]].
    - intros v l. cbn. rewrite lookup_empty. discriminate. }
  destruct Hok as [Htab Hfl]. split; [exact Htab|]. split; [exact Hfl|].
  split; [reflexivity|]. intros n st0 x. apply tainted_stays.
Qed.

(** [has_source n]: some node inside [n] is a taint source, an index of
    [sys.argv] or a call of [input] or [raw_input]. *)
Fixpoint has_source (n : node) : bool :=
  _is_taint_source n ||
  match n with
  | Name _ => false
  | Constant _ => false
  | Attribute value _ => has_source value
  | Subscript value index => has_source value || has_source index
  | BinOp l r => has_source l || has_source r
  | Call _ func args keywords =>
      has_source func || existsb has_source args || existsb has_source keywords
  | Assign _ targets value => existsb has_source targets || has_source value
  | Other children => existsb has_source children
  end.

(** Nothing tainted, nothing reported. *)
Definition clean (st : analyzer) : Prop :=
  current_tainted_vars st = ∅ /\ taint_flows st = [].

Lemma has_source_here n : has_source n = false -> _is_taint_source n = false.
Proof. destruct n; cbn [has_source]; intros H; now apply orb_false_elim in H as [H _]. Qed.

Lemma check_arg_clean name l st arg :
  has_source arg = false -> clean st -> clean (check_arg ast_dump name l st arg).
Proof.
  intros Harg [Hv Hf]. unfold check_arg. rewrite (has_source_here arg Harg).
  destruct (_get_variable_name arg) as [v|]; [|now split].
  rewrite Hv. rewrite bool_decide_eq_false_2 by set_solver.
  rewrite andb_false_r. now split.
Qed.

Lemma call_effect_clean l f a st :
  existsb has_source a = false -> clean st -> clean (call_effect ast_dump l f a st).
Proof.
  intros Ha Hst. unfold call_effect. destruct (_is_taint_sink f) as [name|]; [|exact Hst].
  match goal with |- clean (fold_left _ a ?s0) => assert (H0 : clean s0) by exact Hst;
    generalize dependent s0 end.
  induction a as [|x xs IH]; intros s0 Hs0; cbn [fold_left]; [exact Hs0|].
  cbn [existsb] in Ha. apply orb_false_elim in Ha as [Hx Hxs].
  apply IH; [exact Hxs|]. now apply check_arg_clean.
Qed.

Lemma assign_effect_clean l t v st :
  _is_taint_source v = false -> clean st -> assign_effect ast_dump l t v st = st.
Proof.
  intros Hv [Hvars _]. unfold assign_effect. rewrite Hv. cbn [negb].
  destruct (_get_variable_name v) as [w|]; [|reflexivity].
  rewrite Hvars. rewrite bool_decide_eq_false_2 by set_solver.
  now rewrite andb_false_r.
Qed.

Lemma fold_visit_clean ns :
  Forall (fun n => has_source n = false -> forall st, clean st -> clean (visit ast_dump n st)) ns ->
  existsb has_source ns = false ->
  forall st, clean st -> clean (fold_left (fun st c => visit ast_dump c st) ns st).
Proof.
  induction 1 as [|n ns Hn _ IH]; intros Hex st Hst; cbn [fold_left]; [exact Hst|].
  cbn [existsb] in Hex. apply orb_false_elim in Hex as [H1 H2].
  apply IH; [exact H2|]. now apply Hn.
Qed.

Lemma visit_clean n : has_source n = false -> forall st, clean st -> clean (visit ast_dump n st).
Proof.
  induction n using node_nested_ind; intros Hsrc st Hst; cbn [visit]; auto.
  - cbn [has_source] in Hsrc. apply orb_false_elim in Hsrc as [_ Hsrc].
    apply orb_false_elim in Hsrc as [H1 H2]. auto.
  - cbn [has_source] in Hsrc. apply orb_false_elim in Hsrc as [_ Hsrc].
    apply orb_false_elim in Hsrc as [Hsrc Hkw]. apply orb_false_elim in Hsrc as [Hf Ha].
    apply fold_visit_clean; [assumption | exact Hkw |].
    apply fold_visit_clean; [assumption | exact Ha |].
    apply IHn; [exact Hf|]. now apply call_effect_clean.
  - cbn [has_source] in Hsrc. apply orb_false_elim in Hsrc as [_ Hsrc].
    apply orb_false_elim in Hsrc as [H1 H2]. auto.
  - cbn [has_source] in Hsrc. apply orb_false_elim in Hsrc as [_ Hsrc].
    apply orb_false_elim in Hsrc as [Ht Hv].
    rewrite assign_effect_clean; [|now apply has_source_here | exact Hst].
    apply IHn; [exact Hv|]. now apply fold_visit_clean.
  - cbn [has_source] in Hsrc. apply orb_false_elim in Hsrc as [_ Hsrc].
    now apply fold_visit_clean.
Qed.

(** X13.  A program with no taint source in it (no index of [sys.argv],
    no call of [input] or [raw_input]) gives no flow and taints no
    variable, whatever sinks it calls. *)
Theorem no_source_no_flow (tree : node) :
  has_source tree = false ->
  analyze ast_dump (Some tree) = [] /\
  current_tainted_vars (visit ast_dump tree new_analyzer) = ∅.
Proof.
  intros Hsrc. destruct (visit_clean tree Hsrc new_analyzer) as [Hv Hf].
  { split; reflexivity. }
  split; [exact Hf | exact Hv].
Qed.

End Analyzer.

(** A sink call on a constant and on an untainted variable. *)
Definition sinks_only_program : node :=
  Other [Assign 1 [Name "cmd"] (Constant "'ls'");
         Call 2 (Attribute (Name "os") "system") [Name "cmd"] [];
         Call 3 (Name "eval") [BinOp (Constant "'1+'") (Name "cmd")] []].

Lemma no_source_no_flow_witness :
  has_source sinks_only_program = false /\
  analyze dump_stub (Some sinks_only_program) = [].
Proof.
  split; [reflexivity|].
  exact (proj1 (no_source_no_flow dump_stub sinks_only_program eq_refl)).
Defined.

End PyTaintFacts.

(* ===================================================================== *)
(** * engines/static/pattern_matcher.py: order, context, rule filter *)
(* ===================================================================== *)

Module PatternMatcherFacts.
Import PyStr PatternMatcher.

(** The entries of line [n]. *)
Definition on_line (n : Z) (l : list pattern_match) : list pattern_match :=
  List.filter (fun m => line m =? n) l.

Lemma filter_none {A} (f : A -> bool) (l : list A) :
  (forall z, In z l -> f z = false) -> List.filter f l = [].
Proof.
  induction l as [|z l IH]; intros H; cbn [List.filter]; [reflexivity|].
  rewrite (H z (or_introl eq_refl)). apply IH. intros w Hw. apply H. now right.
Qed.

(** The sort is stable: an entry is placed behind the entries of its line. *)
Lemma insert_by_line_on_line n x l :
  StronglySorted line_le l ->
  on_line n (insert_by_line x l)
  = (on_line n l ++ if line x =? n then [x] else [])%list.
Proof.
  unfold on_line.
  induction l as [|y l IH]; intros Hs; cbn [insert_by_line List.filter app].
  - destruct (line x =? n); reflexivity.
  - apply StronglySorted_inv in Hs as [Hs Hy].
    destruct (Z.ltb_spec (line x) (line y)) as [Hlt | Hge].
    + cbn [List.filter]. destruct (Z.eqb_spec (line x) n) as [Hx | Hx].
      * assert (Hnone : List.filter (fun m => line m =? n) (y :: l) = []).
        { apply filter_none. intros z Hz.
          assert (line y <= line z).
          { destruct Hz as [<- | Hz]; [lia|].
            rewrite Forall_forall in Hy. apply (Hy z). now apply list_elem_of_In. }
          destruct (Z.eqb_spec (line z) n); [lia | reflexivity]. }
        cbn [List.filter] in Hnone. rewrite Hnone. reflexivity.
      * now rewrite app_nil_r.
    + cbn [List.filter]. rewrite (IH Hs).
      destruct (line y =? n); reflexivity.
Qed.

Lemma sort_by_line_on_line n l : on_line n (sort_by_line l) = on_line n l.
Proof.
  unfold sort_by_line.
  enough (H : forall acc, StronglySorted line_le acc ->
            on_line n (fold_left (fun acc x => insert_by_line x acc) l acc)
            = (on_line n acc ++ on_line n l)%list).
  { now rewrite (H [] ltac:(constructor)). }
  induction l as [|x l IH]; intros acc Hacc; cbn [fold_left].
  - unfold on_line at 3. cbn. now rewrite app_nil_r.
  - rewrite (IH _ (insert_by_line_sorted x acc Hacc)), insert_by_line_on_line by exact Hacc.
    rewrite <- app_assoc. f_equal. unfold on_line. cbn [List.filter].
    destruct (line x =? n); reflexivity.
Qed.

Section Matcher.
Variable compiled : Type.
Variable re_compile : string -> option compiled.
Variable re_finditer : compiled -> string -> list (nat * nat).

Notation match_patterns := (match_patterns compiled re_compile re_finditer).
Notation occurrences := (occurrences compiled re_compile re_finditer).
Notation rule_entries := (rule_entries compiled re_compile re_finditer).

Lemma match_patterns_perm c s rules :
  match_patterns (String c s) rules
  = sort_by_line (flat_map (rule_entries (split_char newline (String c s))) rules).
Proof.
  unfold PatternMatcher.match_patterns. cbn [nonempty_str negb orb].
  destruct rules as [|r rules]; [reflexivity|]. cbn [nonempty negb].
  now rewrite fold_scan_rule_flat.
Qed.

Lemma on_line_rule_entries lines r j text :
  lines !! j = Some text ->
  on_line (Z.of_nat (j + 1)) (rule_entries lines r)
  = map (entry_of r lines (j + 1) text) (occurrences r text).
Proof.
  unfold PatternMatcher.rule_entries, on_line.
  enough (H : forall start rest,
            rest !! j = Some text ->
            List.filter (fun m => line m =? Z.of_nat (start + j))
              (flat_map
                 (fun nt => map (entry_of r lines (fst nt) (snd nt))
                              (occurrences r (snd nt)))
                 (numbered start rest))
            = map (entry_of r lines (start + j) text) (occurrences r text)).
  { intros Hj. rewrite (Nat.add_comm j 1). now apply H. }
  intros start rest. revert start j.
  induction rest as [|x rest IH]; intros start j Hj; [discriminate|].
  cbn [numbered flat_map fst snd]. rewrite List.filter_app.
  destruct j as [|j].
  - injection Hj as ->. rewrite Nat.add_0_r.
    rewrite filter_line_same, (filter_line_later compiled re_compile re_finditer) by lia.
    now rewrite app_nil_r.
  - cbn in Hj. rewrite filter_line_other by lia. cbn [app].
    replace (start + S j)%nat with (S start + j)%nat by lia. now apply IH.
Qed.

Lemma on_line_flat_map n {A} (f : A -> list pattern_match) (xs : list A) :
  on_line n (flat_map f xs) = flat_map (fun x => on_line n (f x)) xs.
Proof.
  unfold on_line. induction xs as [|x xs IH]; cbn [flat_map]; [reflexivity|].
  now rewrite List.filter_app, IH.
Qed.

(** X14.  For a non-empty source text, the entries [match_patterns]
    reports for a line are, in order: rule after rule as the rules are
    listed, and for each rule one entry per occurrence in the order
    [finditer] yields them (the sort by line is stable).  Each entry
    carries the rule's id, name, severity (medium when absent) and
    description, the matched slice of the line and its column. *)
Theorem match_patterns_line_in_rule_order (source_code : string) (rules : list rule)
    (j : nat) (text : string) :
  source_code <> EmptyString ->
  split_char newline source_code !! j = Some text ->
  on_line (Z.of_nat (j + 1)) (match_patterns source_code rules)
  = flat_map
      (fun r =>
         map (entry_of r (split_char newline source_code) (j + 1) text)
             (occurrences r text))
      rules.
Proof.
  intros Hne Hj. destruct source_code as [|c s]; [congruence|].
  rewrite match_patterns_perm, sort_by_line_on_line, on_line_flat_map.
  apply flat_map_ext. intros r. now apply on_line_rule_entries.
Qed.

(** The lines around line [j] (counted from 0): the line before, if there
    is one, the line itself and the two lines after it, as far as the text
    goes. *)
Definition window (lines : list string) (j : nat) : list string :=
  (match j with
   | O => []
   | S j' => match lines !! j' with Some before => [before] | None => [] end
   end ++
   match lines !! j with Some text => [text] | None => [] end ++
   take 2 (drop (S j) lines))%list.

Lemma list_slice_window lines j text :
  lines !! j = Some text ->
  list_slice lines (j + 1 - 2) (Nat.min (length lines) (j + 1 + 2)) = window lines j.
Proof.
  intros Hj. unfold list_slice, window. rewrite Hj.
  pose proof (lookup_lt_Some _ _ _ Hj) as Hlt.
  assert (Hafter : forall n, (Nat.min (length lines) (j + 1 + 2) - (j + 1) <= n)%nat ->
            (2 <= n \/ length lines - (j + 1) <= n)%nat) by lia.
  assert (Htail : take (Nat.min (length lines) (j + 1 + 2) - (j + 1)) (drop (S j) lines)
                  = take 2 (drop (S j) lines)).
  { destruct (Nat.le_gt_cases (j + 3) (length lines)) as [Hle | Hgt].
    - f_equal. lia.
    - rewrite !take_ge; [reflexivity | rewrite length_drop; lia | rewrite length_drop; lia]. }
  destruct j as [|j'].
  - cbn [Nat.add Nat.sub]. rewrite drop_0.
    destruct lines as [|x lines]; [discriminate|]. injection Hj as ->.
    cbn [app]. cbn [length] in *.
    replace (Nat.min (S (length lines)) 3 - 0)%nat
      with (S (Nat.min (S (length lines)) (0 + 1 + 2) - (0 + 1)))%nat by lia.
    cbn [take]. f_equal. exact Htail.
  - replace (S j' + 1 - 2)%nat with j' by lia.
    assert (Hj' : is_Some (lines !! j')) by (apply lookup_lt_is_Some_2; lia).
    destruct Hj' as [before Hbefore]. rewrite Hbefore.
    rewrite (drop_S _ _ _ Hbefore), (drop_S _ _ _ Hj).
    replace (Nat.min (length lines) (S j' + 1 + 2) - j')%nat
      with (S (S (Nat.min (length lines) (S j' + 1 + 2) - (S j' + 1))))%nat by lia.
    cbn [take app]. f_equal. f_equal. exact Htail.
Qed.

Lemma in_rule_entries_context lines r m :
  In m (rule_entries lines r) ->
  exists j text, lines !! j = Some text /\ line m = Z.of_nat (j + 1) /\
                 context m = join_lines (window lines j).
Proof.
  unfold PatternMatcher.rule_entries. intros Hin.
  apply in_flat_map in Hin as ([n text] & Hnt & Hin). cbn [fst snd] in Hin.
  apply in_map_iff in Hin as (span & <- & _).
  apply numbered_lookup in Hnt as (j & Hj & Hf). cbn [fst snd] in Hj, Hf.
  exists j, text. split; [exact Hj|]. subst n.
  replace (1 + j)%nat with (j + 1)%nat by lia. split; [reflexivity|].
  cbn [entry_of context]. now rewrite (list_slice_window lines j text Hj).
Qed.

(** X15.  The [context] of every reported match is the text of at most
    four consecutive lines joined by newlines: the line before the match
    (when the match is not on the first line), the matched line, and the
    next two lines (as far as the text goes). *)
Theorem match_context_window (source_code : string) (rules : list rule) :
  let lines := split_char newline source_code in
  Forall
    (fun m => exists j text,
       lines !! j = Some text /\ line m = Z.of_nat (j + 1) /\
       context m = join_lines (window lines j) /\
       In text (window lines j) /\
       (1 <= length (window lines j) <= 4)%nat)
    (match_patterns source_code rules).
Proof.
  intros lines. destruct source_code as [|c s]; [constructor|].
  apply Forall_forall. intros m Hm.
  rewrite match_patterns_perm, (proj2 (sort_by_line_spec _)) in Hm.
  apply list_elem_of_In, in_flat_map in Hm as (r & _ & Hm).
  apply in_rule_entries_context in Hm as (j & text & Hj & Hline & Hctx).
  exists j, text. fold lines in Hj, Hctx. repeat split; auto.
  - unfold window. rewrite Hj. apply in_or_app. right. now left.
  - unfold window. rewrite Hj. rewrite !length_app. cbn [length]. lia.
  - unfold window. rewrite Hj. rewrite !length_app, length_take. cbn [length].
    destruct j as [|j']; [cbn [length]; lia|].
    destruct (lines !! j'); cbn [length]; lia.
Qed.

End Matcher.

(** ** [filter_rules_by_language], lines 104-126 *)

(** [(text or '').strip().lower()]. *)
Definition normalized (text : option string) : string :=
  FileMonitor.lower (strip (default EmptyString text)).

(** The language of a rule: [all] when the rule names none. *)
Definition rule_language (r : rule) : string :=
  let rule_lang := normalized (r_language r) in
  if negb (nonempty_str rule_lang) then "all" else rule_lang.

Definition filter_rules_by_language (rules : list rule) (language : option string)
    : list rule :=
  if negb (nonempty rules) then []
  else
    let language := normalized language in
    fold_left
      (fun filtered r =>
         if String.eqb (rule_language r) "all" || String.eqb (rule_language r) language
         then (filtered ++ [r])%list else filtered)
      rules [].

(** The rules the filter lets through. *)
Definition accepts (language : option string) (r : rule) : bool :=
  String.eqb (rule_language r) "all" || String.eqb (rule_language r) (normalized language).

Lemma filter_rules_spec rules language :
  filter_rules_by_language rules language = List.filter (accepts language) rules.
Proof.
  unfold filter_rules_by_language. destruct rules as [|r0 rules0]; [reflexivity|].
  cbn [nonempty negb]. generalize (r0 :: rules0) as rules. intros rules.
  enough (H : forall acc,
    fold_left
      (fun filtered r =>
         if String.eqb (rule_language r) "all" ||
            String.eqb (rule_language r) (normalized language)
         then (filtered ++ [r])%list else filtered) rules acc
    = (acc ++ List.filter (accepts language) rules)%list) by apply (H []).
  induction rules as [|r rules IH]; intros acc; cbn [fold_left List.filter].
  - now rewrite app_nil_r.
  - rewrite IH. unfold accepts at 2.
    destruct (_ || _); [now rewrite <- app_assoc | reflexivity].
Qed.

Lemma filter_filter_same {A} (f : A -> bool) (l : list A) :
  List.filter f (List.filter f l) = List.filter f l.
Proof.
  induction l as [|x l IH]; cbn [List.filter]; [reflexivity|].
  destruct (f x) eqn:E; cbn [List.filter]; [now rewrite E, IH | exact IH].
Qed.

Lemma filter_sublist {A} (f : A -> bool) (l : list A) : sublist (List.filter f l) l.
Proof.
  induction l as [|x l IH]; cbn [List.filter]; [constructor|].
  destruct (f x); [now apply sublist_skip | now apply sublist_cons].
Qed.

Section Filtered.
Variable compiled : Type.
Variable re_compile : string -> option compiled.
Variable re_finditer : compiled -> string -> list (nat * nat).

(** X16.  [filter_rules_by_language] keeps, in their order, the rules
    whose language (trimmed, lower-cased, [all] when absent or blank) is
    [all] or the requested language: the result is a sublist of the rules,
    filtering it again changes nothing, and a rule without a language
    passes every filter.  Matching with the filtered rules never reports a
    match that matching with all the rules would not report. *)
Theorem filter_rules_keeps_universal_rules (rules : list rule) (language : option string) :
  let out := filter_rules_by_language rules language in
  out = List.filter (accepts language) rules /\
  sublist out rules /\
  filter_rules_by_language out language = out /\
  (forall r, In r rules -> rule_language r = "all" -> In r out) /\
  (forall source_code m,
     In m (PatternMatcher.match_patterns compiled re_compile re_finditer source_code out) ->
     In m (PatternMatcher.match_patterns compiled re_compile re_finditer source_code rules)).
Proof.
  intros out. subst out. rewrite !filter_rules_spec.
  split; [reflexivity|]. split; [apply filter_sublist|].
  split; [apply filter_filter_same|]. split.
  - intros r Hr Hall. apply filter_In. split; [exact Hr|].
    unfold accepts. now rewrite Hall.
  - intros source_code m. destruct source_code as [|c s]; [intros []|].
    rewrite !match_patterns_perm.
    intros Hm. apply list_elem_of_In in Hm. apply list_elem_of_In.
    rewrite (proj2 (sort_by_line_spec _)) in Hm. rewrite (proj2 (sort_by_line_spec _)).
    apply list_elem_of_In, in_flat_map in Hm as (r & Hr & Hm).
    apply list_elem_of_In, in_flat_map. exists r. split; [|exact Hm].
    now apply filter_In in Hr as [Hr _].
Qed.

End Filtered.

Lemma match_patterns_line_in_rule_order_witness :
  map (fun m => (rule_id m, col_offset m))
      (on_line 2 (PatternMatcher.match_patterns Re.regex compile_known spans
                    source_example rules_example))
  = map (fun m => (rule_id m, col_offset m))
      (flat_map
         (fun r =>
            map (entry_of r (split_char newline source_example) 2
                   "eval(a); os.system(b)")
                (PatternMatcher.occurrences Re.regex compile_known spans r
                   "eval(a); os.system(b)"))
         rules_example).
Proof.
  exact (f_equal (map (fun m => (rule_id m, col_offset m)))
           (match_patterns_line_in_rule_order Re.regex compile_known spans
              source_example rules_example 1 "eval(a); os.system(b)"
              ltac:(discriminate) eq_refl)).
Defined.

End PatternMatcherFacts.

(* ===================================================================== *)
(** * fuzzer.py on sandbox.py: a run that times out *)
(* ===================================================================== *)

Module FuzzSandbox.
Import PyStr.

(** ** The text of a number *)

(** The characters of [str(n)]: digits and the minus sign. *)
Definition numeric_char (c : ascii) : bool :=
  let n := nat_of_ascii c in
  ((48 <=? n) && (n <=? 57) || (n =? 45))%nat.

Fixpoint all_chars (p : ascii -> bool) (s : string) : bool :=
  match s with
  | EmptyString => true
  | String c s' => p c && all_chars p s'
  end.

Lemma all_chars_app p a b : all_chars p (a ++ b) = all_chars p a && all_chars p b.
Proof.
  induction a as [|c a IH]; [reflexivity|].
  change (all_chars p (String c (a ++ b)) = all_chars p (String c a) && all_chars p b).
  cbn [all_chars]. now rewrite IH, andb_assoc.
Qed.

Lemma append_assoc (a b c : string) : ((a ++ b) ++ c = a ++ (b ++ c))%string.
Proof.
  induction a as [|x a IH]; [reflexivity|].
  change (String x ((a ++ b) ++ c) = String x (a ++ (b ++ c)))%string. now rewrite IH.
Qed.

Lemma all_chars_impl (p q : ascii -> bool) s :
  (forall c, p c = true -> q c = true) -> all_chars p s = true -> all_chars q s = true.
Proof.
  intros Hpq. induction s as [|c s IH]; cbn; [reflexivity|].
  intros H. apply andb_prop in H as [H1 H2]. now rewrite (Hpq c H1), IH.
Qed.

Lemma pretty_N_char_numeric x : numeric_char (pretty_N_char x) = true.
Proof.
  unfold pretty_N_char.
  destruct x as [|p]; [reflexivity|].
  do 4 (try destruct p as [p|p|]); reflexivity.
Qed.

Lemma pretty_N_go_numeric x : forall s,
  all_chars numeric_char s = true -> all_chars numeric_char (pretty_N_go x s) = true.
Proof.
  induction (N.lt_wf_0 x) as [x _ IH]. intros s Hs.
  destruct (N.eq_dec x 0%N) as [-> | Hx].
  - now rewrite pretty_N_go_0.
  - rewrite pretty_N_go_step by lia. apply IH.
    + apply N.div_lt; lia.
    + cbn [all_chars]. now rewrite pretty_N_char_numeric.
Qed.

Lemma pretty_Z_numeric (z : Z) : all_chars numeric_char (pretty z) = true.
Proof.
  assert (HN : forall n : N, all_chars numeric_char (pretty n) = true).
  { intros n. unfold pretty, pretty_N. destruct (decide (n = 0%N)); [reflexivity|].
    now apply pretty_N_go_numeric. }
  destruct z as [|p|p]; [reflexivity | exact (HN (N.pos p)) |].
  change (pretty (Z.neg p)) with ("-" +:+ pretty (N.pos p)).
  change (all_chars numeric_char (String "-" (pretty (N.pos p))) = true).
  cbn [all_chars]. exact (HN (N.pos p)).
Qed.

(** A needle cannot start in a stretch that has none of its first character. *)
Lemma contains_skip c needle s tail :
  all_chars (fun a => negb (Ascii.eqb a c)) s = true ->
  contains (String c needle) (s ++ tail) = contains (String c needle) tail.
Proof.
  induction s as [|a s IH]; intros Hs; [reflexivity|].
  cbn [all_chars] in Hs. apply andb_prop in Hs as [Ha Hs].
  change (contains (String c needle) (String a s ++ tail))
    with (String.prefix (String c needle) (String a (s ++ tail))
          || contains (String c needle) (s ++ tail)).
  rewrite (IH Hs). cbn [String.prefix].
  destruct (ascii_dec c a) as [-> | _]; [|reflexivity].
  now rewrite Ascii.eqb_refl in Ha.
Qed.

Lemma timeout_message_not_an_error (timeout : Z) :
  contains "Traceback" (Sandbox.timeout_message timeout) = false /\
  contains "Error" (Sandbox.timeout_message timeout) = false.
Proof.
  unfold Sandbox.timeout_message.
  pose proof (pretty_Z_numeric timeout) as Hnum.
  split.
  - rewrite <- append_assoc.
    rewrite contains_skip; [reflexivity|].
    rewrite all_chars_app. apply andb_true_intro. split; [reflexivity|].
    revert Hnum. apply all_chars_impl. intros c Hc. unfold numeric_char in Hc.
    destruct (Ascii.eqb_spec c "T") as [-> | _]; [discriminate | reflexivity].
  - change ("Execution timed out after " ++ pretty timeout ++ " seconds")
      with (String "E" ("xecution timed out after " ++ pretty timeout ++ " seconds")).
    change (contains "Error" (String "E" ("xecution timed out after " ++ pretty timeout ++ " seconds")))
      with (String.prefix "Error" (String "E" (String "x" ("ecution timed out after " ++ pretty timeout ++ " seconds")))
            || contains "Error" ("xecution timed out after " ++ pretty timeout ++ " seconds")).
    replace (String.prefix "Error"
               (String "E" (String "x" ("ecution timed out after " ++ pretty timeout ++ " seconds"))))
      with false by (cbn [String.prefix]; destruct (ascii_dec "E" "E"); [|congruence];
                     destruct (ascii_dec "r" "x"); [discriminate | reflexivity]).
    cbn [orb]. rewrite <- append_assoc.
    rewrite contains_skip; [reflexivity|].
    rewrite all_chars_app. apply andb_true_intro. split; [reflexivity|].
    revert Hnum. apply all_chars_impl. intros c Hc. unfold numeric_char in Hc.
    destruct (Ascii.eqb_spec c "E") as [-> | _]; [discriminate | reflexivity].
Qed.

(** ** One fuzz run in the sandbox *)

(** The dictionary [run_in_sandbox] returns, as [fuzz_execution] reads it. *)
Definition run_result_of (r : Sandbox.sandbox_result) : Fuzzer.run_result Z :=
  Fuzzer.RunResult Z (Sandbox.return_code r) (Sandbox.stdout r) (Sandbox.stderr r)
    (Sandbox.execution_time r) (Some (Sandbox.timed_out r))
    (Some (Sandbox.log_entries r)) (Some (Sandbox.log_file r)).

(** fuzzer.py lines 112-164 with [use_sandbox]: the target, behaving as
    [b], is run in the sandbox and the result is recorded.  No value when
    the call of [run_in_sandbox] does not return. *)
Definition fuzz_one (P : Sandbox.platform) (read_log_file : string -> option (list string))
    (b : Sandbox.behaviour) (timeout : Z) (log_mode log_path : string)
    (header : list string) (test_input : string) : option (Fuzzer.fuzz_result Z) :=
  match Sandbox.run_in_sandbox P b timeout log_mode log_path header with
  | Some r =>
      Some (Fuzzer.result_of_run Z 0 read_log_file true test_input (inl (run_result_of r)))
  | None => None
  end.

(** What the fuzzer records of a run that timed out with nothing of the
    worker's in the record. *)
Lemma result_of_timed_out_run read_log_file timeout path entries test_input :
  let fr :=
    Fuzzer.result_of_run Z 0 read_log_file true test_input
      (inl (run_result_of
              (Sandbox.SandboxResult (-1) EmptyString (Sandbox.timeout_message timeout)
                 timeout path entries true))) in
  Fuzzer.timed_out _ fr = true /\ Fuzzer.crashed _ fr = false /\
  Fuzzer.fr_return_code _ fr = -1 /\
  Fuzzer.fr_stderr _ fr = Sandbox.timeout_message timeout.
Proof.
  cbv zeta. unfold Fuzzer.result_of_run, run_result_of.
  cbn [Fuzzer.return_code Fuzzer.stderr Fuzzer.run_timed_out Fuzzer.timed_out
       Fuzzer.crashed Fuzzer.fr_return_code Fuzzer.fr_stderr default
       Sandbox.return_code Sandbox.stderr Sandbox.timed_out].
  destruct (timeout_message_not_an_error timeout) as [-> ->].
  repeat split.
Qed.


(** A small platform for the runs below: a pipe of 64 bytes, writes of up
    to 16 bytes whole. *)
Definition small_pipes : Sandbox.platform :=
  Sandbox.Platform 64 16
    (fun entry => 4 + N.of_nat (String.length entry))%N
    (fun r => 4 + N.of_nat (String.length (Sandbox.wr_stdout r))
              + N.of_nat (String.length (Sandbox.wr_stderr r)))%N.

(** A target that fails at once after six log entries of twelve bytes. *)
Definition failing_logger : Sandbox.behaviour :=
  Sandbox.Behaviour
    (map Sandbox.Emit ["entry 01"; "entry 02"; "entry 03"; "entry 04"; "entry 05"; "entry 06"])
    (Sandbox.Returns (Sandbox.WorkerResult (-1) EmptyString "Traceback: ValueError" 0)).

(** Its entries do not fit into the pipe. *)
Example failing_logger_does_not_fit :
  ~ Sandbox.fits small_pipes failing_logger 10.
Proof. intros [H _]. vm_compute in H. now apply H. Qed.

(** So the worker, which has put its result, cannot exit: in queue mode
    the run is recorded as timed out and, with the worker's own stderr, as
    a crash, and five of the six entries are read.  In file mode it is a
    crash that did not time out. *)
Example fuzz_one_run :
  option_map (fun fr => (Fuzzer.timed_out _ fr, Fuzzer.crashed _ fr,
                         Fuzzer.fr_return_code _ fr, Fuzzer.fr_stderr _ fr))
    (fuzz_one small_pipes (fun _ => None) failing_logger 10 "queue" EmptyString [] "x")
  = Some (true, true, -1, "Traceback: ValueError") /\
  option_map Sandbox.log_entries
    (Sandbox.run_in_sandbox small_pipes failing_logger 10 "queue" EmptyString [])
  = Some ["entry 01"; "entry 02"; "entry 03"; "entry 04"; "entry 05"] /\
  option_map (fun fr => (Fuzzer.timed_out _ fr, Fuzzer.crashed _ fr))
    (fuzz_one small_pipes (fun _ => None) failing_logger 10 "file" "sandbox.log" [] "x")
  = Some (false, true).
Proof. repeat split; vm_compute; reflexivity. Qed.

End FuzzSandbox.

(* ===================================================================== *)
(** * engines/dynamic/syscall_monitor.py: what the hooks write to the log *)
(* ===================================================================== *)

Module SyscallMonitor.
Import PyStr ThreatIdentifier.

(** [text[:limit]]: a negative [limit] counts from the end. *)
Definition prefix_upto (text : string) (limit : Z) : string :=
  let n := Z.of_nat (String.length text) in
  take_str (Z.to_nat (if limit <? 0 then Z.max 0 (n + limit) else limit)) text.

(** [_truncate_value], lines 65-73, on the text of the value. *)
Definition _truncate_value (text : string) (limit : Z) : string :=
  if Z.of_nat (String.length text) <=? limit then text
  else prefix_upto text limit ++ "...(truncated)".

(** [_log], lines 110-129: the entry put on the queue or written to the
    file; [timestamp] is the text of the clock. *)
Definition _log (timestamp message : string) : string :=
  "[" ++ timestamp ++ "] " ++ message ++ String newline EmptyString.

(** A frame of [traceback.extract_stack()]. *)
Record frame := Frame {
  filename : string;
  lineno : Z
}.

(** [stack[-4:-1] if len(stack) > 4 else stack[:-1]]. *)
Definition frames_of (stack : list frame) : list frame :=
  if (4 <? length stack)%nat
  then firstn 3 (skipn (length stack - 4) stack)
  else removelast stack.

(** [sep.join(l)]. *)
Fixpoint join (sep : string) (l : list string) : string :=
  match l with
  | [] => EmptyString
  | [x] => x
  | x :: l' => x ++ sep ++ join sep l'
  end.

Definition frame_text (f : frame) : string :=
  filename f ++ ":" ++ pretty (lineno f).

(** [_get_call_stack], lines 131-139, on the interpreter's stack; the
    [except] branch is for a failure of [traceback] itself. *)
Definition _get_call_stack (stack : list frame) : string :=
  join " -> " (map frame_text (frames_of stack)).

(** The calls the runtime hooks, with the texts the hooks put in the
    message: [str(args)], [str(kwargs)], the address text, the source. *)
Inductive hooked_call :=
| OsSystem (command : string)
| OsPopen (command mode : string)
| SocketConnect (addr_str : string)
| SocketConnectEx (addr_str : string)
| SocketCreateConnection (addr_str : string)
| SubprocessCall (args_str kwargs_str : string)
| SubprocessRun (args_str kwargs_str : string)
| SubprocessPopen (args_str kwargs_str : string)
| Eval (source : string)
| Exec (source : string)
| Compile (source filename mode : string)
| CtypesCDLL (name : string)
| CtypesWinDLL (name : string)
| Mmap (args_str kwargs_str : string).

(** The message each hook hands to [_log], lines 141-351; [eval], [exec]
    and [compile] with a source text. *)
Definition message (c : hooked_call) (stack : string) : string :=
  match c with
  | OsSystem command =>
      "[ALERT] SYSCALL: os.system called with command='" ++ command
        ++ "' | stack=" ++ stack
  | OsPopen command mode =>
      "[ALERT] SYSCALL: os.popen called with command='" ++ command
        ++ "', mode='" ++ mode ++ "' | stack=" ++ stack
  | SocketConnect addr_str =>
      "[ALERT] NETWORK: socket.connect called with address='" ++ addr_str
        ++ "' | stack=" ++ stack
  | SocketConnectEx addr_str =>
      "[ALERT] NETWORK: socket.connect_ex called with address='" ++ addr_str
        ++ "' | stack=" ++ stack
  | SocketCreateConnection addr_str =>
      "[ALERT] NETWORK: socket.create_connection called with address='" ++ addr_str
        ++ "' | stack=" ++ stack
  | SubprocessCall args_str kwargs_str =>
      "[ALERT] SYSCALL: subprocess.call called with args=" ++ args_str
        ++ ", kwargs=" ++ kwargs_str ++ " | stack=" ++ stack
  | SubprocessRun args_str kwargs_str =>
      "[ALERT] SYSCALL: subprocess.run called with args=" ++ args_str
        ++ ", kwargs=" ++ kwargs_str ++ " | stack=" ++ stack
  | SubprocessPopen args_str kwargs_str =>
      "[ALERT] SYSCALL: subprocess.Popen called with args=" ++ args_str
        ++ ", kwargs=" ++ kwargs_str ++ " | stack=" ++ stack
  | Eval source =>
      "[ALERT] CODE_EXEC: eval called with source='" ++ _truncate_value source 200
        ++ "' | stack=" ++ stack
  | Exec source =>
      "[ALERT] CODE_EXEC: exec called with source='" ++ _truncate_value source 200
        ++ "' | stack=" ++ stack
  | Compile source filename mode =>
      "[ALERT] CODE_EXEC: compile called with source='" ++ _truncate_value source 200
        ++ "', filename='" ++ filename ++ "', mode='" ++ mode
        ++ "' | stack=" ++ stack
  | CtypesCDLL name =>
      "[ALERT] MEMORY: ctypes.CDLL loaded '" ++ name ++ "' | stack=" ++ stack
  | CtypesWinDLL name =>
      "[ALERT] MEMORY: ctypes.WinDLL loaded '" ++ name ++ "' | stack=" ++ stack
  | Mmap args_str kwargs_str =>
      "[ALERT] MEMORY: mmap.mmap called with args=" ++ _truncate_value args_str 200
        ++ ", kwargs=" ++ _truncate_value kwargs_str 200 ++ " | stack=" ++ stack
  end.

(** The log entry of a hooked call made with the interpreter's stack
    [stack] at the time [timestamp]. *)
Definition hooked_entry (timestamp : string) (c : hooked_call) (stack : list frame) : string :=
  _log timestamp (message c (_get_call_stack stack)).

(** ** The text of a line number *)

Definition is_digit (c : ascii) : bool := Re.in_class false Re.cls_digit c.

Lemma pretty_N_char_digit x :
  (x < 10)%N ->
  is_digit (pretty_N_char x) = true /\ digit_val (pretty_N_char x) = Some (Z.of_N x).
Proof.
  intros Hx. destruct x as [|p]; [split; reflexivity|].
  do 4 (try destruct p as [p|p|]); try (split; reflexivity); lia.
Qed.

Lemma pretty_N_go_app x : forall s, pretty_N_go x s = pretty_N_go x EmptyString ++ s.
Proof.
  induction (N.lt_wf_0 x) as [x _ IH]. intros s.
  destruct (N.eq_dec x 0%N) as [-> | Hx].
  - now rewrite !pretty_N_go_0.
  - rewrite (pretty_N_go_step x s), (pretty_N_go_step x EmptyString) by lia.
    assert (Hlt : (x `div` 10 < x)%N) by (apply N.div_lt; lia).
    rewrite (IH _ Hlt (String _ s)), (IH _ Hlt (String _ EmptyString)).
    now rewrite FuzzSandbox.append_assoc.
Qed.

Lemma parse_digits_app a : forall acc b,
  parse_digits acc (a ++ b) =
  match parse_digits acc a with
  | Some v => parse_digits v b
  | None => None
  end.
Proof.
  induction a as [|c a IH]; intros acc b; [reflexivity|].
  change (String c a ++ b)%string with (String c (a ++ b)).
  cbn [parse_digits]. destruct (digit_val c); [apply IH | reflexivity].
Qed.

Lemma all_chars_last (p : ascii -> bool) a c :
  FuzzSandbox.all_chars p (a ++ String c EmptyString)
  = FuzzSandbox.all_chars p a && p c.
Proof.
  rewrite FuzzSandbox.all_chars_app. cbn [FuzzSandbox.all_chars].
  now rewrite andb_true_r.
Qed.

Lemma pretty_N_go_digits x :
  FuzzSandbox.all_chars is_digit (pretty_N_go x EmptyString) = true /\
  parse_digits 0 (pretty_N_go x EmptyString) = Some (Z.of_N x) /\
  (x <> 0%N -> pretty_N_go x EmptyString <> EmptyString).
Proof.
  induction (N.lt_wf_0 x) as [x _ IH].
  destruct (N.eq_dec x 0%N) as [-> | Hx].
  - rewrite pretty_N_go_0. repeat split. congruence.
  - rewrite pretty_N_go_step, pretty_N_go_app by lia.
    destruct (IH (x `div` 10)%N) as (Hd & Hp & _); [apply N.div_lt; lia|].
    destruct (pretty_N_char_digit (x `mod` 10)%N) as [Hc Hv];
      [apply N.mod_lt; lia|].
    split; [|split].
    + now rewrite all_chars_last, Hd, Hc.
    + rewrite parse_digits_app, Hp. cbn [parse_digits]. rewrite Hv.
      f_equal. pose proof (N.div_mod x 10). lia.
    + intros _. now destruct (pretty_N_go (x `div` 10) EmptyString).
Qed.

(** The text of a line number is a non-empty run of digits that [int]
    reads back. *)
Lemma pretty_lineno (n : Z) :
  0 <= n ->
  FuzzSandbox.all_chars is_digit (pretty n) = true /\
  pretty n <> EmptyString /\
  py_int (pretty n) = Some n.
Proof.
  intros Hn.
  assert (HN : forall x : N,
    FuzzSandbox.all_chars is_digit (pretty x) = true /\
    pretty x <> EmptyString /\ py_int (pretty x) = Some (Z.of_N x)).
  { intros x. unfold pretty, pretty_N. destruct (decide (x = 0%N)) as [-> | Hx].
    - repeat split. discriminate.
    - destruct (pretty_N_go_digits x) as (Hd & Hp & Hne).
      split; [exact Hd|]. split; [now apply Hne|].
      unfold py_int. specialize (Hne Hx).
      destruct (pretty_N_go x EmptyString); [congruence | exact Hp]. }
  destruct n as [|p|p]; [repeat split; discriminate | | lia].
  exact (HN (N.pos p)).
Qed.

(** ** The stack pattern on the text of a stack *)

(** The character before the matcher once it has read [run]. *)
Definition last_char (prev : option ascii) (run : list ascii) : option ascii :=
  fold_left (fun _ c => Some c) run prev.

(** A greedy repetition of a character class at the start of a maximal run
    of the class takes the whole run, when what follows the repetition
    accepts that. *)
Lemma star_class_greedy neg items k out : forall run prev pos caps rest fuel,
  Forall (fun c => Re.in_class neg items c = true) run ->
  match rest with [] => True | c :: _ => Re.in_class neg items c = false end ->
  (length run <= fuel)%nat ->
  k (Re.MState (last_char prev run) rest (pos + length run) caps) = Some out ->
  Re.star_loop true (Re.RClass neg items) k fuel (Re.MState prev (run ++ rest) pos caps)
  = Some out.
Proof.
  induction run as [|c run IH]; intros prev pos caps rest fuel Hrun Hstop Hfuel Hk.
  - cbn [app length last_char fold_left] in *. rewrite Nat.add_0_r in Hk.
    destruct fuel as [|fuel]; cbn [Re.star_loop]; [exact Hk|].
    cbn [Re.rmatch]. unfold Re.one_char. cbn [Re.ms_rest Re.orelse].
    destruct rest as [|c rest]; [exact Hk|]. rewrite Hstop. exact Hk.
  - destruct fuel as [|fuel]; [cbn in Hfuel; lia|].
    apply Forall_cons in Hrun as [Hc Hrun].
    cbn [Re.star_loop app]. cbn [Re.rmatch]. unfold Re.one_char.
    cbn [Re.ms_rest]. rewrite Hc.
    unfold Re.advance. cbn [Re.ms_pos Re.ms_caps].
    replace (S pos =? pos)%nat with false by (symmetry; apply Nat.eqb_neq; lia).
    rewrite (IH (Some c) (S pos) caps rest fuel Hrun Hstop); [reflexivity | | ].
    + cbn [length] in Hfuel. lia.
    + cbn [length last_char fold_left] in Hk.
      replace (S pos + length run)%nat with (pos + S (length run))%nat by lia.
      exact Hk.
Qed.

Lemma plus_class_greedy neg items k out c run prev pos caps rest :
  Re.in_class neg items c = true ->
  Forall (fun c => Re.in_class neg items c = true) run ->
  match rest with [] => True | c :: _ => Re.in_class neg items c = false end ->
  k (Re.MState (last_char (Some c) run) rest (S pos + length run) caps) = Some out ->
  Re.rmatch (Re.RPlus true (Re.RClass neg items))
    (Re.MState prev (c :: run ++ rest) pos caps) k = Some out.
Proof.
  intros Hc Hrun Hstop Hk.
  change (Re.one_char (Re.in_class neg items) (Re.MState prev (c :: run ++ rest) pos caps)
            (fun st1 => Re.star_loop true (Re.RClass neg items) k
                          (length (Re.ms_rest st1)) st1) = Some out).
  unfold Re.one_char. cbn [Re.ms_rest]. rewrite Hc.
  unfold Re.advance. cbn [Re.ms_rest Re.ms_pos Re.ms_caps].
  apply star_class_greedy; auto. rewrite length_app. lia.
Qed.


Definition not_colon (c : ascii) : bool := Re.in_class true [Re.chr ":"] c.

(** At the start of [/name:digits], with a name of at least one more
    character and no colon, the pattern matches up to the end of the
    digits; group 2 is the digits. *)
Lemma stack_re_at_frame prev pos g0 g d0 ds rest :
  Forall (fun c => not_colon c = true) (g0 :: g) ->
  Forall (fun c => is_digit c = true) (d0 :: ds) ->
  match rest with [] => True | c :: _ => is_digit c = false end ->
  exists caps,
    Re.rmatch stack_re
      (Re.MState prev ("/"%char :: g0 :: g ++ ":"%char :: d0 :: ds ++ rest) pos []) Some
    = Some (Re.MState (last_char (Some d0) ds) rest
              (pos + (4 + length g + length ds)) caps) /\
    Re.assoc_nat 2 caps
    = Some ((pos + (3 + length g))%nat, (pos + (4 + length g + length ds))%nat).
Proof.
  intros Hg Hd Hstop.
  apply Forall_cons in Hg as [Hg0 Hg]. apply Forall_cons in Hd as [Hd0 Hd].
  eexists. split.
  - unfold stack_re.
    set (P := Re.RPlus true (Re.RClass true [Re.chr ":"])).
    cbn [Re.rmatch Re.cat]. unfold Re.one_char at 1. cbn [Re.ms_rest].
    replace (Re.in_class false [Re.rng "A" "Z"; Re.rng "a" "z"] "/") with false
      by reflexivity.
    cbn [Re.orelse]. unfold Re.one_char at 1. cbn [Re.ms_rest].
    rewrite Ascii.eqb_refl. unfold Re.advance at 1. cbn [Re.ms_pos Re.ms_caps].
    subst P.
    apply (plus_class_greedy true [Re.chr ":"] _ _ g0 g (Some "/"%char) (S pos) []
             (":"%char :: d0 :: ds ++ rest) Hg0 Hg); [reflexivity|].
    cbn beta. unfold Re.set_cap at 1.
    cbn [Re.rmatch Re.ms_prev Re.ms_rest Re.ms_pos Re.ms_caps].
    unfold Re.one_char at 1. cbn [Re.ms_rest]. rewrite Ascii.eqb_refl.
    unfold Re.advance at 1. cbn [Re.ms_pos Re.ms_caps].
    unfold Re.digits1.
    apply (plus_class_greedy false Re.cls_digit _ _ d0 ds _ _ _ rest Hd0 Hd Hstop).
    unfold Re.set_cap. cbn [Re.ms_prev Re.ms_rest Re.ms_pos Re.ms_caps].
    f_equal. f_equal. lia.
  - cbn [Re.assoc_nat Nat.eqb]. unfold Re.advance. cbn [Re.ms_pos].
    f_equal. f_equal; lia.
Qed.

(** A position where the pattern cannot start: no slash there, and no
    letter followed by a colon and a backslash. *)
Definition blocked (s : list ascii) : Prop :=
  match s with
  | c :: a :: b :: _ => c <> "/"%char /\ (a <> ":"%char \/ b <> backslash)
  | c :: _ => c <> "/"%char
  | [] => True
  end.

Lemma stack_re_blocked prev s pos :
  blocked s -> Re.rmatch stack_re (Re.MState prev s pos []) Some = None.
Proof.
  intros Hb. unfold stack_re.
  set (P := Re.RPlus true (Re.RClass true [Re.chr ":"])).
  cbn [Re.rmatch Re.cat]. unfold Re.one_char, Re.advance.
  cbn [Re.ms_rest Re.ms_pos Re.ms_caps Re.ms_prev].
  destruct s as [|c s]; [reflexivity|].
  assert (Hc : c <> "/"%char) by (destruct s as [|a [|b s]]; cbn in Hb; tauto).
  replace (Ascii.eqb "/" c) with false
    by (symmetry; apply Ascii.eqb_neq; congruence).
  destruct (Re.in_class false [Re.rng "A" "Z"; Re.rng "a" "z"] c); [|reflexivity].
  destruct s as [|a s]; [reflexivity|].
  destruct (Ascii.eqb_spec ":" a) as [<- | Ha]; [|reflexivity].
  destruct s as [|b s]; [reflexivity|].
  destruct (Ascii.eqb_spec backslash b) as [<- | Hb']; [|reflexivity].
  cbn in Hb. exfalso. destruct Hb as [_ [H | H]]; congruence.
Qed.


(** ** Scanning a line for stack frames *)

Lemma scan_nil fuel prev pos : Re.scan fuel stack_re prev [] pos = [].
Proof.
  destruct fuel; [reflexivity|]. cbn [Re.scan].
  now rewrite stack_re_blocked by exact I.
Qed.

(** No slash and no backslash. *)
Definition inert (c : ascii) : bool :=
  negb (Ascii.eqb c "/") && negb (Ascii.eqb c backslash).

Lemma inert_spec c : inert c = true -> c <> "/"%char /\ c <> backslash.
Proof.
  unfold inert. intros H. apply andb_prop in H as [H1 H2].
  split; intros ->; [rewrite Ascii.eqb_refl in H1 | rewrite Ascii.eqb_refl in H2];
    discriminate.
Qed.

Definition at_slash (rest : list ascii) : Prop :=
  match rest with [] => True | r :: _ => r = "/"%char end.

Lemma inert_blocked c gap rest :
  inert c = true -> Forall (fun c => inert c = true) gap -> at_slash rest ->
  blocked (c :: gap ++ rest).
Proof.
  intros Hc Hgap Hrest. apply inert_spec in Hc as [Hc _].
  destruct gap as [|a gap]; cbn [app].
  - destruct rest as [|r [|b rest]]; cbn in *; [exact Hc | exact Hc|].
    split; [exact Hc|]. left. rewrite Hrest. discriminate.
  - apply Forall_cons in Hgap as [_ Hgap].
    destruct gap as [|b gap]; cbn [app].
    + destruct rest as [|r rest]; cbn in *; [exact Hc|].
      split; [exact Hc|]. right. rewrite Hrest. discriminate.
    + apply Forall_cons in Hgap as [Hb _]. apply inert_spec in Hb as [_ Hb].
      cbn. split; [exact Hc | now right].
Qed.

(** The scan steps over a stretch of inert characters. *)
Lemma scan_gap gap : forall rest prev pos fuel,
  Forall (fun c => inert c = true) gap -> at_slash rest ->
  (length gap <= fuel)%nat ->
  Re.scan fuel stack_re prev (gap ++ rest) pos
  = Re.scan (fuel - length gap) stack_re (last_char prev gap) rest (pos + length gap).
Proof.
  induction gap as [|c gap IH]; intros rest prev pos fuel Hgap Hrest Hfuel.
  - cbn [app length last_char fold_left]. now rewrite Nat.sub_0_r, Nat.add_0_r.
  - apply Forall_cons in Hgap as [Hc Hgap].
    destruct fuel as [|fuel]; [cbn in Hfuel; lia|].
    cbn [app Re.scan]. rewrite stack_re_blocked by now apply inert_blocked.
    rewrite IH by (auto; cbn in Hfuel; lia).
    cbn [length last_char fold_left Nat.sub]. f_equal. lia.
Qed.

(** At a frame the scan records one match, whose group 2 is the digits,
    and resumes after the digits. *)
Lemma scan_frame fuel prev pos g0 g d0 ds rest :
  Forall (fun c => not_colon c = true) (g0 :: g) ->
  Forall (fun c => is_digit c = true) (d0 :: ds) ->
  match rest with [] => True | c :: _ => is_digit c = false end ->
  exists m,
    Re.scan (S fuel) stack_re prev
      ("/"%char :: g0 :: g ++ ":"%char :: d0 :: ds ++ rest) pos
    = m :: Re.scan fuel stack_re (last_char (Some d0) ds) rest
             (pos + (4 + length g + length ds)) /\
    Re.assoc_nat 2 (Re.m_groups m)
    = Some ((pos + (3 + length g))%nat, (pos + (4 + length g + length ds))%nat).
Proof.
  intros Hg Hd Hstop.
  destruct (stack_re_at_frame prev pos g0 g d0 ds rest Hg Hd Hstop) as (caps & Hm & Hcap).
  eexists. split.
  - cbn [Re.scan]. rewrite Hm. cbn [Re.ms_pos Re.ms_prev Re.ms_rest Re.ms_caps].
    replace (pos + (4 + length g + length ds) =? pos)%nat with false
      by (symmetry; apply Nat.eqb_neq; lia).
    reflexivity.
  - exact Hcap.
Qed.

(** ** Strings as lists of characters *)

Lemma chars_app a b :
  list_ascii_of_string (a ++ b) = (list_ascii_of_string a ++ list_ascii_of_string b)%list.
Proof.
  induction a as [|c a IH]; [reflexivity|].
  change (String c a ++ b)%string with (String c (a ++ b)).
  cbn [list_ascii_of_string app]. now rewrite IH.
Qed.

Lemma chars_length s : length (list_ascii_of_string s) = String.length s.
Proof. induction s as [|c s IH]; cbn; [reflexivity | now rewrite IH]. Qed.

Lemma string_length_app a b :
  String.length (a ++ b) = (String.length a + String.length b)%nat.
Proof. now rewrite <- !chars_length, chars_app, length_app. Qed.

Lemma append_nil_r (a : string) : (a ++ EmptyString)%string = a.
Proof.
  induction a as [|c a IH]; [reflexivity|].
  change (String c a ++ EmptyString)%string with (String c (a ++ EmptyString)).
  now rewrite IH.
Qed.

Lemma substring_head d t : substring 0 (String.length d) (d ++ t) = d.
Proof.
  induction d as [|c d IH]; [now destruct t|].
  change (String c d ++ t)%string with (String c (d ++ t)).
  cbn [String.length substring]. now rewrite IH.
Qed.

Lemma substring_mid p d t :
  substring (String.length p) (String.length d) (p ++ d ++ t) = d.
Proof.
  induction p as [|c p IH]; [exact (substring_head d t)|].
  change (String c p ++ d ++ t)%string with (String c (p ++ d ++ t)).
  cbn [String.length substring]. exact IH.
Qed.

Lemma all_chars_Forall (p : ascii -> bool) s :
  FuzzSandbox.all_chars p s = true ->
  Forall (fun c => p c = true) (list_ascii_of_string s).
Proof.
  induction s as [|c s IH]; cbn [FuzzSandbox.all_chars list_ascii_of_string];
    [constructor|].
  intros H. apply andb_prop in H as [H1 H2]. constructor; auto.
Qed.


(** ** Frames the pattern recovers *)

(** An absolute path of at least one character after the slash, without a
    colon. *)
Definition posix_path (s : string) : bool :=
  match s with
  | String c (String c1 s') =>
      Ascii.eqb c "/" && FuzzSandbox.all_chars not_colon (String c1 s')
  | _ => false
  end.

Definition frame_ok (f : frame) : Prop :=
  posix_path (filename f) = true /\ 0 <= lineno f.

(** What follows the first frame in the joined text. *)
Fixpoint tail_text (fs : list frame) : string :=
  match fs with
  | [] => EmptyString
  | f :: fs' => " -> " ++ frame_text f ++ tail_text fs'
  end.

Lemma join_frames fs : forall f,
  join " -> " (map frame_text (f :: fs)) = frame_text f ++ tail_text fs.
Proof.
  induction fs as [|f' fs IH]; intros f.
  - cbn [map join tail_text]. now rewrite append_nil_r.
  - change (join " -> " (map frame_text (f :: f' :: fs)))
      with (frame_text f ++ " -> " ++ join " -> " (map frame_text (f' :: fs))).
    now rewrite IH.
Qed.

Lemma tail_stop fs :
  match list_ascii_of_string (tail_text fs) with
  | [] => True
  | c :: _ => is_digit c = false
  end.
Proof. destruct fs; [exact I | reflexivity]. Qed.

Lemma frame_chars f :
  frame_ok f ->
  exists g0 g d0 ds,
    list_ascii_of_string (filename f) = "/"%char :: g0 :: g /\
    list_ascii_of_string (pretty (lineno f)) = d0 :: ds /\
    Forall (fun c => not_colon c = true) (g0 :: g) /\
    Forall (fun c => is_digit c = true) (d0 :: ds).
Proof.
  intros [Hpath Hline]. unfold posix_path in Hpath.
  destruct (filename f) as [|c [|g0 g]]; try discriminate.
  apply andb_prop in Hpath as [Hc Hg]. apply Ascii.eqb_eq in Hc as ->.
  destruct (pretty_lineno (lineno f) Hline) as (Hd & Hne & _).
  destruct (pretty (lineno f)) as [|d0 ds] eqn:E; [congruence|].
  exists g0, (list_ascii_of_string g), d0, (list_ascii_of_string ds).
  repeat split.
  - exact (all_chars_Forall not_colon (String g0 g) Hg).
  - exact (all_chars_Forall is_digit (String d0 ds) Hd).
Qed.

Lemma scan_one_frame text before gap f tail prev fuel :
  text = before ++ gap ++ frame_text f ++ tail ->
  FuzzSandbox.all_chars inert gap = true ->
  frame_ok f ->
  match list_ascii_of_string tail with [] => True | c :: _ => is_digit c = false end ->
  (String.length (gap ++ frame_text f ++ tail) < fuel)%nat ->
  exists m prev' fuel',
    Re.scan fuel stack_re prev
      (list_ascii_of_string (gap ++ frame_text f ++ tail)) (String.length before)
    = m :: Re.scan fuel' stack_re prev' (list_ascii_of_string tail)
             (String.length (before ++ gap ++ frame_text f)) /\
    Re.group text m 2 = pretty (lineno f) /\
    (String.length tail < fuel')%nat.
Proof.
  intros Htext Hgap Hf Hstop Hfuel.
  destruct (frame_chars f Hf) as (g0 & g & d0 & ds & Hname & Hnum & Hg & Hd).
  assert (Hlen_name : String.length (filename f) = (2 + length g)%nat)
    by (rewrite <- chars_length, Hname; reflexivity).
  assert (Hlen_num : String.length (pretty (lineno f)) = S (length ds))
    by (rewrite <- chars_length, Hnum; reflexivity).
  assert (Hlen_frame : String.length (frame_text f) = (4 + length g + length ds)%nat).
  { unfold frame_text. rewrite !string_length_app, Hlen_name, Hlen_num.
    cbn [String.length]. lia. }
  assert (Hchars : list_ascii_of_string (gap ++ frame_text f ++ tail)
                   = (list_ascii_of_string gap
                        ++ "/"%char :: g0 :: g ++ ":"%char :: d0 :: ds
                        ++ list_ascii_of_string tail)%list).
  { unfold frame_text. rewrite !chars_app, Hname, Hnum.
    cbn [list_ascii_of_string app]. now rewrite <- !app_assoc. }
  rewrite !string_length_app, Hlen_frame in Hfuel.
  rewrite Hchars, scan_gap;
    [ | now apply all_chars_Forall | exact eq_refl | rewrite chars_length; lia].
  rewrite chars_length.
  destruct (fuel - String.length gap)%nat as [|fuel'] eqn:Efuel; [lia|].
  destruct (scan_frame fuel' (last_char prev (list_ascii_of_string gap))
              (String.length before + String.length gap) g0 g d0 ds
              (list_ascii_of_string tail) Hg Hd Hstop) as (m & Hscan & Hgrp).
  exists m, (last_char (Some d0) ds), fuel'. split; [|split].
  - rewrite Hscan. f_equal. f_equal. rewrite !string_length_app, Hlen_frame. lia.
  - unfold Re.group. rewrite Hgrp. unfold slice.
    replace (String.length before + String.length gap + (3 + length g))%nat
      with (String.length (before ++ gap ++ filename f ++ ":"))
      by (rewrite !string_length_app, Hlen_name; cbn [String.length]; lia).
    replace (String.length before + String.length gap + (4 + length g + length ds)
             - String.length (before ++ gap ++ filename f ++ ":"))%nat
      with (String.length (pretty (lineno f)))
      by (rewrite !string_length_app, Hlen_name, Hlen_num; cbn [String.length]; lia).
    rewrite Htext. unfold frame_text.
    replace (before ++ gap ++ (filename f ++ ":" ++ pretty (lineno f)) ++ tail)%string
      with ((before ++ gap ++ filename f ++ ":") ++ pretty (lineno f) ++ tail)%string
      by (now rewrite !FuzzSandbox.append_assoc).
    apply substring_mid.
  - lia.
Qed.

Lemma scan_frames text : forall fs f before gap prev fuel,
  text = before ++ gap ++ frame_text f ++ tail_text fs ->
  FuzzSandbox.all_chars inert gap = true ->
  frame_ok f -> Forall frame_ok fs ->
  (String.length (gap ++ frame_text f ++ tail_text fs) < fuel)%nat ->
  map (fun m => Re.group text m 2)
      (Re.scan fuel stack_re prev
         (list_ascii_of_string (gap ++ frame_text f ++ tail_text fs))
         (String.length before))
  = map (fun f => pretty (lineno f)) (f :: fs).
Proof.
  induction fs as [|f' fs IH]; intros f before gap prev fuel Htext Hgap Hf Hfs Hfuel;
    match goal with
    | |- context [tail_text ?l] =>
        destruct (scan_one_frame text before gap f (tail_text l) prev fuel Htext Hgap Hf
                    (tail_stop l) Hfuel) as (m & prev' & fuel' & Hscan & Hgrp & Hfuel')
    end;
    rewrite Hscan; cbn [map]; rewrite Hgrp; f_equal.
  - cbn [tail_text list_ascii_of_string]. now rewrite scan_nil.
  - apply Forall_cons in Hfs as [Hf' Hfs].
    change (tail_text (f' :: fs)) with (" -> " ++ frame_text f' ++ tail_text fs) in *.
    apply IH; auto.
    rewrite Htext. now rewrite !FuzzSandbox.append_assoc.
Qed.

(** [finditer] on a text that ends with a joined stack. *)
Lemma finditer_stack prefix fs :
  FuzzSandbox.all_chars inert prefix = true ->
  Forall frame_ok fs ->
  map (fun m => Re.group (prefix ++ join " -> " (map frame_text fs)) m 2)
      (Re.finditer stack_re (prefix ++ join " -> " (map frame_text fs)))
  = map (fun f => pretty (lineno f)) fs.
Proof.
  intros Hprefix Hfs. unfold Re.finditer. destruct fs as [|f fs].
  - cbn [map join]. rewrite append_nil_r.
    rewrite <- (app_nil_r (list_ascii_of_string prefix)).
    rewrite scan_gap; [ | now apply all_chars_Forall | exact I
                        | rewrite app_nil_r; lia].
    now rewrite scan_nil.
  - apply Forall_cons in Hfs as [Hf Hfs]. rewrite join_frames.
    apply (scan_frames _ fs f EmptyString prefix None); auto.
    rewrite chars_length. lia.
Qed.

Lemma map_py_int_pretty (fs : list frame) :
  Forall frame_ok fs ->
  flat_map (fun t => match py_int t with Some v => [v] | None => [] end)
           (map (fun f => pretty (lineno f)) fs)
  = map lineno fs.
Proof.
  induction 1 as [|f fs [_ Hf] _ IH]; [reflexivity|].
  cbn [map flat_map]. destruct (pretty_lineno (lineno f) Hf) as (_ & _ & ->).
  now rewrite IH.
Qed.

Lemma stack_line_numbers_joined prefix fs :
  FuzzSandbox.all_chars inert prefix = true ->
  Forall frame_ok fs ->
  stack_line_numbers (prefix ++ join " -> " (map frame_text fs)) = map lineno fs.
Proof.
  intros Hprefix Hfs. unfold stack_line_numbers, Re.group_ints.
  rewrite MemoryAnalyzer.fold_append_option. cbn [app].
  rewrite <- (map_py_int_pretty fs Hfs), <- (finditer_stack prefix fs Hprefix Hfs).
  now rewrite flat_map_map.
Qed.


(** ** The stripped entry *)

(** The text ends with a character that is not white space. *)
Fixpoint last_solid (s : string) : bool :=
  match s with
  | EmptyString => false
  | String c EmptyString => negb (is_space c)
  | String _ s' => last_solid s'
  end.

Lemma last_solid_app a b : last_solid b = true -> last_solid (a ++ b) = true.
Proof.
  intros Hb. induction a as [|c a IH]; [exact Hb|].
  change (String c a ++ b)%string with (String c (a ++ b)).
  cbn [last_solid]. destruct (a ++ b)%string; [discriminate IH | exact IH].
Qed.

Lemma rstrip_solid s : last_solid s = true -> rstrip s = s.
Proof.
  induction s as [|c s IH]; [discriminate|].
  cbn [last_solid rstrip]. destruct s as [|c' s'].
  - cbn [rstrip]. intros H. now destruct (is_space c).
  - intros H. rewrite (IH H). reflexivity.
Qed.

Lemma rstrip_newline s :
  last_solid s = true -> rstrip (s ++ String newline EmptyString) = s.
Proof.
  induction s as [|c s IH]; [discriminate|].
  change (String c s ++ String newline EmptyString)%string
    with (String c (s ++ String newline EmptyString)).
  cbn [last_solid rstrip]. destruct s as [|c' s'].
  - cbn. intros H. now destruct (is_space c).
  - intros H. rewrite (IH H). reflexivity.
Qed.

Lemma last_solid_all (p : ascii -> bool) s :
  (forall c, p c = true -> is_space c = false) ->
  FuzzSandbox.all_chars p s = true -> s <> EmptyString -> last_solid s = true.
Proof.
  intros Hp. induction s as [|c s IH]; [congruence|].
  cbn [FuzzSandbox.all_chars last_solid]. intros H _.
  apply andb_prop in H as [Hc Hs]. destruct s as [|c' s'].
  - now rewrite (Hp c Hc).
  - apply IH; [exact Hs | discriminate].
Qed.

Lemma pretty_Z_solid (z : Z) : last_solid (pretty z) = true.
Proof.
  apply (last_solid_all FuzzSandbox.numeric_char).
  - intros c Hc. unfold FuzzSandbox.numeric_char in Hc. unfold is_space.
    destruct (nat_of_ascii c) as [|n]; [discriminate|].
    do 45 (destruct n as [|n]; [try discriminate; reflexivity|]).
    do 12 (destruct n as [|n]; [reflexivity|]). discriminate.
  - apply FuzzSandbox.pretty_Z_numeric.
  - destruct z as [|q|q]; [discriminate | | discriminate].
    destruct (pretty_lineno (Z.pos q)) as (_ & H & _); [lia | exact H].
Qed.

Lemma join_frames_solid fs :
  fs <> [] -> last_solid (join " -> " (map frame_text fs)) = true.
Proof.
  destruct fs as [|f fs]; [congruence|]. intros _. rewrite join_frames.
  revert f. induction fs as [|f' fs IH]; intros f; cbn [tail_text].
  - rewrite append_nil_r. unfold frame_text.
    do 2 apply last_solid_app. apply pretty_Z_solid.
  - apply last_solid_app.
    change (" -> " ++ frame_text f' ++ tail_text fs)%string
      with (String " " (String "-" (String ">" (String " " (frame_text f' ++ tail_text fs))))).
    specialize (IH f').
    destruct (frame_text f' ++ tail_text fs)%string eqn:E; [discriminate | exact IH].
Qed.

Lemma message_stack c stack : message c stack = message c EmptyString ++ stack.
Proof.
  destruct c; cbn [message];
    rewrite ?FuzzSandbox.append_assoc, ?append_nil_r;
    repeat (f_equal; rewrite ?FuzzSandbox.append_assoc, ?append_nil_r);
    reflexivity.
Qed.

Lemma message_solid c stack :
  stack = EmptyString \/ last_solid stack = true ->
  last_solid (message c stack) = true.
Proof.
  intros [-> | Hs].
  - destruct c; cbn [message];
      repeat (first [reflexivity | apply last_solid_app]).
  - rewrite message_stack. now apply last_solid_app.
Qed.

(** [entry.strip()] only drops the final newline of a hooked entry. *)
Lemma strip_hooked_entry ts c stack :
  strip (hooked_entry ts c stack)
  = "[" ++ ts ++ "] " ++ message c (_get_call_stack stack).
Proof.
  unfold hooked_entry, _log, strip.
  change (lstrip ("[" ++ ts ++ "] " ++ message c (_get_call_stack stack)
                    ++ String newline EmptyString))
    with ("[" ++ ts ++ "] " ++ message c (_get_call_stack stack)
            ++ String newline EmptyString)%string.
  replace ("[" ++ ts ++ "] " ++ message c (_get_call_stack stack)
             ++ String newline EmptyString)%string
    with (("[" ++ ts ++ "] " ++ message c (_get_call_stack stack))
            ++ String newline EmptyString)%string
    by (now rewrite !FuzzSandbox.append_assoc).
  apply rstrip_newline. do 3 apply last_solid_app. apply message_solid.
  unfold _get_call_stack. destruct (frames_of stack) as [|f fs] eqn:E; [now left|].
  right. now apply join_frames_solid.
Qed.


(** ** What the pipeline makes of a hooked call *)

Definition is_command_call (c : hooked_call) : bool :=
  match c with
  | OsSystem _ | SubprocessCall _ _ | SubprocessRun _ _ | SubprocessPopen _ _ => true
  | _ => false
  end.

Definition is_socket_call (c : hooked_call) : bool :=
  match c with
  | SocketConnect _ | SocketConnectEx _ | SocketCreateConnection _ => true
  | _ => false
  end.

Definition is_code_call (c : hooked_call) : bool :=
  match c with
  | Eval _ | Exec _ | Compile _ _ _ => true
  | _ => false
  end.

Definition is_memory_call (c : hooked_call) : bool :=
  match c with
  | CtypesCDLL _ | CtypesWinDLL _ | Mmap _ _ => true
  | _ => false
  end.

Lemma prefix_app needle : forall b c,
  String.prefix needle b = true -> String.prefix needle (b ++ c) = true.
Proof.
  induction needle as [|x needle IH]; intros b c; [now destruct (b ++ c)%string|].
  destruct b as [|y b]; [discriminate|].
  change (String y b ++ c)%string with (String y (b ++ c)).
  cbn [String.prefix]. destruct (ascii_dec x y); [apply IH | discriminate].
Qed.

Lemma contains_inside needle a b c :
  contains needle b = true -> contains needle (a ++ b ++ c) = true.
Proof.
  intros Hb.
  assert (Hbc : contains needle (b ++ c) = true).
  { revert Hb. induction b as [|y b IH].
    - cbn [contains]. rewrite orb_false_r. intros H.
      destruct needle; [|discriminate]. now destruct c.
    - change (String y b ++ c)%string with (String y (b ++ c)).
      cbn [contains]. intros H. apply orb_prop in H as [H | H].
      + pose proof (prefix_app _ (String y b) c H) as Hp.
        change (String y b ++ c)%string with (String y (b ++ c)) in Hp.
        now rewrite Hp.
      + rewrite (IH H). apply orb_true_r. }
  induction a as [|x a IH]; [exact Hbc|].
  change (String x a ++ b ++ c)%string with (String x (a ++ b ++ c)).
  cbn [contains]. rewrite IH. apply orb_true_r.
Qed.

(** A text of the message is in the entry and in the stripped entry. *)
Lemma contains_entry needle ts c stack :
  contains needle (message c (_get_call_stack stack)) = true ->
  contains needle (hooked_entry ts c stack) = true /\
  contains needle (strip (hooked_entry ts c stack)) = true.
Proof.
  intros H. split.
  - unfold hooked_entry, _log.
    replace ("[" ++ ts ++ "] " ++ message c (_get_call_stack stack)
               ++ String newline EmptyString)%string
      with (("[" ++ ts ++ "] ") ++ message c (_get_call_stack stack)
              ++ String newline EmptyString)%string
      by (now rewrite !FuzzSandbox.append_assoc).
    now apply contains_inside.
  - rewrite strip_hooked_entry.
    replace ("[" ++ ts ++ "] " ++ message c (_get_call_stack stack))%string
      with (("[" ++ ts ++ "] ") ++ message c (_get_call_stack stack) ++ EmptyString)%string
      by (now rewrite append_nil_r, !FuzzSandbox.append_assoc).
    now apply contains_inside.
Qed.

(** The tags of the messages. *)
Lemma command_message_tags c stack :
  is_command_call c = true ->
  contains "[ALERT] SYSCALL:" (message c stack) = true /\
  contains "os.system" (message c stack) || contains "subprocess" (message c stack) = true.
Proof.
  intros Hc. destruct c; try discriminate; cbn [message]; split.
  - exact (contains_app "[ALERT] SYSCALL:" EmptyString _).
  - apply orb_true_iff. left. exact (contains_app "os.system" "[ALERT] SYSCALL: " _).
  - exact (contains_app "[ALERT] SYSCALL:" EmptyString _).
  - apply orb_true_iff. right. exact (contains_app "subprocess" "[ALERT] SYSCALL: " _).
  - exact (contains_app "[ALERT] SYSCALL:" EmptyString _).
  - apply orb_true_iff. right. exact (contains_app "subprocess" "[ALERT] SYSCALL: " _).
  - exact (contains_app "[ALERT] SYSCALL:" EmptyString _).
  - apply orb_true_iff. right. exact (contains_app "subprocess" "[ALERT] SYSCALL: " _).
Qed.

Lemma socket_message_tag c stack :
  is_socket_call c = true -> contains "[ALERT] NETWORK:" (message c stack) = true.
Proof.
  intros Hc. destruct c; try discriminate; cbn [message];
    exact (contains_app "[ALERT] NETWORK:" EmptyString _).
Qed.

Lemma code_message_tag c stack :
  is_code_call c = true -> contains "[ALERT] CODE_EXEC:" (message c stack) = true.
Proof.
  intros Hc. destruct c; try discriminate; cbn [message];
    exact (contains_app "[ALERT] CODE_EXEC:" EmptyString _).
Qed.

Lemma memory_message_tag c stack :
  is_memory_call c = true -> contains "[ALERT] MEMORY:" (message c stack) = true.
Proof.
  intros Hc. destruct c; try discriminate; cbn [message];
    exact (contains_app "[ALERT] MEMORY:" EmptyString _).
Qed.

(** The loops. *)
Lemma in_syscalls_of_log log e :
  In e log ->
  contains "[ALERT] SYSCALL:" e || contains "[ALERT] NETWORK:" e = true ->
  In (strip e) (DynamicPipeline.syscalls_of_log log).
Proof.
  intros Hin He. unfold DynamicPipeline.syscalls_of_log.
  enough (H : forall acc,
    In (strip e) acc \/ In e log ->
    In (strip e)
       (fold_left
          (fun syscalls entry =>
             if contains "[ALERT] SYSCALL:" entry || contains "[ALERT] NETWORK:" entry
             then (syscalls ++ [strip entry])%list
             else syscalls) log acc)) by (apply H; now right).
  clear Hin. induction log as [|x log IH]; intros acc [Hacc | Hin]; cbn [fold_left].
  - exact Hacc.
  - destruct Hin.
  - apply IH. left.
    destruct (contains "[ALERT] SYSCALL:" x || contains "[ALERT] NETWORK:" x);
      [apply in_or_app; now left | exact Hacc].
  - destruct Hin as [-> | Hin]; apply IH; [left | now right].
    rewrite He. apply in_or_app. right. now left.
Qed.

Lemma scan_into_keeps {A} (pick : A -> option (evidence * list Z)) xs : forall acc e,
  In e (fst acc) -> In e (fst (scan_into pick xs acc)).
Proof.
  unfold scan_into. induction xs as [|x xs IH]; intros acc e He; [exact He|].
  cbn [fold_left]. apply IH. destruct (pick x) as [[e' ls]|]; [|exact He].
  cbn [fst]. apply in_or_app. now left.
Qed.

Lemma scan_into_in {A} (pick : A -> option (evidence * list Z)) xs : forall acc x e ls,
  In x xs -> pick x = Some (e, ls) -> In e (fst (scan_into pick xs acc)).
Proof.
  induction xs as [|y xs IH]; intros acc x e ls Hin Hpick; [destruct Hin|].
  destruct Hin as [-> | Hin].
  - unfold scan_into. cbn [fold_left]. rewrite Hpick.
    apply (scan_into_keeps pick xs). cbn [fst]. apply in_or_app. right. now left.
  - unfold scan_into. cbn [fold_left]. exact (IH _ x e ls Hin Hpick).
Qed.

(** Evidence in a category gives the threat of the category. *)
Lemma threat_of_evidence agg c e :
  In e (fst (category_scan c agg)) ->
  exists t,
    In t (identify_threats agg) /\ category_threats agg c = [t] /\
    threat_type t = category_name c /\
    In e (evidence_of t) /\
    forall l, 0 < l -> In l (evidence_lines e) -> In l (line_numbers t).
Proof.
  intros He.
  destruct (category_threats_present agg c) as (t & Ht & Hty & Hev).
  { intros Hnil. rewrite Hnil in He. destruct He. }
  assert (Hin : In t (category_threats agg c)) by (rewrite Ht; now left).
  exists t. split; [apply in_identify_threats; eauto|].
  split; [exact Ht|]. split; [exact Hty|]. split; [now rewrite Hev|].
  intros l Hl Hle.
  destruct (in_category_threats agg c t Hin) as (_ & _ & _ & Hlines).
  rewrite Hlines. apply positive_sorted_spec. split; [exact Hl|].
  apply in_flat_map. exists e. split; [now rewrite Hev | exact Hle].
Qed.


Lemma frames_of_length (stack : list frame) : (length (frames_of stack) <= 3)%nat.
Proof.
  unfold frames_of. destruct (4 <? length stack)%nat eqn:E.
  - rewrite length_firstn. lia.
  - apply Nat.ltb_ge in E. rewrite removelast_firstn_len, length_firstn. lia.
Qed.

(** A stack of five frames, the last one the one of [_get_call_stack]. *)
Definition stack_example : list frame :=
  [Frame "/srv/app/main.py" 10; Frame "/srv/app/run.py" 42; Frame "/srv/app/job.py" 7;
   Frame "/opt/engines/dynamic/syscall_monitor.py" 143;
   Frame "/opt/engines/dynamic/syscall_monitor.py" 134].

(** X18.  The pattern of the threat identifier reads back the stack text
    the hooks write: on a text that ends with [_get_call_stack] of a stack,
    where the text before it has no slash and no backslash and the frames
    written have absolute paths without a colon (a slash and at least one
    more character) and line numbers that are not negative,
    [stack_line_numbers] is the list of the line numbers of the frames
    written, in their order; at most three frames are written. *)
Theorem call_stack_line_numbers_round_trip (prefix : string) (stack : list frame) :
  FuzzSandbox.all_chars inert prefix = true ->
  Forall frame_ok (frames_of stack) ->
  stack_line_numbers (prefix ++ _get_call_stack stack) = map lineno (frames_of stack) /\
  (length (frames_of stack) <= 3)%nat.
Proof.
  intros Hprefix Hfs. split; [|apply frames_of_length].
  now apply stack_line_numbers_joined.
Qed.

Lemma call_stack_line_numbers_round_trip_witness :
  stack_line_numbers
    ("[2024-05-01 10:00:00.123] [ALERT] SYSCALL: os.system called with command='ls' | stack="
       ++ _get_call_stack stack_example)
  = [42; 7; 143].
Proof.
  refine (proj1 (call_stack_line_numbers_round_trip
            "[2024-05-01 10:00:00.123] [ALERT] SYSCALL: os.system called with command='ls' | stack="
            stack_example eq_refl _)).
  change (frames_of stack_example)
    with [Frame "/srv/app/run.py" 42; Frame "/srv/app/job.py" 7;
          Frame "/opt/engines/dynamic/syscall_monitor.py" 143].
  repeat (apply Forall_cons; split; [split; [reflexivity | cbn; lia] | ]).
  apply Forall_nil. exact I.
Defined.

Section Bundle.
Context {float : Type}.
Variables (pattern_matches : list pattern_match) (taint_flows : list taint_flow).
Variables (log_entries : list string) (fuzz_results : list (Fuzzer.fuzz_result float)).

Definition bundle : aggregated :=
  DynamicPipeline.python_bundle pattern_matches taint_flows log_entries fuzz_results.

Lemma hooked_syscall_in_bundle ts c stack :
  In (hooked_entry ts c stack) log_entries ->
  contains "[ALERT] SYSCALL:" (message c (_get_call_stack stack))
  || contains "[ALERT] NETWORK:" (message c (_get_call_stack stack)) = true ->
  In (SysStr ("[" ++ ts ++ "] " ++ message c (_get_call_stack stack))) (syscalls bundle).
Proof.
  intros Hin Htag. unfold bundle, DynamicPipeline.python_bundle. cbn [syscalls].
  rewrite <- strip_hooked_entry. apply in_map.
  apply in_syscalls_of_log; [exact Hin|].
  apply orb_true_iff. apply orb_true_iff in Htag as [H | H]; [left | right];
    exact (proj1 (contains_entry _ ts c stack H)).
Qed.

(** X19.  A call of [os.system], [subprocess.call], [subprocess.run] or
    [subprocess.Popen] that the hooks logged is reported: when its entry is
    in the log of the run, [identify_threats] on the bundle of the run gives
    a threat RCE of severity critical whose evidence holds the stripped
    entry; and when neither the time stamp nor the message before the stack
    has a slash or a backslash and the frames written are absolute paths
    without a colon, every positive line number of these frames is among
    the line numbers of the threat. *)
Theorem hooked_command_call_is_reported (ts : string) (c : hooked_call)
    (stack : list frame) :
  is_command_call c = true ->
  In (hooked_entry ts c stack) log_entries ->
  exists t,
    In t (identify_threats bundle) /\
    threat_type t = "RCE" /\ severity t = "critical" /\
    In (EvLogEntry (strip (hooked_entry ts c stack))) (evidence_of t) /\
    (FuzzSandbox.all_chars inert ts = true ->
     FuzzSandbox.all_chars inert (message c EmptyString) = true ->
     Forall frame_ok (frames_of stack) ->
     forall f, In f (frames_of stack) -> 0 < lineno f -> In (lineno f) (line_numbers t)).
Proof.
  intros Hc Hin. rewrite strip_hooked_entry.
  set (line := ("[" ++ ts ++ "] " ++ message c (_get_call_stack stack))%string).
  destruct (command_message_tags c (_get_call_stack stack) Hc) as [Htag Hkey].
  assert (Hsys : In (SysStr line) (syscalls bundle)).
  { apply hooked_syscall_in_bundle; [exact Hin|]. now rewrite Htag. }
  assert (Hline : contains "os.system" line || contains "subprocess" line = true).
  { pose proof (strip_hooked_entry ts c stack) as Hs. fold line in Hs.
    rewrite <- Hs. apply orb_true_iff. apply orb_true_iff in Hkey as [H | H];
      [left | right]; exact (proj2 (contains_entry _ ts c stack H)). }
  assert (Hev : In (EvLogEntry line) (fst (category_scan RCE bundle))).
  { cbn [category_scan]. unfold rce_scan.
    eapply scan_into_in; [exact Hsys|]. cbn beta iota. now rewrite Hline. }
  destruct (threat_of_evidence bundle RCE _ Hev) as (t & Ht & Hcat & Hty & Hevt & Hlines).
  exists t. split; [exact Ht|]. split; [exact Hty|]. split.
  { unfold category_threats, append_if_evidence in Hcat.
    destruct (nonempty (fst (category_scan RCE bundle))); [|discriminate].
    injection Hcat as <-. reflexivity. }
  split; [exact Hevt|].
  intros Hts Hmsg Hfs f Hf Hpos. apply Hlines; [exact Hpos|].
  cbn [evidence_lines]. unfold line. rewrite message_stack.
  replace ("[" ++ ts ++ "] " ++ message c EmptyString ++ _get_call_stack stack)%string
    with (("[" ++ ts ++ "] " ++ message c EmptyString) ++ _get_call_stack stack)%string
    by (now rewrite !FuzzSandbox.append_assoc).
  unfold _get_call_stack. rewrite stack_line_numbers_joined; [now apply in_map | | exact Hfs].
  change ("[" ++ ts ++ "] " ++ message c EmptyString)%string
    with (String "[" (ts ++ "] " ++ message c EmptyString)).
  cbn [FuzzSandbox.all_chars]. rewrite !FuzzSandbox.all_chars_app, Hts, Hmsg. reflexivity.
Qed.

(** X20.  A call of [socket.connect], [socket.connect_ex] or
    [socket.create_connection] that the hooks logged is reported: when its
    entry is in the log of the run, [identify_threats] gives a threat
    Network Exfiltration of severity medium. *)
Theorem hooked_socket_call_is_reported (ts : string) (c : hooked_call)
    (stack : list frame) :
  is_socket_call c = true ->
  In (hooked_entry ts c stack) log_entries ->
  exists t,
    In t (identify_threats bundle) /\
    threat_type t = "Network Exfiltration" /\ severity t = "medium".
Proof.
  intros Hc Hin.
  set (line := ("[" ++ ts ++ "] " ++ message c (_get_call_stack stack))%string).
  pose proof (socket_message_tag c (_get_call_stack stack) Hc) as Htag.
  assert (Hsys : In (SysStr line) (syscalls bundle)).
  { apply hooked_syscall_in_bundle; [exact Hin|]. rewrite Htag. apply orb_true_r. }
  assert (Hline : contains "[ALERT] NETWORK:" line = true).
  { pose proof (strip_hooked_entry ts c stack) as Hs. fold line in Hs.
    rewrite <- Hs. exact (proj2 (contains_entry _ ts c stack Htag)). }
  assert (Hev : exists e, In e (fst (category_scan NetworkExfiltration bundle))).
  { cbn [category_scan]. unfold network_scan.
    destruct (network_activities bundle) as [|a acts] eqn:E; cbn [nonempty].
    - exists (EvNetLine line). eapply scan_into_in; [exact Hsys|].
      cbn beta iota. now rewrite Hline.
    - exists (EvNetwork a). eapply scan_into_in; [now left | reflexivity]. }
  destruct Hev as [e Hev].
  destruct (threat_of_evidence bundle NetworkExfiltration _ Hev)
    as (t & Ht & Hcat & Hty & _).
  exists t. split; [exact Ht|]. split; [exact Hty|].
  unfold category_threats, append_if_evidence in Hcat.
  destruct (nonempty (fst (category_scan NetworkExfiltration bundle))); [|discriminate].
  injection Hcat as <-. reflexivity.
Qed.

(** X21.  A call of [eval], [exec] or [compile] on a source text, of
    [ctypes.CDLL], [ctypes.WinDLL] or [mmap.mmap] that the hooks logged is
    reported: when its entry is in the log of the run, [identify_threats]
    gives a threat Memory Injection whose evidence holds a finding with the
    stripped entry as detail; after a call of [ctypes] or [mmap] the
    finding has type memory_api and the severity of the threat is high. *)
Theorem hooked_code_call_is_reported (ts : string) (c : hooked_call)
    (stack : list frame) :
  is_code_call c || is_memory_call c = true ->
  In (hooked_entry ts c stack) log_entries ->
  exists t ty,
    In t (identify_threats bundle) /\
    threat_type t = "Memory Injection" /\
    In (EvMemory (MemoryFinding (Some ty) (strip (hooked_entry ts c stack)) (Some [])))
       (evidence_of t) /\
    (is_memory_call c = true -> ty = "memory_api" /\ severity t = "high").
Proof.
  intros Hc Hin.
  set (entry := hooked_entry ts c stack) in *.
  set (ty := if contains "[ALERT] MEMORY:" entry then "memory_api" else "code_exec").
  assert (Halert : MemoryAnalyzer.is_alert entry = true).
  { unfold MemoryAnalyzer.is_alert. apply orb_true_iff.
    apply orb_true_iff in Hc as [Hc | Hc]; [left | right].
    - exact (proj1 (contains_entry _ ts c stack (code_message_tag c _ Hc))).
    - exact (proj1 (contains_entry _ ts c stack (memory_message_tag c _ Hc))). }
  assert (Hfinding : In (MemoryFinding (Some ty) (strip entry) (Some []))
                        (memory_findings bundle)).
  { unfold bundle, DynamicPipeline.python_bundle. cbn [memory_findings].
    rewrite MemoryAnalyzer.analyze_memory_spec, map_map.
    apply in_map_iff. exists entry. split; [reflexivity|].
    apply filter_In. split; [exact Hin | exact Halert]. }
  assert (Hev : In (EvMemory (MemoryFinding (Some ty) (strip entry) (Some [])))
                   (fst (category_scan MemoryInjection bundle))).
  { cbn [category_scan]. unfold memory_scan. cbn [fst]. now apply in_map. }
  destruct (threat_of_evidence bundle MemoryInjection _ Hev)
    as (t & Ht & Hcat & Hty & Hevt & _).
  exists t, ty. split; [exact Ht|]. split; [exact Hty|]. split; [exact Hevt|].
  intros Hmem.
  assert (Hty_api : ty = "memory_api").
  { unfold ty, entry.
    now rewrite (proj1 (contains_entry _ ts c stack (memory_message_tag c _ Hmem))). }
  split; [exact Hty_api|].
  assert (Hapi : memory_api bundle = true).
  { unfold memory_api. apply existsb_exists.
    exists (MemoryFinding (Some ty) (strip entry) (Some [])).
    split; [exact Hfinding|]. cbn [mf_type]. now rewrite Hty_api. }
  unfold category_threats, append_if_evidence in Hcat.
  destruct (nonempty (fst (category_scan MemoryInjection bundle))); [|discriminate].
  injection Hcat as <-. cbn [severity]. now rewrite Hapi.
Qed.

End Bundle.


Definition entry_example (c : hooked_call) : string :=
  hooked_entry "2024-05-01 10:00:00.123" c stack_example.

Definition bundle_of_entry (c : hooked_call) : aggregated :=
  bundle [] [] [entry_example c] ([] : list (Fuzzer.fuzz_result unit)).

Lemma hooked_command_call_is_reported_witness :
  exists t,
    In t (identify_threats (bundle_of_entry (OsSystem "ls"))) /\
    threat_type t = "RCE" /\ severity t = "critical" /\
    In 42 (line_numbers t).
Proof.
  destruct (hooked_command_call_is_reported (float := unit) [] [] [entry_example (OsSystem "ls")] []
              "2024-05-01 10:00:00.123" (OsSystem "ls") stack_example
              eq_refl (or_introl eq_refl))
    as (t & Ht & Hty & Hsev & _ & Hlines).
  exists t. split; [exact Ht|]. split; [exact Hty|]. split; [exact Hsev|].
  apply (Hlines eq_refl eq_refl) with (f := Frame "/srv/app/run.py" 42).
  - change (frames_of stack_example)
      with [Frame "/srv/app/run.py" 42; Frame "/srv/app/job.py" 7;
            Frame "/opt/engines/dynamic/syscall_monitor.py" 143].
    repeat (apply Forall_cons; split; [split; [reflexivity | cbn; lia] | ]).
    apply Forall_nil. exact I.
  - left. reflexivity.
  - cbn. lia.
Defined.

Lemma hooked_socket_call_is_reported_witness :
  exists t,
    In t (identify_threats (bundle_of_entry (SocketConnect "8.8.8.8:53"))) /\
    threat_type t = "Network Exfiltration" /\ severity t = "medium".
Proof.
  exact (hooked_socket_call_is_reported (float := unit) [] []
           [entry_example (SocketConnect "8.8.8.8:53")] []
           "2024-05-01 10:00:00.123" (SocketConnect "8.8.8.8:53") stack_example
           eq_refl (or_introl eq_refl)).
Defined.

Lemma hooked_code_call_is_reported_witness :
  exists t ty,
    In t (identify_threats (bundle_of_entry (CtypesCDLL "libc.so.6"))) /\
    threat_type t = "Memory Injection" /\
    In (EvMemory (MemoryFinding (Some ty) (strip (entry_example (CtypesCDLL "libc.so.6")))
                    (Some [])))
       (evidence_of t) /\
    ty = "memory_api" /\ severity t = "high".
Proof.
  destruct (hooked_code_call_is_reported (float := unit) [] []
              [entry_example (CtypesCDLL "libc.so.6")] []
              "2024-05-01 10:00:00.123" (CtypesCDLL "libc.so.6") stack_example
              eq_refl (or_introl eq_refl))
    as (t & ty & Ht & Hty & Hev & Hmem).
  exists t, ty. split; [exact Ht|]. split; [exact Hty|]. split; [exact Hev|].
  exact (Hmem eq_refl).
Defined.

(** Concrete runs: the entry of a call of [os.system], and a call of
    [os.popen], which reaches the list of system calls but no threat. *)
Example hooked_entry_run :
  entry_example (OsSystem "ls")
  = "[2024-05-01 10:00:00.123] [ALERT] SYSCALL: os.system called with command='ls' | stack=/srv/app/run.py:42 -> /srv/app/job.py:7 -> /opt/engines/dynamic/syscall_monitor.py:143"
      ++ String newline EmptyString.
Proof. vm_compute. reflexivity. Qed.

Example os_popen_run :
  length (syscalls (bundle_of_entry (OsPopen "ls" "r"))) = 1%nat /\
  identify_threats (bundle_of_entry (OsPopen "ls" "r")) = [] /\
  map (fun t => (threat_type t, severity t, line_numbers t))
      (identify_threats (bundle_of_entry (OsSystem "ls")))
  = [("RCE", "critical", [7; 42; 143])].
Proof. vm_compute. repeat split; reflexivity. Qed.

(** ** [_truncate_value] *)

Lemma take_str_length n : forall s,
  (n <= String.length s)%nat -> String.length (take_str n s) = n.
Proof.
  unfold take_str. induction n as [|n IH]; intros s Hn.
  - now destruct s.
  - destruct s as [|c s]; [cbn in Hn; lia|].
    cbn [substring String.length]. rewrite IH; [reflexivity | cbn in Hn; lia].
Qed.

Lemma take_str_app n a b : n = String.length a -> take_str n (a ++ b) = a.
Proof. intros ->. apply substring_head. Qed.

(** X22.  [_truncate_value] with a limit that is not negative: the result
    is never longer than the limit plus the fourteen characters of the
    mark; a text within the limit is returned as it is; the first [limit]
    characters are those of the text; and truncating the result again
    changes nothing. *)
Theorem truncate_value_bounded (text : string) (limit : Z) :
  0 <= limit ->
  Z.of_nat (String.length (_truncate_value text limit)) <= limit + 14 /\
  (Z.of_nat (String.length text) <= limit -> _truncate_value text limit = text) /\
  take_str (Z.to_nat limit) (_truncate_value text limit) = take_str (Z.to_nat limit) text /\
  _truncate_value (_truncate_value text limit) limit = _truncate_value text limit.
Proof.
  intros Hlimit. unfold _truncate_value at 1 2 3 5.
  destruct (Z.of_nat (String.length text) <=? limit) eqn:E.
  - apply Z.leb_le in E. split; [lia|]. split; [reflexivity|]. split; [reflexivity|].
    unfold _truncate_value. now rewrite (proj2 (Z.leb_le _ _) E).
  - pose proof E as Eb. apply Z.leb_gt in E.
    assert (Hpre : prefix_upto text limit = take_str (Z.to_nat limit) text).
    { unfold prefix_upto. destruct (limit <? 0) eqn:El; [apply Z.ltb_lt in El; lia|].
      reflexivity. }
    assert (Hlen : String.length (take_str (Z.to_nat limit) text) = Z.to_nat limit)
      by (apply take_str_length; lia).
    rewrite Hpre.
    assert (Hlen' : String.length (take_str (Z.to_nat limit) text ++ "...(truncated)")
                    = (Z.to_nat limit + 14)%nat)
      by (rewrite string_length_app, Hlen; reflexivity).
    split; [rewrite Hlen'; lia|]. split; [lia|].
    split; [now apply take_str_app|].
    unfold _truncate_value. rewrite Eb, Hpre, Hlen'.
    replace (Z.of_nat (Z.to_nat limit + 14) <=? limit) with false
      by (symmetry; apply Z.leb_gt; lia).
    unfold prefix_upto.
    replace (limit <? 0) with false by (symmetry; apply Z.ltb_ge; lia).
    now rewrite take_str_app.
Qed.

Lemma truncate_value_bounded_witness :
  _truncate_value "/etc/passwd" 4 = "/etc...(truncated)" /\
  _truncate_value "/etc...(truncated)" 4 = "/etc...(truncated)".
Proof.
  pose proof (truncate_value_bounded "/etc/passwd" 4 ltac:(lia)) as (_ & _ & _ & Hagain).
  split; [reflexivity | exact Hagain].
Defined.


End SyscallMonitor.

(* ===================================================================== *)
(** * engines/dynamic/syscall_monitor.py: the hooks of file operations *)
(* ===================================================================== *)

Module FileHooks.
Import PyStr ThreatIdentifier SyscallMonitor.

(** [FileMonitor.sensitive_files], file_monitor.py lines 25-36. *)
Definition sensitive_files : list string :=
  ["/etc/passwd"; "/etc/shadow"; ".env"; ".git/config"; "config.json";
   "secrets.json"; "credentials.json"; "private_key"; "id_rsa"; "id_dsa"].

(** [_is_sensitive_file], lines 89-90. *)
Definition _is_sensitive_file (file_path : string) : bool :=
  existsb (fun sensitive => contains sensitive file_path) sensitive_files.

(** [s.upper()]. *)
Definition upper_char (c : ascii) : ascii :=
  let n := nat_of_ascii c in
  if ((97 <=? n) && (n <=? 122))%nat then ascii_of_nat (n - 32) else c.

Fixpoint upper (s : string) : string :=
  match s with
  | EmptyString => EmptyString
  | String c s' => String (upper_char c) (upper s')
  end.

(** [_operation_from_mode], lines 75-79. *)
Definition _operation_from_mode (mode : string) : string :=
  if existsb (fun flag => contains flag mode) ["w"; "a"; "+"; "x"]
  then "write" else "read".

(** [_operation_from_flags], lines 81-87; [write_flags] is the value of
    [os.O_WRONLY | os.O_RDWR | os.O_APPEND | os.O_CREAT | os.O_TRUNC] on
    the platform. *)
Definition _operation_from_flags (write_flags flags : Z) : string :=
  if Z.land flags write_flags =? 0 then "read" else "write".

(** The message [_log_file_operation] hands to [_log], lines 92-96. *)
Definition _log_file_operation (operation file_path mode stack : string) : string :=
  let safe_path := _truncate_value file_path 200 in
  let level := if _is_sensitive_file file_path then "[ALERT]" else "[INFO]" in
  let stack_info := if nonempty_str stack then " | stack=" ++ stack else EmptyString in
  level ++ " FILE " ++ upper operation ++ ": " ++ safe_path
    ++ " (mode: " ++ mode ++ ")" ++ stack_info.

(** The hooked file operations, lines 239-284, with the text of the path. *)
Inductive file_call :=
| Open (file_path mode : string)
| OsOpen (path : string) (flags : Z)
| Remove (path : string)
| Unlink (path : string).

Definition path_of (c : file_call) : string :=
  match c with
  | Open p _ | OsOpen p _ | Remove p | Unlink p => p
  end.

Definition operation_of (write_flags : Z) (c : file_call) : string :=
  match c with
  | Open _ mode => _operation_from_mode mode
  | OsOpen _ flags => _operation_from_flags write_flags flags
  | Remove _ | Unlink _ => "delete"
  end.

Definition mode_of (c : file_call) : string :=
  match c with
  | Open _ mode => mode
  | OsOpen _ flags => pretty flags
  | Remove _ | Unlink _ => EmptyString
  end.

(** The log entry of a hooked file operation. *)
Definition file_entry_of (write_flags : Z) (timestamp : string) (c : file_call)
    (stack : list frame) : string :=
  _log timestamp
    (_log_file_operation (operation_of write_flags c) (path_of c) (mode_of c)
       (_get_call_stack stack)).

(** ** Splitting at a separator *)

Definition not_char (f : ascii) (c : ascii) : bool := negb (Ascii.eqb c f).

Lemma prefix_other f sep c s :
  not_char f c = true -> String.prefix (String f sep) (String c s) = false.
Proof.
  unfold not_char. intros H. cbn [String.prefix].
  destruct (ascii_dec f c) as [-> | _]; [|reflexivity].
  now rewrite Ascii.eqb_refl in H.
Qed.

Lemma prefix_self sep rest : String.prefix sep (sep ++ rest) = true.
Proof.
  induction sep as [|c sep IH]; [now destruct rest|].
  change (String c sep ++ rest)%string with (String c (sep ++ rest)).
  cbn [String.prefix]. destruct (ascii_dec c c); [exact IH | congruence].
Qed.

(** No separator starts in a stretch without its first character. *)
Lemma split_aux_stretch f sep a : forall cur rest,
  FuzzSandbox.all_chars (not_char f) a = true ->
  split_aux (String f sep) 0 cur (a ++ rest)
  = match rest with
    | EmptyString => [cur ++ a]
    | _ => split_aux (String f sep) 0 (cur ++ a) rest
    end.
Proof.
  induction a as [|c a IH]; intros cur rest Ha.
  - change (EmptyString ++ rest)%string with rest. rewrite append_nil_r.
    now destruct rest.
  - cbn [FuzzSandbox.all_chars] in Ha. apply andb_prop in Ha as [Hc Ha].
    change (String c a ++ rest)%string with (String c (a ++ rest)).
    cbn [split_aux]. rewrite (prefix_other f sep c (a ++ rest) Hc).
    rewrite (IH _ rest Ha).
    replace ((cur ++ String c EmptyString) ++ a)%string with (cur ++ String c a)%string
      by (now rewrite FuzzSandbox.append_assoc).
    reflexivity.
Qed.

Lemma split_aux_skip sep x : forall cur rest,
  split_aux sep (String.length x) cur (x ++ rest) = split_aux sep 0 cur rest.
Proof.
  induction x as [|c x IH]; intros cur rest; [reflexivity|].
  change (String c x ++ rest)%string with (String c (x ++ rest)).
  cbn [String.length split_aux]. apply IH.
Qed.

(** A text with one separator, and none of its first character elsewhere,
    splits in two. *)
Lemma split_str_once f sep a b :
  FuzzSandbox.all_chars (not_char f) a = true ->
  FuzzSandbox.all_chars (not_char f) b = true ->
  split_str (String f sep) (a ++ String f sep ++ b) = [a; b].
Proof.
  intros Ha Hb. unfold split_str.
  rewrite (split_aux_stretch f sep a EmptyString _ Ha).
  change (String f sep ++ b)%string with (String f (sep ++ b)).
  change (EmptyString ++ a)%string with a.
  cbn [split_aux].
  change (String f (sep ++ b)) with (String f sep ++ b)%string.
  rewrite prefix_self.
  replace (String.length (String f sep) - 1)%nat with (String.length sep)
    by (cbn [String.length]; lia).
  rewrite split_aux_skip.
  rewrite <- (append_nil_r b) at 1.
  now rewrite (split_aux_stretch f sep b EmptyString EmptyString Hb).
Qed.

Lemma split_once_found sep a b :
  sep <> EmptyString ->
  exists x y, split_once sep (a ++ sep ++ b) = [x; y].
Proof.
  intros Hsep. unfold split_once, find_from.
  destruct (String.index 0 sep (a ++ sep ++ b)) as [n|] eqn:E; [eauto|].
  exfalso.
  apply (index_correct3 0 (String.length a) sep (a ++ sep ++ b) E Hsep); [lia|].
  apply substring_mid.
Qed.

(** ** The entry of a file operation, as the file monitor reads it *)

Lemma strip_log ts msg :
  last_solid msg = true -> strip (_log ts msg) = "[" ++ ts ++ "] " ++ msg.
Proof.
  intros Hmsg. unfold _log, strip.
  change (lstrip ("[" ++ ts ++ "] " ++ msg ++ String newline EmptyString))
    with ("[" ++ ts ++ "] " ++ msg ++ String newline EmptyString)%string.
  replace ("[" ++ ts ++ "] " ++ msg ++ String newline EmptyString)%string
    with (("[" ++ ts ++ "] " ++ msg) ++ String newline EmptyString)%string
    by (now rewrite !FuzzSandbox.append_assoc).
  apply rstrip_newline. now do 3 apply last_solid_app.
Qed.

(** What follows the tag FILE in the message. *)
Definition after_tag (operation file_path mode stack : string) : string :=
  " " ++ upper operation ++ ": " ++ _truncate_value file_path 200
    ++ " (mode: " ++ mode ++ ")"
    ++ (if nonempty_str stack then " | stack=" ++ stack else EmptyString).

Lemma sensitive_message operation file_path mode stack :
  _is_sensitive_file file_path = true ->
  _log_file_operation operation file_path mode stack
  = "[ALERT] " ++ "FILE" ++ after_tag operation file_path mode stack.
Proof. intros H. unfold _log_file_operation. rewrite H. reflexivity. Qed.

Definition solid_or_empty (s : string) : Prop :=
  s = EmptyString \/ last_solid s = true.

Lemma after_tag_solid operation file_path mode stack :
  solid_or_empty stack -> last_solid (after_tag operation file_path mode stack) = true.
Proof.
  intros Hs. unfold after_tag. do 6 apply last_solid_app.
  destruct stack as [|c stack]; [reflexivity|]. cbn [nonempty_str].
  destruct Hs as [Hs | Hs]; [discriminate|]. apply last_solid_app. exact Hs.
Qed.

Definition no_F : ascii -> bool := not_char "F".

Lemma all_chars_take (p : ascii -> bool) n : forall s,
  FuzzSandbox.all_chars p s = true -> FuzzSandbox.all_chars p (take_str n s) = true.
Proof.
  unfold take_str. induction n as [|n IH]; intros s Hs; [now destruct s|].
  destruct s as [|c s]; [reflexivity|].
  cbn [FuzzSandbox.all_chars] in Hs. apply andb_prop in Hs as [Hc Hs].
  cbn [substring FuzzSandbox.all_chars]. now rewrite Hc, IH.
Qed.

Lemma truncate_no_F file_path :
  FuzzSandbox.all_chars no_F file_path = true ->
  FuzzSandbox.all_chars no_F (_truncate_value file_path 200) = true.
Proof.
  intros H. unfold _truncate_value.
  destruct (Z.of_nat (String.length file_path) <=? 200); [exact H|].
  rewrite FuzzSandbox.all_chars_app. apply andb_true_intro. split; [|reflexivity].
  unfold prefix_upto. now apply all_chars_take.
Qed.

Definition operations : list string := ["read"; "write"; "delete"].

Lemma after_tag_no_F operation file_path mode stack :
  In operation operations ->
  FuzzSandbox.all_chars no_F file_path = true ->
  FuzzSandbox.all_chars no_F mode = true ->
  FuzzSandbox.all_chars no_F stack = true ->
  FuzzSandbox.all_chars no_F (after_tag operation file_path mode stack) = true.
Proof.
  intros Hop Hp Hm Hs. unfold after_tag.
  rewrite !FuzzSandbox.all_chars_app, (truncate_no_F _ Hp), Hm.
  assert (Hinfo : FuzzSandbox.all_chars no_F
                    (if nonempty_str stack then " | stack=" ++ stack else EmptyString) = true).
  { destruct stack; [reflexivity|]. cbn [nonempty_str].
    rewrite FuzzSandbox.all_chars_app, Hs. reflexivity. }
  rewrite Hinfo.
  destruct Hop as [<- | [<- | [<- | []]]]; reflexivity.
Qed.

Lemma strip_after_tag operation file_path mode stack :
  In operation operations ->
  solid_or_empty stack ->
  exists rest,
    strip (after_tag operation file_path mode stack)
    = upper operation ++ ":" ++ rest.
Proof.
  intros Hop Hs.
  pose proof (after_tag_solid operation file_path mode stack Hs) as Hsolid.
  exists (" " ++ _truncate_value file_path 200 ++ " (mode: " ++ mode ++ ")"
            ++ (if nonempty_str stack then " | stack=" ++ stack else EmptyString))%string.
  unfold strip.
  assert (Hl : lstrip (after_tag operation file_path mode stack)
               = (upper operation ++ ":" ++ " " ++ _truncate_value file_path 200
                    ++ " (mode: " ++ mode ++ ")"
                    ++ (if nonempty_str stack then " | stack=" ++ stack else EmptyString))%string).
  { unfold after_tag. destruct Hop as [<- | [<- | [<- | []]]]; reflexivity. }
  rewrite Hl. apply rstrip_solid.
  unfold after_tag in Hsolid.
  destruct Hop as [<- | [<- | [<- | []]]]; exact Hsolid.
Qed.

(** The file monitor reads the entry of an operation on a sensitive file
    as a sensitive operation. *)
Lemma operation_of_sensitive_entry ts operation file_path mode stack :
  In operation operations ->
  _is_sensitive_file file_path = true ->
  solid_or_empty stack ->
  FuzzSandbox.all_chars no_F ts = true ->
  FuzzSandbox.all_chars no_F file_path = true ->
  FuzzSandbox.all_chars no_F mode = true ->
  FuzzSandbox.all_chars no_F stack = true ->
  exists op,
    FileMonitor.operation_of_line
      (_log ts (_log_file_operation operation file_path mode stack)) = Some op /\
    FileMonitor.is_sensitive op = true.
Proof.
  intros Hop Hsens Hsolid Hts Hp Hm Hs.
  rewrite (sensitive_message _ _ _ _ Hsens).
  set (B := after_tag operation file_path mode stack).
  set (text := _log ts ("[ALERT] " ++ "FILE" ++ B)).
  assert (Htag : contains "FILE" text = true).
  { unfold text, _log.
    replace ("[" ++ ts ++ "] " ++ ("[ALERT] " ++ "FILE" ++ B) ++ String newline EmptyString)%string
      with (("[" ++ ts ++ "] [ALERT] ") ++ "FILE" ++ (B ++ String newline EmptyString))%string
      by (now rewrite !FuzzSandbox.append_assoc).
    apply contains_app. }
  assert (Halert : contains "[ALERT]" text = true).
  { unfold text, _log.
    replace ("[" ++ ts ++ "] " ++ ("[ALERT] " ++ "FILE" ++ B) ++ String newline EmptyString)%string
      with (("[" ++ ts ++ "] ") ++ "[ALERT]" ++ (" FILE" ++ B ++ String newline EmptyString))%string
      by (now rewrite !FuzzSandbox.append_assoc).
    apply contains_app. }
  assert (Hstrip : strip text = (("[" ++ ts ++ "] [ALERT] ") ++ "FILE" ++ B)%string).
  { unfold text. rewrite strip_log.
    - now rewrite !FuzzSandbox.append_assoc.
    - do 2 apply last_solid_app. now apply after_tag_solid. }
  assert (Hsplit : split_str "FILE" (strip text) = ["[" ++ ts ++ "] [ALERT] "; B]%string).
  { rewrite Hstrip. apply split_str_once.
    - change ("[" ++ ts ++ "] [ALERT] ")%string with (String "[" (ts ++ "] [ALERT] ")).
      fold no_F. cbn [FuzzSandbox.all_chars].
      rewrite FuzzSandbox.all_chars_app, Hts. reflexivity.
    - now apply after_tag_no_F. }
  destruct (strip_after_tag operation file_path mode stack Hop Hsolid) as (rest & Hpart).
  destruct (split_once_found ":" (upper operation) rest) as (x & y & Honce);
    [discriminate|].
  unfold FileMonitor.operation_of_line. rewrite Htag. cbn [negb]. rewrite Hsplit.
  fold B in Hpart. rewrite Hpart, Honce.
  eexists. split; [reflexivity|]. cbn [FileMonitor.is_sensitive]. exact Halert.
Qed.


Lemma operation_of_hook write_flags c : In (operation_of write_flags c) operations.
Proof.
  destruct c; cbn [operation_of]; unfold _operation_from_mode, _operation_from_flags;
    try destruct (existsb _ _); try destruct (_ =? _); cbn; tauto.
Qed.

Lemma call_stack_solid stack : solid_or_empty (_get_call_stack stack).
Proof.
  unfold _get_call_stack. destruct (frames_of stack) as [|f fs] eqn:E; [now left|].
  right. now apply join_frames_solid.
Qed.

Lemma in_analyze_file_activity log e op :
  In e log -> FileMonitor.operation_of_line e = Some op ->
  In op (FileMonitor.analyze_file_activity log).
Proof.
  intros Hin Hop. unfold FileMonitor.analyze_file_activity.
  rewrite MemoryAnalyzer.fold_append_option. cbn [app].
  apply in_flat_map. exists e. split; [exact Hin|]. rewrite Hop. now left.
Qed.

Section Bundle.
Context {float : Type}.
Variables (pattern_matches : list pattern_match) (taint_flows : list taint_flow).
Variables (log_entries : list string) (fuzz_results : list (Fuzzer.fuzz_result float)).
Variable write_flags : Z.

(** X23.  A hooked [open], [os.open], [os.remove] or [os.unlink] on a
    sensitive path is reported, when the capital letter F occurs neither in
    the time stamp nor in the path, the mode or the stack text (the file
    monitor splits the line at the word FILE and drops it unless that gives
    two parts): if its entry is in the log of the run, [identify_threats]
    gives a threat Sensitive File Access of severity high; the threat has
    no line number, although the entry carries the stack. *)
Theorem hooked_sensitive_file_is_reported (ts : string) (c : file_call)
    (stack : list frame) :
  _is_sensitive_file (path_of c) = true ->
  FuzzSandbox.all_chars no_F (ts ++ path_of c ++ mode_of c ++ _get_call_stack stack) = true ->
  In (file_entry_of write_flags ts c stack) log_entries ->
  exists t,
    In t (identify_threats (bundle pattern_matches taint_flows log_entries fuzz_results)) /\
    threat_type t = "Sensitive File Access" /\ severity t = "high" /\
    line_numbers t = [].
Proof.
  intros Hsens HF Hin.
  rewrite !FuzzSandbox.all_chars_app in HF.
  apply andb_prop in HF as [Hts HF]. apply andb_prop in HF as [Hp HF].
  apply andb_prop in HF as [Hm Hs].
  destruct (operation_of_sensitive_entry ts (operation_of write_flags c) (path_of c)
              (mode_of c) (_get_call_stack stack) (operation_of_hook write_flags c)
              Hsens (call_stack_solid stack) Hts Hp Hm Hs) as (op & Hop & Hflag).
  set (agg := bundle pattern_matches taint_flows log_entries fuzz_results).
  assert (Hact : In (DynamicPipeline.file_entry op) (file_activities agg)).
  { unfold agg, bundle, DynamicPipeline.python_bundle. cbn [file_activities].
    apply in_map. exact (in_analyze_file_activity _ _ _ Hin Hop). }
  assert (Hev : In (EvFile (DynamicPipeline.file_entry op))
                   (fst (category_scan SensitiveFileAccess agg))).
  { cbn [category_scan]. unfold sensitive_file_scan. cbn [fst]. apply in_map.
    apply list_elem_of_In, list_elem_of_filter. split; [exact Hflag|].
    now apply list_elem_of_In. }
  destruct (threat_of_evidence agg SensitiveFileAccess _ Hev)
    as (t & Ht & Hcat & Hty & _ & _).
  exists t. split; [exact Ht|]. split; [exact Hty|].
  assert (Hin_t : In t (category_threats agg SensitiveFileAccess))
    by (rewrite Hcat; now left).
  destruct (in_category_threats agg SensitiveFileAccess t Hin_t) as (_ & Hevt & _ & Hl).
  split.
  { unfold category_threats, append_if_evidence in Hcat.
    destruct (nonempty (fst (category_scan SensitiveFileAccess agg))); [|discriminate].
    injection Hcat as <-. reflexivity. }
  rewrite Hl, Hevt.
  rewrite DynamicPipeline.flat_map_all_nil; [apply DynamicPipeline.positive_sorted_nil|].
  intros e He. cbn [category_scan] in He. unfold sensitive_file_scan in He.
  cbn [fst] in He. apply in_map_iff in He as (a & <- & Ha).
  apply list_elem_of_In, list_elem_of_filter in Ha as [_ Ha].
  apply list_elem_of_In in Ha. unfold agg, bundle, DynamicPipeline.python_bundle in Ha.
  cbn [file_activities] in Ha. apply in_map_iff in Ha as (op0 & <- & Hop0).
  cbn [evidence_lines DynamicPipeline.file_entry fa_line_numbers get].
  pose proof (FileMonitor.analyze_file_activity_no_lines log_entries) as Hall.
  rewrite Forall_forall in Hall. apply Hall. now apply list_elem_of_In.
Qed.

End Bundle.

Definition file_entry_example (c : file_call) : string :=
  file_entry_of 1603 "2024-05-01 10:00:00.123" c stack_example.

Lemma hooked_sensitive_file_is_reported_witness :
  exists t,
    In t (identify_threats
            (bundle [] [] [file_entry_example (Open "/etc/passwd" "r")]
               ([] : list (Fuzzer.fuzz_result unit)))) /\
    threat_type t = "Sensitive File Access" /\ severity t = "high" /\
    line_numbers t = [].
Proof.
  exact (hooked_sensitive_file_is_reported (float := unit) [] []
           [file_entry_example (Open "/etc/passwd" "r")] [] 1603
           "2024-05-01 10:00:00.123" (Open "/etc/passwd" "r") stack_example
           eq_refl eq_refl (or_introl eq_refl)).
Defined.

(** Concrete runs: the entry of a hooked [open], and a sensitive path
    with the word FILE in it, whose entry the file monitor drops. *)
Example file_entry_run :
  file_entry_example (Open "/etc/passwd" "r")
  = "[2024-05-01 10:00:00.123] [ALERT] FILE READ: /etc/passwd (mode: r) | stack=/srv/app/run.py:42 -> /srv/app/job.py:7 -> /opt/engines/dynamic/syscall_monitor.py:143"
      ++ String newline EmptyString /\
  map (fun op => (FileMonitor.operation op, FileMonitor.file_path op,
                  FileMonitor.mode op, FileMonitor.is_sensitive op))
      (FileMonitor.analyze_file_activity [file_entry_example (Open "/etc/passwd" "r")])
  = [("read", "/etc/passwd", "r", true)] /\
  FileMonitor.analyze_file_activity [file_entry_example (Open "/srv/FILES/.env" "w")] = [] /\
  identify_threats
    (bundle [] [] [file_entry_example (Open "/srv/FILES/.env" "w")]
       ([] : list (Fuzzer.fuzz_result unit))) = [].
Proof. vm_compute. repeat split; reflexivity. Qed.


End FileHooks.

(* ===================================================================== *)
(** * The entry of a hooked socket call, as the network monitor reads it *)
(* ===================================================================== *)

Module NetworkHooks.
Import PyStr ThreatIdentifier SyscallMonitor.

(** The name a hooked socket call is logged under. *)
Definition socket_name (c : hooked_call) : string :=
  match c with
  | SocketConnect _ => "connect"
  | SocketConnectEx _ => "connect_ex"
  | SocketCreateConnection _ => "create_connection"
  | _ => EmptyString
  end.

Definition address_of (c : hooked_call) : string :=
  match c with
  | SocketConnect a | SocketConnectEx a | SocketCreateConnection a => a
  | _ => EmptyString
  end.

(** ** The matcher, step by step *)

Lemma rmatch_seq_eq r1 r2 st k :
  Re.rmatch (Re.RSeq r1 r2) st k = Re.rmatch r1 st (fun st' => Re.rmatch r2 st' k).
Proof. reflexivity. Qed.

Lemma rmatch_group_eq n r st k :
  Re.rmatch (Re.RGroup n r) st k
  = Re.rmatch r st (fun st' => k (Re.set_cap n (Re.ms_pos st, Re.ms_pos st') st')).
Proof. reflexivity. Qed.

Lemma rmatch_alt_eq r1 r2 st k :
  Re.rmatch (Re.RAlt r1 r2) st k = Re.orelse (Re.rmatch r1 st k) (Re.rmatch r2 st k).
Proof. reflexivity. Qed.

Lemma rmatch_char_eq c prev rest pos caps k :
  Re.rmatch (Re.RChar c) (Re.MState prev (c :: rest) pos caps) k
  = k (Re.MState (Some c) rest (S pos) caps).
Proof.
  cbn [Re.rmatch]. unfold Re.one_char. cbn [Re.ms_rest].
  now rewrite Ascii.eqb_refl.
Qed.

Lemma rmatch_char_miss c c' prev rest pos caps k :
  c <> c' ->
  Re.rmatch (Re.RChar c) (Re.MState prev (c' :: rest) pos caps) k = None.
Proof.
  intros H. cbn [Re.rmatch]. unfold Re.one_char. cbn [Re.ms_rest].
  now destruct (Ascii.eqb_spec c c').
Qed.

Lemma rmatch_class_eq neg items c prev rest pos caps k :
  Re.in_class neg items c = true ->
  Re.rmatch (Re.RClass neg items) (Re.MState prev (c :: rest) pos caps) k
  = k (Re.MState (Some c) rest (S pos) caps).
Proof.
  intros H. cbn [Re.rmatch]. unfold Re.one_char. cbn [Re.ms_rest]. now rewrite H.
Qed.

Lemma rmatch_plus_miss g neg items c prev rest pos caps k :
  Re.in_class neg items c = false ->
  Re.rmatch (Re.RPlus g (Re.RClass neg items)) (Re.MState prev (c :: rest) pos caps) k
  = None.
Proof.
  intros H. cbn [Re.rmatch]. unfold Re.one_char. cbn [Re.ms_rest]. now rewrite H.
Qed.

(** One blank before a character that is not white space. *)
Lemma rmatch_one_space c prev rest pos caps k out :
  Re.in_class false Re.cls_space c = false ->
  k (Re.MState (Some " "%char) (c :: rest) (S pos) caps) = Some out ->
  Re.rmatch Re.spaces1 (Re.MState prev (" "%char :: c :: rest) pos caps) k = Some out.
Proof.
  intros Hc Hk. unfold Re.spaces1.
  apply (plus_class_greedy false Re.cls_space k out " "%char [] prev pos caps (c :: rest));
    [reflexivity | constructor | exact Hc|].
  cbn [last_char fold_left length]. now rewrite Nat.add_0_r.
Qed.

Lemma rmatch_seq_char_eq c r prev rest pos caps k :
  Re.rmatch (Re.RSeq (Re.RChar c) r) (Re.MState prev (c :: rest) pos caps) k
  = Re.rmatch r (Re.MState (Some c) rest (S pos) caps) k.
Proof. now rewrite rmatch_seq_eq, rmatch_char_eq. Qed.

Lemma rmatch_seq_seq_eq r1 r2 r3 st k :
  Re.rmatch (Re.RSeq (Re.RSeq r1 r2) r3) st k
  = Re.rmatch (Re.RSeq r1 r2) st (fun st' => Re.rmatch r3 st' k).
Proof. reflexivity. Qed.

Lemma rmatch_seq_char_miss c c' r prev rest pos caps k :
  c <> c' ->
  Re.rmatch (Re.RSeq (Re.RChar c) r) (Re.MState prev (c' :: rest) pos caps) k = None.
Proof. intros H. rewrite rmatch_seq_eq. now apply rmatch_char_miss. Qed.

Lemma rmatch_seq_space_miss r c prev rest pos caps k :
  Re.in_class false Re.cls_space c = false ->
  Re.rmatch (Re.RSeq Re.spaces1 r) (Re.MState prev (c :: rest) pos caps) k = None.
Proof. intros H. rewrite rmatch_seq_eq. now apply rmatch_plus_miss. Qed.

Lemma rmatch_seq_one_space r c prev rest pos caps k out :
  Re.in_class false Re.cls_space c = false ->
  Re.rmatch r (Re.MState (Some " "%char) (c :: rest) (S pos) caps) k = Some out ->
  Re.rmatch (Re.RSeq Re.spaces1 r) (Re.MState prev (" "%char :: c :: rest) pos caps) k
  = Some out.
Proof. intros Hc Hk. rewrite rmatch_seq_eq. now apply rmatch_one_space. Qed.

Lemma orelse_first {A} (x y : option A) out : x = Some out -> Re.orelse x y = Some out.
Proof. now intros ->. Qed.

Lemma orelse_second {A} (x y : option A) out :
  x = None -> y = Some out -> Re.orelse x y = Some out.
Proof. now intros -> ->. Qed.

Ltac norm :=
  cbn beta; unfold Re.set_cap;
  cbn [Re.ms_pos Re.ms_prev Re.ms_rest Re.ms_caps].

Ltac literal :=
  repeat (first [rewrite rmatch_seq_char_eq | rewrite rmatch_char_eq
                | rewrite rmatch_seq_seq_eq]; norm).

Ltac blank :=
  apply rmatch_seq_one_space; [reflexivity|]; norm.

Ltac mismatch :=
  literal;
  first [now apply rmatch_seq_char_miss | now apply rmatch_char_miss
        | now apply rmatch_seq_space_miss].

Definition socket_names : list string := ["connect"; "connect_ex"; "create_connection"].

Definition not_bracket (c : ascii) : bool := Re.in_class true [Re.chr "]"] c.
Definition not_quote (c : ascii) : bool := Re.in_class true NetworkMonitor.quote_class c.

(** The characters of an entry of a socket call: the time stamp [t0 :: T],
    the name, the address [a0 :: A], and what follows the closing quote. *)
Definition entry_chars (name : string) (t0 : ascii) (T : list ascii)
    (a0 : ascii) (A rest : list ascii) : list ascii :=
  ("["%char :: t0 :: T
     ++ list_ascii_of_string ("] [ALERT] NETWORK: socket." ++ name ++ " called with address='")
     ++ a0 :: A ++ "'"%char :: rest)%list.

(** The part of the pattern after the name, on the text after the name. *)
Lemma network_pattern_tail a0 A rest prev pos caps :
  Forall (fun c => not_quote c = true) (a0 :: A) ->
  Re.rmatch
    (Re.cat [Re.spaces1; Re.lit "called"; Re.spaces1; Re.lit "with"; Re.spaces1;
             Re.lit "address="; Re.RClass false NetworkMonitor.quote_class;
             Re.RGroup 3 (Re.RPlus true (Re.RClass true NetworkMonitor.quote_class));
             Re.RClass false NetworkMonitor.quote_class])
    (Re.MState prev
       (list_ascii_of_string " called with address='" ++ a0 :: A ++ "'"%char :: rest)
       pos caps) Some
  = Some (Re.MState (Some "'"%char) rest (pos + (24 + length A))
            ((3, (pos + 22, pos + (23 + length A)))%nat :: caps)).
Proof.
  intros HA. apply Forall_cons in HA as [Ha0 HA].
  cbn [Re.cat Re.lit list_ascii_of_string app].
  blank. literal. blank. literal. blank. literal.
  rewrite rmatch_seq_eq, rmatch_class_eq by reflexivity. norm.
  rewrite rmatch_seq_eq, rmatch_group_eq. norm.
  apply (plus_class_greedy true NetworkMonitor.quote_class _ _ a0 A);
    [exact Ha0 | exact HA | reflexivity | ]. norm.
  rewrite rmatch_class_eq by reflexivity.
  repeat (f_equal; try lia).
Qed.

(** On such an entry the pattern matches from the first character, with
    the time stamp, the name and the address as its groups. *)
Lemma network_pattern_at_entry name t0 T a0 A rest :
  In name socket_names ->
  Forall (fun c => not_bracket c = true) (t0 :: T) ->
  Forall (fun c => not_quote c = true) (a0 :: A) ->
  exists st',
    Re.rmatch NetworkMonitor.network_pattern
      (Re.MState None (entry_chars name t0 T a0 A rest) 0 []) Some = Some st' /\
    Re.assoc_nat 1 (Re.ms_caps st') = Some (1, 2 + length T)%nat /\
    Re.assoc_nat 2 (Re.ms_caps st')
    = Some (28 + length T, 28 + length T + String.length name)%nat /\
    Re.assoc_nat 3 (Re.ms_caps st')
    = Some (50 + length T + String.length name,
            51 + length T + String.length name + length A)%nat.
Proof.
  intros Hname HT HA.
  pose proof (fun prev pos caps => network_pattern_tail a0 A rest prev pos caps HA) as Htail.
  cbn [Re.cat Re.lit list_ascii_of_string app] in Htail.
  apply Forall_cons in HT as [Ht0 HT].
  unfold NetworkMonitor.network_pattern, entry_chars.
  cbn [Re.cat Re.lit Re.alt].
  destruct Hname as [<- | [<- | [<- | []]]];
    (eexists; split;
     [ literal; rewrite rmatch_seq_eq, rmatch_group_eq; norm;
       apply (plus_class_greedy true [Re.chr "]"] _ _ t0 T);
         [exact Ht0 | exact HT | reflexivity | ];
       norm;
       match goal with
       | |- context [list_ascii_of_string ?s] =>
           let v := eval vm_compute in (list_ascii_of_string s) in
           change (list_ascii_of_string s) with v
       end;
       cbn [app];
       literal; blank; literal; blank; literal; blank; literal;
       rewrite rmatch_seq_eq, rmatch_group_eq, rmatch_alt_eq; norm
     | ]).
  - apply orelse_first. literal. exact (Htail _ _ _).
  - cbn [Re.ms_caps Re.assoc_nat Nat.eqb String.length].
    repeat split; repeat (f_equal; try lia).
  - apply orelse_second; [mismatch|].
    rewrite rmatch_alt_eq. apply orelse_first. literal. exact (Htail _ _ _).
  - cbn [Re.ms_caps Re.assoc_nat Nat.eqb String.length].
    repeat split; repeat (f_equal; try lia).
  - apply orelse_second; [mismatch|]. rewrite rmatch_alt_eq.
    apply orelse_second; [mismatch|]. rewrite rmatch_alt_eq.
    apply orelse_second; [mismatch|].
    literal. exact (Htail _ _ _).
  - cbn [Re.ms_caps Re.assoc_nat Nat.eqb String.length].
    repeat split; repeat (f_equal; try lia).
Qed.

(** ** The entry as the pattern sees it *)

Definition entry_text (name ts addr tail : string) : string :=
  "[" ++ ts ++ ("] [ALERT] NETWORK: socket." ++ name ++ " called with address='")
    ++ addr ++ "'" ++ tail.

Definition entry_tail (stack : list frame) : string :=
  " | stack=" ++ _get_call_stack stack ++ String newline EmptyString.

Lemma hooked_entry_text ts c stack :
  is_socket_call c = true ->
  hooked_entry ts c stack
  = entry_text (socket_name c) ts (address_of c) (entry_tail stack).
Proof.
  intros Hc. unfold hooked_entry, _log, entry_text, entry_tail.
  destruct c; try discriminate; cbn [message socket_name address_of];
    rewrite !FuzzSandbox.append_assoc; reflexivity.
Qed.

Lemma entry_text_chars name t0 ts a0 addr tail :
  list_ascii_of_string (entry_text name (String t0 ts) (String a0 addr) tail)
  = entry_chars name t0 (list_ascii_of_string ts) a0 (list_ascii_of_string addr)
      (list_ascii_of_string tail).
Proof.
  unfold entry_text, entry_chars.
  change ("[" ++ String t0 ts
            ++ ("] [ALERT] NETWORK: socket." ++ name ++ " called with address='")
            ++ String a0 addr ++ "'" ++ tail)%string
    with (String "[" (String t0 (ts
            ++ ("] [ALERT] NETWORK: socket." ++ name ++ " called with address='")
            ++ String a0 (addr ++ String "'" tail)))).
  cbn [list_ascii_of_string]. rewrite !chars_app. cbn [list_ascii_of_string].
  rewrite chars_app. reflexivity.
Qed.

Lemma rmatch_seq_bol r prev s pos caps k :
  Re.rmatch (Re.RSeq Re.RBol r) (Re.MState prev s pos caps) k
  = if (pos =? 0)%nat then Re.rmatch r (Re.MState prev s pos caps) k else None.
Proof. reflexivity. Qed.

(** [re.match] of the tuple pattern on a text that does not start with a
    parenthesis. *)
Lemma scan_tuple_none fuel : forall prev s pos,
  (pos = 0%nat -> match s with c :: _ => c <> "("%char | [] => True end) ->
  Re.scan fuel NetworkMonitor.tuple_pattern prev s pos = [].
Proof.
  induction fuel as [|fuel IH]; intros prev s pos Hs; [reflexivity|].
  cbn [Re.scan].
  assert (Hnone : Re.rmatch NetworkMonitor.tuple_pattern (Re.MState prev s pos []) Some = None).
  { unfold NetworkMonitor.tuple_pattern. cbn [Re.cat]. rewrite rmatch_seq_bol.
    destruct pos as [|pos]; [|reflexivity].
    cbn [Nat.eqb]. specialize (Hs eq_refl).
    destruct s as [|c s]; [reflexivity|]. now apply rmatch_seq_char_miss. }
  rewrite Hnone. destruct s as [|c s]; [reflexivity|].
  apply IH. intros H. discriminate H.
Qed.

Definition plain_timestamp (ts : string) : bool :=
  nonempty_str ts && FuzzSandbox.all_chars not_bracket ts.

Definition plain_address (addr : string) : bool :=
  match addr with
  | String c _ => negb (Ascii.eqb c "(") && FuzzSandbox.all_chars not_quote addr
  | EmptyString => false
  end.

Lemma activity_of_entry_text name ts addr tail :
  In name socket_names ->
  plain_timestamp ts = true -> plain_address addr = true ->
  NetworkMonitor.activity_of_line (entry_text name ts addr tail)
  = Some (NetworkMonitor.Activity name addr ts (strip (entry_text name ts addr tail))
            (NetworkMonitor.RawText addr)).
Proof.
  intros Hname Hts Haddr.
  unfold plain_timestamp in Hts. apply andb_prop in Hts as [Hne HT].
  destruct ts as [|t0 ts]; [discriminate|]. clear Hne.
  unfold plain_address in Haddr. destruct addr as [|a0 addr]; [discriminate|].
  apply andb_prop in Haddr as [Hparen HA].
  set (text := entry_text name (String t0 ts) (String a0 addr) tail).
  destruct (network_pattern_at_entry name t0 (list_ascii_of_string ts) a0
              (list_ascii_of_string addr) (list_ascii_of_string tail) Hname
              (all_chars_Forall not_bracket _ HT) (all_chars_Forall not_quote _ HA))
    as (st' & Hm & H1 & H2 & H3).
  assert (Hsearch : Re.search NetworkMonitor.network_pattern text
                    = Some (Re.MatchObj 0 (Re.ms_pos st') (Re.ms_caps st'))).
  { unfold Re.search, Re.finditer, text. rewrite entry_text_chars.
    cbn [Re.scan]. rewrite Hm. now destruct (Re.ms_pos st' =? 0)%nat. }
  assert (Hg1 : Re.group text (Re.MatchObj 0 (Re.ms_pos st') (Re.ms_caps st')) 1
                = String t0 ts).
  { unfold Re.group. cbn [Re.m_groups]. rewrite H1. unfold slice.
    replace (2 + length (list_ascii_of_string ts) - 1)%nat
      with (String.length (String t0 ts))
      by (rewrite chars_length; cbn [String.length]; lia).
    exact (substring_mid "[" (String t0 ts) _). }
  assert (Hg2 : Re.group text (Re.MatchObj 0 (Re.ms_pos st') (Re.ms_caps st')) 2 = name).
  { unfold Re.group. cbn [Re.m_groups]. rewrite H2. unfold slice.
    replace (28 + length (list_ascii_of_string ts) + String.length name
             - (28 + length (list_ascii_of_string ts)))%nat
      with (String.length name) by lia.
    replace (28 + length (list_ascii_of_string ts))%nat
      with (String.length ("[" ++ String t0 ts ++ "] [ALERT] NETWORK: socket."))
      by (rewrite ?chars_length, ?string_length_app; cbn [String.length]; lia).
    unfold text, entry_text.
    replace ("[" ++ String t0 ts
               ++ ("] [ALERT] NETWORK: socket." ++ name ++ " called with address='")
               ++ String a0 addr ++ "'" ++ tail)%string
      with (("[" ++ String t0 ts ++ "] [ALERT] NETWORK: socket.") ++ name
              ++ (" called with address='" ++ String a0 addr ++ "'" ++ tail))%string
      by (now rewrite !FuzzSandbox.append_assoc).
    apply substring_mid. }
  assert (Hg3 : Re.group text (Re.MatchObj 0 (Re.ms_pos st') (Re.ms_caps st')) 3
                = String a0 addr).
  { unfold Re.group. cbn [Re.m_groups]. rewrite H3. unfold slice.
    replace (51 + length (list_ascii_of_string ts) + String.length name
               + length (list_ascii_of_string addr)
             - (50 + length (list_ascii_of_string ts) + String.length name))%nat
      with (String.length (String a0 addr))
      by (rewrite !chars_length; cbn [String.length]; lia).
    replace (50 + length (list_ascii_of_string ts) + String.length name)%nat
      with (String.length ("[" ++ String t0 ts
                             ++ ("] [ALERT] NETWORK: socket." ++ name
                                   ++ " called with address='")))
      by (rewrite ?chars_length, ?string_length_app; cbn [String.length]; lia).
    unfold text, entry_text.
    replace ("[" ++ String t0 ts
               ++ ("] [ALERT] NETWORK: socket." ++ name ++ " called with address='")
               ++ String a0 addr ++ "'" ++ tail)%string
      with (("[" ++ String t0 ts
               ++ ("] [ALERT] NETWORK: socket." ++ name ++ " called with address='"))
              ++ String a0 addr ++ ("'" ++ tail))%string
      by (now rewrite !FuzzSandbox.append_assoc).
    apply substring_mid. }
  assert (Htuple : Re.search NetworkMonitor.tuple_pattern (String a0 addr) = None).
  { unfold Re.search, Re.finditer. rewrite scan_tuple_none; [reflexivity|].
    intros _. cbn [list_ascii_of_string]. intros ->. discriminate Hparen. }
  unfold NetworkMonitor.activity_of_line. fold text. rewrite Hsearch.
  cbv zeta. rewrite Hg1, Hg2, Hg3, Htuple. reflexivity.
Qed.


(** ** What the network monitor returns *)

(** A hooked socket call: the time, the call, the interpreter's stack. *)
Record event := Event {
  ev_time : string;
  ev_call : hooked_call;
  ev_stack : list frame
}.

Definition entry_of (e : event) : string :=
  hooked_entry (ev_time e) (ev_call e) (ev_stack e).

(** The dictionary the call should give. *)
Definition activity_of (e : event) : NetworkMonitor.activity :=
  NetworkMonitor.Activity (socket_name (ev_call e)) (address_of (ev_call e)) (ev_time e)
    (strip (entry_of e)) (NetworkMonitor.RawText (address_of (ev_call e))).

(** A socket call with a time stamp that is not empty and has no closing
    bracket, and an address text that is not empty, has no quote character
    and does not start with a parenthesis. *)
Definition plain_event (e : event) : bool :=
  is_socket_call (ev_call e) && plain_timestamp (ev_time e)
  && plain_address (address_of (ev_call e)).

Lemma activity_of_plain_entry e :
  plain_event e = true ->
  NetworkMonitor.activity_of_line (entry_of e) = Some (activity_of e).
Proof.
  unfold plain_event. intros H. apply andb_prop in H as [H Haddr].
  apply andb_prop in H as [Hc Hts].
  unfold entry_of, activity_of, entry_of.
  rewrite (hooked_entry_text _ _ _ Hc).
  apply activity_of_entry_text; [|exact Hts | exact Haddr].
  destruct (ev_call e); try discriminate; cbn; tauto.
Qed.

(** X24.  The network monitor reads back what the socket hooks write: on a
    log made of the entries of hooked socket calls, each with a time stamp
    that is not empty and has no closing bracket and an address text that
    is not empty, has no quote character and does not start with a
    parenthesis, [analyze_network_activity] returns one activity per call,
    in the order of the log, with the name of the call as type, the address
    text as target and raw address, the time stamp, and the stripped entry
    as line. *)
Theorem network_entries_round_trip (events : list event) :
  Forall (fun e => plain_event e = true) events ->
  NetworkMonitor.analyze_network_activity (map entry_of events) = map activity_of events.
Proof.
  intros Hall. unfold NetworkMonitor.analyze_network_activity.
  rewrite MemoryAnalyzer.fold_append_option. cbn [app].
  induction Hall as [|e events He _ IH]; [reflexivity|].
  cbn [map flat_map]. rewrite (activity_of_plain_entry e He), IH. reflexivity.
Qed.

Definition events_example : list event :=
  [Event "2024-05-01 10:00:00.123" (SocketConnect "8.8.8.8:53") stack_example;
   Event "2024-05-01 10:00:01.000" (SocketConnectEx "10.0.0.1:80") stack_example;
   Event "2024-05-01 10:00:02.500" (SocketCreateConnection "example.org:443") stack_example].

Lemma network_entries_round_trip_witness :
  map (fun a => (NetworkMonitor.activity_type a, NetworkMonitor.target a,
                 NetworkMonitor.timestamp a))
      (NetworkMonitor.analyze_network_activity (map entry_of events_example))
  = [("connect", "8.8.8.8:53", "2024-05-01 10:00:00.123");
     ("connect_ex", "10.0.0.1:80", "2024-05-01 10:00:01.000");
     ("create_connection", "example.org:443", "2024-05-01 10:00:02.500")].
Proof.
  rewrite (network_entries_round_trip events_example
             ltac:(repeat (apply Forall_cons; split; [reflexivity|]); apply Forall_nil; exact I)).
  reflexivity.
Defined.

Lemma in_analyze_network_activity log e a :
  In e log -> NetworkMonitor.activity_of_line e = Some a ->
  In a (NetworkMonitor.analyze_network_activity log).
Proof.
  intros Hin Ha. unfold NetworkMonitor.analyze_network_activity.
  rewrite MemoryAnalyzer.fold_append_option. cbn [app].
  apply in_flat_map. exists e. split; [exact Hin|]. rewrite Ha. now left.
Qed.

Section Bundle.
Context {float : Type}.
Variables (pattern_matches : list pattern_match) (taint_flows : list taint_flow).
Variables (log_entries : list string) (fuzz_results : list (Fuzzer.fuzz_result float)).

(** X25.  A hooked socket call whose entry the network monitor can read
    (time stamp and address as in X24) reaches the threat with its stack:
    when the entry is in the log of the run, the threat Network
    Exfiltration that [identify_threats] gives holds the activity of the
    call as evidence; and when neither the time stamp nor the message
    before the stack has a slash or a backslash and the frames written are
    absolute paths without a colon, every positive line number of these
    frames is among the line numbers of the threat. *)
Theorem hooked_socket_call_reaches_threat (e : event) :
  plain_event e = true ->
  In (entry_of e) log_entries ->
  exists t,
    In t (identify_threats (bundle pattern_matches taint_flows log_entries fuzz_results)) /\
    threat_type t = "Network Exfiltration" /\
    In (EvNetwork (DynamicPipeline.network_entry (activity_of e))) (evidence_of t) /\
    (FuzzSandbox.all_chars inert (ev_time e) = true ->
     FuzzSandbox.all_chars inert (message (ev_call e) EmptyString) = true ->
     Forall frame_ok (frames_of (ev_stack e)) ->
     forall f, In f (frames_of (ev_stack e)) -> 0 < lineno f -> In (lineno f) (line_numbers t)).
Proof.
  intros He Hin.
  set (agg := bundle pattern_matches taint_flows log_entries fuzz_results).
  assert (Hact : In (DynamicPipeline.network_entry (activity_of e)) (network_activities agg)).
  { unfold agg, bundle, DynamicPipeline.python_bundle. cbn [network_activities].
    apply in_map.
    exact (in_analyze_network_activity _ _ _ Hin (activity_of_plain_entry e He)). }
  assert (Hev : In (EvNetwork (DynamicPipeline.network_entry (activity_of e)))
                   (fst (category_scan NetworkExfiltration agg))).
  { cbn [category_scan]. unfold network_scan.
    destruct (network_activities agg) as [|a acts] eqn:E; [destruct Hact|].
    cbn [nonempty]. eapply scan_into_in; [exact Hact | reflexivity]. }
  destruct (threat_of_evidence agg NetworkExfiltration _ Hev)
    as (t & Ht & _ & Hty & Hevt & Hlines).
  exists t. split; [exact Ht|]. split; [exact Hty|]. split; [exact Hevt|].
  intros Hts Hmsg Hfs f Hf Hpos. apply Hlines; [exact Hpos|].
  cbn [evidence_lines DynamicPipeline.network_entry na_line activity_of
       NetworkMonitor.log_line].
  unfold entry_of. rewrite strip_hooked_entry, message_stack.
  replace ("[" ++ ev_time e ++ "] " ++ message (ev_call e) EmptyString
             ++ _get_call_stack (ev_stack e))%string
    with (("[" ++ ev_time e ++ "] " ++ message (ev_call e) EmptyString)
            ++ _get_call_stack (ev_stack e))%string
    by (now rewrite !FuzzSandbox.append_assoc).
  unfold _get_call_stack. rewrite stack_line_numbers_joined; [now apply in_map | | exact Hfs].
  change ("[" ++ ev_time e ++ "] " ++ message (ev_call e) EmptyString)%string
    with (String "[" (ev_time e ++ "] " ++ message (ev_call e) EmptyString)).
  cbn [FuzzSandbox.all_chars]. rewrite !FuzzSandbox.all_chars_app, Hts, Hmsg. reflexivity.
Qed.

End Bundle.

Lemma hooked_socket_call_reaches_threat_witness :
  exists t,
    In t (identify_threats
            (bundle [] [] (map entry_of events_example)
               ([] : list (Fuzzer.fuzz_result unit)))) /\
    threat_type t = "Network Exfiltration" /\
    In 42 (line_numbers t).
Proof.
  destruct (hooked_socket_call_reaches_threat (float := unit) [] []
              (map entry_of events_example) []
              (Event "2024-05-01 10:00:00.123" (SocketConnect "8.8.8.8:53") stack_example)
              eq_refl (or_introl eq_refl))
    as (t & Ht & Hty & _ & Hlines).
  exists t. split; [exact Ht|]. split; [exact Hty|].
  apply (Hlines eq_refl eq_refl) with (f := Frame "/srv/app/run.py" 42).
  - change (frames_of stack_example)
      with [Frame "/srv/app/run.py" 42; Frame "/srv/app/job.py" 7;
            Frame "/opt/engines/dynamic/syscall_monitor.py" 143].
    repeat (apply Forall_cons; split; [split; [reflexivity | cbn; lia] | ]).
    apply Forall_nil. exact I.
  - left. reflexivity.
  - cbn. lia.
Defined.


End NetworkHooks.

(* ===================================================================== *)
(** * main_controller.py: the risk of a project *)
(* ===================================================================== *)

Module ProjectRisk.
Import PyStr RiskAssessor.

Section Project.
Context {threat : Type}.

(** [threat.get('severity')]: [None] when the key is absent. *)
Variable get_severity : threat -> option string.

(** Lines 661-663: [(threat.get('severity') or 'medium').lower()], and
    medium again when that is not a key of [ai_breakdown]. *)
Definition ai_severity (t : threat) : string :=
  let sev :=
    FileMonitor.lower
      (match get_severity t with
       | Some s => if nonempty_str s then s else "medium"
       | None => "medium"
       end) in
  if existsb (String.eqb sev) ["critical"; "high"; "medium"; "low"] then sev else "medium".

(** [ai_breakdown[sev] += 1] for a key [sev] of the table. *)
Definition bump (b : breakdown) (sev : string) : breakdown :=
  if String.eqb sev "critical" then
    Breakdown (bd_critical b + 1) (bd_high b) (bd_medium b) (bd_low b)
  else if String.eqb sev "high" then
    Breakdown (bd_critical b) (bd_high b + 1) (bd_medium b) (bd_low b)
  else if String.eqb sev "medium" then
    Breakdown (bd_critical b) (bd_high b) (bd_medium b + 1) (bd_low b)
  else
    Breakdown (bd_critical b) (bd_high b) (bd_medium b) (bd_low b + 1).

(** Lines 659-664. *)
Definition ai_breakdown (ai_threats : list threat) : breakdown :=
  fold_left (fun b t => bump b (ai_severity t)) ai_threats (Breakdown 0 0 0 0).

(** Lines 658-672: the counts of the summary plus the counts of the AI
    threats, handed to [assess_risk_from_counts]. *)
Definition project_risk (critical_count high_count medium_count low_count : Z)
    (ai_threats : list threat) : risk_assessment :=
  let ai := ai_breakdown ai_threats in
  assess_risk_from_counts
    (Breakdown (critical_count + bd_critical ai) (high_count + bd_high ai)
       (medium_count + bd_medium ai) (low_count + bd_low ai)).

(** The two ways of counting, side by side. *)
Definition agree (ai ar : breakdown) : Prop :=
  bd_critical ai = bd_critical ar /\ bd_high ai = bd_high ar /\
  bd_medium ar <= bd_medium ai /\ bd_low ai <= bd_low ar /\
  bd_medium ai + bd_low ai = bd_medium ar + bd_low ar /\
  0 <= bd_critical ai /\ 0 <= bd_high ai /\ 0 <= bd_medium ar /\ 0 <= bd_low ai.

Lemma agree_step ai ar t :
  agree ai ar ->
  agree (bump ai (ai_severity t)) (AssessRisk.count_threat get_severity ar t).
Proof.
  unfold agree, ai_severity, AssessRisk.count_threat, bump.
  destruct (get_severity t) as [s|]; cbn [existsb].
  - change (default "medium" (Some s)) with s.
    destruct s as [|c s]; cbn [nonempty_str].
    + change (FileMonitor.lower "medium") with "medium".
      change (FileMonitor.lower EmptyString) with EmptyString. cbn. lia.
    + set (x := FileMonitor.lower (String c s)). clearbody x.
      destruct (String.eqb x "critical") eqn:E1; cbn [orb].
      { rewrite E1. cbn. lia. }
      destruct (String.eqb x "high") eqn:E2; cbn [orb].
      { rewrite E1, E2. cbn. lia. }
      destruct (String.eqb x "medium") eqn:E3; cbn [orb].
      { rewrite E1, E2, E3. cbn. lia. }
      destruct (String.eqb x "low") eqn:E4; cbn [orb].
      { rewrite E1, E2, E3. cbn. lia. }
      cbn. lia.
  - change (default "medium" (@None string)) with "medium".
    change (FileMonitor.lower "medium") with "medium". cbn. lia.
Qed.

Lemma agree_fold ai_threats : forall ai ar,
  agree ai ar ->
  agree (fold_left (fun b t => bump b (ai_severity t)) ai_threats ai)
        (fold_left (AssessRisk.count_threat get_severity) ai_threats ar).
Proof.
  induction ai_threats as [|t ts IH]; intros ai ar H; cbn [fold_left]; [exact H|].
  apply IH. now apply agree_step.
Qed.

(** X26.  The risk of a project counts every AI threat once, on top of the
    counts of the summary: [threat_count] is the sum of the four counts of
    the summary plus the number of AI threats, whether or not the merge
    kept them.  Against [assess_risk] on the same AI threats the critical
    and the high counts are the same, and a threat is never rated lower:
    what [assess_risk] counts as low for want of a known severity counts
    as medium here, so that the score is at least the one of
    [assess_risk]; and with counts of the summary that are not negative
    the score is at least the one of the summary alone. *)
Theorem project_risk_counts_ai_threats (critical_count high_count medium_count low_count : Z)
    (ai_threats : list threat) :
  let r := project_risk critical_count high_count medium_count low_count ai_threats in
  let ai := ai_breakdown ai_threats in
  let ar := AssessRisk.assess_risk get_severity ai_threats in
  ra_threat_count r
  = critical_count + high_count + medium_count + low_count
    + Z.of_nat (length ai_threats) /\
  bd_critical ai = bd_critical (ra_breakdown ar) /\
  bd_high ai = bd_high (ra_breakdown ar) /\
  bd_medium (ra_breakdown ar) <= bd_medium ai /\
  bd_low ai <= bd_low (ra_breakdown ar) /\
  ra_risk_score ar <= ra_risk_score (project_risk 0 0 0 0 ai_threats) /\
  (0 <= critical_count -> 0 <= high_count -> 0 <= medium_count -> 0 <= low_count ->
   ra_risk_score (assess_risk_from_counts
                    (Breakdown critical_count high_count medium_count low_count))
   <= ra_risk_score r).
Proof.
  intros r ai ar. subst r ai ar.
  unfold project_risk, ai_breakdown, AssessRisk.assess_risk, assess_risk_from_counts.
  cbn [ra_threat_count ra_breakdown ra_risk_score bd_critical bd_high bd_medium bd_low].
  assert (H0 : agree (Breakdown 0 0 0 0) (Breakdown 0 0 0 0)) by (unfold agree; cbn; lia).
  pose proof (agree_fold ai_threats _ _ H0) as Hag.
  destruct (AssessRisk.fold_count_total get_severity ai_threats (Breakdown 0 0 0 0))
    as [_ Htot].
  unfold AssessRisk.total in Htot. cbn [bd_critical bd_high bd_medium bd_low] in Htot.
  set (A := fold_left (fun b t => bump b (ai_severity t)) ai_threats (Breakdown 0 0 0 0)) in *.
  set (B := fold_left (AssessRisk.count_threat get_severity) ai_threats (Breakdown 0 0 0 0)) in *.
  unfold agree in Hag. rewrite !score_unfold.
  repeat split; lia.
Qed.

End Project.

(** A concrete run: three AI threats, one without a known severity. *)
Example project_risk_run :
  let sev := fun s : string => if String.eqb s "none" then None else Some s in
  ra_breakdown (project_risk sev 1 0 2 0 ["HIGH"; "info"; "none"; "low"])
  = Breakdown 1 1 4 1 /\
  ra_breakdown (AssessRisk.assess_risk sev ["HIGH"; "info"; "none"; "low"])
  = Breakdown 0 1 1 2.
Proof. vm_compute. split; reflexivity. Qed.

End ProjectRisk.
